(* ===== verification/_CoqProject ===== *)
-Q . S2P
Prelude.v
Ints.v
Types.v
Setters.v
Kernel.v
ByteMem.v
NdnTlv.v
CcnPrefix.v
CcnLib.v
Rds.v
Kfa.v
Hash.v
TcpUtils.v
Rtxq.v
Connection.v
Tcp.v
Netlink.v
Minip.v
Rina.v
Ccn.v
Request.v
TcpListen.v
TcpConnect.v
Server.v
Core.v
System.v
Sample.v
SampleRun.v
Frame.v
Relay.v
RelayClaims.v
RtxqProps.v
Sender.v
Window.v
Receiver.v
MinipClaims.v
Delivery.v
Table.v
TableOps.v
Alloc.v
Invariant.v
TableClaims.v
HookClaims.v
ServerClaims.v
AckClaims.v
NetClaims.v
LifeClaims.v
NdnEnc.v
NdnDec.v
NdnContent.v
NdnClaims.v
CcnClaims.v
KfaInv.v
KfaPidm.v
KfaOps.v
KfaIo.v
KfaSys.v
KfaFifo.v
KfaClaims.v
RinaRelay.v
RinaKfa.v
