(* ===== verification/Prelude.v ===== *)
(** * PEP-DNA: a model of the kernel module and of the libraries it carries bytes with

    PEP-DNA is a proxy in the Linux kernel (pepdna/kmodule) that splits the TCP
    connections of clients and carries their bytes over another architecture:
    a second TCP connection, a RINA flow, the small reliable protocol MINIP on
    top of Ethernet, or a CCN relay.  A module parameter selects the mode; the
    configuration of the build selects the architectures.

    ** The program and its parts

    - core.c, sysctl.c: module parameters, load and unload.
    - server.c: the server structure, its work queues, the netfilter hook that
      steals the first SYN of a client, the receive hook of MINIP frames, start
      for each mode and stop.
    - connection.c, hash.c: one [pepdna_con] per client, found in a hash table by
      a hash of the client's address and port, counted by references.
    - tcp_listen.c, tcp_connect.c, tcp.c, tcp_utils.c: the stolen SYN makes a
      connection whose connect work opens the right socket and reinjects the
      SYN; the listener accepts the client (left socket); ready callbacks queue
      the works that forward bytes in either direction.
    - minip.c: frames, handshake, segmentation, acknowledgements, window,
      retransmission queue and timer; its works forward between a socket and the
      frames of a peer node.
    - rina.c, netlink.c: flows are allocated by a user space daemon reached over
      netlink; the works forward between a socket and a flow.
    - ccn.c: an HTTP request becomes an interest sent to a relay over UDP.

    Two stacks under the same repository carry the bytes, and the parts of them
    that the module meets are modelled too:
    - ccn-lite (ccn-lite/src): ccnl-pkt-ndntlv.c codes and decodes packets of the
      NDN TLV format, ccnl-prefix.c has the names, ccnl-pkt-builder.c makes the
      interests, and the front of ccnl-fwd.c takes a packet in.
    - the flow allocator of the RINA kernel (rina-stack/kernel): kfa.c keeps the
      flows of applications by port identifier, with a queue of data units for
      each, their readers and writers; it stands on pidm.c (identifiers),
      rds/rqueue.c and rds/rfifo.c (queues), du.c (data units), kfa-utils.c (the
      map from identifiers to flows).

    ** How it is modelled

    [Prelude] holds the state and fault monad: a piece of the module returns a
    value and a state, stops in a fault (NULL dereference, use after free,
    double free, access out of bounds, BUG), or uses up the fuel of a loop.
    [Ints] has the C integers as [Z] with wrap-around written out, byte order and
    byte images.  [Types] and [Setters] have the structures of the headers.
    [Kernel] has the state of the module ([st]: the server pointer, the stores of
    connections, sockets, retransmission queues and received frames by address,
    the queued works, the globals of netlink.c, ccn.c and core.c) and the
    [Platform]: every function of the Linux kernel, the RINA stack and the CCN
    library is a call of the signature [kE], answered by an arbitrary handler on a
    state of its own and recorded in a trace.  Theorems hold for every platform
    that satisfies the laws they name.

    One file per part, one definition per C function and with its name:
    [Hash] (hash.c), [TcpUtils] (tcp_utils.c), [Rtxq] (retransmission queue of
    minip.c), [Connection] (connection.c), [Tcp] (tcp.c), [Netlink] (netlink.c),
    [Minip] (the rest of minip.c), [Rina] (rina.c), [Ccn] (ccn.c), [TcpListen]
    (tcp_listen.c), [TcpConnect] (tcp_connect.c), [Server] (server.c), [Core]
    (core.c, sysctl.c).  [System] composes the entry points into a transition
    system: [step] runs the hook on a packet, the receive hook on a frame, a ready
    callback, a queued work, an expired timer or a netlink message to its end.
    Objects are shared by address, so a connection that is closed in a callee is
    closed for its caller.

    [ByteMem] has C buffers read and written by index, with accesses out of bounds as
    faults; on it [NdnTlv] (the coder, which writes a buffer from its end, and the
    decoder of ccnl-pkt-ndntlv.c), [CcnPrefix] (names, their comparison, the
    parser and printer of URIs) and [CcnLib] (the builder of interests and the
    entry of received packets).  [Ccn] calls the builder of [CcnLib], so the bytes
    of an interest are computed and not given by the platform.

    [Rds] has the queues and [Kfa] the flow allocator: a state ([kfa]) with its
    lock, the identifiers in use, the map of flows, the heap of data units.
    A function that takes the lock while it is held, or releases it while it is
    free, faults.  A function is cut where it lets go of the lock to sleep, or to call
    an IPC process: the first part ends in [Park] and a second definition is what
    follows the sleep.  [mem] says which allocations succeed.  [KfaSys] makes a
    transition system of it: the threads inside a call and the wake-ups still to
    be done are part of the state, calls of different threads interleave at the
    cuts, and [allowed] is the contract of each call.

    [Sample] and [SampleRun] are a concrete platform (sockets take three bytes
    at a time, the network takes everything) with concrete states; they make the
    definitions run and show that the hypotheses of each theorem can hold.

    ** What the theorems show

    Proof files hold the lemmas, the claim files the theorems named C<n>, each
    with a concrete instance.
    - [Frame]: what a run leaves alone and which calls it makes.
    - [Relay], [RelayClaims]: pepdna_sock_write, the forwarding round and whole
      runs of the two works of a TCP2TCP connection relay a prefix of the bytes,
      in order, nothing else, and all of it on success; the write loop returns.
    - [RtxqProps], [Sender], [Window], [Receiver], [MinipClaims], [Delivery]: the queue keeps
      exactly the unacknowledged frames; a buffer is sent as minimal consecutive
      segments; the receiver delivers in order and acknowledges every frame; the
      two together deliver a prefix of the sent bytes over a channel that loses,
      duplicates and reorders, and all of them once every frame has arrived in turn,
      also when the socket is full for a while;
      the bound of 17 on window plus frames in flight, and the bounds of the
      timeout estimator.
    - [Table], [TableOps], [Alloc], [Invariant], [TableClaims]: the hash table is
      well-formed ([wf]: every listed connection is alive, in the bucket of its
      identifier, listed once; the counter is their number) in every reachable
      state; lookup, allocation (every field of the new connection, and what is left
      when the connect work is refused) and the last release are exact.
    - [HookClaims]: which packets the netfilter hook passes, drops and steals, and
      the invertibility of the hash mixing step.
    - [ServerClaims], [LifeClaims]: work queues are created all or none and
      destroyed once; load succeeds with a server or fails without one; closing a
      TCP connection; the cases in which stop, accept and the receive hook go wrong.
    - [AckClaims]: the three kinds of acknowledgements, and runs that show how
      repeated acknowledgements, the first timeout and a failed handshake behave.
    - [NetClaims]: connection requests between two nodes, the netlink channel,
      RINA segmentation, address printing.
    - [NdnEnc], [NdnDec], [NdnContent], [NdnClaims]: what the coder writes, and that
      the decoder reads it back: numbers, lists of components, interests and
      contents; the decoder ends on any bytes and changes none; by how much the last
      component of a name may claim to be longer than the packet, and that the decoder
      then reads beyond its end.
    - [Request]: what word an HTTP request asks for, as a relation between strings
      ([asks]) that does not mention the parser; parse_request finds this word, or
      overruns its arrays of 32 bytes.
    - [CcnClaims]: comparison of names, names and URIs; the interest of a request
      decodes to the name of the word that is asked for, and the relay takes it in.
    - [KfaInv], [KfaPidm], [KfaOps], [KfaIo], [KfaSys]: the invariant of the flow
      allocator ([kinv]: flows and map correspond, counters of readers and writers
      are the threads inside, each data unit has one owner), kept by every
      function on every branch and so in every reachable state.
    - [KfaFifo], [KfaClaims]: a port refines an abstract queue of bytes; identifiers are
      unique; no call that keeps its contract faults, and what happens to one that
      does not.
    - [RinaRelay], [RinaKfa]: the composition.  The class [RinaPort] is what the
      gateway asks of the RINA stack (reads give the bytes of a port in order);
      [RinaRelay] proves the gateway against it, [RinaKfa] shows that the platform
      whose RINA calls are answered by [Kfa] has it, so what is posted to the port
      of a flow reaches the socket in order.

    ** Laws of the platform

    [HashMinLaw]: hash_min has a result of the given number of bits.
    [SendmsgLaw], [RecvmsgLaw]: a socket accepts or delivers at most what was
    asked for, and the bytes delivered are as many as the result says.
    [NoAgainLaw]: the socket has room, so that sending does not return -EAGAIN.
    [DrainLaw]: the application behind a socket goes on reading: a send takes at least a
    byte or is told to try again, and the socket answers that it is full a bounded
    number of times in a row; a platform of [Delivery] whose sockets are full after
    every send has it.
    [TxLaw], [DevLaw]: the transmit path of the network device works, the device
    exists.  [SduLaw]: a
    RINA flow takes data units of positive size.  [AllocLaw]: allocations
    succeed.  The sample platform satisfies the others.  [RinaPort]: reads of a flow
    give what was posted to it; the platform of [RinaKfa] satisfies it.

    ** Fuel

    Loops whose length the environment decides (the write loop, the wait loops,
    accept, the forwarding works) take a number of rounds; a work that never ends
    because its peer never stops sending has no bound.  Theorems on results of such
    loops give a number that is enough (more than the length of the buffer plus
    two for the write loop of a socket with room, as each round that goes on accepts
    at least one byte; that many times the number of refusals in a row for one that
    may be full) and prove that the run returns.  The loops over a buffer of known length
    (segmentation, flow write) carry their own bound, one round for each byte and
    one more, and are proved never to use it up.  So do the loops of the NDN decoder,
    one round more than there are bytes left.  The search for a free port
    identifier has one round for each identifier in use and one more, by which it
    has met a free one; a number of the NDN format has at most 8 bytes.  Invariants and prefix
    properties hold for every amount of fuel.  All other functions are structural.

    ** What is not modelled

    Log output (pep_dbg, print_syn) has no effect on the state.
    minip_has_timed_out is used nowhere.  An entry point is one atomic step:
    locks, barriers and interleavings inside a handler on several processors are
    not modelled, and socket callbacks called by the module itself run at once.
    The Linux kernel is the platform.  Of rina-stack, the IPC processes, EFCP, the
    relaying and multiplexing task, the daemons and librina are not modelled; in
    the flow allocator, when a woken thread is scheduled, the width of atomic
    counters and the destructors that only free memory are not.  Of ccn-lite, the
    tables and decisions of the relay, the other packet formats, fragments,
    the management protocol and the programs in user space are not modelled.
    The measurement programs under pepdna/utils and the scripts are left out.

    ** Further plan

    The window bound as an invariant of all reachable states of a MINIP node;
    closing in the MINIP and RINA modes; the retransmission loop of the two nodes
    together, with its acknowledgements travelling back; absence of faults for the TCP2TCP mode over all entry
    points; steps that interleave inside the long-running works.  The tables of the
    CCN relay (interests waiting, contents kept, routes) and its fragments; the parts of the
    RINA kernel next to the flow allocator: the factories of IPC processes, kipcm.c, the
    queues and windows of EFCP. *)

From Stdlib Require Import ZArith Lia List.
From stdpp Require Import base list gmap.

(** ** Faults and outcomes

    Running a piece of the kernel module either returns a value with a new
    state, stops in a fault (what the kernel reports as an oops), or uses up
    the fuel that bounds a loop whose length depends on the environment. *)

Inductive fault : Type :=
| NullDeref      (* a NULL pointer is dereferenced *)
| UseAfterFree   (* a freed object is accessed *)
| DoubleFree     (* a freed object is freed again *)
| OutOfBounds    (* an access beyond the end of a buffer *)
| BugOn          (* BUG() *)
| Deadlock       (* a lock is taken by who holds it *)
| BadUnlock.     (* a lock is released that nobody holds *)

#[global] Instance fault_eq_dec : EqDecision fault.
Proof. solve_decision. Defined.

Inductive outcome (S A : Type) : Type :=
| Ret (a : A) (s : S)
| Fault (f : fault) (s : S)
| NoFuel.
Arguments Ret {S A} a s.
Arguments Fault {S A} f s.
Arguments NoFuel {S A}.

(** ** The state and fault monad *)

Definition M (S A : Type) : Type := S -> outcome S A.

Definition ret {S A} (a : A) : M S A := fun s => Ret a s.

Definition bind {S A B} (m : M S A) (k : A -> M S B) : M S B :=
  fun s =>
    match m s with
    | Ret a s' => k a s'
    | Fault f s' => Fault f s'
    | NoFuel => NoFuel
    end.

Definition throw {S A} (f : fault) : M S A := fun s => Fault f s.
Definition out_of_fuel {S A} : M S A := fun _ => NoFuel.
Definition gets {S A} (f : S -> A) : M S A := fun s => Ret (f s) s.
Definition modify {S} (f : S -> S) : M S unit := fun s => Ret tt (f s).
Definition when {S} (b : bool) (m : M S unit) : M S unit :=
  if b then m else ret tt.

Declare Scope km_scope.
Delimit Scope km_scope with km.

Notation "'do' x <- m ; k" := (bind m (fun x => k))
  (at level 10, x name, m at level 100, k at level 200,
   format "'[v' 'do'  x  <-  m ;  '/' k ']'") : km_scope.
Notation "'do' ' p <- m ; k" := (bind m (fun x => match x with p => k end))
  (at level 10, p pattern, m at level 100, k at level 200) : km_scope.
Notation "'do!' m ; k" := (bind m (fun _ => k))
  (at level 10, m at level 100, k at level 200,
   format "'[v' 'do!'  m ;  '/' k ']'") : km_scope.
Open Scope km_scope.

(** [iter fuel body i] runs [body] until it answers [inr]: the C loops whose
    number of rounds is decided by the environment. *)
Fixpoint iter {S I R} (fuel : nat) (body : I -> M S (I + R)) (i : I) : M S R :=
  match fuel with
  | O => out_of_fuel
  | Datatypes.S fuel' =>
      do r <- body i;
      match r with
      | inl i' => iter fuel' body i'
      | inr x => ret x
      end
  end.

(** ** Reasoning about runs

    [hoare P m Q] is partial correctness: a run from [P] that returns ends in
    [Q].  [total P m Q] also excludes faults and exhausted fuel. *)

Definition hoare {S A} (P : S -> Prop) (m : M S A) (Q : A -> S -> Prop) : Prop :=
  forall s, P s -> match m s with Ret a s' => Q a s' | _ => True end.

Definition total {S A} (P : S -> Prop) (m : M S A) (Q : A -> S -> Prop) : Prop :=
  forall s, P s -> match m s with Ret a s' => Q a s' | _ => False end.

(** [preserves R m]: every run of [m], whatever its outcome, relates the state
    it started in to the state it stops in.  [R] is a preorder in every use. *)
Definition preserves {S A} (R : S -> S -> Prop) (m : M S A) : Prop :=
  forall s, match m s with Ret _ s' | Fault _ s' => R s s' | NoFuel => True end.

Create HintDb km discriminated.

Section Rules.
Context {S : Type}.

Lemma bind_Ret {A B} (m : M S A) (k : A -> M S B) s a s' :
  m s = Ret a s' -> bind m k s = k a s'.
Proof. unfold bind. by intros ->. Qed.

Lemma bind_Fault {A B} (m : M S A) (k : A -> M S B) s f s' :
  m s = Fault f s' -> bind m k s = Fault f s'.
Proof. unfold bind. by intros ->. Qed.

(** A run of a sequence that returns splits into the runs of its parts. *)
Lemma bind_inv {A B} (m : M S A) (k : A -> M S B) s b s' :
  bind m k s = Ret b s' -> exists a s1, m s = Ret a s1 /\ k a s1 = Ret b s'.
Proof. unfold bind. destruct (m s); try discriminate. eauto. Qed.

Lemma bind_assoc {A B C} (m : M S A) (k : A -> M S B) (h : B -> M S C) s :
  bind (bind m k) h s = bind m (fun a => bind (k a) h) s.
Proof. unfold bind. by destruct (m s). Qed.

Lemma hoare_ret {A} P (a : A) (Q : A -> S -> Prop) :
  (forall s, P s -> Q a s) -> hoare P (ret a) Q.
Proof. intros H s HP. cbn. auto. Qed.

Lemma hoare_bind {A B} P (m : M S A) (k : A -> M S B) R Q :
  hoare P m R -> (forall a, hoare (R a) (k a) Q) -> hoare P (bind m k) Q.
Proof.
  intros Hm Hk s HP. unfold bind. specialize (Hm s HP).
  destruct (m s) as [a s'| |]; [exact (Hk a s' Hm) | done | done].
Qed.

Lemma hoare_conseq {A} (P P' : S -> Prop) (m : M S A) (Q Q' : A -> S -> Prop) :
  hoare P' m Q' -> (forall s, P s -> P' s) ->
  (forall a s, Q' a s -> Q a s) -> hoare P m Q.
Proof.
  intros H HP HQ s Hs. specialize (H s (HP s Hs)). destruct (m s); auto.
Qed.

Lemma hoare_iter {I R} (Inv : I -> S -> Prop) (body : I -> M S (I + R)) Q :
  (forall i, hoare (Inv i) (body i)
     (fun r s => match r with inl i' => Inv i' s | inr x => Q x s end)) ->
  forall fuel i, hoare (Inv i) (iter fuel body i) Q.
Proof.
  intros Hb fuel. induction fuel as [|fuel IH]; intros i; [by intros s _|].
  cbn [iter]. eapply hoare_bind; [apply Hb|]. intros [i'|x]; [apply IH|].
  apply hoare_ret. auto.
Qed.

(** Total correctness of a loop: a measure on the loop variable and the
    state that every further round decreases, and at least that much fuel. *)
Lemma total_iter {I R} (Inv : I -> S -> Prop) (mu : I -> S -> nat)
    (body : I -> M S (I + R)) Q :
  (forall i n, total (fun s => Inv i s /\ mu i s = n) (body i)
     (fun r s => match r with inl i' => Inv i' s /\ (mu i' s < n)%nat
                            | inr x => Q x s end)) ->
  forall fuel i, total (fun s => Inv i s /\ (mu i s < fuel)%nat) (iter fuel body i) Q.
Proof.
  intros Hb fuel. induction fuel as [|fuel IH]; intros i s [Hi Hmu]; [lia|].
  cbn [iter]. unfold bind. specialize (Hb i (mu i s) s (conj Hi eq_refl)).
  destruct (body i s) as [[i'|x] s'| |]; try done.
  destruct Hb as [Hi' Hlt]. apply IH. split; [done | lia].
Qed.

(** More fuel never changes a run that did not run out of it. *)
Lemma iter_fuel_mono {I R} (body : I -> M S (I + R)) fuel fuel' i s :
  (fuel <= fuel')%nat -> iter fuel body i s <> NoFuel ->
  iter fuel' body i s = iter fuel body i s.
Proof.
  revert fuel' i s. induction fuel as [|fuel IH]; intros fuel' i s Hle Hne.
  - by destruct Hne.
  - destruct fuel' as [|fuel']; [lia|]. cbn [iter] in *. unfold bind in *.
    destruct (body i s) as [[i'|x] s'| |]; try done. apply IH; [lia | done].
Qed.

Lemma preserves_ret (R : S -> S -> Prop) `{!Reflexive R} {A} (a : A) :
  preserves R (ret a).
Proof. intros s. exact (reflexivity s). Qed.

Lemma preserves_throw (R : S -> S -> Prop) `{!Reflexive R} {A} f :
  preserves R (@throw S A f).
Proof. intros s. exact (reflexivity s). Qed.

Lemma preserves_gets (R : S -> S -> Prop) `{!Reflexive R} {A} (f : S -> A) :
  preserves R (gets f).
Proof. intros s. exact (reflexivity s). Qed.

Lemma preserves_bind (R : S -> S -> Prop) `{!Transitive R} {A B}
    (m : M S A) (k : A -> M S B) :
  preserves R m -> (forall a, preserves R (k a)) -> preserves R (bind m k).
Proof.
  intros Hm Hk s. unfold bind. specialize (Hm s).
  destruct (m s) as [a s'| |]; [|done|done]. specialize (Hk a s').
  destruct (k a s'); try done; by etrans.
Qed.

Lemma preserves_iter (R : S -> S -> Prop) `{!PreOrder R} {I T}
    (body : I -> M S (I + T)) :
  (forall i, preserves R (body i)) -> forall fuel i, preserves R (iter fuel body i).
Proof.
  intros Hb fuel. induction fuel as [|fuel IH]; intros i; [by intros s|].
  cbn [iter]. apply preserves_bind; [apply _ | apply Hb |].
  intros [i'|x]; [apply IH | apply preserves_ret; apply _].
Qed.
End Rules.

#[export] Hint Resolve preserves_ret preserves_throw preserves_gets : km.

(** Case analysis on the program text, leaving one goal per straight-line
    path: the syntax-directed part of every [preserves] and [hoare] proof. *)
Ltac km_case :=
  match goal with
  | |- context [match ?x with _ => _ end] => destruct x eqn:?
  end.

(** Splits a hypothesis that a sequence returned into the runs of its steps. *)
Ltac run_inv H :=
  let a := fresh "r" in let s := fresh "s" in let H1 := fresh "Hrun" in
  apply bind_inv in H; destruct H as (a & s & H1 & H).

(** ** Shared lemmas on lists *)

Section Lists.
Context {A : Type}.

Lemma take_drop_app (n m : nat) (l : list A) :
  take n l ++ take m (drop n l) = take (n + m) l.
Proof. by rewrite take_take_drop. Qed.

Lemma filter_all_app (P : A -> Prop) `{!forall x, Decision (P x)} (l k : list A) :
  Forall P l -> Forall (fun x => ~ P x) k -> filter P (l ++ k) = l.
Proof.
  intros Hl Hk. rewrite filter_app.
  assert (filter P k = []) as ->.
  { induction Hk as [|x k Hx _ IH]; [done|]. by rewrite filter_cons_False. }
  rewrite app_nil_r. induction Hl as [|x l Hx _ IH]; [done|].
  rewrite filter_cons_True by done. by rewrite IH.
Qed.
End Lists.
