(* ===== verification/Ints.v ===== *)
(** Fixed-width integers: the widths the module's C types have, their
    wrap-around, the byte-order conversions of a little-endian host, and the
    memory image of an unsigned field as a list of bytes. *)

From Stdlib Require Import ZArith Lia.
From stdpp Require Import base list.
From S2P Require Import Prelude.
Open Scope Z_scope.

(** ** Unsigned and signed widths *)

Definition wrap (w z : Z) : Z := z mod 2 ^ w.
Definition u8 : Z -> Z := wrap 8.
Definition u16 : Z -> Z := wrap 16.
Definition u32 : Z -> Z := wrap 32.
Definition u64 : Z -> Z := wrap 64.

Definition swrap (w z : Z) : Z := (z + 2 ^ (w - 1)) mod 2 ^ w - 2 ^ (w - 1).
Definition s32 : Z -> Z := swrap 32.   (* int, atomic_t *)
Definition s64 : Z -> Z := swrap 64.   (* long *)

Definition is_u8 (z : Z) : Prop := 0 <= z < 2 ^ 8.
Definition is_u16 (z : Z) : Prop := 0 <= z < 2 ^ 16.
Definition is_u32 (z : Z) : Prop := 0 <= z < 2 ^ 32.

(** C's truth value of an integer. *)
Definition truth (z : Z) : bool := negb (z =? 0).

(** ** Byte order: [htonl], [ntohl], [cpu_to_be32], ... on a little-endian host *)

Definition bswap16 (z : Z) : Z := (z mod 256) * 256 + (z / 256) mod 256.

Definition bswap32 (z : Z) : Z :=
  (z mod 256) * 2 ^ 24 + ((z / 2 ^ 8) mod 256) * 2 ^ 16
  + ((z / 2 ^ 16) mod 256) * 2 ^ 8 + (z / 2 ^ 24) mod 256.

Definition htons : Z -> Z := bswap16.
Definition ntohs : Z -> Z := bswap16.
Definition htonl : Z -> Z := bswap32.
Definition ntohl : Z -> Z := bswap32.

(** ** Memory images: little-endian bytes *)

Fixpoint le_bytes (n : nat) (z : Z) : list Z :=
  match n with
  | O => []
  | S n' => z mod 256 :: le_bytes n' (z / 256)
  end.

Fixpoint le_val (l : list Z) : Z :=
  match l with
  | [] => 0
  | b :: l' => b + 256 * le_val l'
  end.

(** ** Lemmas *)

Ltac div_mod_lia := Z.div_mod_to_equations; lia.

Lemma wrap_range w z : 0 <= w -> 0 <= wrap w z < 2 ^ w.
Proof. intros Hw. apply Z.mod_pos_bound. lia. Qed.

Lemma wrap_small w z : 0 <= z < 2 ^ w -> wrap w z = z.
Proof. apply Z.mod_small. Qed.

Lemma u8_range z : is_u8 (u8 z).
Proof. by apply wrap_range. Qed.

Lemma u16_range z : is_u16 (u16 z).
Proof. by apply wrap_range. Qed.

Lemma u32_range z : is_u32 (u32 z).
Proof. by apply wrap_range. Qed.

Lemma u8_small z : is_u8 z -> u8 z = z.
Proof. apply wrap_small. Qed.

Lemma u16_small z : is_u16 z -> u16 z = z.
Proof. apply wrap_small. Qed.

Lemma u32_small z : is_u32 z -> u32 z = z.
Proof. apply wrap_small. Qed.

Lemma u64_small z : 0 <= z < 2 ^ 64 -> u64 z = z.
Proof. apply wrap_small. Qed.

Lemma u64_idemp z : u64 (u64 z) = u64 z.
Proof. apply wrap_small, wrap_range. lia. Qed.

Lemma s32_small z : - 2 ^ 31 <= z < 2 ^ 31 -> s32 z = z.
Proof. intros H. unfold s32, swrap. cbn in *. rewrite Z.mod_small; lia. Qed.

Lemma s64_small z : - 2 ^ 63 <= z < 2 ^ 63 -> s64 z = z.
Proof. intros H. unfold s64, swrap. cbn in *. rewrite Z.mod_small; lia. Qed.

(** Storing a [u32] in an [int] and reading it back with a cast is lossless. *)
Lemma u32_s32 z : u32 (s32 z) = u32 z.
Proof.
  unfold u32, s32, wrap, swrap. change (32 - 1) with 31.
  rewrite Zminus_mod_idemp_l. f_equal. lia.
Qed.

Lemma s32_u32 z : s32 (u32 z) = s32 z.
Proof. unfold u32, s32, wrap, swrap. by rewrite Zplus_mod_idemp_l. Qed.

Lemma u32_sub_idemp_l a b : u32 (u32 a - b) = u32 (a - b).
Proof. apply Zminus_mod_idemp_l. Qed.

Lemma u32_sub_idemp_r a b : u32 (a - u32 b) = u32 (a - b).
Proof. apply Zminus_mod_idemp_r. Qed.

Lemma u32_add_idemp_l a b : u32 (u32 a + b) = u32 (a + b).
Proof. apply Zplus_mod_idemp_l. Qed.

Lemma u32_add_sub a b : is_u32 a -> u32 (u32 (a - b) + b) = a.
Proof.
  intros Ha. rewrite u32_add_idemp_l. rewrite Z.sub_add. by apply u32_small.
Qed.

Lemma bswap32_range z : is_u32 (bswap32 z).
Proof. unfold is_u32, bswap32. div_mod_lia. Qed.

Lemma bswap16_range z : is_u16 (bswap16 z).
Proof. unfold is_u16, bswap16. div_mod_lia. Qed.

Lemma bswap16_invol z : is_u16 z -> bswap16 (bswap16 z) = z.
Proof. unfold is_u16, bswap16. intros H. div_mod_lia. Qed.

(** The four bytes of a [u32]. *)
Lemma bytes4 z : is_u32 z ->
  exists a b c d, 0 <= a < 256 /\ 0 <= b < 256 /\ 0 <= c < 256 /\ 0 <= d < 256 /\
    z = a + 256 * b + 65536 * c + 16777216 * d.
Proof.
  intros H. unfold is_u32 in H.
  exists (z mod 256), ((z / 256) mod 256), ((z / 65536) mod 256), (z / 16777216).
  repeat split; div_mod_lia.
Qed.

Lemma bswap32_bytes a b c d :
  0 <= a < 256 -> 0 <= b < 256 -> 0 <= c < 256 -> 0 <= d < 256 ->
  bswap32 (a + 256 * b + 65536 * c + 16777216 * d)
  = d + 256 * c + 65536 * b + 16777216 * a.
Proof. intros. unfold bswap32. div_mod_lia. Qed.

Lemma bswap32_invol z : is_u32 z -> bswap32 (bswap32 z) = z.
Proof.
  intros (a & b & c & d & ? & ? & ? & ? & ->)%bytes4.
  rewrite bswap32_bytes by done. rewrite bswap32_bytes by done. lia.
Qed.

Lemma ntohl_htonl z : is_u32 z -> ntohl (htonl z) = z.
Proof. apply bswap32_invol. Qed.

Lemma htonl_ntohl z : is_u32 z -> htonl (ntohl z) = z.
Proof. apply bswap32_invol. Qed.

Lemma length_le_bytes n z : length (le_bytes n z) = n.
Proof. revert z. induction n as [|n IH]; intros z; cbn; [done|]. by rewrite IH. Qed.

Lemma le_val_bytes n z : le_val (le_bytes n z) = z mod 2 ^ (8 * Z.of_nat n).
Proof.
  revert z. induction n as [|n IH]; intros z; cbn [le_bytes le_val].
  - by rewrite Z.mod_1_r.
  - rewrite IH. replace (8 * Z.of_nat (S n)) with (8 + 8 * Z.of_nat n) by lia.
    rewrite Z.pow_add_r by lia. change (2 ^ 8) with 256.
    rewrite Z.rem_mul_r by lia. lia.
Qed.

Lemma le_val_bytes_small n z : 0 <= z < 2 ^ (8 * Z.of_nat n) -> le_val (le_bytes n z) = z.
Proof. intros H. rewrite le_val_bytes. by apply Z.mod_small. Qed.

Lemma u32_ge0 z : 0 <= u32 z.
Proof. apply u32_range. Qed.

Create Rewrite HintDb ints.
#[export] Hint Resolve u8_range u16_range u32_range bswap32_range bswap16_range : km.
#[export] Hint Rewrite u32_s32 s32_u32 u32_sub_idemp_l u32_sub_idemp_r u32_add_idemp_l : ints.
