(* ===== verification/Types.v ===== *)
(** Data types of the kernel module: the enumerations, the structures of the
    headers under pepdna/kmodule and the parts of kernel structures the module
    reads or writes.  Pointers to heap objects are addresses ([positive]), a
    pointer that may be NULL is an [option].  *)

From Stdlib Require Import ZArith.
From stdpp Require Import base list gmap.
From S2P Require Import Prelude Ints.
Open Scope Z_scope.

(** ** Constants *)

(** server.h *)
Definition PEPDNA_HASH_BITS : Z := 9.
Definition ETH_ALEN : Z := 6.
Definition MAX_CONNS : Z := 65535.
Definition MAX_SDU_SIZE : Z := 1448.
Definition MAX_BUF_SIZE : Z := 1448 * 10.
Definition SSH_PORT : Z := 22.
(** tcp.h *)
Definition PEPDNA_SOCK_MARK : Z := 333.
(** minip.h and minip.c *)
Definition ETH_P_MINIP : Z := 0x88FF.
Definition MINIP_FIRST_SEQ : Z := 9.
Definition WINDOW_SIZE : Z := 12.
Definition MAX_MINIP_RETRY : Z := 3.
Definition MINIP_MSS : Z := 1481.
(** errno values the module returns or compares with *)
Definition EINTR : Z := 4.
Definition EIO : Z := 5.
Definition EBADF : Z := 9.
Definition EAGAIN : Z := 11.
Definition ENOMEM : Z := 12.
Definition EINVAL : Z := 22.
Definition EPIPE : Z := 32.
Definition ESHUTDOWN : Z := 108.
Definition ECONNREFUSED : Z := 111.
Definition EINPROGRESS : Z := 115.
Definition ERESTARTSYS : Z := 512.

(** ** Enumerations *)

(** enum server_mode *)
Inductive server_mode : Type :=
| TCP2TCP | TCP2RINA | TCP2CCN | TCP2MINIP | RINA2TCP | MINIP2TCP | CCN2TCP
| RINA2RINA | CCN2CCN.

Definition mode_val (m : server_mode) : Z :=
  match m with
  | TCP2TCP => 0 | TCP2RINA => 1 | TCP2CCN => 2 | TCP2MINIP => 3 | RINA2TCP => 4
  | MINIP2TCP => 5 | CCN2TCP => 6 | RINA2RINA => 7 | CCN2CCN => 8
  end.

(** What a [switch] on the stored integer selects. *)
Definition mode_of (z : Z) : option server_mode :=
  match z with
  | 0 => Some TCP2TCP | 1 => Some TCP2RINA | 2 => Some TCP2CCN
  | 3 => Some TCP2MINIP | 4 => Some RINA2TCP | 5 => Some MINIP2TCP
  | 6 => Some CCN2TCP | 7 => Some RINA2RINA | 8 => Some CCN2CCN
  | _ => None
  end.

(** [mode == m] in the C code. *)
Definition is_mode (z : Z) (m : server_mode) : bool := z =? mode_val m.

(** enum minip_packet_type *)
Inductive minip_packet_type : Type :=
| MINIP_CONN_REQUEST | MINIP_CONN_RESPONSE | MINIP_CONN_DELETE
| MINIP_CONN_FINISHED | MINIP_CONN_DATA | MINIP_CONN_ACK.

Definition pkt_val (t : minip_packet_type) : Z :=
  match t with
  | MINIP_CONN_REQUEST => 1 | MINIP_CONN_RESPONSE => 2 | MINIP_CONN_DELETE => 3
  | MINIP_CONN_FINISHED => 4 | MINIP_CONN_DATA => 5 | MINIP_CONN_ACK => 6
  end.

Definition pkt_of (z : Z) : option minip_packet_type :=
  match z with
  | 1 => Some MINIP_CONN_REQUEST | 2 => Some MINIP_CONN_RESPONSE
  | 3 => Some MINIP_CONN_DELETE | 4 => Some MINIP_CONN_FINISHED
  | 5 => Some MINIP_CONN_DATA | 6 => Some MINIP_CONN_ACK
  | _ => None
  end.

(** enum minip_state *)
Definition REQUEST_SENT : Z := 1.
Definition REQUEST_RECVD : Z := 2.
Definition ESTABLISHED : Z := 3.
Definition RECOVERY : Z := 4.

(** The function a [struct work_struct] runs (the argument of INIT_WORK). *)
Inductive work_fn : Type :=
| WF_null
| WF_con_l2r_fwd | WF_con_r2l_fwd | WF_tcp_connect
| WF_con_i2r_work | WF_con_r2i_work | WF_rina_flow_alloc
| WF_con_i2m_work | WF_con_m2i_work | WF_minip_handshake
| WF_con_i2c_work | WF_con_c2i_work | WF_udp_open
| WF_acceptor_work.

(** The work items the module queues: one of the three of a connection, or the
    accept work of the server. *)
Inductive work : Type :=
| L2rWork (c : positive) | R2lWork (c : positive) | TcfaWork (c : positive)
| AcceptWork.

(** Values of [sk->sk_data_ready] and of [sk->sk_user_data]. *)
Inductive ready_fn : Type :=
| DR_default | DR_listen | DR_l2r | DR_r2l | DR_udp.

Inductive user_data : Type :=
| UD_null | UD_con (c : positive) | UD_ready (f : ready_fn).

#[global] Instance server_mode_eq_dec : EqDecision server_mode.
Proof. solve_decision. Defined.
#[global] Instance work_eq_dec : EqDecision work.
Proof. solve_decision. Defined.
#[global] Instance ready_fn_eq_dec : EqDecision ready_fn.
Proof. solve_decision. Defined.
#[global] Instance user_data_eq_dec : EqDecision user_data.
Proof. solve_decision. Defined.

(** ** Structures *)

(** struct syn_tuple (connection.h); all fields in network byte order. *)
Record syn_tuple : Type := mkSyn {
  syn_saddr : Z;
  syn_source : Z;
  syn_daddr : Z;
  syn_dest : Z
}.

(** The fields of an IPv4 [struct sk_buff] the netfilter hook reads: protocol and
    addresses of the IP header, ports and flags of the TCP header, the packet
    mark and the receive time stamp. *)
Record sk_buff : Type := mkSkb {
  skb_protocol : Z;
  skb_saddr : Z;
  skb_daddr : Z;
  skb_source : Z;
  skb_dest : Z;
  skb_syn : bool;
  skb_ack : bool;
  skb_rst : bool;
  skb_mark : Z;
  skb_tstamp : Z
}.

(** struct minip_hdr (minip.h): the fields as they lie in memory, so [h_id],
    [h_seq], [h_ack] and [h_ts] hold network byte order. *)
Record minip_hdr : Type := mkHdr {
  h_pkt_type : Z;
  h_sdu_len : Z;
  h_id : Z;
  h_seq : Z;
  h_ack : Z;
  h_ts : Z
}.

(** A MINIP frame: the header and the bytes behind it. *)
Record frame : Type := mkFrame {
  f_hdr : minip_hdr;
  f_data : list Z
}.

(** struct rtxq_entry, struct rtxqueue and struct rtxq (minip.h); the kernel
    list is the list of its entries from head to tail. *)
Record rtxq_entry : Type := mkEntry {
  e_skb : frame;
  e_retries : Z
}.

Record rtxqueue : Type := mkQueue {
  q_len : Z;
  q_head : list rtxq_entry
}.

Record rtxq : Type := mkRtxq {
  rq_queue : option rtxqueue
}.

(** What the MINIP code reads of a [struct net_device]: LL_RESERVED_SPACE,
    needed_tailroom and dev_addr. *)
Record net_device : Type := mkDev {
  dev_hlen : Z;
  dev_tlen : Z;
  dev_addr : list Z
}.

(** The fields of a [struct sock] the module reads or writes. A [struct socket]
    and its [sk] are one object here. *)
Record sock : Type := mkSock {
  sk_user_data : user_data;
  sk_data_ready : ready_fn;
  sk_reuse : Z;
  sk_sndbuf : Z;
  sk_rcvbuf : Z;
  sk_userlocks : Z
}.

(** struct pepdna_con (connection.h).  The fields of every build option are
    present; a build without the option does not touch them.  [con_timer] is the
    pending retransmission timeout in milliseconds, if the timer is pending. *)
Record con : Type := mkCon {
  con_kref : Z;
  con_l2r_fn : work_fn;
  con_r2l_fn : work_fn;
  con_tcfa_fn : work_fn;
  con_flow : option positive;
  con_port_id : Z;
  con_rtxq : option positive;
  con_timer : option Z;
  con_dup_acks : Z;
  con_sending : Z;
  con_last_acked : Z;
  con_next_seq : Z;
  con_state : Z;
  con_window : Z;
  con_next_recv : Z;
  con_rto : Z;
  con_srtt : Z;
  con_rttvar : Z;
  con_lsock : option positive;
  con_rsock : option positive;
  con_lflag : Z;
  con_rflag : Z;
  con_id : Z;
  con_ts : Z;
  con_tuple : syn_tuple;
  con_skb : option sk_buff
}.

(** struct pepdna_server (server.h). *)
Record server : Type := mkServer {
  srv_mode : Z;
  srv_l2r_wq : option positive;
  srv_r2l_wq : option positive;
  srv_tcfa_wq : option positive;
  srv_accept_wq : option positive;
  srv_accept_fn : work_fn;
  srv_listener : option positive;
  srv_port : Z;
  srv_to_mac : list Z;
  srv_htable : list (list positive);
  srv_conns : Z
}.

(** Build options (Makefile.in) and module parameters (core.c). *)
Record config : Type := mkConfig {
  CONFIG_PEPDNA_RINA : bool;
  CONFIG_PEPDNA_MINIP : bool;
  CONFIG_PEPDNA_CCN : bool;
  CONFIG_PEPDNA_LOCAL_SENDER : bool;
  CONFIG_PEPDNA_LOCAL_RECEIVER : bool;
  CONFIG_PEPDNA_LOCALHOST : bool;
  CONFIG_SYSCTL : bool;
  param_port : Z;
  param_mode : Z;
  param_macstr : option (list Z)
}.

(** The zeroed objects kzalloc returns. *)
Definition zero_syn : syn_tuple := mkSyn 0 0 0 0.
Definition zero_con : con :=
  mkCon 0 WF_null WF_null WF_null None 0 None None 0 0 0 0 0 0 0 0 0 0
    None None 0 0 0 0 zero_syn None.
Definition zero_server : server :=
  mkServer 0 None None None None WF_null None 0 (replicate (Z.to_nat ETH_ALEN) 0)
    (replicate (Z.to_nat PEPDNA_HASH_BITS) []) 0.
