(* ===== verification/Setters.v ===== *)
(** Field updates of the structures of Types.v: [set_<field> v r] is [r] with the
    field replaced, the counterpart of a C assignment [r->field = v]. *)

From Stdlib Require Import ZArith.
From stdpp Require Import base list.
From S2P Require Import Prelude Ints Types.
Open Scope Z_scope.

Definition set_con_kref (v : Z) (r : con) : con :=
  mkCon v (con_l2r_fn r) (con_r2l_fn r) (con_tcfa_fn r) (con_flow r) (con_port_id r)
    (con_rtxq r) (con_timer r) (con_dup_acks r) (con_sending r) (con_last_acked r)
    (con_next_seq r) (con_state r) (con_window r) (con_next_recv r) (con_rto r)
    (con_srtt r) (con_rttvar r) (con_lsock r) (con_rsock r) (con_lflag r) (con_rflag r)
    (con_id r) (con_ts r) (con_tuple r) (con_skb r).
Definition set_con_l2r_fn (v : work_fn) (r : con) : con :=
  mkCon (con_kref r) v (con_r2l_fn r) (con_tcfa_fn r) (con_flow r) (con_port_id r)
    (con_rtxq r) (con_timer r) (con_dup_acks r) (con_sending r) (con_last_acked r)
    (con_next_seq r) (con_state r) (con_window r) (con_next_recv r) (con_rto r)
    (con_srtt r) (con_rttvar r) (con_lsock r) (con_rsock r) (con_lflag r) (con_rflag r)
    (con_id r) (con_ts r) (con_tuple r) (con_skb r).
Definition set_con_r2l_fn (v : work_fn) (r : con) : con :=
  mkCon (con_kref r) (con_l2r_fn r) v (con_tcfa_fn r) (con_flow r) (con_port_id r)
    (con_rtxq r) (con_timer r) (con_dup_acks r) (con_sending r) (con_last_acked r)
    (con_next_seq r) (con_state r) (con_window r) (con_next_recv r) (con_rto r)
    (con_srtt r) (con_rttvar r) (con_lsock r) (con_rsock r) (con_lflag r) (con_rflag r)
    (con_id r) (con_ts r) (con_tuple r) (con_skb r).
Definition set_con_tcfa_fn (v : work_fn) (r : con) : con :=
  mkCon (con_kref r) (con_l2r_fn r) (con_r2l_fn r) v (con_flow r) (con_port_id r)
    (con_rtxq r) (con_timer r) (con_dup_acks r) (con_sending r) (con_last_acked r)
    (con_next_seq r) (con_state r) (con_window r) (con_next_recv r) (con_rto r)
    (con_srtt r) (con_rttvar r) (con_lsock r) (con_rsock r) (con_lflag r) (con_rflag r)
    (con_id r) (con_ts r) (con_tuple r) (con_skb r).
Definition set_con_flow (v : option positive) (r : con) : con :=
  mkCon (con_kref r) (con_l2r_fn r) (con_r2l_fn r) (con_tcfa_fn r) v (con_port_id r)
    (con_rtxq r) (con_timer r) (con_dup_acks r) (con_sending r) (con_last_acked r)
    (con_next_seq r) (con_state r) (con_window r) (con_next_recv r) (con_rto r)
    (con_srtt r) (con_rttvar r) (con_lsock r) (con_rsock r) (con_lflag r) (con_rflag r)
    (con_id r) (con_ts r) (con_tuple r) (con_skb r).
Definition set_con_port_id (v : Z) (r : con) : con :=
  mkCon (con_kref r) (con_l2r_fn r) (con_r2l_fn r) (con_tcfa_fn r) (con_flow r) v
    (con_rtxq r) (con_timer r) (con_dup_acks r) (con_sending r) (con_last_acked r)
    (con_next_seq r) (con_state r) (con_window r) (con_next_recv r) (con_rto r)
    (con_srtt r) (con_rttvar r) (con_lsock r) (con_rsock r) (con_lflag r) (con_rflag r)
    (con_id r) (con_ts r) (con_tuple r) (con_skb r).
Definition set_con_rtxq (v : option positive) (r : con) : con :=
  mkCon (con_kref r) (con_l2r_fn r) (con_r2l_fn r) (con_tcfa_fn r) (con_flow r)
    (con_port_id r) v (con_timer r) (con_dup_acks r) (con_sending r) (con_last_acked r)
    (con_next_seq r) (con_state r) (con_window r) (con_next_recv r) (con_rto r)
    (con_srtt r) (con_rttvar r) (con_lsock r) (con_rsock r) (con_lflag r) (con_rflag r)
    (con_id r) (con_ts r) (con_tuple r) (con_skb r).
Definition set_con_timer (v : option Z) (r : con) : con :=
  mkCon (con_kref r) (con_l2r_fn r) (con_r2l_fn r) (con_tcfa_fn r) (con_flow r)
    (con_port_id r) (con_rtxq r) v (con_dup_acks r) (con_sending r) (con_last_acked r)
    (con_next_seq r) (con_state r) (con_window r) (con_next_recv r) (con_rto r)
    (con_srtt r) (con_rttvar r) (con_lsock r) (con_rsock r) (con_lflag r) (con_rflag r)
    (con_id r) (con_ts r) (con_tuple r) (con_skb r).
Definition set_con_dup_acks (v : Z) (r : con) : con :=
  mkCon (con_kref r) (con_l2r_fn r) (con_r2l_fn r) (con_tcfa_fn r) (con_flow r)
    (con_port_id r) (con_rtxq r) (con_timer r) v (con_sending r) (con_last_acked r)
    (con_next_seq r) (con_state r) (con_window r) (con_next_recv r) (con_rto r)
    (con_srtt r) (con_rttvar r) (con_lsock r) (con_rsock r) (con_lflag r) (con_rflag r)
    (con_id r) (con_ts r) (con_tuple r) (con_skb r).
Definition set_con_sending (v : Z) (r : con) : con :=
  mkCon (con_kref r) (con_l2r_fn r) (con_r2l_fn r) (con_tcfa_fn r) (con_flow r)
    (con_port_id r) (con_rtxq r) (con_timer r) (con_dup_acks r) v (con_last_acked r)
    (con_next_seq r) (con_state r) (con_window r) (con_next_recv r) (con_rto r)
    (con_srtt r) (con_rttvar r) (con_lsock r) (con_rsock r) (con_lflag r) (con_rflag r)
    (con_id r) (con_ts r) (con_tuple r) (con_skb r).
Definition set_con_last_acked (v : Z) (r : con) : con :=
  mkCon (con_kref r) (con_l2r_fn r) (con_r2l_fn r) (con_tcfa_fn r) (con_flow r)
    (con_port_id r) (con_rtxq r) (con_timer r) (con_dup_acks r) (con_sending r) v
    (con_next_seq r) (con_state r) (con_window r) (con_next_recv r) (con_rto r)
    (con_srtt r) (con_rttvar r) (con_lsock r) (con_rsock r) (con_lflag r) (con_rflag r)
    (con_id r) (con_ts r) (con_tuple r) (con_skb r).
Definition set_con_next_seq (v : Z) (r : con) : con :=
  mkCon (con_kref r) (con_l2r_fn r) (con_r2l_fn r) (con_tcfa_fn r) (con_flow r)
    (con_port_id r) (con_rtxq r) (con_timer r) (con_dup_acks r) (con_sending r)
    (con_last_acked r) v (con_state r) (con_window r) (con_next_recv r) (con_rto r)
    (con_srtt r) (con_rttvar r) (con_lsock r) (con_rsock r) (con_lflag r) (con_rflag r)
    (con_id r) (con_ts r) (con_tuple r) (con_skb r).
Definition set_con_state (v : Z) (r : con) : con :=
  mkCon (con_kref r) (con_l2r_fn r) (con_r2l_fn r) (con_tcfa_fn r) (con_flow r)
    (con_port_id r) (con_rtxq r) (con_timer r) (con_dup_acks r) (con_sending r)
    (con_last_acked r) (con_next_seq r) v (con_window r) (con_next_recv r) (con_rto r)
    (con_srtt r) (con_rttvar r) (con_lsock r) (con_rsock r) (con_lflag r) (con_rflag r)
    (con_id r) (con_ts r) (con_tuple r) (con_skb r).
Definition set_con_window (v : Z) (r : con) : con :=
  mkCon (con_kref r) (con_l2r_fn r) (con_r2l_fn r) (con_tcfa_fn r) (con_flow r)
    (con_port_id r) (con_rtxq r) (con_timer r) (con_dup_acks r) (con_sending r)
    (con_last_acked r) (con_next_seq r) (con_state r) v (con_next_recv r) (con_rto r)
    (con_srtt r) (con_rttvar r) (con_lsock r) (con_rsock r) (con_lflag r) (con_rflag r)
    (con_id r) (con_ts r) (con_tuple r) (con_skb r).
Definition set_con_next_recv (v : Z) (r : con) : con :=
  mkCon (con_kref r) (con_l2r_fn r) (con_r2l_fn r) (con_tcfa_fn r) (con_flow r)
    (con_port_id r) (con_rtxq r) (con_timer r) (con_dup_acks r) (con_sending r)
    (con_last_acked r) (con_next_seq r) (con_state r) (con_window r) v (con_rto r)
    (con_srtt r) (con_rttvar r) (con_lsock r) (con_rsock r) (con_lflag r) (con_rflag r)
    (con_id r) (con_ts r) (con_tuple r) (con_skb r).
Definition set_con_rto (v : Z) (r : con) : con :=
  mkCon (con_kref r) (con_l2r_fn r) (con_r2l_fn r) (con_tcfa_fn r) (con_flow r)
    (con_port_id r) (con_rtxq r) (con_timer r) (con_dup_acks r) (con_sending r)
    (con_last_acked r) (con_next_seq r) (con_state r) (con_window r) (con_next_recv r) v
    (con_srtt r) (con_rttvar r) (con_lsock r) (con_rsock r) (con_lflag r) (con_rflag r)
    (con_id r) (con_ts r) (con_tuple r) (con_skb r).
Definition set_con_srtt (v : Z) (r : con) : con :=
  mkCon (con_kref r) (con_l2r_fn r) (con_r2l_fn r) (con_tcfa_fn r) (con_flow r)
    (con_port_id r) (con_rtxq r) (con_timer r) (con_dup_acks r) (con_sending r)
    (con_last_acked r) (con_next_seq r) (con_state r) (con_window r) (con_next_recv r)
    (con_rto r) v (con_rttvar r) (con_lsock r) (con_rsock r) (con_lflag r) (con_rflag r)
    (con_id r) (con_ts r) (con_tuple r) (con_skb r).
Definition set_con_rttvar (v : Z) (r : con) : con :=
  mkCon (con_kref r) (con_l2r_fn r) (con_r2l_fn r) (con_tcfa_fn r) (con_flow r)
    (con_port_id r) (con_rtxq r) (con_timer r) (con_dup_acks r) (con_sending r)
    (con_last_acked r) (con_next_seq r) (con_state r) (con_window r) (con_next_recv r)
    (con_rto r) (con_srtt r) v (con_lsock r) (con_rsock r) (con_lflag r) (con_rflag r)
    (con_id r) (con_ts r) (con_tuple r) (con_skb r).
Definition set_con_lsock (v : option positive) (r : con) : con :=
  mkCon (con_kref r) (con_l2r_fn r) (con_r2l_fn r) (con_tcfa_fn r) (con_flow r)
    (con_port_id r) (con_rtxq r) (con_timer r) (con_dup_acks r) (con_sending r)
    (con_last_acked r) (con_next_seq r) (con_state r) (con_window r) (con_next_recv r)
    (con_rto r) (con_srtt r) (con_rttvar r) v (con_rsock r) (con_lflag r) (con_rflag r)
    (con_id r) (con_ts r) (con_tuple r) (con_skb r).
Definition set_con_rsock (v : option positive) (r : con) : con :=
  mkCon (con_kref r) (con_l2r_fn r) (con_r2l_fn r) (con_tcfa_fn r) (con_flow r)
    (con_port_id r) (con_rtxq r) (con_timer r) (con_dup_acks r) (con_sending r)
    (con_last_acked r) (con_next_seq r) (con_state r) (con_window r) (con_next_recv r)
    (con_rto r) (con_srtt r) (con_rttvar r) (con_lsock r) v (con_lflag r) (con_rflag r)
    (con_id r) (con_ts r) (con_tuple r) (con_skb r).
Definition set_con_lflag (v : Z) (r : con) : con :=
  mkCon (con_kref r) (con_l2r_fn r) (con_r2l_fn r) (con_tcfa_fn r) (con_flow r)
    (con_port_id r) (con_rtxq r) (con_timer r) (con_dup_acks r) (con_sending r)
    (con_last_acked r) (con_next_seq r) (con_state r) (con_window r) (con_next_recv r)
    (con_rto r) (con_srtt r) (con_rttvar r) (con_lsock r) (con_rsock r) v (con_rflag r)
    (con_id r) (con_ts r) (con_tuple r) (con_skb r).
Definition set_con_rflag (v : Z) (r : con) : con :=
  mkCon (con_kref r) (con_l2r_fn r) (con_r2l_fn r) (con_tcfa_fn r) (con_flow r)
    (con_port_id r) (con_rtxq r) (con_timer r) (con_dup_acks r) (con_sending r)
    (con_last_acked r) (con_next_seq r) (con_state r) (con_window r) (con_next_recv r)
    (con_rto r) (con_srtt r) (con_rttvar r) (con_lsock r) (con_rsock r) (con_lflag r) v
    (con_id r) (con_ts r) (con_tuple r) (con_skb r).
Definition set_con_id (v : Z) (r : con) : con :=
  mkCon (con_kref r) (con_l2r_fn r) (con_r2l_fn r) (con_tcfa_fn r) (con_flow r)
    (con_port_id r) (con_rtxq r) (con_timer r) (con_dup_acks r) (con_sending r)
    (con_last_acked r) (con_next_seq r) (con_state r) (con_window r) (con_next_recv r)
    (con_rto r) (con_srtt r) (con_rttvar r) (con_lsock r) (con_rsock r) (con_lflag r)
    (con_rflag r) v (con_ts r) (con_tuple r) (con_skb r).
Definition set_con_ts (v : Z) (r : con) : con :=
  mkCon (con_kref r) (con_l2r_fn r) (con_r2l_fn r) (con_tcfa_fn r) (con_flow r)
    (con_port_id r) (con_rtxq r) (con_timer r) (con_dup_acks r) (con_sending r)
    (con_last_acked r) (con_next_seq r) (con_state r) (con_window r) (con_next_recv r)
    (con_rto r) (con_srtt r) (con_rttvar r) (con_lsock r) (con_rsock r) (con_lflag r)
    (con_rflag r) (con_id r) v (con_tuple r) (con_skb r).
Definition set_con_tuple (v : syn_tuple) (r : con) : con :=
  mkCon (con_kref r) (con_l2r_fn r) (con_r2l_fn r) (con_tcfa_fn r) (con_flow r)
    (con_port_id r) (con_rtxq r) (con_timer r) (con_dup_acks r) (con_sending r)
    (con_last_acked r) (con_next_seq r) (con_state r) (con_window r) (con_next_recv r)
    (con_rto r) (con_srtt r) (con_rttvar r) (con_lsock r) (con_rsock r) (con_lflag r)
    (con_rflag r) (con_id r) (con_ts r) v (con_skb r).
Definition set_con_skb (v : option sk_buff) (r : con) : con :=
  mkCon (con_kref r) (con_l2r_fn r) (con_r2l_fn r) (con_tcfa_fn r) (con_flow r)
    (con_port_id r) (con_rtxq r) (con_timer r) (con_dup_acks r) (con_sending r)
    (con_last_acked r) (con_next_seq r) (con_state r) (con_window r) (con_next_recv r)
    (con_rto r) (con_srtt r) (con_rttvar r) (con_lsock r) (con_rsock r) (con_lflag r)
    (con_rflag r) (con_id r) (con_ts r) (con_tuple r) v.

Definition set_srv_mode (v : Z) (r : server) : server :=
  mkServer v (srv_l2r_wq r) (srv_r2l_wq r) (srv_tcfa_wq r) (srv_accept_wq r)
    (srv_accept_fn r) (srv_listener r) (srv_port r) (srv_to_mac r) (srv_htable r)
    (srv_conns r).
Definition set_srv_l2r_wq (v : option positive) (r : server) : server :=
  mkServer (srv_mode r) v (srv_r2l_wq r) (srv_tcfa_wq r) (srv_accept_wq r)
    (srv_accept_fn r) (srv_listener r) (srv_port r) (srv_to_mac r) (srv_htable r)
    (srv_conns r).
Definition set_srv_r2l_wq (v : option positive) (r : server) : server :=
  mkServer (srv_mode r) (srv_l2r_wq r) v (srv_tcfa_wq r) (srv_accept_wq r)
    (srv_accept_fn r) (srv_listener r) (srv_port r) (srv_to_mac r) (srv_htable r)
    (srv_conns r).
Definition set_srv_tcfa_wq (v : option positive) (r : server) : server :=
  mkServer (srv_mode r) (srv_l2r_wq r) (srv_r2l_wq r) v (srv_accept_wq r) (srv_accept_fn
    r) (srv_listener r) (srv_port r) (srv_to_mac r) (srv_htable r) (srv_conns r).
Definition set_srv_accept_wq (v : option positive) (r : server) : server :=
  mkServer (srv_mode r) (srv_l2r_wq r) (srv_r2l_wq r) (srv_tcfa_wq r) v (srv_accept_fn
    r) (srv_listener r) (srv_port r) (srv_to_mac r) (srv_htable r) (srv_conns r).
Definition set_srv_accept_fn (v : work_fn) (r : server) : server :=
  mkServer (srv_mode r) (srv_l2r_wq r) (srv_r2l_wq r) (srv_tcfa_wq r) (srv_accept_wq r)
    v (srv_listener r) (srv_port r) (srv_to_mac r) (srv_htable r) (srv_conns r).
Definition set_srv_listener (v : option positive) (r : server) : server :=
  mkServer (srv_mode r) (srv_l2r_wq r) (srv_r2l_wq r) (srv_tcfa_wq r) (srv_accept_wq r)
    (srv_accept_fn r) v (srv_port r) (srv_to_mac r) (srv_htable r) (srv_conns r).
Definition set_srv_port (v : Z) (r : server) : server :=
  mkServer (srv_mode r) (srv_l2r_wq r) (srv_r2l_wq r) (srv_tcfa_wq r) (srv_accept_wq r)
    (srv_accept_fn r) (srv_listener r) v (srv_to_mac r) (srv_htable r) (srv_conns r).
Definition set_srv_to_mac (v : list Z) (r : server) : server :=
  mkServer (srv_mode r) (srv_l2r_wq r) (srv_r2l_wq r) (srv_tcfa_wq r) (srv_accept_wq r)
    (srv_accept_fn r) (srv_listener r) (srv_port r) v (srv_htable r) (srv_conns r).
Definition set_srv_htable (v : list (list positive)) (r : server) : server :=
  mkServer (srv_mode r) (srv_l2r_wq r) (srv_r2l_wq r) (srv_tcfa_wq r) (srv_accept_wq r)
    (srv_accept_fn r) (srv_listener r) (srv_port r) (srv_to_mac r) v (srv_conns r).
Definition set_srv_conns (v : Z) (r : server) : server :=
  mkServer (srv_mode r) (srv_l2r_wq r) (srv_r2l_wq r) (srv_tcfa_wq r) (srv_accept_wq r)
    (srv_accept_fn r) (srv_listener r) (srv_port r) (srv_to_mac r) (srv_htable r) v.

Definition set_sk_user_data (v : user_data) (r : sock) : sock :=
  mkSock v (sk_data_ready r) (sk_reuse r) (sk_sndbuf r) (sk_rcvbuf r) (sk_userlocks r).
Definition set_sk_data_ready (v : ready_fn) (r : sock) : sock :=
  mkSock (sk_user_data r) v (sk_reuse r) (sk_sndbuf r) (sk_rcvbuf r) (sk_userlocks r).
Definition set_sk_reuse (v : Z) (r : sock) : sock :=
  mkSock (sk_user_data r) (sk_data_ready r) v (sk_sndbuf r) (sk_rcvbuf r) (sk_userlocks
    r).
Definition set_sk_sndbuf (v : Z) (r : sock) : sock :=
  mkSock (sk_user_data r) (sk_data_ready r) (sk_reuse r) v (sk_rcvbuf r) (sk_userlocks
    r).
Definition set_sk_rcvbuf (v : Z) (r : sock) : sock :=
  mkSock (sk_user_data r) (sk_data_ready r) (sk_reuse r) (sk_sndbuf r) v (sk_userlocks
    r).
Definition set_sk_userlocks (v : Z) (r : sock) : sock :=
  mkSock (sk_user_data r) (sk_data_ready r) (sk_reuse r) (sk_sndbuf r) (sk_rcvbuf r) v.

Definition set_h_pkt_type (v : Z) (r : minip_hdr) : minip_hdr :=
  mkHdr v (h_sdu_len r) (h_id r) (h_seq r) (h_ack r) (h_ts r).
Definition set_h_sdu_len (v : Z) (r : minip_hdr) : minip_hdr :=
  mkHdr (h_pkt_type r) v (h_id r) (h_seq r) (h_ack r) (h_ts r).
Definition set_h_id (v : Z) (r : minip_hdr) : minip_hdr :=
  mkHdr (h_pkt_type r) (h_sdu_len r) v (h_seq r) (h_ack r) (h_ts r).
Definition set_h_seq (v : Z) (r : minip_hdr) : minip_hdr :=
  mkHdr (h_pkt_type r) (h_sdu_len r) (h_id r) v (h_ack r) (h_ts r).
Definition set_h_ack (v : Z) (r : minip_hdr) : minip_hdr :=
  mkHdr (h_pkt_type r) (h_sdu_len r) (h_id r) (h_seq r) v (h_ts r).
Definition set_h_ts (v : Z) (r : minip_hdr) : minip_hdr :=
  mkHdr (h_pkt_type r) (h_sdu_len r) (h_id r) (h_seq r) (h_ack r) v.

Definition set_skb_tstamp (v : Z) (r : sk_buff) : sk_buff :=
  mkSkb (skb_protocol r) (skb_saddr r) (skb_daddr r) (skb_source r) (skb_dest r)
    (skb_syn r) (skb_ack r) (skb_rst r) (skb_mark r) v.
