(* ===== verification/Kernel.v ===== *)
(** The platform the module runs on, and the state of the module.

    Everything the module calls that is not part of it (the Linux kernel and the
    RINA stack; the CCN builder it is linked with is in CcnLib) is one typed signature
    of calls, [kE], answered by the handler of a [Platform]: the environment's own
    state [E] advances with every call and the answers are arbitrary.  The
    module's state records the calls with their answers in a trace. *)

From Stdlib Require Import ZArith Lia.
From stdpp Require Import base list gmap.
From S2P Require Import Prelude Ints Types Setters.
Open Scope Z_scope.

(** ** Calls to the environment *)

(** What an allocation is for. *)
Inductive obj : Type :=
| ObjCon | ObjServer | ObjSyn | ObjRtxq | ObjRtxqueue | ObjRtxqEntry | ObjSockaddr
| ObjIpStr | ObjIowaitqs | ObjPrefix | ObjBuf (len : Z).

Inductive kE : Type -> Type :=
(* memory: non-NULL result? *)
| Kzalloc (o : obj) : kE bool
| Kfree : kE unit
(* IPv4 packets *)
| SkbCopy (b : sk_buff) : kE bool
| ConsumeSkb : kE unit
| NetifReceiveSkb (b : sk_buff) : kE Z
| IpLocalOut (b : sk_buff) : kE Z
(* MINIP frames; alloc_skb does not clear the buffer it returns *)
| DevGetByName : kE (option net_device)
| AllocSkb (len : Z) : kE (option frame)
| DevHardHeader (proto : Z) (to_mac : list Z) (len : Z) : kE Z
| DevQueueXmit (f : frame) : kE Z
| KfreeSkb : kE unit
| SkbClone (f : frame) : kE bool
| SkbUnref (f : frame) : kE bool
(* time and timers *)
| JiffiesMsecs : kE Z
| ModTimer (c : positive) (msecs : Z) : kE unit
| DelTimer (c : positive) : kE unit
| KtimeGetRealFastNs : kE Z
| UsecsToJiffies (us : Z) : kE Z
(* work queues *)
| AllocWorkqueue : kE bool
| FlushWorkqueue (q : positive) : kE unit
| DestroyWorkqueue (q : positive) : kE unit
| QueueWork (q : positive) (w : work) : kE bool
| FlushWork (w : work) : kE unit
| CancelWorkSync (w : work) : kE unit
(* sockets: a new socket comes with the fields the kernel gave it *)
| SockCreateKern (stream : bool) : kE (Z * sock)
| KernelBind (s : positive) (addr port : Z) : kE Z
| KernelListen (s : positive) (backlog : Z) : kE Z
| KernelConnect (s : positive) (addr port : Z) : kE Z
| KernelAccept (s : positive) : kE (Z * sock)
| GetPeerName (s : positive) : kE (Z * (Z * Z))
| KernelSockShutdown (s : positive) : kE unit
| SockRelease (s : positive) : kE unit
| KernelRecvmsg (s : positive) (len : Z) : kE (Z * list Z)
| KernelSendmsg (s : positive) (b : list Z) : kE Z
| TcpSockSetQuickack (s : positive) : kE unit
| TcpSockSetNodelay (s : positive) : kE unit
| IpTransparent (s : positive) : kE Z
| SockSetMark (s : positive) (v : Z) : kE unit
| SkStreamIsWriteable (s : positive) : kE bool
| ClearNospace (s : positive) : kE unit
| WaitEventTimeout (s : positive) : kE unit
| SkStateIsListen (s : positive) : kE bool
| SockDefReadable (s : positive) : kE unit
(* netlink *)
| NetlinkKernelCreate : kE (option sock)
| NetlinkKernelRelease : kE unit
| NlAllocSkb : kE bool
| NlmsgPut : kE bool
| NetlinkUnicast (data : list Z) (pid : Z) : kE Z
(* hooks, packet types, sysctl, MAC addresses *)
| NfRegisterNetHooks : kE unit
| NfUnregisterNetHooks : kE unit
| DevAddPack : kE unit
| DevRemovePack : kE unit
| RegisterNetSysctl : kE bool
| UnregisterNetSysctl : kE unit
| MacPton (str : list Z) (old : list Z) : kE (list Z)
(* RINA stack *)
| KfaFlowFindByPid (pid : Z) : kE (option positive)
| FlowState (f : positive) : kE Z
| SetFlowState (f : positive) (v : Z) : kE unit
| FlowHasWqs (f : positive) : kE bool
| SetFlowWqs (f : positive) : kE unit
| RfifoIsEmpty (f : positive) : kE bool
| PrepareToWait (f : positive) : kE unit
| FinishWait (f : positive) : kE unit
| ScheduleTimeout (t : Z) : kE Z
| SignalPending : kE bool
| InInterrupt : kE bool
| CondResched : kE unit
| MaxSduSize (f : positive) : kE Z
| DuCreate (len : Z) : kE bool
| DuWrite (f : positive) (pid : Z) (b : list Z) : kE Z
| KfaFlowDuRead (pid len : Z) : kE (Z * option (list Z))
| DuDestroy : kE unit
| WakeUpReaders (f : positive) : kE unit
(* what the uninitialised options of ccn.c hold *)
| StackOpts : kE (Z * Z)
| PrandomU32 : kE Z.

(** A call with its answer. *)
Inductive event : Type :=
| Ev {R : Type} (c : kE R) (r : R).

(** The platform: the environment's state, its handler, the kernel's bucket
    function [hash_min(val, bits)], and the build. *)
Class Platform : Type := {
  E : Type;
  kcall : forall R, kE R -> E -> R * E;
  hash_min : Z -> Z -> nat;
  cfg : config
}.
Arguments kcall {_} {R} c e.

(** hash_min returns a value of [bits] bits. *)
Class HashMinLaw (P : Platform) : Prop :=
  hash_min_lt : forall k bits, 0 <= bits -> (Z.of_nat (hash_min k bits) < 2 ^ bits).

(** ** The state of the module *)

(** The global pointer [pepdna_srv] and the object it points to. *)
Inductive srv_ptr : Type :=
| SrvNull | SrvLive (s : server) | SrvFreed.

Record st `{P : Platform} : Type := mkSt {
  st_env : E;
  st_trace : list event;
  st_srv : srv_ptr;
  st_cons : gmap positive con;
  st_socks : gmap positive sock;
  st_rtxqs : gmap positive rtxq;
  st_skbs : gmap positive frame;       (* received frames not yet freed *)
  st_next : positive;                  (* the next fresh address *)
  st_pending : list work;              (* queued work items *)
  st_nl_sock : option sock;            (* netlink.c: *nl_sock *)
  st_nl_port_id : Z;                   (* netlink.c: nl_port_id *)
  st_nl_mode : Z;                      (* netlink.c: pepdna_mode *)
  st_request_done : bool;              (* ccn.c: request_done *)
  st_rmem : list Z;                    (* core.c: sysctl_pepdna_sock_rmem *)
  st_wmem : list Z                     (* core.c: sysctl_pepdna_sock_wmem *)
}.

Section Setters.
Context `{P : Platform}.

Definition set_st_env (v : E) (r : st) : st :=
  mkSt _ v (st_trace r) (st_srv r) (st_cons r) (st_socks r) (st_rtxqs r) (st_skbs r)
    (st_next r) (st_pending r) (st_nl_sock r) (st_nl_port_id r) (st_nl_mode r)
    (st_request_done r) (st_rmem r) (st_wmem r).
Definition set_st_trace (v : list event) (r : st) : st :=
  mkSt _ (st_env r) v (st_srv r) (st_cons r) (st_socks r) (st_rtxqs r) (st_skbs r)
    (st_next r) (st_pending r) (st_nl_sock r) (st_nl_port_id r) (st_nl_mode r)
    (st_request_done r) (st_rmem r) (st_wmem r).
Definition set_st_srv (v : srv_ptr) (r : st) : st :=
  mkSt _ (st_env r) (st_trace r) v (st_cons r) (st_socks r) (st_rtxqs r) (st_skbs r)
    (st_next r) (st_pending r) (st_nl_sock r) (st_nl_port_id r) (st_nl_mode r)
    (st_request_done r) (st_rmem r) (st_wmem r).
Definition set_st_cons (v : gmap positive con) (r : st) : st :=
  mkSt _ (st_env r) (st_trace r) (st_srv r) v (st_socks r) (st_rtxqs r) (st_skbs r)
    (st_next r) (st_pending r) (st_nl_sock r) (st_nl_port_id r) (st_nl_mode r)
    (st_request_done r) (st_rmem r) (st_wmem r).
Definition set_st_socks (v : gmap positive sock) (r : st) : st :=
  mkSt _ (st_env r) (st_trace r) (st_srv r) (st_cons r) v (st_rtxqs r) (st_skbs r)
    (st_next r) (st_pending r) (st_nl_sock r) (st_nl_port_id r) (st_nl_mode r)
    (st_request_done r) (st_rmem r) (st_wmem r).
Definition set_st_rtxqs (v : gmap positive rtxq) (r : st) : st :=
  mkSt _ (st_env r) (st_trace r) (st_srv r) (st_cons r) (st_socks r) v (st_skbs r)
    (st_next r) (st_pending r) (st_nl_sock r) (st_nl_port_id r) (st_nl_mode r)
    (st_request_done r) (st_rmem r) (st_wmem r).
Definition set_st_skbs (v : gmap positive frame) (r : st) : st :=
  mkSt _ (st_env r) (st_trace r) (st_srv r) (st_cons r) (st_socks r) (st_rtxqs r) v
    (st_next r) (st_pending r) (st_nl_sock r) (st_nl_port_id r) (st_nl_mode r)
    (st_request_done r) (st_rmem r) (st_wmem r).
Definition set_st_next (v : positive) (r : st) : st :=
  mkSt _ (st_env r) (st_trace r) (st_srv r) (st_cons r) (st_socks r) (st_rtxqs r)
    (st_skbs r) v (st_pending r) (st_nl_sock r) (st_nl_port_id r) (st_nl_mode r)
    (st_request_done r) (st_rmem r) (st_wmem r).
Definition set_st_pending (v : list work) (r : st) : st :=
  mkSt _ (st_env r) (st_trace r) (st_srv r) (st_cons r) (st_socks r) (st_rtxqs r)
    (st_skbs r) (st_next r) v (st_nl_sock r) (st_nl_port_id r) (st_nl_mode r)
    (st_request_done r) (st_rmem r) (st_wmem r).
Definition set_st_nl_sock (v : option sock) (r : st) : st :=
  mkSt _ (st_env r) (st_trace r) (st_srv r) (st_cons r) (st_socks r) (st_rtxqs r)
    (st_skbs r) (st_next r) (st_pending r) v (st_nl_port_id r) (st_nl_mode r)
    (st_request_done r) (st_rmem r) (st_wmem r).
Definition set_st_nl_port_id (v : Z) (r : st) : st :=
  mkSt _ (st_env r) (st_trace r) (st_srv r) (st_cons r) (st_socks r) (st_rtxqs r)
    (st_skbs r) (st_next r) (st_pending r) (st_nl_sock r) v (st_nl_mode r)
    (st_request_done r) (st_rmem r) (st_wmem r).
Definition set_st_nl_mode (v : Z) (r : st) : st :=
  mkSt _ (st_env r) (st_trace r) (st_srv r) (st_cons r) (st_socks r) (st_rtxqs r)
    (st_skbs r) (st_next r) (st_pending r) (st_nl_sock r) (st_nl_port_id r) v
    (st_request_done r) (st_rmem r) (st_wmem r).
Definition set_st_request_done (v : bool) (r : st) : st :=
  mkSt _ (st_env r) (st_trace r) (st_srv r) (st_cons r) (st_socks r) (st_rtxqs r)
    (st_skbs r) (st_next r) (st_pending r) (st_nl_sock r) (st_nl_port_id r) (st_nl_mode
    r) v (st_rmem r) (st_wmem r).
Definition set_st_rmem (v : list Z) (r : st) : st :=
  mkSt _ (st_env r) (st_trace r) (st_srv r) (st_cons r) (st_socks r) (st_rtxqs r)
    (st_skbs r) (st_next r) (st_pending r) (st_nl_sock r) (st_nl_port_id r) (st_nl_mode
    r) (st_request_done r) v (st_wmem r).
Definition set_st_wmem (v : list Z) (r : st) : st :=
  mkSt _ (st_env r) (st_trace r) (st_srv r) (st_cons r) (st_socks r) (st_rtxqs r)
    (st_skbs r) (st_next r) (st_pending r) (st_nl_sock r) (st_nl_port_id r) (st_nl_mode
    r) (st_request_done r) (st_rmem r) v.

End Setters.

Abbreviation KM := (M st).

(** ** Primitive operations on the state *)

Section Primitives.
Context `{P : Platform}.

(** A call to the environment: its answer, recorded in the trace. *)
Definition call {R} (c : kE R) : KM R := fun s =>
  let '(r, e) := kcall c (st_env s) in
  Ret r (set_st_trace (st_trace s ++ [Ev c r]) (set_st_env e s)).

(** Dereference of [pepdna_srv] (and of [con->server], the same object). *)
Definition get_srv : KM server := fun s =>
  match st_srv s with
  | SrvNull => Fault NullDeref s
  | SrvFreed => Fault UseAfterFree s
  | SrvLive v => Ret v s
  end.

Definition upd_srv (f : server -> server) : KM unit :=
  do v <- get_srv; modify (set_st_srv (SrvLive (f v))).

(** Dereference of a connection. *)
Definition get_con (c : positive) : KM con := fun s =>
  match st_cons s !! c with
  | Some k => Ret k s
  | None => Fault UseAfterFree s
  end.

Definition upd_con (c : positive) (f : con -> con) : KM unit :=
  do k <- get_con c; modify (fun s => set_st_cons (<[c := f k]> (st_cons s)) s).

(** Dereference of a socket. *)
Definition get_sock (a : positive) : KM sock := fun s =>
  match st_socks s !! a with
  | Some k => Ret k s
  | None => Fault UseAfterFree s
  end.

Definition upd_sock (a : positive) (f : sock -> sock) : KM unit :=
  do k <- get_sock a; modify (fun s => set_st_socks (<[a := f k]> (st_socks s)) s).

(** A pointer that must not be NULL where it is used. *)
Definition deref {A} (o : option A) : KM A :=
  match o with Some a => ret a | None => throw NullDeref end.

Definition fresh_addr : KM positive := fun s =>
  Ret (st_next s) (set_st_next (Pos.succ (st_next s)) s).

Definition new_sock (k : sock) : KM positive :=
  do a <- fresh_addr;
  do! modify (fun s => set_st_socks (<[a := k]> (st_socks s)) s);
  ret a.

(** sock_release(sock): the socket object is gone afterwards. *)
Definition sock_release (a : positive) : KM unit := fun s =>
  match st_socks s !! a with
  | None => Fault DoubleFree s
  | Some _ => (do! call (SockRelease a);
               modify (fun s => set_st_socks (delete a (st_socks s)) s)) s
  end.

(** kernel_sendmsg and kernel_recvmsg on a socket that may be NULL or gone. *)
Definition kernel_sendmsg (sock : option positive) (b : list Z) : KM Z :=
  do a <- deref sock;
  do _k <- get_sock a;
  call (KernelSendmsg a b).

Definition kernel_recvmsg (sock : option positive) (len : Z) : KM (Z * list Z) :=
  do a <- deref sock;
  do _k <- get_sock a;
  call (KernelRecvmsg a len).

(** queue_work(wq, work): when the kernel answers that the item was not queued
    already, it is pending until the work queue runs it. *)
Definition queue_work (wq : option positive) (w : work) : KM bool :=
  do q <- deref wq;
  do b <- call (QueueWork q w);
  do! when b (modify (fun s => set_st_pending (st_pending s ++ [w]) s));
  ret b.

(** cancel_work_sync(work): the item is taken off its queue. *)
Definition cancel_work_sync (w : work) : KM unit :=
  do! call (CancelWorkSync w);
  modify (fun s => set_st_pending (filter (fun w' => w' <> w) (st_pending s)) s).

(** mod_timer(&con->timer, jiffies + msecs_to_jiffies(msecs)) and del_timer. *)
Definition mod_timer (c : positive) (msecs : Z) : KM unit :=
  do! upd_con c (set_con_timer (Some msecs));
  call (ModTimer c msecs).

Definition del_timer (c : positive) : KM unit :=
  do! upd_con c (set_con_timer None);
  call (DelTimer c).

(** kfree_skb of a received frame. *)
Definition kfree_rx_skb (a : positive) : KM unit := fun s =>
  match st_skbs s !! a with
  | None => Fault DoubleFree s
  | Some _ => (do! call KfreeSkb;
               modify (fun s => set_st_skbs (delete a (st_skbs s)) s)) s
  end.

Definition get_skb (a : positive) : KM frame := fun s =>
  match st_skbs s !! a with
  | Some k => Ret k s
  | None => Fault UseAfterFree s
  end.

(** ** Equations of the primitives *)

Lemma call_run {R} (c : kE R) s r e :
  kcall c (st_env s) = (r, e) ->
  call c s = Ret r (set_st_trace (st_trace s ++ [Ev c r]) (set_st_env e s)).
Proof. unfold call. by intros ->. Qed.

(** A call returns and changes nothing but the environment and the trace. *)
Lemma call_total {R} (c : kE R) s :
  exists r e, call c s = Ret r (set_st_trace (st_trace s ++ [Ev c r]) (set_st_env e s)).
Proof.
  destruct (kcall c (st_env s)) as [r e] eqn:H. exists r, e. by apply call_run.
Qed.

Lemma get_con_run c s k : st_cons s !! c = Some k -> get_con c s = Ret k s.
Proof. unfold get_con. by intros ->. Qed.

Lemma upd_con_run c f s k :
  st_cons s !! c = Some k ->
  upd_con c f s = Ret tt (set_st_cons (<[c := f k]> (st_cons s)) s).
Proof. intros H. unfold upd_con, bind. by rewrite (get_con_run _ _ _ H). Qed.

Lemma get_srv_run s v : st_srv s = SrvLive v -> get_srv s = Ret v s.
Proof. unfold get_srv. by intros ->. Qed.

Lemma upd_srv_run f s v :
  st_srv s = SrvLive v -> upd_srv f s = Ret tt (set_st_srv (SrvLive (f v)) s).
Proof. intros H. unfold upd_srv, bind. by rewrite (get_srv_run _ _ H). Qed.

Lemma get_sock_run a s k : st_socks s !! a = Some k -> get_sock a s = Ret k s.
Proof. unfold get_sock. by intros ->. Qed.

Lemma upd_sock_run a f s k :
  st_socks s !! a = Some k ->
  upd_sock a f s = Ret tt (set_st_socks (<[a := f k]> (st_socks s)) s).
Proof. intros H. unfold upd_sock, bind. by rewrite (get_sock_run _ _ _ H). Qed.

End Primitives.
