(* ===== verification/ByteMem.v ===== *)
(** Byte buffers: the memory the CCN packet code reads and writes through
    pointers, as a list of bytes with positions.  An access outside of the buffer
    is a fault.  Packets are composed from the end of a buffer to its front;
    [prepends] is the contract of a function that does so, and contracts compose. *)

From Stdlib Require Import ZArith Lia.
From stdpp Require Import base list.
From S2P Require Import Prelude Ints.
Open Scope Z_scope.

(** ** Accesses *)

Definition BM (A : Type) : Type := M (list Z) A.

Definition zlen {A} (l : list A) : Z := Z.of_nat (length l).

Definition rd (i : Z) : BM Z := fun m =>
  if 0 <=? i then
    match m !! Z.to_nat i with
    | Some b => Ret b m
    | None => Fault OutOfBounds m
    end
  else Fault OutOfBounds m.

Definition wr (i b : Z) : BM unit := fun m =>
  if (0 <=? i) && (i <? zlen m) then Ret tt (<[Z.to_nat i := b]> m)
  else Fault OutOfBounds m.

(** The buffer with the bytes [b] at position [i]. *)
Definition put_at (i : Z) (b m : list Z) : list Z :=
  take (Z.to_nat i) m ++ b ++ drop (Z.to_nat (i + zlen b)) m.

(** memcpy to position [i]. *)
Definition wr_bytes (i : Z) (b : list Z) : BM unit := fun m =>
  if (0 <=? i) && (i + zlen b <=? zlen m) then Ret tt (put_at i b m)
  else Fault OutOfBounds m.

(** ** Lemmas on accesses *)

Lemma zlen_nil {A} : zlen (@nil A) = 0.
Proof. done. Qed.

Lemma zlen_cons {A} (x : A) l : zlen (x :: l) = 1 + zlen l.
Proof. unfold zlen. cbn [length]. lia. Qed.

Lemma zlen_app {A} (l k : list A) : zlen (l ++ k) = zlen l + zlen k.
Proof. unfold zlen. rewrite length_app. lia. Qed.

Lemma zlen_ge0 {A} (l : list A) : 0 <= zlen l.
Proof. unfold zlen. lia. Qed.

Lemma rd_run i b m : 0 <= i -> m !! Z.to_nat i = Some b -> rd i m = Ret b m.
Proof. intros Hi Hb. unfold rd. rewrite Hb. by destruct (0 <=? i) eqn:E; [|lia]. Qed.

Lemma zlen_put_at i b m : 0 <= i -> i + zlen b <= zlen m -> zlen (put_at i b m) = zlen m.
Proof.
  intros Hi Hl. unfold put_at, zlen in *. rewrite !length_app, length_take, length_drop. lia.
Qed.

Lemma put_at_nil i m : 0 <= i -> put_at i [] m = m.
Proof. intros Hi. unfold put_at. cbn. rewrite zlen_nil, Z.add_0_r. apply take_drop. Qed.

(** Writing [b] in front of [c], which is at [i]. *)
Lemma put_at_app i b c m :
  0 <= i - zlen b -> i + zlen c <= zlen m ->
  put_at (i - zlen b) b (put_at i c m) = put_at (i - zlen b) (b ++ c) m.
Proof.
  intros Hi Hl. unfold put_at. rewrite zlen_app.
  replace (i - zlen b + zlen b) with i by lia.
  replace (i - zlen b + (zlen b + zlen c)) with (i + zlen c) by lia.
  unfold zlen in *. rewrite take_app_le by (rewrite length_take; lia).
  rewrite take_take, Nat.min_l by lia. rewrite <- app_assoc. do 2 f_equal.
  rewrite drop_app_length' by (rewrite length_take; lia). done.
Qed.

Lemma put_at_one i b m :
  0 <= i < zlen m -> <[Z.to_nat i := b]> m = put_at i [b] m.
Proof.
  unfold put_at, zlen. intros Hi. cbn [length].
  rewrite insert_take_drop by lia. cbn. do 3 f_equal. lia.
Qed.

Lemma wr_run i b m : 0 <= i < zlen m -> wr i b m = Ret tt (put_at i [b] m).
Proof.
  intros Hi. unfold wr. rewrite (put_at_one i b m Hi).
  by destruct (0 <=? i) eqn:E1, (i <? zlen m) eqn:E2; [|lia..].
Qed.

Lemma drop_put_at i b m :
  0 <= i -> i + zlen b <= zlen m ->
  drop (Z.to_nat i) (put_at i b m) = b ++ drop (Z.to_nat (i + zlen b)) m.
Proof.
  intros Hi Hl. unfold put_at, zlen in *. apply drop_app_length'. rewrite length_take. lia.
Qed.

Lemma drop_put_at_after i b m j :
  0 <= i -> i + zlen b <= zlen m -> i + zlen b <= j ->
  drop (Z.to_nat j) (put_at i b m) = drop (Z.to_nat j) m.
Proof.
  intros Hi Hl Hj. unfold put_at, zlen in *. rewrite app_assoc, drop_app_ge;
    rewrite length_app, length_take; [|lia]. rewrite drop_drop. f_equal. lia.
Qed.

(** ** Composing a packet towards the front

    A composing function is given the offset at which the free space [0, off) of
    the buffer ends, and answers a result code and the new offset.
    [if (f(..) < 0) return -1;] and what follows it: *)

Definition or_fail (f k : Z -> BM (Z * Z)) (off : Z) : BM (Z * Z) :=
  do r <- f off;
  let '(rc, off') := r in
  if rc <? 0 then ret (- 1, off') else k off'.

(** The outcome [o] of composing [b] at [off] in the buffer [m]: with enough space,
    [b] is at the end of the free space and nothing else has changed; without, the
    result is -1 and nothing at [off] or behind it has changed. *)
Definition prepended (b m : list Z) (off : Z) (o : outcome (list Z) (Z * Z)) : Prop :=
  if zlen b <=? off then o = Ret (0, off - zlen b) (put_at (off - zlen b) b m)
  else exists off' m', o = Ret (- 1, off') m' /\ zlen m' = zlen m /\
    drop (Z.to_nat off) m' = drop (Z.to_nat off) m.

Definition prepends (b : list Z) (f : Z -> BM (Z * Z)) : Prop :=
  forall m off, 0 <= off <= zlen m -> zlen m < 2 ^ 64 -> prepended b m off (f off m).

Lemma prepends_nil : prepends [] (fun off => ret (0, off)).
Proof.
  intros m off Hoff _. unfold prepended. rewrite zlen_nil. destruct (0 <=? off) eqn:E; [|lia].
  rewrite Z.sub_0_r, put_at_nil by lia. done.
Qed.

Lemma prepended_seq b c f k m off :
  0 <= off <= zlen m -> prepended b m off (f off m) ->
  (zlen b <= off -> prepended c (put_at (off - zlen b) b m) (off - zlen b)
     (k (off - zlen b) (put_at (off - zlen b) b m))) ->
  prepended (c ++ b) m off (or_fail f k off m).
Proof.
  intros Hoff Hf Hk. unfold prepended, or_fail, bind in *. rewrite zlen_app.
  pose proof (zlen_ge0 b). pose proof (zlen_ge0 c).
  destruct (zlen b <=? off) eqn:Eb; cycle 1.
  { destruct (zlen c + zlen b <=? off) eqn:E; [lia|].
    destruct Hf as (off' & m' & -> & H2). by exists off', m'. }
  rewrite Hf. cbn [Z.ltb Z.compare]. specialize (Hk ltac:(lia)).
  pose proof (zlen_put_at (off - zlen b) b m ltac:(lia) ltac:(lia)) as Hl.
  destruct (zlen c <=? off - zlen b) eqn:Ec.
  - destruct (zlen c + zlen b <=? off) eqn:E; [|lia]. rewrite Hk.
    replace (off - (zlen c + zlen b)) with (off - zlen b - zlen c) by lia.
    rewrite put_at_app by lia. done.
  - destruct (zlen c + zlen b <=? off) eqn:E; [lia|].
    destruct Hk as (off' & m' & H1 & H3 & H4). exists off', m'.
    split_and!; [done|lia|].
    rewrite <- (drop_put_at_after (off - zlen b) b m off) by lia.
    replace (Z.to_nat off)
      with (Z.to_nat (off - zlen b) + (Z.to_nat off - Z.to_nat (off - zlen b)))%nat by lia.
    by rewrite <- !drop_drop, H4.
Qed.

(** In the common case the second part writes the length of the first one, which it
    computes as the distance of the two offsets. *)
Lemma prepends_seq b c f (k : Z -> Z -> BM (Z * Z)) :
  prepends b f ->
  (forall old, zlen b <= old < 2 ^ 64 -> forall m, 0 <= old - zlen b <= zlen m ->
     zlen m < 2 ^ 64 -> prepended c m (old - zlen b) (k old (old - zlen b) m)) ->
  prepends (c ++ b) (fun off => or_fail f (k off) off).
Proof.
  intros Hf Hk m off Hoff Hm. apply prepended_seq; [done | by apply Hf |].
  intros Hb. pose proof (zlen_ge0 b).
  pose proof (zlen_put_at (off - zlen b) b m ltac:(lia) ltac:(lia)). apply Hk; lia.
Qed.
