(* ===== verification/NdnTlv.v ===== *)
(** ccn-lite's NDN packet format (ccnl-pkt/src/ccnl-pkt-ndntlv.c and its header):
    composition of interests and contents from the end of a buffer to its front, as
    the proxy's module and the tools do it, and their decoding in the relay. *)

From Stdlib Require Import ZArith Lia.
From stdpp Require Import base list.
From S2P Require Import Prelude Ints ByteMem.
Open Scope Z_scope.

(** ** Constants *)

Definition CCNL_SUITE_NDNTLV : Z := 6.
Definition CCNL_MAX_PACKET_SIZE : Z := 8096.
Definition CCNL_MAX_NAME_COMP : Z := 64.
Definition CCNL_INTEREST_TIMEOUT : Z := 10.
Definition UINT32_MAX : Z := 4294967295.
Definition SIZE_MAX : Z := 2 ^ 64 - 1.

Definition NDN_TLV_Interest : Z := 0x05.
Definition NDN_TLV_Data : Z := 0x06.
Definition NDN_TLV_Fragment : Z := 0x64.
Definition NDN_TLV_Name : Z := 0x07.
Definition NDN_TLV_NameComponent : Z := 0x08.
Definition NDN_TLV_Selectors : Z := 0x09.
Definition NDN_TLV_Nonce : Z := 0x0a.
Definition NDN_TLV_Scope : Z := 0x0b.
Definition NDN_TLV_InterestLifetime : Z := 0x0c.
Definition NDN_TLV_MinSuffixComponents : Z := 0x0d.
Definition NDN_TLV_MaxSuffixComponents : Z := 0x0e.
Definition NDN_TLV_Exclude : Z := 0x10.
Definition NDN_TLV_MustBeFresh : Z := 0x12.
Definition NDN_TLV_MetaInfo : Z := 0x14.
Definition NDN_TLV_Content : Z := 0x15.
Definition NDN_TLV_SignatureInfo : Z := 0x16.
Definition NDN_TLV_SignatureValue : Z := 0x17.
Definition NDN_TLV_ContentType : Z := 0x18.
Definition NDN_TLV_FreshnessPeriod : Z := 0x19.
Definition NDN_TLV_FinalBlockId : Z := 0x1a.
Definition NDN_TLV_SignatureType : Z := 0x1b.
Definition NDN_TLV_KeyLocator : Z := 0x1c.
Definition NDN_VAL_SIGTYPE_DIGESTSHA256 : Z := 0x00.
Definition NDN_VAL_SIGTYPE_HMAC256 : Z := 0x04.
Definition NDN_TLV_NdnlpFragment : Z := 0x52.
Definition NDN_TLV_Frag_BeginEndFields : Z := 0x5c.
Definition NDN_Marker_SegmentNumber : Z := 0x00.

Definition CCNL_PKT_REQUEST : Z := 0x01.
Definition CCNL_PKT_REPLY : Z := 0x02.
Definition CCNL_PKT_FRAG_BEGIN : Z := 0x04.
Definition CCNL_PKT_FRAG_END : Z := 0x08.

(** ** Data *)

(** struct ccnl_prefix_s: [comp] and [complen] together are the components. *)
Record prefix : Type := mkPrefix {
  pfx_comps : list (list Z);
  pfx_chunknum : option Z;
  pfx_suite : Z
}.

(** struct ccnl_ndntlv_interest_opts_s and struct ccnl_ndntlv_data_opts_s *)
Record interest_opts : Type := mkIOpts {
  io_nonce : Z;
  io_mustbefresh : Z;
  io_interestlifetime : Z
}.
Record data_opts : Type := mkDOpts {
  do_freshnessperiod : Z;
  do_finalblockid : Z
}.

(** The name of a decoded packet: its components are pointers into the packet's
    buffer with lengths. *)
Record dname : Type := mkDname {
  dn_comps : list (Z * Z);
  dn_chunknum : option Z;
  dn_nameptr : Z;
  dn_namelen : Z
}.

(** struct ccnl_pkt_s with the details of the NDN suite.  [p_val] is the union of
    [final_block_id] and [seqno]; [p_hmac] is [hmacLen] and [hmacSignature]. *)
Record pkt : Type := mkPkt {
  p_buf : list Z;
  p_pfx : option dname;
  p_content : option Z;
  p_contlen : Z;
  p_type : Z;
  p_val : Z;
  p_flags : Z;
  p_suite : Z;
  p_minsuffix : Z;
  p_maxsuffix : Z;
  p_scope : Z;
  p_mbf : Z;
  p_nonce : option (list Z);
  p_interestlifetime : Z;
  p_freshnessperiod : Z;
  p_hmac : option (Z * Z)
}.

(** ** Composition *)

(** The loop of ccnl_ndntlv_prependTLval: [n] bytes of [val], the last one first. *)
Fixpoint tlval_bytes (n : nat) (val off : Z) : BM Z :=
  match n with
  | O => ret off
  | S n' =>
      let off := u64 (off - 1) in
      do! wr off (Z.land val 0xff);
      tlval_bytes n' (Z.shiftr val 8) off
  end.

Definition ccnl_ndntlv_prependTLval (val off : Z) : BM (Z * Z) :=
  let '(len, t) :=
    if val <? 253 then (0%nat, u8 val)
    else if val <=? 0xffff then (2%nat, 253)
    else if val <=? 0xffffffff then (4%nat, 254)
    else (8%nat, 255) in
  if off <? Z.of_nat len + 1 then ret (- 1, off)
  else
    do off <- tlval_bytes len val off;
    let off := u64 (off - 1) in
    do! wr off t;
    ret (0, off).

Definition ccnl_ndntlv_prependTL (type len : Z) : Z -> BM (Z * Z) :=
  or_fail (ccnl_ndntlv_prependTLval len) (ccnl_ndntlv_prependTLval type).

(** The loops of ccnl_ndntlv_prependNonNegIntVal: the value, at most eight bytes,
    counting them, and then the padding. *)
Fixpoint nonneg_bytes (n : nat) (val off : Z) (len : nat) : BM (Z * Z * nat) :=
  if truth val then
    match n with
    | O => out_of_fuel
    | S n' =>
        if off <? 1 then ret (- 1, u64 (off - 1), len)
        else
          let off := off - 1 in
          do! wr off (Z.land val 0xff);
          nonneg_bytes n' (Z.shiftr val 8) off (S len)
    end
  else ret (0, off, len).

Fixpoint zero_bytes (n : nat) (off : Z) : BM (Z * Z) :=
  match n with
  | O => ret (0, off)
  | S n' =>
      if off <? 1 then ret (- 1, u64 (off - 1))
      else
        let off := off - 1 in
        do! wr off 0;
        zero_bytes n' off
  end.

(** Number of padding bytes needed for a value of a certain length. *)
Definition fill : list nat := [1; 0; 0; 1; 0; 3; 2; 1; 0]%nat.

Definition ccnl_ndntlv_prependNonNegIntVal (val off : Z) : BM (Z * Z) :=
  do r <- nonneg_bytes 8 val off 0;
  let '(rc, off, len) := r in
  if rc <? 0 then ret (- 1, off)
  else match fill !! len with
       | Some n => zero_bytes n off
       | None => throw OutOfBounds
       end.

Definition ccnl_ndntlv_prependNonNegInt (type val off : Z) : BM (Z * Z) :=
  let oldoffset := off in
  or_fail (ccnl_ndntlv_prependNonNegIntVal val)
    (fun off => ccnl_ndntlv_prependTL type (u64 (oldoffset - off)) off) off.

(** [if ((offset)-- < 1) return -1; buf[offset] = marker;] *)
Definition prepend_marker (marker off : Z) : BM (Z * Z) :=
  if off <? 1 then ret (- 1, u64 (off - 1))
  else do! wr (off - 1) marker; ret (0, off - 1).

Definition ccnl_ndntlv_prependIncludedNonNegInt (type val marker off : Z) : BM (Z * Z) :=
  let oldoffset := off in
  or_fail (ccnl_ndntlv_prependNonNegIntVal val)
    (or_fail (prepend_marker marker)
      (fun off => ccnl_ndntlv_prependTL type (u64 (oldoffset - off)) off)) off.

(** The copy of a blob in front of the offset. *)
Definition prepend_bytes (blob : list Z) (off : Z) : BM (Z * Z) :=
  if off <? zlen blob then ret (- 1, off)
  else do! wr_bytes (off - zlen blob) blob; ret (0, off - zlen blob).

Definition ccnl_ndntlv_prependBlob (type : Z) (blob : list Z) : Z -> BM (Z * Z) :=
  or_fail (prepend_bytes blob) (ccnl_ndntlv_prependTL type (zlen blob)).

(** The loop over the components, from the last to the first. *)
Fixpoint prepend_comps (rev_comps : list (list Z)) : Z -> BM (Z * Z) :=
  match rev_comps with
  | [] => fun off => ret (0, off)
  | c :: cs => or_fail (ccnl_ndntlv_prependBlob NDN_TLV_NameComponent c) (prepend_comps cs)
  end.

Definition ccnl_ndntlv_prependName (name : prefix) (off : Z) : BM (Z * Z) :=
  let oldoffset := off in
  or_fail
    (match pfx_chunknum name with
     | Some n => ccnl_ndntlv_prependIncludedNonNegInt NDN_TLV_NameComponent n
                   NDN_Marker_SegmentNumber
     | None => fun off => ret (0, off)
     end)
    (or_fail (prepend_comps (reverse (pfx_comps name)))
      (fun off => ccnl_ndntlv_prependTL NDN_TLV_Name (u64 (oldoffset - off)) off)) off.

(** [reslen] is the distance of the offsets, for a result of 0. *)
Definition ccnl_ndntlv_prependInterest (name : prefix) (scope : Z) (opts : interest_opts)
    (off : Z) : BM (Z * Z) :=
  let oldoffset := off in
  if (0 <=? scope) && (2 <? scope) then ret (- 1, off)
  else
    or_fail
      (if 0 <=? scope then ccnl_ndntlv_prependNonNegInt NDN_TLV_Scope scope
       else fun off => ret (0, off))
      (or_fail
        (if truth (io_interestlifetime opts)
         then ccnl_ndntlv_prependNonNegInt NDN_TLV_InterestLifetime (io_interestlifetime opts)
         else fun off => ret (0, off))
        (or_fail (ccnl_ndntlv_prependBlob NDN_TLV_Nonce (le_bytes 4 (io_nonce opts)))
          (or_fail
            (if truth (io_mustbefresh opts)
             then fun off =>
               let sel_offset := off in
               or_fail (ccnl_ndntlv_prependTL NDN_TLV_MustBeFresh 0)
                 (fun off => ccnl_ndntlv_prependTL NDN_TLV_Selectors (u64 (sel_offset - off)) off)
                 off
             else fun off => ret (0, off))
            (or_fail (ccnl_ndntlv_prependName name)
              (fun off => ccnl_ndntlv_prependTL NDN_TLV_Interest (u64 (oldoffset - off)) off)))))
      off.

(** The signature part of ccnl_ndntlv_prependContent.  signatureType is
    DIGESTSHA256, so that no key locator is written; a failure to write it is
    answered with 1. *)
Definition prepend_sigtype (off : Z) : BM (Z * Z) :=
  ccnl_ndntlv_prependBlob NDN_TLV_SignatureType [NDN_VAL_SIGTYPE_DIGESTSHA256] off.

Definition prepend_meta (opts : option data_opts) (oldoffset2 : Z) : Z -> BM (Z * Z) :=
  match opts with
  | None => fun off => ret (0, off)
  | Some o =>
      or_fail
        (if do_finalblockid o =? UINT32_MAX then fun off => ret (0, off)
         else or_fail
           (ccnl_ndntlv_prependIncludedNonNegInt NDN_TLV_NameComponent (do_finalblockid o)
              NDN_Marker_SegmentNumber)
           (fun off => ccnl_ndntlv_prependTL NDN_TLV_FinalBlockId (u64 (oldoffset2 - off)) off))
        (if truth (do_freshnessperiod o)
         then ccnl_ndntlv_prependNonNegInt NDN_TLV_FreshnessPeriod (do_freshnessperiod o)
         else fun off => ret (0, off))
  end.

(** ccnl_ndntlv_prependContent: the result code, the new offset and [contentpos],
    which is computed from the offset at the start. *)
Definition ccnl_ndntlv_prependContent (name : prefix) (payload : list Z)
    (opts : option data_opts) (off : Z) : BM (Z * Z * Z) :=
  let oldoffset := off in
  let contentpos := u64 (off - zlen payload) in
  do r <- ccnl_ndntlv_prependTL NDN_TLV_SignatureValue 0 off;
  let '(rc, off) := r in
  if rc <? 0 then ret (- 1, off, contentpos)
  else
    let oldoffset2 := off in
    do r <- prepend_sigtype off;
    let '(rc, off) := r in
    if rc <? 0 then ret (1, off, contentpos)
    else
      do r <- or_fail
        (fun off => ccnl_ndntlv_prependTL NDN_TLV_SignatureInfo (u64 (oldoffset2 - off)) off)
        (or_fail (ccnl_ndntlv_prependBlob NDN_TLV_Content payload)
          (fun off =>
            let oldoffset2 := off in
            or_fail (prepend_meta opts oldoffset2)
              (or_fail
                (fun off => ccnl_ndntlv_prependTL NDN_TLV_MetaInfo (u64 (oldoffset2 - off)) off)
                (or_fail (ccnl_ndntlv_prependName name)
                  (fun off => ccnl_ndntlv_prependTL NDN_TLV_Data (u64 (oldoffset - off)) off)))
              off)) off;
      let '(rc, off) := r in
      if rc <? 0 then ret (- 1, off, contentpos) else ret (0, off, u64 (contentpos - off)).

(** ** Decoding *)

(** ccnl_ndntlv_varlenint: the new pointer, the remaining length and the value; the
    first byte is read before the length is looked at. *)
Definition ccnl_ndntlv_varlenint (buf len : Z) : BM (option (Z * Z * Z)) :=
  do b <- rd buf;
  if (b <? 253) && (1 <=? len) then ret (Some (buf + 1, len - 1, b))
  else if (b =? 253) && (3 <=? len) then
    do b1 <- rd (buf + 1);
    do b2 <- rd (buf + 2);
    ret (Some (buf + 3, len - 3, Z.lor (Z.shiftl b1 8) b2))
  else if (b =? 254) && (5 <=? len) then
    do b1 <- rd (buf + 1);
    do b2 <- rd (buf + 2);
    do b3 <- rd (buf + 3);
    do b4 <- rd (buf + 4);
    ret (Some (buf + 5, len - 5,
      Z.lor (Z.lor (Z.lor (Z.shiftl b1 24) (Z.shiftl b2 16)) (Z.shiftl b3 8)) b4))
  else ret None.

(** ccnl_ndntlv_nonNegInt: [len] bytes from [cp] on.  The recursion is on the
    bytes of the buffer that are left: a [len] beyond them is an access out of
    bounds. *)
Fixpoint nonneg_from (l : list Z) (len val : Z) : option Z :=
  if len =? 0 then Some val
  else match l with
       | [] => None
       | b :: l' => nonneg_from l' (len - 1) (u64 (Z.lor (Z.shiftl val 8) b))
       end.

Definition ccnl_ndntlv_nonNegInt (cp len : Z) : BM Z := fun m =>
  match nonneg_from (drop (Z.to_nat cp) m) len 0 with
  | Some v => Ret v m
  | None => Fault OutOfBounds m
  end.

(** ccnl_ndntlv_dehead: the pointer and the remaining length, which have moved also
    when it fails, and type and length of the value on success. *)
Definition ccnl_ndntlv_dehead (buf len : Z) : BM (Z * Z * option (Z * Z)) :=
  let maxlen := len in
  do r <- ccnl_ndntlv_varlenint buf len;
  match r with
  | None => ret (buf, len, None)
  | Some (buf, len, typ) =>
      do r <- ccnl_ndntlv_varlenint buf len;
      match r with
      | None => ret (buf, len, None)
      | Some (buf, len, vallen) =>
          if SIZE_MAX <? vallen then ret (buf, len, None)
          else if maxlen <? vallen then ret (buf, len, None)
          else ret (buf, len, Some (typ, vallen))
      end
  end.

(** One round of a loop over nested elements, after the head was read: what it does
    to the pointer, the remaining length and the length of this element. *)
Inductive sub_round (A : Type) : Type :=
| SNext (cp len2 i : Z) (a : A)
| SBreak (a : A)
| SBail.
Arguments SNext {A}.
Arguments SBreak {A}.
Arguments SBail {A}.

(** [while (len2 > 0) { if (dehead(&cp, &len2, &typ, &i)) goto Bail; ..;
    cp += i; len2 -= i; }] *)
Fixpoint sub_loop {A} (fuel : nat) (body : Z -> Z -> Z -> Z -> A -> BM (sub_round A))
    (cp len2 : Z) (a : A) : BM (option A) :=
  match fuel with
  | O => out_of_fuel
  | S fuel' =>
      if len2 <=? 0 then ret (Some a)
      else
        do h <- ccnl_ndntlv_dehead cp len2;
        let '(cp, len2, r) := h in
        match r with
        | None => ret None
        | Some (typ, i) =>
            do x <- body typ cp len2 i a;
            match x with
            | SNext cp len2 i a => sub_loop fuel' body (cp + i) (u64 (len2 - i)) a
            | SBreak a => ret (Some a)
            | SBail => ret None
            end
        end
  end.

(** Which allocations succeed. *)
Inductive asite : Type := APkt | APrefix | AChunk | ANonce | ABuf.

Section Decode.
Context (malloc_ok : asite -> bool).

(** The body of the loop over the components of a name. *)
Definition name_round (typ cp len2 i : Z) (n : dname) : BM (sub_round dname) :=
  if (typ =? NDN_TLV_NameComponent) && (zlen (dn_comps n) <? CCNL_MAX_NAME_COMP) then
    do b <- rd cp;
    let n' := mkDname (dn_comps n ++ [(cp, i)]) in
    if b =? NDN_Marker_SegmentNumber then
      do chunknum <- ccnl_ndntlv_nonNegInt (cp + 1) (u64 (i - 1));
      if UINT32_MAX <? chunknum then ret SBail
      else if negb (malloc_ok AChunk) then throw NullDeref
      else ret (SNext cp len2 i (n' (Some chunknum) (dn_nameptr n) (dn_namelen n)))
    else ret (SNext cp len2 i (n' (dn_chunknum n) (dn_nameptr n) (dn_namelen n)))
  else ret (SNext cp len2 i n).

(** The selectors: minsuffix, maxsuffix and mbf. *)
Definition selector_round (typ cp len2 i : Z) (s : Z * Z * Z) : BM (sub_round (Z * Z * Z)) :=
  let '(minsuffix, maxsuffix, mbf) := s in
  if typ =? NDN_TLV_MinSuffixComponents then
    do v <- ccnl_ndntlv_nonNegInt cp i; ret (SNext cp len2 i (v, maxsuffix, mbf))
  else if typ =? NDN_TLV_MaxSuffixComponents then
    do v <- ccnl_ndntlv_nonNegInt cp i; ret (SNext cp len2 i (minsuffix, v, mbf))
  else if typ =? NDN_TLV_MustBeFresh then ret (SNext cp len2 i (minsuffix, maxsuffix, 1))
  else ret (SNext cp len2 i s).

(** The meta information: freshnessperiod and the union [val]. *)
Definition meta_round (typ cp len2 i : Z) (s : Z * Z) : BM (sub_round (Z * Z)) :=
  let '(fresh, val) := s in
  do fresh <- if typ =? NDN_TLV_FreshnessPeriod then ccnl_ndntlv_nonNegInt cp i else ret fresh;
  if typ =? NDN_TLV_FinalBlockId then
    do h <- ccnl_ndntlv_dehead cp len2;
    let '(cp, len2, r) := h in
    match r with
    | None => ret SBail
    | Some (typ, i) =>
        if typ =? NDN_TLV_NameComponent then
          do v <- ccnl_ndntlv_nonNegInt (cp + 1) (u64 (i - 1));
          if s64 v <? 0 then ret SBail else ret (SNext cp len2 i (fresh, s64 v))
        else ret (SNext cp len2 i (fresh, val))
    end
  else ret (SNext cp len2 i (fresh, val)).

(** The signature information: whether it names HMAC256. *)
Definition siginfo_round (typ cp len2 i : Z) (valid : bool) : BM (sub_round bool) :=
  if (typ =? NDN_TLV_SignatureType) && (i =? 1) then
    do b <- rd cp;
    if b =? NDN_VAL_SIGTYPE_HMAC256 then ret (SBreak true) else ret (SNext cp len2 i valid)
  else ret (SNext cp len2 i valid).

(** ccnl_buf_new: a copy of the bytes at [pos]. *)
Definition ccnl_buf_new (pos len : Z) (ok : bool) : BM (option (list Z)) := fun m =>
  if negb ok then Ret None m
  else if (0 <=? pos) && (pos + len <=? zlen m)
       then Ret (Some (take (Z.to_nat len) (drop (Z.to_nat pos) m))) m
       else Fault OutOfBounds m.

(** One element of a packet, which starts [oldpos] behind the start of the packet
    and whose value is at [data]: the packet and validAlgoIsHmac256, or Bail. *)
Definition element (start oldpos typ data len : Z) (p : pkt) (hmac : bool)
    : BM (option (pkt * bool)) :=
  do m <- gets (fun m => m);
  let fuel := S (length m) in
  let upd f := ret (Some (f p, hmac)) in
  if typ =? NDN_TLV_Name then
    match p_pfx p with
    | Some _ => ret None
    | None =>
        if negb (malloc_ok APrefix) then ret None
        else
          let nameptr := start + oldpos in
          do r <- sub_loop fuel name_round data len (mkDname [] None nameptr 0);
          match r with
          | None => ret None
          | Some n =>
              upd (fun p => mkPkt (p_buf p)
                (Some (mkDname (dn_comps n) (dn_chunknum n) nameptr (data - nameptr)))
                (p_content p) (p_contlen p) (p_type p) (- 1) (p_flags p) (p_suite p)
                (p_minsuffix p) (p_maxsuffix p) (p_scope p) (p_mbf p) (p_nonce p)
                (p_interestlifetime p) (p_freshnessperiod p) (p_hmac p))
          end
    end
  else if typ =? NDN_TLV_Selectors then
    do r <- sub_loop fuel selector_round data len (p_minsuffix p, p_maxsuffix p, p_mbf p);
    match r with
    | None => ret None
    | Some (mi, ma, mbf) =>
        upd (fun p => mkPkt (p_buf p) (p_pfx p) (p_content p) (p_contlen p) (p_type p)
          (p_val p) (p_flags p) (p_suite p) mi ma (p_scope p) mbf (p_nonce p)
          (p_interestlifetime p) (p_freshnessperiod p) (p_hmac p))
    end
  else if typ =? NDN_TLV_Nonce then
    do b <- ccnl_buf_new data len (malloc_ok ANonce);
    upd (fun p => mkPkt (p_buf p) (p_pfx p) (p_content p) (p_contlen p) (p_type p) (p_val p)
      (p_flags p) (p_suite p) (p_minsuffix p) (p_maxsuffix p) (p_scope p) (p_mbf p) b
      (p_interestlifetime p) (p_freshnessperiod p) (p_hmac p))
  else if typ =? NDN_TLV_Scope then
    do v <- ccnl_ndntlv_nonNegInt data len;
    upd (fun p => mkPkt (p_buf p) (p_pfx p) (p_content p) (p_contlen p) (p_type p) (p_val p)
      (p_flags p) (p_suite p) (p_minsuffix p) (p_maxsuffix p) v (p_mbf p) (p_nonce p)
      (p_interestlifetime p) (p_freshnessperiod p) (p_hmac p))
  else if (typ =? NDN_TLV_Content) || (typ =? NDN_TLV_NdnlpFragment) then
    upd (fun p => mkPkt (p_buf p) (p_pfx p) (Some data) len (p_type p) (p_val p)
      (p_flags p) (p_suite p) (p_minsuffix p) (p_maxsuffix p) (p_scope p) (p_mbf p) (p_nonce p)
      (p_interestlifetime p) (p_freshnessperiod p) (p_hmac p))
  else if typ =? NDN_TLV_MetaInfo then
    do r <- sub_loop fuel meta_round data len (p_freshnessperiod p, p_val p);
    match r with
    | None => ret None
    | Some (fresh, val) =>
        upd (fun p => mkPkt (p_buf p) (p_pfx p) (p_content p) (p_contlen p) (p_type p) val
          (p_flags p) (p_suite p) (p_minsuffix p) (p_maxsuffix p) (p_scope p) (p_mbf p)
          (p_nonce p) (p_interestlifetime p) fresh (p_hmac p))
    end
  else if typ =? NDN_TLV_InterestLifetime then
    do v <- ccnl_ndntlv_nonNegInt data len;
    upd (fun p => mkPkt (p_buf p) (p_pfx p) (p_content p) (p_contlen p) (p_type p) (p_val p)
      (p_flags p) (p_suite p) (p_minsuffix p) (p_maxsuffix p) (p_scope p) (p_mbf p) (p_nonce p)
      v (p_freshnessperiod p) (p_hmac p))
  else if typ =? NDN_TLV_Frag_BeginEndFields then
    do seqno <- ccnl_ndntlv_nonNegInt data len;
    let fl := p_flags p in
    let fl := if truth (Z.land seqno 0x4000) then Z.lor fl CCNL_PKT_FRAG_BEGIN else fl in
    let fl := if truth (Z.land seqno 0x8000) then Z.lor fl CCNL_PKT_FRAG_END else fl in
    upd (fun p => mkPkt (p_buf p) (p_pfx p) (p_content p) (p_contlen p) (p_type p)
      (Z.land seqno 0x3fff) fl (p_suite p) (p_minsuffix p) (p_maxsuffix p) (p_scope p)
      (p_mbf p) (p_nonce p) (p_interestlifetime p) (p_freshnessperiod p) (p_hmac p))
  else if typ =? NDN_TLV_SignatureInfo then
    do r <- sub_loop fuel siginfo_round data len hmac;
    match r with
    | None => ret None
    | Some valid => ret (Some (p, valid))
    end
  else if typ =? NDN_TLV_SignatureValue then
    if hmac && (len =? 32) then
      upd (fun p => mkPkt (p_buf p) (p_pfx p) (p_content p) (p_contlen p) (p_type p) (p_val p)
        (p_flags p) (p_suite p) (p_minsuffix p) (p_maxsuffix p) (p_scope p) (p_mbf p) (p_nonce p)
        (p_interestlifetime p) (p_freshnessperiod p) (Some (oldpos, data)))
    else ret (Some (p, hmac))
  else ret (Some (p, hmac)).

(** The outer loop: [data] and [datalen] at its end, and the packet, or Bail. *)
Fixpoint elements (fuel : nat) (start data datalen : Z) (p : pkt) (hmac : bool)
    : BM (option (Z * Z * pkt)) :=
  match fuel with
  | O => out_of_fuel
  | S fuel' =>
      let oldpos := data - start in
      do h <- ccnl_ndntlv_dehead data datalen;
      let '(data, datalen, r) := h in
      match r with
      | None => ret (Some (data, datalen, p))
      | Some (typ, len) =>
          do r <- element start oldpos typ data len p hmac;
          match r with
          | None => ret None
          | Some (p, hmac) => elements fuel' start (data + len) (u64 (datalen - len)) p hmac
          end
      end
  end.

(** Pointers into the packet become pointers into its copy. *)
Definition rebase (start : Z) (buf : list Z) (p : pkt) : pkt :=
  mkPkt buf
    (match p_pfx p with
     | Some n => Some (mkDname ((fun x : Z * Z => (fst x - start, snd x)) <$> dn_comps n)
                         (dn_chunknum n) (dn_nameptr n - start) (dn_namelen n))
     | None => None
     end)
    (match p_content p with Some c => Some (c - start) | None => None end)
    (p_contlen p) (p_type p) (p_val p) (p_flags p) (p_suite p) (p_minsuffix p) (p_maxsuffix p)
    (p_scope p) (p_mbf p) (p_nonce p) (p_interestlifetime p) (p_freshnessperiod p) (p_hmac p).

(** The packet before the elements are read. *)
Definition new_pkt (pkttype flags : Z) : pkt :=
  mkPkt [] None None 0 pkttype 0 flags CCNL_SUITE_NDNTLV 0 CCNL_MAX_NAME_COMP 3 0 None
    (CCNL_INTEREST_TIMEOUT * 1000) 0 None.

(** ccnl_ndntlv_bytes2pkt: NULL on every way to Bail.  The build has no
    fragments (USE_FRAG), which makes their type an unknown one, and has HMAC256. *)
Definition ccnl_ndntlv_bytes2pkt (pkttype start data datalen : Z) : BM (option pkt) :=
  if negb (malloc_ok APkt) then ret None
  else
    let flags :=
      if pkttype =? NDN_TLV_Interest then Some CCNL_PKT_REQUEST
      else if pkttype =? NDN_TLV_Data then Some CCNL_PKT_REPLY
      else None in
    match flags with
    | None => ret None
    | Some fl =>
        do m <- gets (fun m => m);
        do r <- elements (S (length m)) start data datalen (new_pkt pkttype fl) false;
        match r with
        | None => ret None
        | Some (data, datalen, p) =>
            if 0 <? datalen then ret None
            else
              do buf <- ccnl_buf_new start (data - start) (malloc_ok ABuf);
              match buf with
              | None => ret None
              | Some b => ret (Some (rebase start b p))
              end
        end
    end.

(** ccnl_ndntlv_forwarder up to the handling of the packet: the packet a datagram of
    [datalen] bytes at [data] is taken for. *)
Definition ndntlv_forwarder_pkt (data datalen : Z) : BM (option pkt) :=
  let start := data in
  do h <- ccnl_ndntlv_dehead data datalen;
  let '(data, datalen, r) := h in
  match r with
  | None => ret None
  | Some (typ, len) =>
      if datalen <? len then ret None else ccnl_ndntlv_bytes2pkt typ start data datalen
  end.

End Decode.

(** The bytes behind a pointer of a decoded packet; bytes beyond the end of the
    packet's buffer are not there. *)
Definition slice (buf : list Z) (x : Z * Z) : list Z :=
  take (Z.to_nat (snd x)) (drop (Z.to_nat (fst x)) buf).

(** The name and the payload of a decoded packet. *)
Definition pkt_name (p : pkt) : option prefix :=
  match p_pfx p with
  | Some n => Some (mkPrefix (slice (p_buf p) <$> dn_comps n) (dn_chunknum n) (p_suite p))
  | None => None
  end.

Definition pkt_payload (p : pkt) : option (list Z) :=
  match p_content p with
  | Some c => Some (slice (p_buf p) (c, p_contlen p))
  | None => None
  end.
