(* ===== verification/CcnPrefix.v ===== *)
(** ccn-lite's names (ccnl-core/src/ccnl-prefix.c): URIs to components and back,
    chunk numbers, and the comparison of names.  Strings are lists of bytes without
    the terminating NUL. *)

From Stdlib Require Import ZArith Lia.
From stdpp Require Import base list.
From S2P Require Import Prelude Ints ByteMem NdnTlv.
Open Scope Z_scope.

Definition CCNL_MAX_PREFIX_SIZE : Z := 2048.
Definition CCNL_SUITE_CCNTLV : Z := 2.
Definition CCNX_TLV_N_Chunk : Z := 0x0010.

Definition CMP_EXACT : Z := 0.
Definition CMP_MATCH : Z := 1.
Definition CMP_LONGEST : Z := 2.

(** ** From a URI to components *)

Definition SLASH : Z := 47.
Definition PERCENT : Z := 37.

(** hex2int, with the tolower of the C locale. *)
Definition hex2int (c : Z) : Z :=
  if (48 <=? c) && (c <=? 57) then c - 48
  else
    let c := if (65 <=? c) && (c <=? 90) then c + 32 else c in
    if (97 <=? c) && (c <=? 102) then c - 97 + 10 else 0.

Fixpoint unescape_component (comp : list Z) : list Z :=
  match comp with
  | [] => []
  | c :: rest =>
      match rest with
      | h :: l :: rest' =>
          if c =? PERCENT then (hex2int h * 16 + hex2int l) :: unescape_component rest'
          else c :: unescape_component rest
      | _ => c :: unescape_component rest
      end
  end.

(** The bytes before the next slash, and the string from the slash on. *)
Fixpoint span_slash (uri : list Z) : list Z * list Z :=
  match uri with
  | [] => ([], [])
  | c :: uri' =>
      if c =? SLASH then ([], uri)
      else let '(w, r) := span_slash uri' in (c :: w, r)
  end.

(** The loop of ccnl_URItoComponents, with room for [n] more components. *)
Fixpoint uri_components (n : nat) (uri : list Z) : list (list Z) :=
  match n, uri with
  | O, _ | _, [] => []
  | S n', _ =>
      let '(w, rest) := span_slash uri in
      unescape_component w :: uri_components n' (tail rest)
  end.

Definition ccnl_URItoComponents (uri : list Z) : list (list Z) :=
  let uri := match uri with c :: uri' => if c =? SLASH then uri' else uri | [] => [] end in
  uri_components (Z.to_nat (CCNL_MAX_NAME_COMP - 1)) uri.

(** ** Changing a name *)

(** ccnl_prefix_dup: [ok] tells which of its allocations succeed, in their order.
    The last one, for a chunk number, is written to without a test. *)
Definition ccnl_prefix_dup (ok : nat -> bool) (p : prefix) : M unit (option prefix) :=
  if negb (ok 0%nat && ok 1%nat && ok 2%nat && ok 3%nat) then ret None
  else match pfx_chunknum p with
       | Some n => if negb (ok 4%nat) then throw NullDeref
                   else ret (Some (mkPrefix (pfx_comps p) (Some n) (pfx_suite p)))
       | None => ret (Some (mkPrefix (pfx_comps p) None (pfx_suite p)))
       end.

(** ccnl_prefix_appendCmp: [ok] tells which of its three allocations succeed; a
    failure behind [compcnt++] leaves the old components with the new count, which
    the last component of the result stands for: there is none behind it. *)
Inductive appended : Type :=
| AppOk (p : prefix)
| AppFull                    (* -1, nothing changed *)
| AppNoMem (compcnt : Z).    (* -1, the count is one above the components *)

Definition ccnl_prefix_appendCmp (ok : nat -> bool) (p : prefix) (cmp : list Z) : appended :=
  if CCNL_MAX_NAME_COMP <=? zlen (pfx_comps p) then AppFull
  else if negb (ok 0%nat && ok 1%nat && ok 2%nat) then AppNoMem (zlen (pfx_comps p) + 1)
  else AppOk (mkPrefix (pfx_comps p ++ [cmp]) (pfx_chunknum p) (pfx_suite p)).

(** ccnl_prefix_addChunkNum: the bytes of the component for each suite. *)
Definition chunk_component (suite chunknum : Z) : option (list Z) :=
  if suite =? CCNL_SUITE_NDNTLV then Some [NDN_Marker_SegmentNumber; u8 chunknum]
  else if suite =? CCNL_SUITE_CCNTLV then Some [0; CCNX_TLV_N_Chunk; 0; 1; u8 chunknum]
  else None.

Definition ccnl_prefix_addChunkNum (ok : nat -> bool) (p : prefix) (chunknum : Z)
    : option prefix :=
  if 0xff <=? chunknum then None
  else match chunk_component (pfx_suite p) chunknum with
       | None => None
       | Some cmp =>
           match ccnl_prefix_appendCmp ok p cmp with
           | AppOk p' =>
               if negb (ok 3%nat) then None
               else Some (mkPrefix (pfx_comps p') (Some chunknum) (pfx_suite p'))
           | _ => None
           end
       end.

(** ** Comparison *)

(** The loop: the index at which two lists of components differ, or at which one of
    them ends. *)
Fixpoint cmp_comps (pcs ncs : list (list Z)) (i : Z) : bool * Z :=
  match pcs, ncs with
  | c :: pcs', d :: ncs' =>
      if decide (c = d) then cmp_comps pcs' ncs' (i + 1) else (false, i)
  | _, _ => (true, i)
  end.

Definition SHA256_DIGEST_LEN : nat := 32.

(** The components of the first name; [md], when it is there, points to at least
    SHA256_DIGEST_LEN bytes, which are its last component. *)
Definition cmp_side (pfx : prefix) (md : option (list Z)) : list (list Z) :=
  pfx_comps pfx ++ match md with Some d => [take SHA256_DIGEST_LEN d] | None => [] end.

Definition ccnl_prefix_cmp (pfx : prefix) (md : option (list Z)) (nam : prefix) (mode : Z) : Z :=
  let pcs := cmp_side pfx md in
  if (mode =? CMP_EXACT) && negb (zlen pcs =? zlen (pfx_comps nam)) then - 1
  else if (mode =? CMP_EXACT) &&
          negb (bool_decide (pfx_chunknum pfx = pfx_chunknum nam)) then - 1
  else
    let '(same, i) := cmp_comps pcs (pfx_comps nam) 0 in
    if same then (if mode =? CMP_EXACT then 0 else i)
    else (if mode =? CMP_EXACT then - 1 else i).

(** ccnl_i_prefixof_c, for a content with the name [p]; [digest] is
    compute_ccnx_digest of its packet, a SHA-256 of the CCN library's platform. *)
Definition ccnl_i_prefixof_c (digest : option (list Z)) (pfx : prefix)
    (minsuffix maxsuffix : Z) (p : prefix) : Z :=
  let n := zlen (pfx_comps pfx) in
  let k := zlen (pfx_comps p) in
  if (u32 (k + 1) <? u64 (n + minsuffix)) || (u64 (n + maxsuffix) <? u32 (k + 1)) then - 2
  else if u32 (n - k) =? 1 then
    match digest with
    | None => - 3
    | Some md => ccnl_prefix_cmp p (Some md) pfx CMP_EXACT
    end
  else ccnl_prefix_cmp p None pfx CMP_EXACT.

(** ** From a name to a string *)

Definition hex_digit (v : Z) : Z := if v <? 10 then 48 + v else 87 + v.

(** snprintf of "%%%02x" for a char, which is signed: an int below zero has eight
    digits. *)
Definition print_escaped (c : Z) : list Z :=
  (if 128 <=? c then PERCENT :: replicate 6 102 else [PERCENT])
  ++ [hex_digit (c / 16); hex_digit (c mod 16)].

Definition print_char (escape_components : bool) (c : Z) : list Z :=
  if (128 <=? c) || (c <? 0x20) || (c =? 0x7f) || (escape_components && (c =? SLASH))
  then print_escaped c else [c].

(** What is printed so far, or NULL when the buffer is full; one byte of it is for
    the NUL. *)
Definition print_add (buflen : Z) (out s : list Z) : option (list Z) :=
  if zlen s <? buflen - zlen out then Some (out ++ s) else None.

(** The characters of a component; the loop ends above CCNL_MAX_PREFIX_SIZE. *)
Fixpoint print_comp (escape_components : bool) (buflen : Z) (comp out : list Z)
    : option (list Z) :=
  match comp with
  | [] => Some out
  | c :: comp' =>
      match print_add buflen out (print_char escape_components c) with
      | None => None
      | Some out =>
          if CCNL_MAX_PREFIX_SIZE <? zlen out then Some out
          else print_comp escape_components buflen comp' out
      end
  end.

Fixpoint print_comps (escape_components : bool) (skip : nat) (buflen : Z)
    (comps : list (list Z)) (out : list Z) : option (list Z) :=
  match comps with
  | [] => Some out
  | c :: comps' =>
      match print_add buflen out [SLASH] with
      | None => None
      | Some out =>
          match print_comp escape_components buflen (drop skip c) out with
          | None => None
          | Some out => print_comps escape_components skip buflen comps' out
          end
      end
  end.

Definition ccnl_prefix_to_str_detailed (pr : prefix) (ccntlv_skip escape_components : bool)
    (buflen : Z) : option (list Z) :=
  let skip := if ccntlv_skip && (pfx_suite pr =? CCNL_SUITE_CCNTLV) then 4%nat else 0%nat in
  print_comps escape_components skip buflen (pfx_comps pr) [].

(** The kernel build: only the NDN suite, nothing is skipped, slashes stay. *)
Definition ccnl_prefix_to_str (pr : prefix) (buflen : Z) : option (list Z) :=
  print_comps false 0 buflen (pfx_comps pr) [].
