(* ===== verification/CcnLib.v ===== *)
(** ccn-lite in the proxy's kernel build (CCNL_LINUXKERNEL with the NDN suite alone):
    the functions of ccnl-prefix.c and ccnl-pkt-builder.c that ccn.c calls. *)

From Stdlib Require Import ZArith Lia.
From stdpp Require Import base list gmap.
From S2P Require Import Prelude Ints Types Setters Kernel ByteMem NdnTlv CcnPrefix.
Open Scope Z_scope.

(** sizeof(struct ccnl_buf_s): [next] and [datalen]. *)
Definition sizeof_ccnl_buf : Z := 16.

Section CcnLib.
Context `{P : Platform}.

(** A program on a buffer of its own. *)
Definition on_buffer {A} (m : list Z) (f : BM A) : KM (A * list Z) := fun s =>
  match f m with
  | Ret a m' => Ret (a, m') s
  | Fault e _ => Fault e s
  | NoFuel => NoFuel
  end.

(** Is there a new prefix with room for [cnt] components? *)
Definition ccnl_prefix_newK (cnt : Z) : KM bool :=
  do p <- call (Kzalloc ObjPrefix);
  if negb p then ret false
  else
    do comp <- call (Kzalloc (ObjBuf (cnt * 8)));
    do complen <- call (Kzalloc (ObjBuf (cnt * 8)));
    if negb comp || negb complen then
      do! call Kfree; do! call Kfree; do! call Kfree; do! call Kfree; do! call Kfree;
      ret false
    else ret true.

(** The URI is split in place; the components are copied to one block as they are
    (ccnl_pkt_mkComponentK without the CCNTLV suite). *)
Definition ccnl_URItoPrefixK (uri : list Z) (suite : Z) (chunknum : option Z)
    : KM (option prefix) :=
  let comps := match uri with [] => [] | _ => ccnl_URItoComponents uri end in
  do p <- ccnl_prefix_newK (zlen comps);
  if negb p then ret None
  else
    do bytes <- call (Kzalloc (ObjBuf (zlen (concat comps))));
    if negb bytes then
      do! call Kfree; do! call Kfree; do! call Kfree; do! call Kfree; do! call Kfree;
      ret None
    else
      match chunknum with
      | None => ret (Some (mkPrefix comps None suite))
      | Some n =>
          do c <- call (Kzalloc (ObjBuf 4));
          if negb c then
            do! call Kfree; do! call Kfree; do! call Kfree; do! call Kfree; do! call Kfree;
            ret None
          else ret (Some (mkPrefix comps (Some n) suite))
      end.

(** ccnl_mkInterestK on the buffer [tmp]: the result code, [len], [offs] and the
    buffer. *)
Definition ccnl_mkInterestK (name : prefix) (opts : interest_opts) (tmp : list Z) (offs : Z)
    : KM (Z * Z * Z * list Z) :=
  if pfx_suite name =? CCNL_SUITE_NDNTLV then
    do nonce <- if truth (io_nonce opts) then ret (io_nonce opts)
                else do r <- call PrandomU32; ret (s32 r);
    let opts := mkIOpts nonce (io_mustbefresh opts) (io_interestlifetime opts) in
    do r <- on_buffer tmp (ccnl_ndntlv_prependInterest name (- 1) opts offs);
    let '(rc, offs', tmp) := r in
    if truth rc then ret (- 1, 0, offs', tmp)
    else ret (0, u64 (offs - offs'), offs', tmp)
  else ret (0, 0, offs, tmp).

(** ccnl_mkSimpleInterestK: the temporary buffer is not initialised, and not freed
    when the second allocation fails. *)
Definition ccnl_mkSimpleInterestK (name : option prefix) (opts : interest_opts)
    : KM (option (list Z)) :=
  do ok <- call (Kzalloc (ObjBuf CCNL_MAX_PACKET_SIZE));
  if negb ok then ret None
  else
    do name <- deref name;
    do r <- ccnl_mkInterestK name opts (replicate (Z.to_nat CCNL_MAX_PACKET_SIZE) 0)
              CCNL_MAX_PACKET_SIZE;
    let '(rc, len, offs, tmp) := r in
    if truth rc then do! call Kfree; ret None
    else if 0 <? len then
      do ok <- call (Kzalloc (ObjBuf (sizeof_ccnl_buf + len)));
      if negb ok then ret None
      else
        do! call Kfree;
        ret (Some (take (Z.to_nat len) (drop (Z.to_nat offs) tmp)))
    else do! call Kfree; ret None.

End CcnLib.
