(* ===== verification/Rds.v ===== *)
(** Data structures of the RINA kernel that its flow allocator is built on: queues and
    FIFOs (rds/rqueue.c, rds/rfifo.c), the manager of port identifiers (pidm.c) and
    the map from ports to flows (kfa-utils.c).  Addresses of data units and flows are
    positive numbers.  Assertions are compiled in: a false one is BUG(). *)

From Stdlib Require Import ZArith Lia.
From stdpp Require Import base list.
From S2P Require Import Prelude Ints ByteMem.
Open Scope Z_scope.

(** ** Flows and identifiers of ports *)

(** enum flow_state *)
Definition PORT_STATE_NULL : Z := 1.
Definition PORT_STATE_PENDING : Z := 2.
Definition PORT_STATE_ALLOCATED : Z := 3.
Definition PORT_STATE_DEALLOCATED : Z := 4.
Definition PORT_STATE_DISABLED : Z := 5.


Definition PORT_ID_WRONG : Z := - 1.
Definition port_id_bad : Z := PORT_ID_WRONG.
Definition is_port_id_ok (id : Z) : bool := 0 <=? id.

(** [((64 << BITS_PER_BYTE) * sizeof(port_id_t)) - 1] *)
Definition MAX_PORT_ID : Z := Z.shiftl 64 8 * 4 - 1.

(** struct pidm *)
Record pidm : Type := mkPidm {
  allocated_ports : list Z;
  last_allocated : Z
}.

Definition pidm_create (ok : bool) : option pidm := if ok then Some (mkPidm [] 0) else None.

Definition pidm_allocated (p : pidm) (port_id : Z) : bool :=
  existsb (Z.eqb port_id) (allocated_ports p).

(** [if (pid == MAX_PORT_ID) pid = 1; else pid++;] *)
Definition next_pid (pid : Z) : Z := if pid =? MAX_PORT_ID then 1 else pid + 1.

Fixpoint pidm_search (fuel : nat) (p : pidm) (pid : Z) : M pidm Z :=
  if pidm_allocated p pid then
    match fuel with
    | O => out_of_fuel
    | S fuel' => pidm_search fuel' p (next_pid pid)
    end
  else ret pid.

(** One round for each identifier in use and one more: when all of them are in use
    there is no end to the search. *)
Definition pidm_allocate (ok : bool) : M pidm Z :=
  do p <- gets (fun p => p);
  do pid <- pidm_search (length (allocated_ports p)) p (next_pid (last_allocated p));
  if negb ok then ret port_id_bad
  else
    do! modify (fun _ => mkPidm (pid :: allocated_ports p) pid);
    ret pid.

(** The first entry with the identifier is taken out. *)
Fixpoint remove_first (id : Z) (l : list Z) : list Z :=
  match l with
  | [] => []
  | x :: l' => if x =? id then l' else x :: remove_first id l'
  end.

(** An identifier that is not there is no error. *)
Definition pidm_release (id : Z) : M pidm Z :=
  if negb (is_port_id_ok id) then ret (- 1)
  else
    do! modify (fun p => mkPidm (remove_first id (allocated_ports p)) (last_allocated p));
    ret 0.

(** ** Queues *)

(** struct rqueue, of data units *)
Record rqueue : Type := mkRqueue {
  q_head : list positive;
  q_length : Z
}.

Definition assert {S} (b : bool) : M S unit := if b then ret tt else throw BugOn.

Definition rqueue_create (ok : bool) : option rqueue := if ok then Some (mkRqueue [] 0) else None.

Definition rqueue_tail_push (ok : bool) (data : positive) : M rqueue Z :=
  if negb ok then ret (- 1)
  else do! modify (fun q => mkRqueue (q_head q ++ [data]) (u64 (q_length q + 1))); ret 0.

Definition rqueue_head_push (ok : bool) (data : positive) : M rqueue Z :=
  if negb ok then ret (- 1)
  else do! modify (fun q => mkRqueue (data :: q_head q) (u64 (q_length q + 1))); ret 0.

Definition rqueue_head_pop : M rqueue (option positive) :=
  do q <- gets (fun q => q);
  match q_head q with
  | [] => ret None
  | data :: l =>
      do! assert (0 <? q_length q);
      do! modify (fun _ => mkRqueue l (u64 (q_length q - 1)));
      ret (Some data)
  end.

Definition rqueue_head_peek : M rqueue (option positive) :=
  do q <- gets (fun q => q);
  match q_head q with
  | [] => ret None
  | data :: _ => do! assert (0 <? q_length q); ret (Some data)
  end.

(** rqueue_tail_pop of a queue with entries moves the list to a NULL one. *)
Definition rqueue_tail_pop : M rqueue (option positive) :=
  do q <- gets (fun q => q);
  match q_head q with
  | [] => ret None
  | _ :: _ => do! assert (0 <? q_length q); throw NullDeref
  end.

Definition rqueue_is_empty (q : rqueue) : bool :=
  match q_head q with [] => true | _ => false end.

(** ** FIFOs: a queue behind a pointer that may be NULL *)

Section Fifo.

(** A queue operation on the FIFO [f], with the result [d] for NULL. *)
Definition on_fifo {A} (d : A) (m : M rqueue A) : M (option rqueue) A := fun f =>
  match f with
  | None => Ret d None
  | Some q =>
      match m q with
      | Ret a q' => Ret a (Some q')
      | Fault e q' => Fault e (Some q')
      | NoFuel => NoFuel
      end
  end.

Definition rfifo_create_ni (ok : bool) : option rqueue := rqueue_create ok.
Definition rfifo_push_ni (ok : bool) (e : positive) : M (option rqueue) Z :=
  on_fifo (- 1) (rqueue_tail_push ok e).
Definition rfifo_head_push_ni (ok : bool) (e : positive) : M (option rqueue) Z :=
  on_fifo (- 1) (rqueue_head_push ok e).
Definition rfifo_pop : M (option rqueue) (option positive) := on_fifo None rqueue_head_pop.
Definition rfifo_peek : M (option rqueue) (option positive) := on_fifo None rqueue_head_peek.
Definition fifo_is_empty (f : option rqueue) : bool :=
  match f with Some q => rqueue_is_empty q | None => false end.
Definition rfifo_length (f : option rqueue) : Z :=
  match f with Some q => s64 (q_length q) | None => - 1 end.

End Fifo.

(** ** The map of flows

    The entries of the hash table, the newest first: a bucket holds the entries of its
    keys in this order, and the functions only look at the entries of one key. *)

Definition kfa_pmap : Type := list (Z * positive).

Definition pmap_entry_find (map : kfa_pmap) (key : Z) : option (Z * positive) :=
  find (fun e => fst e =? key) map.

Definition kfa_pmap_find (map : kfa_pmap) (key : Z) : option positive :=
  match pmap_entry_find map key with Some e => Some (snd e) | None => None end.

Definition kfa_pmap_empty (map : kfa_pmap) : bool := match map with [] => true | _ => false end.

Definition kfa_pmap_add_ni (ok : bool) (key : Z) (flow : positive) : M kfa_pmap Z :=
  if negb ok then ret (- 1) else do! modify (cons (key, flow)); ret 0.

Fixpoint pmap_update (key : Z) (flow : positive) (map : kfa_pmap) : kfa_pmap :=
  match map with
  | [] => []
  | e :: map' => if fst e =? key then (key, flow) :: map' else e :: pmap_update key flow map'
  end.

Definition kfa_pmap_update (key : Z) (flow : positive) : M kfa_pmap Z :=
  do map <- gets (fun m => m);
  match pmap_entry_find map key with
  | None => ret (- 1)
  | Some _ => do! modify (pmap_update key flow); ret 0
  end.

(** hash_del of the entry that was found. *)
Fixpoint pmap_delete (key : Z) (map : kfa_pmap) : kfa_pmap :=
  match map with
  | [] => []
  | e :: map' => if fst e =? key then map' else e :: pmap_delete key map'
  end.

Definition kfa_pmap_remove (key : Z) : M kfa_pmap Z :=
  do map <- gets (fun m => m);
  match pmap_entry_find map key with
  | None => ret (- 1)
  | Some _ => do! modify (pmap_delete key); ret 0
  end.
