(* ===== verification/Kfa.v ===== *)
(** The flow allocator of the RINA kernel (rina-stack/kernel/kfa.c), which the proxy
    reads its RINA flows from.  Its functions run under one lock; where they release
    it to sleep or to call an IPC process, they are split: the part before answers
    [Park] with what the thread is doing there, and [resume] is the part after.
    Between the two, other functions run. *)

From Stdlib Require Import ZArith Lia.
From stdpp Require Import base list gmap.
From S2P Require Import Prelude Ints Types ByteMem Rds.
Open Scope Z_scope.

(** ** State *)

Definition EMSGSIZE : Z := 90.
Definition POLLIN : Z := 0x1.
Definition POLLERR : Z := 0x8.
Definition POLLRDNORM : Z := 0x40.

(** struct ipcp_flow; of the wait queues, which belong to the user of the flow, only
    whether they are there. *)
Record ipcp_flow : Type := mkFlow {
  fl_port_id : Z;
  fl_state : Z;
  fl_ipc_process : option Z;
  fl_sdu_ready : option rqueue;
  fl_wqs : bool;
  fl_readers : Z;
  fl_writers : Z;
  fl_posters : Z;
  fl_msg_boundaries : bool
}.

(** struct kfa, the heap of its flows and data units, the items on [flowdelq], and what
    the IPC processes were given to send. *)
Record kfa : Type := mkKfa {
  kfa_lock : bool;
  kfa_pidm : pidm;
  kfa_flows : kfa_pmap;
  kfa_flowdelq : list Z;
  k_flow : gmap positive ipcp_flow;
  k_du : gmap positive (list Z);
  k_next : positive;
  k_sent : list (Z * list Z)
}.

(** *** Setters *)

Definition set_fl_state (v : Z) (f : ipcp_flow) : ipcp_flow :=
  mkFlow (fl_port_id f) v (fl_ipc_process f) (fl_sdu_ready f) (fl_wqs f) (fl_readers f)
    (fl_writers f) (fl_posters f) (fl_msg_boundaries f).
Definition set_fl_ipcp (v : option Z) (f : ipcp_flow) : ipcp_flow :=
  mkFlow (fl_port_id f) (fl_state f) v (fl_sdu_ready f) (fl_wqs f) (fl_readers f)
    (fl_writers f) (fl_posters f) (fl_msg_boundaries f).
Definition set_fl_sdu_ready (v : option rqueue) (f : ipcp_flow) : ipcp_flow :=
  mkFlow (fl_port_id f) (fl_state f) (fl_ipc_process f) v (fl_wqs f) (fl_readers f)
    (fl_writers f) (fl_posters f) (fl_msg_boundaries f).
Definition set_fl_wqs (v : bool) (f : ipcp_flow) : ipcp_flow :=
  mkFlow (fl_port_id f) (fl_state f) (fl_ipc_process f) (fl_sdu_ready f) v (fl_readers f)
    (fl_writers f) (fl_posters f) (fl_msg_boundaries f).
Definition set_fl_readers (v : Z) (f : ipcp_flow) : ipcp_flow :=
  mkFlow (fl_port_id f) (fl_state f) (fl_ipc_process f) (fl_sdu_ready f) (fl_wqs f) v
    (fl_writers f) (fl_posters f) (fl_msg_boundaries f).
Definition set_fl_writers (v : Z) (f : ipcp_flow) : ipcp_flow :=
  mkFlow (fl_port_id f) (fl_state f) (fl_ipc_process f) (fl_sdu_ready f) (fl_wqs f)
    (fl_readers f) v (fl_posters f) (fl_msg_boundaries f).
Definition set_fl_posters (v : Z) (f : ipcp_flow) : ipcp_flow :=
  mkFlow (fl_port_id f) (fl_state f) (fl_ipc_process f) (fl_sdu_ready f) (fl_wqs f)
    (fl_readers f) (fl_writers f) v (fl_msg_boundaries f).

Definition set_lock (v : bool) (k : kfa) : kfa :=
  mkKfa v (kfa_pidm k) (kfa_flows k) (kfa_flowdelq k) (k_flow k) (k_du k) (k_next k) (k_sent k).
Definition set_pidm (v : pidm) (k : kfa) : kfa :=
  mkKfa (kfa_lock k) v (kfa_flows k) (kfa_flowdelq k) (k_flow k) (k_du k) (k_next k) (k_sent k).
Definition set_flows (v : kfa_pmap) (k : kfa) : kfa :=
  mkKfa (kfa_lock k) (kfa_pidm k) v (kfa_flowdelq k) (k_flow k) (k_du k) (k_next k) (k_sent k).
Definition set_flowdelq (v : list Z) (k : kfa) : kfa :=
  mkKfa (kfa_lock k) (kfa_pidm k) (kfa_flows k) v (k_flow k) (k_du k) (k_next k) (k_sent k).
Definition set_k_flow (v : gmap positive ipcp_flow) (k : kfa) : kfa :=
  mkKfa (kfa_lock k) (kfa_pidm k) (kfa_flows k) (kfa_flowdelq k) v (k_du k) (k_next k) (k_sent k).
Definition set_k_du (v : gmap positive (list Z)) (k : kfa) : kfa :=
  mkKfa (kfa_lock k) (kfa_pidm k) (kfa_flows k) (kfa_flowdelq k) (k_flow k) v (k_next k) (k_sent k).
Definition set_k_next (v : positive) (k : kfa) : kfa :=
  mkKfa (kfa_lock k) (kfa_pidm k) (kfa_flows k) (kfa_flowdelq k) (k_flow k) (k_du k) v (k_sent k).
Definition set_k_sent (v : list (Z * list Z)) (k : kfa) : kfa :=
  mkKfa (kfa_lock k) (kfa_pidm k) (kfa_flows k) (kfa_flowdelq k) (k_flow k) (k_du k) (k_next k) v.

Definition KF (A : Type) : Type := M kfa A.

(** ** Primitives *)

Definition lock : KF unit := fun k =>
  if kfa_lock k then Fault Deadlock k else Ret tt (set_lock true k).
Definition unlock : KF unit := fun k =>
  if kfa_lock k then Ret tt (set_lock false k) else Fault BadUnlock k.

Definition get_flow (f : positive) : KF ipcp_flow := fun k =>
  match k_flow k !! f with Some fl => Ret fl k | None => Fault UseAfterFree k end.
Definition upd_flow (f : positive) (g : ipcp_flow -> ipcp_flow) : KF unit :=
  do fl <- get_flow f; modify (fun k => set_k_flow (<[f := g fl]> (k_flow k)) k).

Definition fresh : KF positive := fun k => Ret (k_next k) (set_k_next (Pos.succ (k_next k)) k).

Definition deref_ptr {A} (o : option A) : KF A :=
  match o with Some a => ret a | None => throw NullDeref end.

(** rkfree of a flow *)
Definition free_flow (f : positive) : KF unit := fun k =>
  match k_flow k !! f with
  | None => Fault DoubleFree k
  | Some _ => Ret tt (set_k_flow (delete f (k_flow k)) k)
  end.

(** Operations on a part of the state. *)
Definition on_part {S A} (get : kfa -> S) (set : S -> kfa -> kfa) (m : M S A) : KF A := fun k =>
  match m (get k) with
  | Ret a s => Ret a (set s k)
  | Fault e s => Fault e (set s k)
  | NoFuel => NoFuel
  end.
Definition on_pidm {A} : M pidm A -> KF A := on_part kfa_pidm set_pidm.
Definition on_pmap {A} : M kfa_pmap A -> KF A := on_part kfa_flows set_flows.

(** ... and on the FIFO of a flow. *)
Definition on_sdu_ready {A} (f : positive) (m : M (option rqueue) A) : KF A :=
  do fl <- get_flow f;
  match m (fl_sdu_ready fl) with
  | Ret a q => do! upd_flow f (set_fl_sdu_ready q); ret a
  | Fault e _ => throw e
  | NoFuel => out_of_fuel
  end.

(** *** Data units (du.c), whose buffer has no other user *)

Definition du_create (ok : bool) (b : list Z) : KF (option positive) :=
  if negb ok then ret None
  else
    do a <- fresh;
    do! modify (fun k => set_k_du (<[a := b]> (k_du k)) k);
    ret (Some a).

Definition du_destroy (du : option positive) : KF unit :=
  do a <- deref_ptr du;
  fun k =>
    match k_du k !! a with
    | None => Fault DoubleFree k
    | Some _ => Ret tt (set_k_du (delete a (k_du k)) k)
    end.

(** du_len, with the bytes *)
Definition du_data (du : option positive) : KF (list Z) :=
  do a <- deref_ptr du;
  fun k => match k_du k !! a with Some b => Ret b k | None => Fault UseAfterFree k end.
Definition du_len (du : option positive) : KF Z := do b <- du_data du; ret (zlen b).

Definition is_du_ok (du : option positive) : bool := match du with Some _ => true | None => false end.

(** [ops->du_write]: the data unit belongs to the IPC process from now on. *)
Definition give_du (id : Z) (du : option positive) : KF unit :=
  do b <- du_data du;
  do! du_destroy du;
  modify (fun k => set_k_sent (k_sent k ++ [(id, b)]) k).

(** ** Threads

    What a thread does without the lock: it writes a data unit of kfa_flow_du_write to
    the IPC process, it is at one of the three such places of kfa_flow_ub_write, or it
    waits for data in kfa_flow_du_read. *)

Record ub : Type := mkUb {
  ub_id : Z;
  ub_flow : positive;
  ub_buffer : list Z;
  ub_blocking : bool;
  ub_max : Z;             (* max_sdu_size *)
  ub_left : Z;
  ub_written : Z          (* data_written *)
}.

Inductive thread : Type :=
| TDuWrite (id : Z) (f : positive) (len : Z)
| TUbCopy (u : ub)
| TUbWait (u : ub) (du : positive)
| TUbWrite (u : ub)
| TDuRead (id : Z) (f : positive) (size : Z).

(** The result of a function, or what its thread does now. *)
Inductive opres : Type :=
| Done (rc : Z) (du : option positive)
| Park (t : thread).

(** Which allocations succeed. *)
Inductive ksite : Type :=
| SPid | SFlow | SEntry | SFifo | SFifoEntry | SWqdata | SItem | SDu | SCopyFromUser
| SKfa | SPidm | SPmap | SIpcp | SIpcpData | SFlowdelq.

Section Kfa.
Context (mem : ksite -> bool) (max_sdu_size : Z -> Z).

(** ** Ports *)

Definition kfa_port_id_reserve : KF Z :=
  do! lock;
  do pid <- on_pidm (pidm_allocate (mem SPid));
  if negb (is_port_id_ok pid) then do! unlock; ret port_id_bad
  else do! unlock; ret pid.

(** ** Destruction of flows *)

Fixpoint rqueue_flush (l : list positive) : KF unit :=
  match l with
  | [] => ret tt
  | du :: l' => do! du_destroy (Some du); rqueue_flush l'
  end.

(** rfifo_destroy with du_destroy *)
Definition rfifo_destroy (q : rqueue) : KF Z :=
  do! rqueue_flush (q_head q);
  do! assert (u64 (q_length q - zlen (q_head q)) =? 0);
  ret 0.

Definition kfa_flow_destroy (f : positive) (id : Z) : KF Z :=
  do fl <- get_flow f;
  do r1 <- match fl_sdu_ready fl with
           | None => ret 0
           | Some q => do r <- rfifo_destroy q; ret (if truth r then - 1 else 0)
           end;
  do r <- on_pmap (kfa_pmap_remove id);
  let r2 := if truth r then - 1 else r1 in
  do r <- on_pidm (pidm_release id);
  let r3 := if truth r then - 1 else r2 in
  do! free_flow f;
  ret r3.

Definition kfa_port_id_release (port_id : Z) : KF Z :=
  if negb (is_port_id_ok port_id) then ret (- 1)
  else
    do! lock;
    do map <- gets kfa_flows;
    match kfa_pmap_find map port_id with
    | Some _ => do! unlock; ret 0
    | None =>
        do r <- on_pidm (pidm_release port_id);
        if truth r then do! unlock; ret (- 1) else do! unlock; ret 0
    end.

(** No readers, writers and posters *)
Definition unused (fl : ipcp_flow) : bool :=
  (fl_readers fl =? 0) && (fl_writers fl =? 0) && (fl_posters fl =? 0).

(** Those who wait on the flow are woken up after the lock was released:
    [if (flow->wqs) wake_up...(&flow->wqs->...)]. *)
Definition wake_up (f : positive) : KF unit := do _fl <- get_flow f; ret tt.

(** The result, and the flow that is still to be woken up. *)
Definition kfa_flow_deallocate_worker (id : Z) : KF (Z * option positive) :=
  if negb (is_port_id_ok id) then ret (- 1, None)
  else
    do! lock;
    do map <- gets kfa_flows;
    match kfa_pmap_find map id with
    | None => do! unlock; ret (0, None)
    | Some f =>
        do fl <- get_flow f;
        if negb (fl_state fl =? PORT_STATE_DEALLOCATED) then do! unlock; ret (0, None)
        else if unused fl then
          do _r <- kfa_flow_destroy f id;
          do! unlock;
          ret (0, None)
        else
          do! unlock;
          ret (0, Some f)
    end.

Definition kfa_flow_deallocate (id : Z) : KF Z :=
  if negb (is_port_id_ok id) then ret (- 1)
  else
    do! lock;
    do map <- gets kfa_flows;
    match kfa_pmap_find map id with
    | None => do! unlock; ret (- 1)
    | Some f =>
        do! upd_flow f (set_fl_state PORT_STATE_DEALLOCATED);
        do fl <- get_flow f;
        if unused fl then
          do _r <- kfa_flow_destroy f id;
          do! unlock;
          ret 0
        else if negb (mem SWqdata) then throw NullDeref
        else if negb (mem SItem) then ret (- 1)
        else
          do! modify (fun k => set_flowdelq (kfa_flowdelq k ++ [id]) k);
          do! unlock;
          ret 0
    end.

(** ** Writing *)

Definition ok_write (fl : ipcp_flow) : bool :=
  negb ((fl_state fl =? PORT_STATE_PENDING) || (fl_state fl =? PORT_STATE_DISABLED))
  || (fl_state fl =? PORT_STATE_DEALLOCATED).

Definition disable_write (id : Z) : KF Z :=
  if negb (is_port_id_ok id) then ret (- 1)
  else
    do! lock;
    do map <- gets kfa_flows;
    match kfa_pmap_find map id with
    | None => do! unlock; ret (- 1)
    | Some f =>
        do fl <- get_flow f;
        if fl_state fl =? PORT_STATE_DEALLOCATED then do! unlock; ret 0
        else
          do! upd_flow f (set_fl_state PORT_STATE_DISABLED);
          do! unlock;
          ret 0
    end.

Definition enable_write (id : Z) : KF Z :=
  if negb (is_port_id_ok id) then ret (- 1)
  else
    do! lock;
    do map <- gets kfa_flows;
    match kfa_pmap_find map id with
    | None => do! unlock; ret (- 1)
    | Some f =>
        do fl <- get_flow f;
        if fl_state fl =? PORT_STATE_DEALLOCATED then do! unlock; ret 0
        else
          do! when (fl_state fl =? PORT_STATE_DISABLED)
                (upd_flow f (set_fl_state PORT_STATE_ALLOCATED));
          do! unlock;
          ret 0
    end.

(** [finish:] of the functions that write; [ret] is what they return. *)
Definition finish_write (f : positive) (id ret_ : Z) : KF opres :=
  do! upd_flow f (fun fl => set_fl_writers (fl_writers fl - 1) fl);
  do fl <- get_flow f;
  do! when ((fl_writers fl =? 0) && (fl_readers fl =? 0) && (fl_posters fl =? 0) &&
            (fl_state fl =? PORT_STATE_DEALLOCATED))
        (do _r <- kfa_flow_destroy f id; ret tt);
  do! unlock;
  ret (Done ret_ None).

Definition kfa_flow_du_write (id : Z) (du : option positive) : KF opres :=
  do length <- du_len du;
  do! lock;
  do map <- gets kfa_flows;
  match kfa_pmap_find map id with
  | None => do! unlock; do! du_destroy du; ret (Done (- EBADF) None)
  | Some f =>
      do fl <- get_flow f;
      if fl_state fl =? PORT_STATE_DEALLOCATED then
        do! unlock; do! du_destroy du; ret (Done (- ESHUTDOWN) None)
      else
        do ipcp <- deref_ptr (fl_ipc_process fl);
        if max_sdu_size ipcp <? length then
          do! unlock; do! du_destroy du; ret (Done (- EMSGSIZE) None)
        else
          do! upd_flow f (fun fl => set_fl_writers (fl_writers fl + 1) fl);
          do fl <- get_flow f;
          if (fl_state fl =? PORT_STATE_PENDING) || (fl_state fl =? PORT_STATE_DISABLED) then
            do! du_destroy du; finish_write f id (- EAGAIN)
          else if fl_state fl =? PORT_STATE_DEALLOCATED then
            do! du_destroy du; finish_write f id (- ESHUTDOWN)
          else
            do! unlock;
            do! give_du id du;
            ret (Park (TDuWrite id f length))
  end.

(** The IPC process has answered [w]. *)
Definition du_write_done (id : Z) (f : positive) (length w : Z) : KF opres :=
  do! lock;
  finish_write f id (if truth w then - EIO else length).

(** kfa_flow_ub_write: what it returns at [finish:]. *)
Definition ub_finish (u : ub) (retval : Z) : KF opres :=
  finish_write (ub_flow u) (ub_id u) (if ub_written u =? 0 then retval else s32 (ub_written u)).

(** [while (left)], up to where it gives up the lock *)
Definition ub_loop (u : ub) (retval : Z) : KF opres :=
  if negb (truth (ub_left u)) then ub_finish u retval
  else do! unlock; ret (Park (TUbCopy u)).

Definition kfa_flow_ub_write (id : Z) (buffer : list Z) (blocking : bool) : KF opres :=
  do! lock;
  do map <- gets kfa_flows;
  match kfa_pmap_find map id with
  | None => do! unlock; ret (Done (- EBADF) None)
  | Some f =>
      do fl <- get_flow f;
      if fl_state fl =? PORT_STATE_DEALLOCATED then do! unlock; ret (Done (- ESHUTDOWN) None)
      else
        do ipcp <- deref_ptr (fl_ipc_process fl);
        let max := max_sdu_size ipcp in
        if fl_msg_boundaries fl && (max <? zlen buffer) then
          do! unlock; ret (Done (- EMSGSIZE) None)
        else
          do! upd_flow f (fun fl => set_fl_writers (fl_writers fl + 1) fl);
          ub_loop (mkUb id f buffer blocking max (zlen buffer) 0) 0
  end.

Definition ub_copylen (u : ub) : Z := Z.min (ub_left u) (ub_max u).

(** The data unit is given to the IPC process. *)
Definition ub_send (u : ub) (du : positive) : KF opres :=
  do fl <- get_flow (ub_flow u);
  match fl_ipc_process fl with
  | None => do! du_destroy (Some du); ub_finish u (- EBADF)
  | Some _ => do! unlock; do! give_du (ub_id u) (Some du); ret (Park (TUbWrite u))
  end.

(** The blocking loop until the flow can be written to. *)
Definition ub_wait (u : ub) (du : positive) : KF opres :=
  do fl <- get_flow (ub_flow u);
  if negb (ok_write fl) then do! unlock; ret (Park (TUbWait u du)) else ub_send u du.

(** The part that makes a data unit and copies to it, without the lock: a failure goes
    to [finish:], which expects the lock to be held. *)
Definition ub_copy (u : ub) : KF opres :=
  let copylen := ub_copylen u in
  do du <- du_create (mem SDu)
             (take (Z.to_nat copylen) (drop (Z.to_nat (ub_written u)) (ub_buffer u)));
  match du with
  | None => ub_finish u (- ENOMEM)
  | Some du =>
  if negb (mem SCopyFromUser) then do! du_destroy (Some du); ub_finish u (- EIO)
  else
    do! lock;
    do fl <- get_flow (ub_flow u);
    if ub_blocking u then
      if negb (fl_wqs fl) then do! du_destroy (Some du); ub_finish u (- EBADF)
      else ub_wait u du
    else
      if (fl_state fl =? PORT_STATE_PENDING) || (fl_state fl =? PORT_STATE_DISABLED) then
        ub_finish u (- EAGAIN)
      else if fl_state fl =? PORT_STATE_DEALLOCATED then ub_finish u (- ESHUTDOWN)
      else ub_send u du
  end.

(** After the sleep: [sig] tells that a signal has ended it. *)
Definition ub_woken (u : ub) (du : positive) (sig : bool) : KF opres :=
  do fl <- get_flow (ub_flow u);
  if negb sig && negb (ok_write fl) then ret (Park (TUbWait u du))
  else
    let retval := if sig then - ERESTARTSYS else 0 in
    do! lock;
    do map <- gets kfa_flows;
    match kfa_pmap_find map (ub_id u) with
    | None => do! unlock; do! du_destroy (Some du); throw NullDeref
    | Some f =>
        let u := mkUb (ub_id u) f (ub_buffer u) (ub_blocking u) (ub_max u) (ub_left u)
                   (ub_written u) in
        do fl <- get_flow f;
        if negb (fl_wqs fl) then do! du_destroy (Some du); ub_finish u (- EBADF)
        else if retval <? 0 then do! du_destroy (Some du); ub_finish u retval
        else if fl_state fl =? PORT_STATE_DEALLOCATED then
          do! du_destroy (Some du); ub_finish u (- ESHUTDOWN)
        else ub_wait u du
    end.

(** The IPC process has answered [w]. *)
Definition ub_write_done (u : ub) (w : Z) : KF opres :=
  do! lock;
  if truth w then ub_finish u (- EIO)
  else ub_loop (mkUb (ub_id u) (ub_flow u) (ub_buffer u) (ub_blocking u) (ub_max u)
                  (ub_left u - ub_copylen u) (ub_written u + ub_copylen u)) 0.

(** ** Reading *)

Definition queue_ready (fl : ipcp_flow) : bool :=
  if fl_state fl =? PORT_STATE_DEALLOCATED then true
  else negb (fl_state fl =? PORT_STATE_PENDING) && negb (fifo_is_empty (fl_sdu_ready fl)).

(** kfa_flow_readable: the result and the mask *)
Definition kfa_flow_readable (id mask : Z) : KF (Z * Z) :=
  if negb (is_port_id_ok id) then ret (- 1, Z.lor mask POLLERR)
  else
    do! lock;
    do map <- gets kfa_flows;
    match kfa_pmap_find map id with
    | None => do! unlock; ret (0, Z.lor mask (Z.lor POLLIN POLLRDNORM))
    | Some f =>
        do fl <- get_flow f;
        if negb (fl_wqs fl) then throw NullDeref
        else
          do! unlock;
          ret (0, if queue_ready fl then Z.lor mask (Z.lor POLLIN POLLRDNORM) else mask)
    end.

Definition kfa_flow_set_iowqs (wqs : bool) (pid : Z) : KF Z :=
  if negb (is_port_id_ok pid) then ret (- 1)
  else
    do! lock;
    do map <- gets kfa_flows;
    match kfa_pmap_find map pid with
    | None => do! unlock; ret (- 1)
    | Some f => do! upd_flow f (set_fl_wqs wqs); do! unlock; ret 0
    end.

Definition kfa_flow_cancel_iowqs (pid : Z) : KF Z :=
  if negb (is_port_id_ok pid) then ret (- 1)
  else
    do! lock;
    do map <- gets kfa_flows;
    match kfa_pmap_find map pid with
    | None => do! unlock; ret (- 1)
    | Some f =>
        do fl <- get_flow f;
        do! upd_flow f (set_fl_wqs false);
        do! unlock;
        ret (if fl_wqs fl then 0 else - 1)
    end.

(** A data unit that is longer than [size] stays in the FIFO. *)
Definition get_du_to_read (f : positive) (size : Z) : KF (option positive) :=
  do du <- on_sdu_ready f rfifo_peek;
  do len <- du_len du;
  if len <=? size then on_sdu_ready f rfifo_pop else ret du.

Definition finish_read (f : positive) (id retval : Z) (du : option positive) : KF opres :=
  do! upd_flow f (fun fl => set_fl_readers (fl_readers fl - 1) fl);
  do fl <- get_flow f;
  do! when ((fl_readers fl =? 0) && (fl_writers fl =? 0) && (fl_posters fl =? 0) &&
            (fl_state fl =? PORT_STATE_DEALLOCATED))
        (do _r <- kfa_flow_destroy f id; ret tt);
  do! unlock;
  ret (Done retval du).

(** [-EIO] for a bad data unit is overwritten by its length. *)
Definition read_du (f : positive) (id size : Z) : KF opres :=
  do du <- get_du_to_read f size;
  do len <- du_len du;
  finish_read f id (s32 len) du.

(** [while (flow->state == PORT_STATE_PENDING || rfifo_is_empty(flow->sdu_ready))] and what
    follows it, where the FIFO is not empty; [woken] in the body after the sleep. *)
Definition read_wait (f : positive) (id size : Z) (woken : bool) : KF opres :=
  do fl <- get_flow f;
  let empty := fifo_is_empty (fl_sdu_ready fl) in
  if woken && (fl_state fl =? PORT_STATE_DEALLOCATED) then
    if empty then finish_read f id 0 None else read_du f id size
  else if (fl_state fl =? PORT_STATE_PENDING) || empty then
    do! unlock; ret (Park (TDuRead id f size))
  else read_du f id size.

Definition kfa_flow_du_read (id size : Z) (blocking : bool) : KF opres :=
  if negb (is_port_id_ok id) then ret (Done (- EINVAL) None)
  else
    do! lock;
    do map <- gets kfa_flows;
    match kfa_pmap_find map id with
    | None => do! unlock; ret (Done (- EBADF) None)
    | Some f =>
        do fl <- get_flow f;
        if fl_state fl =? PORT_STATE_DEALLOCATED then do! unlock; ret (Done (- ESHUTDOWN) None)
        else
          do! upd_flow f (fun fl => set_fl_readers (fl_readers fl + 1) fl);
          if blocking then
            if negb (fl_wqs fl) then finish_read f id 0 None
            else read_wait f id size false
          else if fl_state fl =? PORT_STATE_PENDING then finish_read f id (- EAGAIN) None
          else if fifo_is_empty (fl_sdu_ready fl) then finish_read f id (- EAGAIN) None
          else read_du f id size
    end.

(** After the sleep. *)
Definition read_woken (id : Z) (f : positive) (size : Z) (sig : bool) : KF opres :=
  do fl <- get_flow f;
  if negb sig && negb (queue_ready fl) then ret (Park (TDuRead id f size))
  else
    do! lock;
    do map <- gets kfa_flows;
    match kfa_pmap_find map id with
    | None => do! unlock; ret (Done 0 None)
    | Some f =>
        do fl <- get_flow f;
        if negb (fl_wqs fl) then finish_read f id 0 None
        else if sig then finish_read f id (- ERESTARTSYS) None
        else read_wait f id size true
    end.

(** The result, and the flow whose readers are still to be woken up. *)
Definition kfa_du_post (id : Z) (du : option positive) : KF (Z * option positive) :=
  if negb (is_port_id_ok id) || negb (is_du_ok du) then do! du_destroy du; ret (- 1, None)
  else
    do! lock;
    do map <- gets kfa_flows;
    match kfa_pmap_find map id with
    | None => do! unlock; do! du_destroy du; ret (- 1, None)
    | Some f =>
        do fl <- get_flow f;
        if fl_state fl =? PORT_STATE_DEALLOCATED then
          do! unlock; do! du_destroy du; ret (- 1, None)
        else
          do a <- deref_ptr du;
          do r <- on_sdu_ready f (rfifo_push_ni (mem SFifoEntry) a);
          let retval := if truth r then - 1 else 0 in
          do! upd_flow f (fun fl => set_fl_posters (fl_posters fl + 1) fl);
          do! upd_flow f (fun fl => set_fl_posters (fl_posters fl - 1) fl);
          do fl <- get_flow f;
          let last := (fl_posters fl =? 0) && (fl_writers fl =? 0) && (fl_readers fl =? 0) &&
                      (fl_state fl =? PORT_STATE_DEALLOCATED) in
          do! when last (do _r <- kfa_flow_destroy f id; ret tt);
          do! unlock;
          ret (retval, if last || truth retval then None else Some f)
    end.

(** ** Flows *)

Definition kfa_flow_find_by_pid (pid : Z) : KF (option positive) :=
  do! lock;
  do map <- gets kfa_flows;
  do! unlock;
  ret (kfa_pmap_find map pid).

Definition kfa_flow_create (pid : Z) (ipcp : option Z) (msg_boundaries : bool) : KF Z :=
  if negb (mem SFlow) then ret (- 1)
  else
    do f <- fresh;
    do! modify (fun k => set_k_flow (<[f := mkFlow 0 PORT_STATE_PENDING ipcp None false 0 0 0
                                              msg_boundaries]> (k_flow k)) k);
    do! lock;
    do r <- on_pmap (kfa_pmap_add_ni (mem SEntry) pid f);
    if truth r then do! free_flow f; do! unlock; ret (- 1)
    else do! unlock; ret 0.

Definition kfa_flow_ipcp_bind (pid : Z) (ipcp : option Z) : KF Z :=
  match ipcp with
  | None => ret (- 1)
  | Some _ =>
      if negb (is_port_id_ok pid) then ret (- 1)
      else
        do! lock;
        do map <- gets kfa_flows;
        match kfa_pmap_find map pid with
        | None => do! unlock; ret (- 1)
        | Some f =>
            do! upd_flow f (fun fl => set_fl_sdu_ready (rfifo_create_ni (mem SFifo))
                  (set_fl_state PORT_STATE_ALLOCATED (set_fl_ipcp ipcp fl)));
            if negb (mem SFifo) then
              do _r <- on_pmap (kfa_pmap_remove pid);
              do! free_flow f;
              do! unlock;
              ret (- 1)
            else do! unlock; ret 0
        end
  end.

Definition kfa_flow_exists (port_id : Z) : KF bool :=
  do! lock;
  do map <- gets kfa_flows;
  do! unlock;
  ret (is_du_ok (kfa_pmap_find map port_id)).

Definition kfa_flow_max_sdu_size (port_id : Z) : KF Z :=
  do! lock;
  do map <- gets kfa_flows;
  match kfa_pmap_find map port_id with
  | None => do! unlock; ret 0
  | Some f =>
      do fl <- get_flow f;
      do ipcp <- deref_ptr (fl_ipc_process fl);
      do! unlock;
      ret (max_sdu_size ipcp)
  end.

(** ** The allocator itself *)

Definition kfa_create : option kfa :=
  if negb (mem SKfa) then None
  else match pidm_create (mem SPidm) with
       | None => None
       | Some p =>
           if negb (mem SPmap) then None
           else if negb (mem SIpcp) then None
           else if negb (mem SIpcpData) then None
           else if negb (mem SFlowdelq) then None
           else Some (mkKfa false p [] [] ∅ ∅ 1 [])
       end.

(** kfa_destroy is only for an allocator without flows. *)
Definition kfa_destroy : KF Z :=
  do map <- gets kfa_flows;
  do! assert (kfa_pmap_empty map);
  ret 0.

(** The part of a function after [t]; [w] is the answer of the IPC process, or whether a
    signal has ended the sleep. *)
Definition resume (t : thread) (w : Z) : KF opres :=
  match t with
  | TDuWrite id f len => du_write_done id f len w
  | TUbCopy u => ub_copy u
  | TUbWait u du => ub_woken u du (truth w)
  | TUbWrite u => ub_write_done u w
  | TDuRead id f size => read_woken id f size (truth w)
  end.

End Kfa.
