(* ===== verification/Hash.v ===== *)
(** hash.h and hash.c: the 32-bit connection identifier computed from the
    client's address and port. *)

From Stdlib Require Import ZArith Lia.
From stdpp Require Import base list.
From S2P Require Import Prelude Ints.
Open Scope Z_scope.

(** ** Definitions *)

(** One line of the macro: [a = a-b; a = a-c; a = a^x]. *)
Definition mix1 (a b c x : Z) : Z := Z.lxor (u32 (u32 (a - b) - c)) x.

Definition shr (z n : Z) : Z := Z.shiftr z n.
Definition shl (z n : Z) : Z := u32 (Z.shiftl z n).

Definition pepdna_hashmix (a b c : Z) : Z * Z * Z :=
  let a := mix1 a b c (shr c 13) in
  let b := mix1 b c a (shl a 8) in
  let c := mix1 c a b (shr b 13) in
  let a := mix1 a b c (shr c 12) in
  let b := mix1 b c a (shl a 16) in
  let c := mix1 c a b (shr b 5) in
  let a := mix1 a b c (shr c 3) in
  let b := mix1 b c a (shl a 10) in
  let c := mix1 c a b (shr b 15) in
  (a, b, c).

Definition pepdna_hash_seed : Z := 1315423911.

Definition pepdna_hash32_rjenkins1_2 (src_ip src_port : Z) : Z :=
  let a := ntohl src_ip in
  let sp := src_port in
  let b := ntohl sp in
  let hash := Z.lxor (Z.lxor pepdna_hash_seed a) b in
  let x := 231232 in
  let y := 1232 in
  let '(a, b, hash) := pepdna_hashmix a b hash in
  let '(x, a, hash) := pepdna_hashmix x a hash in
  let '(b, y, hash) := pepdna_hashmix b y hash in
  hash.

(** The steps of the macro undone in reverse order. *)
Definition unmix1 (a' b c x : Z) : Z := u32 (u32 (Z.lxor a' x + c) + b).

Definition hashunmix (a b c : Z) : Z * Z * Z :=
  let c := unmix1 c a b (shr b 15) in
  let b := unmix1 b c a (shl a 10) in
  let a := unmix1 a b c (shr c 3) in
  let c := unmix1 c a b (shr b 5) in
  let b := unmix1 b c a (shl a 16) in
  let a := unmix1 a b c (shr c 12) in
  let c := unmix1 c a b (shr b 13) in
  let b := unmix1 b c a (shl a 8) in
  let a := unmix1 a b c (shr c 13) in
  (a, b, c).

(** ** Lemmas *)

Lemma lxor_u32 a b : is_u32 a -> is_u32 b -> is_u32 (Z.lxor a b).
Proof.
  unfold is_u32. intros Ha Hb.
  destruct (Z.eq_dec (Z.lxor a b) 0) as [->|Hne]; [lia|].
  assert (0 <= Z.lxor a b) as Hpos by (apply Z.lxor_nonneg; lia).
  split; [done|]. apply Z.log2_lt_pow2; [lia|].
  pose proof (Z.log2_lxor a b (proj1 Ha) (proj1 Hb)) as Hl.
  assert (Z.log2 a < 32 /\ Z.log2 b < 32) as [? ?]; [|lia].
  split; (destruct (Z.eq_dec a 0); destruct (Z.eq_dec b 0); subst; cbn;
    try (apply Z.log2_lt_pow2; lia); lia).
Qed.

Lemma shr_u32 a n : 0 <= n -> is_u32 a -> is_u32 (shr a n).
Proof.
  unfold is_u32, shr. intros Hn Ha. rewrite Z.shiftr_div_pow2 by lia.
  split; [apply Z.div_pos; lia|].
  apply Z.le_lt_trans with a; [|lia]. apply Z.div_le_upper_bound; [lia|].
  assert (1 <= 2 ^ n) by (apply (Z.pow_le_mono_r 2 0 n); lia). nia.
Qed.

Lemma mix1_u32 a b c x : is_u32 x -> is_u32 (mix1 a b c x).
Proof. intros Hx. apply lxor_u32; [apply u32_range | done]. Qed.

(** One line of the macro loses nothing. *)
Lemma unmix1_mix1 a b c x : is_u32 a -> unmix1 (mix1 a b c x) b c x = a.
Proof.
  intros Ha. unfold unmix1, mix1.
  rewrite Z.lxor_assoc, Z.lxor_nilpotent, Z.lxor_0_r.
  rewrite !u32_add_idemp_l, u32_sub_idemp_l.
  replace (u32 (a - b - c) + c + b) with (u32 (a - b - c) + (c + b)) by lia.
  rewrite u32_add_idemp_l. replace (a - b - c + (c + b)) with a by lia.
  by apply u32_small.
Qed.

Lemma hashmix_u32 a b c a' b' c' :
  is_u32 a -> is_u32 b -> is_u32 c ->
  pepdna_hashmix a b c = (a', b', c') -> is_u32 a' /\ is_u32 b' /\ is_u32 c'.
Proof.
  intros Ha Hb Hc. unfold pepdna_hashmix. cbv zeta. intros [= <- <- <-].
  split_and!; repeat first [apply mix1_u32 | apply u32_range | apply shr_u32; [lia|]]; done.
Qed.

Lemma hashmix_roundtrip a b c :
  is_u32 a -> is_u32 b -> is_u32 c ->
  (let '(a', b', c') := pepdna_hashmix a b c in hashunmix a' b' c') = (a, b, c).
Proof.
  intros Ha Hb Hc. unfold pepdna_hashmix. cbv zeta.
  set (a1 := mix1 a b c (shr c 13)). set (b1 := mix1 b c a1 (shl a1 8)).
  set (c1 := mix1 c a1 b1 (shr b1 13)). set (a2 := mix1 a1 b1 c1 (shr c1 12)).
  set (b2 := mix1 b1 c1 a2 (shl a2 16)). set (c2 := mix1 c1 a2 b2 (shr b2 5)).
  set (a3 := mix1 a2 b2 c2 (shr c2 3)). set (b3 := mix1 b2 c2 a3 (shl a3 10)).
  set (c3 := mix1 c2 a3 b3 (shr b3 15)).
  assert (is_u32 a1) by (apply mix1_u32, shr_u32; [lia|done]).
  assert (is_u32 b1) by (apply mix1_u32, u32_range).
  assert (is_u32 c1) by (apply mix1_u32, shr_u32; [lia|done]).
  assert (is_u32 a2) by (apply mix1_u32, shr_u32; [lia|done]).
  assert (is_u32 b2) by (apply mix1_u32, u32_range).
  assert (is_u32 c2) by (apply mix1_u32, shr_u32; [lia|done]).
  unfold hashunmix. cbv zeta.
  unfold c3. rewrite (unmix1_mix1 c2) by done. unfold b3. rewrite (unmix1_mix1 b2) by done.
  unfold a3. rewrite (unmix1_mix1 a2) by done. unfold c2. rewrite (unmix1_mix1 c1) by done.
  unfold b2. rewrite (unmix1_mix1 b1) by done. unfold a2. rewrite (unmix1_mix1 a1) by done.
  unfold c1. rewrite (unmix1_mix1 c) by done. unfold b1. rewrite (unmix1_mix1 b) by done.
  unfold a1. rewrite (unmix1_mix1 a) by done. done.
Qed.

Lemma hash32_u32 ip port : is_u32 (pepdna_hash32_rjenkins1_2 ip port).
Proof.
  unfold pepdna_hash32_rjenkins1_2.
  destruct (pepdna_hashmix _ _ _) as [[a b] h] eqn:E1.
  destruct (pepdna_hashmix _ a h) as [[x a'] h'] eqn:E2.
  destruct (pepdna_hashmix b _ h') as [[b' y] h''] eqn:E3.
  apply hashmix_u32 in E1 as (?&?&?);
    [ | apply bswap32_range | apply bswap32_range
      | repeat apply lxor_u32; try apply bswap32_range; done].
  apply hashmix_u32 in E2 as (?&?&?); [ | done | done | done].
  by apply hashmix_u32 in E3 as (?&?&?).
Qed.
