(* ===== verification/TcpUtils.v ===== *)
(** tcp_utils.c and tcp_utils.h: socket tuning, the blocking write of a buffer to
    a TCP socket, address printing and parsing, and the identification of an
    accepted client. *)

From Stdlib Require Import ZArith Lia.
From stdpp Require Import base list gmap.
From S2P Require Import Prelude Ints Types Setters Kernel Hash.
Open Scope Z_scope.

(** Socket buffer sizes (tcp_utils.h); min, default and max are equal. *)
Definition RCVBUF_DEF : Z := 8 * 1024 * 1024.
Definition SNDBUF_DEF : Z := 8 * 1024 * 1024.
Definition SOCK_SNDBUF_LOCK : Z := 1.
Definition SOCK_RCVBUF_LOCK : Z := 2.

Section TcpUtils.
Context `{P : Platform}.

(** ** Socket options *)

Definition pepdna_tcp_nodelayedack (sock : positive) : KM unit :=
  do _k <- get_sock sock; call (TcpSockSetQuickack sock).

Definition pepdna_tcp_nonagle (sock : positive) : KM unit :=
  do _k <- get_sock sock; call (TcpSockSetNodelay sock).

(** A failure is only logged. *)
Definition pepdna_ip_transparent (sock : positive) : KM unit :=
  do _k <- get_sock sock; do _rc <- call (IpTransparent sock); ret tt.

Definition pepdna_set_mark (sock : positive) (val : Z) : KM unit :=
  do _k <- get_sock sock; call (SockSetMark sock val).

Definition pepdna_set_bufsize (sock : positive) : KM unit :=
  do wmem <- gets st_wmem;
  do rmem <- gets st_rmem;
  let snd := u32 (default 0 (wmem !! 1%nat)) in
  let rcv := u32 (default 0 (rmem !! 1%nat)) in
  do! when (truth snd)
        (do! upd_sock sock (fun k =>
               set_sk_userlocks (Z.lor (sk_userlocks k) SOCK_SNDBUF_LOCK) k);
         upd_sock sock (set_sk_sndbuf (s32 snd)));
  when (truth rcv)
    (do! upd_sock sock (fun k =>
           set_sk_userlocks (Z.lor (sk_userlocks k) SOCK_RCVBUF_LOCK) k);
     upd_sock sock (set_sk_rcvbuf (s32 rcv))).

(** ** Writing to a TCP socket *)

Definition pepdna_sock_writeable (sk : positive) : KM bool :=
  do w <- call (SkStreamIsWriteable sk);
  if w then do! call (ClearNospace sk); ret true else ret false.

(** [sk->sk_user_data] used as a connection pointer. *)
Definition user_con (u : user_data) : KM positive :=
  match u with
  | UD_con c => ret c
  | UD_null => throw NullDeref
  | UD_ready _ => throw OutOfBounds
  end.

Definition pepdna_wait_to_send (fuel : nat) (sk : positive) : KM unit :=
  do k <- get_sock sk;
  iter fuel (fun _ : unit =>
    do! call (WaitEventTimeout sk);
    do c <- user_con (sk_user_data k);
    do v <- get_con c;
    if negb (truth (con_rflag v)) then ret (inr tt)
    else
      do w <- pepdna_sock_writeable sk;
      ret (if w then inr tt else inl tt)) tt.

(** The local variables of the loop of pepdna_sock_write. *)
Record write_loop : Type := mkWL { wl_left : Z; wl_sent : Z; wl_count : Z }.

Definition sock_write_body (fuel : nat) (sock : option positive) (buf : list Z)
    (l : write_loop) : KM (write_loop + Z) :=
  if negb (truth (wl_left l)) then ret (inr (s32 (wl_sent l)))
  else
    do rc <- kernel_sendmsg sock
               (take (Z.to_nat (wl_left l)) (drop (Z.to_nat (wl_sent l)) buf));
    if rc =? 0 then
      let count := wl_count l + 1 in
      if count <? 2 then ret (inl (mkWL (wl_left l) (wl_sent l) count))
      else ret (inr (- EPIPE))
    else if 0 <? rc then
      ret (inl (mkWL (u64 (wl_left l - rc)) (u64 (wl_sent l + rc)) (wl_count l)))
    else if rc =? - EAGAIN then
      do sk <- deref sock;
      do! pepdna_wait_to_send fuel sk;
      ret (inl l)
    else ret (inr rc).

Definition pepdna_sock_write (fuel : nat) (sock : option positive)
    (buf : list Z) (len : Z) : KM Z :=
  iter fuel (sock_write_body fuel sock buf) (mkWL len 0 0).

(** ** Identifying the client of an accepted socket *)

Definition identify_client (sock : positive) : KM Z :=
  do ok <- call (Kzalloc ObjSockaddr);
  if negb ok then ret (u32 (- ENOMEM))
  else
    do _k <- get_sock sock;
    do nm <- call (GetPeerName sock);
    let '(rc, (src_ip, src_port)) := nm in
    if rc <? 0 then
      do! call Kfree;
      do! sock_release sock;
      ret (u32 rc)
    else
      let hash_id := pepdna_hash32_rjenkins1_2 src_ip src_port in
      do! call Kfree;
      ret hash_id.

End TcpUtils.

(** ** Addresses as strings (characters by their codes) *)

Definition ch_dot : Z := 46.
Definition ch_0 : Z := 48.

(** [%d] of a non-negative value below 1000. *)
Definition print_d (z : Z) : list Z :=
  if z <? 10 then [ch_0 + z]
  else if z <? 100 then [ch_0 + z / 10; ch_0 + z mod 10]
  else [ch_0 + z / 100; ch_0 + (z / 10) mod 10; ch_0 + z mod 10].

(** [(int_ip >> (8 * i)) & 0xFF] *)
Definition octet (ip : Z) (i : Z) : Z := Z.land (Z.shiftr ip (8 * i)) 255.

Definition inet_ntoa (s_addr : Z) : list Z :=
  print_d (octet s_addr 0) ++ [ch_dot] ++ print_d (octet s_addr 1) ++ [ch_dot]
  ++ print_d (octet s_addr 2) ++ [ch_dot] ++ print_d (octet s_addr 3).

Definition is_digit (c : Z) : bool := (ch_0 <=? c) && (c <=? ch_0 + 9).
(** isspace of the kernel, which also takes the no-break space of Latin-1 for one. *)
Definition is_space (c : Z) : bool :=
  (c =? 32) || ((9 <=? c) && (c <=? 13)) || (c =? 160).

Fixpoint skip_spaces (s : list Z) : list Z :=
  match s with
  | c :: s' => if is_space c then skip_spaces s' else s
  | [] => []
  end.

Fixpoint scan_digits (acc : Z) (s : list Z) : Z * list Z :=
  match s with
  | c :: s' => if is_digit c then scan_digits (acc * 10 + (c - ch_0)) s' else (acc, s)
  | [] => (acc, [])
  end.

(** [%d] of sscanf: blanks, a sign, at least one digit; [None] is no match. *)
Definition scan_d (s : list Z) : option (Z * list Z) :=
  let s := skip_spaces s in
  let '(neg, s) := match s with
                   | 45 :: s' => (true, s')
                   | _ => (false, s)
                   end in
  match s with
  | c :: _ => if is_digit c
              then let '(v, s') := scan_digits 0 s in
                   Some (s32 (if neg then - v else v), s')
              else None
  | [] => None
  end.

(** A literal character of the format. *)
Definition scan_ch (c : Z) (s : list Z) : option (list Z) :=
  match s with
  | c' :: s' => if c =? c' then Some s' else None
  | [] => None
  end.

(** [None] when sscanf stops before the fourth number, which leaves the locals
    [a] to [d] partly uninitialised. *)
Definition inet_addr (ip : list Z) : option Z :=
  '(a, s) ← scan_d ip; s ← scan_ch ch_dot s;
  '(b, s) ← scan_d s; s ← scan_ch ch_dot s;
  '(c, s) ← scan_d s; s ← scan_ch ch_dot s;
  '(d, s) ← scan_d s;
  Some (le_val [u8 a; u8 b; u8 c; u8 d]).
