(* ===== verification/Rtxq.v ===== *)
(** The MINIP retransmission queue (minip.c, the functions on struct rtxq and
    struct rtxqueue): creation, destruction, push, acknowledgement and
    retransmission.  A queue is a list of entries from head to tail; the spin
    lock around each operation makes it one step. *)

From Stdlib Require Import ZArith Lia.
From stdpp Require Import base list gmap.
From S2P Require Import Prelude Ints Types Setters Kernel.
Open Scope Z_scope.

(** The sequence number of a queued frame. *)
Definition skb_seq_get (skb : frame) : Z := ntohl (h_seq (f_hdr skb)).

Section Rtxq.
Context `{P : Platform}.

(** Dereference of a [struct rtxq *]. *)
Definition get_rtxq (a : positive) : KM rtxq := fun s =>
  match st_rtxqs s !! a with
  | Some q => Ret q s
  | None => Fault UseAfterFree s
  end.

Definition put_rtxq (a : positive) (q : rtxq) : KM unit :=
  modify (fun s => set_st_rtxqs (<[a := q]> (st_rtxqs s)) s).

(** ** Entries *)

(** The entry leaves the list in the callers, which keep the list itself. *)
Definition rtxq_entry_destroy (entry : option rtxq_entry) : KM Z :=
  match entry with
  | None => ret (- 1)
  | Some e =>
      do last <- call (SkbUnref (e_skb e));
      do! when last (call KfreeSkb);
      do! call Kfree;
      ret 0
  end.

Definition rtxq_entry_create (skb : frame) : KM (option rtxq_entry) :=
  do ok <- call (Kzalloc ObjRtxqEntry);
  ret (if ok then Some (mkEntry skb 0) else None).

(** Returns the entry as it is afterwards and the result. *)
Definition rtxq_entry_rtx (entry : rtxq_entry) (seq : Z) : KM (rtxq_entry * Z) :=
  if e_retries entry <? MAX_MINIP_RETRY then
    do now <- call JiffiesMsecs;
    let skb := mkFrame (set_h_ts (htonl (u32 now)) (f_hdr (e_skb entry)))
                 (f_data (e_skb entry)) in
    let entry := mkEntry skb (u8 (e_retries entry + 1)) in
    do rc <- call (DevQueueXmit skb);
    ret (entry, rc)
  else ret (entry, - 1).

(** ** Queues *)

(** The loop of rtxqueue_entries_ack over the rest [l] of the list, with the
    queue length and the credit so far. *)
Fixpoint entries_ack (l : list rtxq_entry) (len credit ack : Z)
    : KM (list rtxq_entry * Z * Z) :=
  match l with
  | [] => ret ([], len, credit)
  | cur :: n =>
      let seq := skb_seq_get (e_skb cur) in
      if ack <=? seq then ret (l, len, credit)
      else
        do rc <- rtxq_entry_destroy (Some cur);
        if truth rc then ret (l, len, - 1)
        else entries_ack n (len - 1) (credit + 1) ack
  end.

Definition rtxqueue_entries_ack (q : rtxqueue) (ack : Z) : KM (rtxqueue * Z) :=
  do r <- entries_ack (q_head q) (q_len q) 0 ack;
  let '(l, len, credit) := r in
  ret (mkQueue len l, credit).

(** The loop of rtxqueue_entries_rtx. *)
Fixpoint rtxqueue_entries_rtx (l : list rtxq_entry) (ack : Z)
    : KM (list rtxq_entry * Z) :=
  match l with
  | [] => ret ([], 0)
  | cur :: n =>
      let seq := skb_seq_get (e_skb cur) in
      if ack <=? seq then
        do r <- rtxq_entry_rtx cur seq;
        let '(cur, rc) := r in
        if rc <? 0 then ret (cur :: n, - 1)
        else
          do t <- rtxqueue_entries_rtx n ack;
          let '(n, rc) := t in ret (cur :: n, rc)
      else
        do t <- rtxqueue_entries_rtx n ack;
        let '(n, rc) := t in ret (cur :: n, rc)
  end.

(** The loop of rtxqueue_fast_rtx. *)
Fixpoint rtxqueue_fast_rtx (l : list rtxq_entry) (ack : Z)
    : KM (list rtxq_entry * Z) :=
  match l with
  | [] => ret ([], 0)
  | cur :: n =>
      let seq := skb_seq_get (e_skb cur) in
      if seq =? ack then
        do r <- rtxq_entry_rtx cur seq;
        let '(cur, rc) := r in
        ret (cur :: n, if rc <? 0 then - 1 else 0)
      else
        do t <- rtxqueue_fast_rtx n ack;
        let '(n, rc) := t in ret (cur :: n, rc)
  end.

Definition rtxqueue_push (q : rtxqueue) (skb : frame) : KM (rtxqueue * Z) :=
  do e <- rtxq_entry_create skb;
  match e with
  | None => ret (q, - 1)
  | Some tmp => ret (mkQueue (q_len q + 1) (q_head q ++ [tmp]), 0)
  end.

Definition rtxqueue_create : KM (option rtxqueue) :=
  do ok <- call (Kzalloc ObjRtxqueue);
  ret (if ok then Some (mkQueue 0 []) else None).

Fixpoint rtxqueue_flush (l : list rtxq_entry) : KM unit :=
  match l with
  | [] => ret tt
  | cur :: n => do _rc <- rtxq_entry_destroy (Some cur); rtxqueue_flush n
  end.

Definition rtxqueue_destroy (q : rtxqueue) : KM Z :=
  do! rtxqueue_flush (q_head q);
  do! call Kfree;
  ret 0.

(** ** The locked interface *)

Definition rtxq_destroy (q : option positive) : KM Z :=
  match q with
  | None => ret (- 1)
  | Some a =>
      do v <- get_rtxq a;
      do! match rq_queue v with
          | Some queue => do _rc <- rtxqueue_destroy queue; ret tt
          | None => ret tt
          end;
      do! call Kfree;
      do! modify (fun s => set_st_rtxqs (delete a (st_rtxqs s)) s);
      ret 0
  end.

Definition rtxq_create : KM (option positive) :=
  do ok <- call (Kzalloc ObjRtxq);
  if negb ok then ret None
  else
    do a <- fresh_addr;
    do! put_rtxq a (mkRtxq None);
    do queue <- rtxqueue_create;
    match queue with
    | None => do _rc <- rtxq_destroy (Some a); ret None
    | Some queue => do! put_rtxq a (mkRtxq (Some queue)); ret (Some a)
    end.

Definition rtxq_full_rtx (q : option positive) (ack : Z) : KM Z :=
  match q with
  | None => ret (- 1)
  | Some a =>
      do v <- get_rtxq a;
      do queue <- deref (rq_queue v);
      do r <- rtxqueue_entries_rtx (q_head queue) ack;
      let '(l, rc) := r in
      do! put_rtxq a (mkRtxq (Some (mkQueue (q_len queue) l)));
      ret (if rc <? 0 then - 1 else 0)
  end.

Definition rtxq_single_rtx (q : option positive) (ack : Z) : KM Z :=
  match q with
  | None => ret (- 1)
  | Some a =>
      do v <- get_rtxq a;
      do queue <- deref (rq_queue v);
      do r <- rtxqueue_fast_rtx (q_head queue) ack;
      let '(l, rc) := r in
      do! put_rtxq a (mkRtxq (Some (mkQueue (q_len queue) l)));
      ret (if rc <? 0 then - 1 else 0)
  end.

Definition rtxq_ack (q : option positive) (ack : Z) : KM Z :=
  match q with
  | None => ret (- 1)
  | Some a =>
      do v <- get_rtxq a;
      do queue <- deref (rq_queue v);
      do r <- rtxqueue_entries_ack queue ack;
      let '(queue, credit) := r in
      do! put_rtxq a (mkRtxq (Some queue));
      ret credit
  end.

(** rtxq_push dereferences its argument without a check. *)
Definition rtxq_push (q : option positive) (skb : frame) : KM Z :=
  do a <- deref q;
  do v <- get_rtxq a;
  do queue <- deref (rq_queue v);
  do r <- rtxqueue_push queue skb;
  let '(queue, res) := r in
  do! put_rtxq a (mkRtxq (Some queue));
  ret res.

(** [(u32)con->rtxq->queue->len] *)
Definition rtxq_size (c : positive) : KM Z :=
  do k <- get_con c;
  do a <- deref (con_rtxq k);
  do v <- get_rtxq a;
  do queue <- deref (rq_queue v);
  ret (u32 (q_len queue)).

End Rtxq.
