(* ===== verification/Connection.v ===== *)
(** connection.h and connection.c: allocation of a connection, its place in the
    hash table of the server, its reference count, and its release; and the
    data-ready callbacks of server.c and ccn.c that queue a connection's work. *)

From Stdlib Require Import ZArith Lia.
From stdpp Require Import base list gmap.
From S2P Require Import Prelude Ints Types Setters Kernel Hash Rtxq.
Open Scope Z_scope.

Section Connection.
Context `{P : Platform}.

(** ** Flags *)

Definition lconnected (c : option positive) : KM bool :=
  match c with
  | None => ret false
  | Some c => do k <- get_con c; ret (truth (con_lflag k))
  end.

Definition rconnected (c : option positive) : KM bool :=
  match c with
  | None => ret false
  | Some c => do k <- get_con c; ret (truth (con_rflag k))
  end.

(** ** The hash table *)

(** HASH_BITS(htable): ilog2 of the number of buckets. *)
Definition HASH_BITS : Z := Z.log2 PEPDNA_HASH_BITS.

(** pepdna_hash(htable, key) *)
Definition pepdna_hash (key : Z) : nat := hash_min key HASH_BITS.

(** hash_add(htable, &con->hlist, key): at the head of its bucket. *)
Definition hash_add (c : positive) (key : Z) : KM unit :=
  do v <- get_srv;
  match srv_htable v !! pepdna_hash key with
  | None => throw OutOfBounds
  | Some b => upd_srv (set_srv_htable (<[pepdna_hash key := c :: b]> (srv_htable v)))
  end.

(** hlist_del(&con->hlist): unlinks the node from the bucket it is in; the node
    of a connection that is in none has a NULL back pointer. *)
Definition hlist_del (c : positive) : KM unit :=
  do v <- get_srv;
  if decide (c ∈ concat (srv_htable v)) then
    upd_srv (set_srv_htable (filter (fun d => d <> c) <$> srv_htable v))
  else throw NullDeref.

(** The walk over a bucket in pepdna_con_find. *)
Fixpoint bucket_find (l : list positive) (key : Z) : KM (option positive) :=
  match l with
  | [] => ret None
  | c :: next =>
      do k <- get_con c;
      if con_id k =? key then ret (Some c) else bucket_find next key
  end.

Definition pepdna_con_find (key : Z) : KM (option positive) :=
  do v <- get_srv;
  match srv_htable v !! pepdna_hash key with
  | None => throw OutOfBounds
  | Some head => bucket_find head key
  end.

(** ** Reference counting *)

Definition pepdna_con_get (c : positive) : KM unit :=
  upd_con c (fun k => set_con_kref (con_kref k + 1) k).

(** Releases one socket pointer of the connection. *)
Definition release_side (sk : con -> option positive)
    (clear : option positive -> con -> con) (c : positive) : KM unit :=
  do k <- get_con c;
  match sk k with
  | Some a => do! sock_release a; upd_con c (clear None)
  | None => ret tt
  end.

Definition pepdna_con_kref_release (c : positive) : KM unit :=
  do! release_side con_lsock set_con_lsock c;
  do! release_side con_rsock set_con_rsock c;
  do! hlist_del c;
  do! call Kfree;
  do! modify (fun s => set_st_cons (delete c (st_cons s)) s);
  upd_srv (fun v => set_srv_conns (srv_conns v - 1) v).

Definition pepdna_con_put (c : option positive) : KM unit :=
  match c with
  | None => ret tt
  | Some c =>
      do k <- get_con c;
      if 0 <? con_kref k then
        do! upd_con c (set_con_kref (con_kref k - 1));
        when (con_kref k - 1 =? 0) (pepdna_con_kref_release c)
      else ret tt
  end.

(** ** Allocation *)

(** The work functions INIT_WORK sets in the switch of pepdna_con_alloc, in the
    order l2r, r2l, tcfa; [None] is the default case. *)
Definition con_works (f : config) (mode : Z) : option (work_fn * work_fn * work_fn) :=
  match mode_of mode with
  | Some TCP2TCP => Some (WF_con_l2r_fwd, WF_con_r2l_fwd, WF_tcp_connect)
  | Some TCP2RINA =>
      if CONFIG_PEPDNA_RINA f
      then Some (WF_con_i2r_work, WF_con_r2i_work, WF_rina_flow_alloc) else None
  | Some RINA2TCP =>
      if CONFIG_PEPDNA_RINA f
      then Some (WF_con_i2r_work, WF_con_r2i_work, WF_tcp_connect) else None
  | Some RINA2RINA =>
      if CONFIG_PEPDNA_RINA f then Some (WF_null, WF_null, WF_null) else None
  | Some TCP2MINIP =>
      if CONFIG_PEPDNA_MINIP f
      then Some (WF_con_i2m_work, WF_con_m2i_work, WF_minip_handshake) else None
  | Some MINIP2TCP =>
      if CONFIG_PEPDNA_MINIP f
      then Some (WF_con_i2m_work, WF_con_m2i_work, WF_tcp_connect) else None
  | Some TCP2CCN =>
      if CONFIG_PEPDNA_CCN f
      then Some (WF_con_i2c_work, WF_con_c2i_work, WF_udp_open) else None
  | Some CCN2TCP | Some CCN2CCN =>
      if CONFIG_PEPDNA_CCN f then Some (WF_null, WF_null, WF_null) else None
  | None => None
  end.

(** The assignments of pepdna_con_alloc under CONFIG_PEPDNA_MINIP; false when
    the retransmission queue could not be created. *)
Definition con_init_minip (c : positive) : KM bool :=
  do! upd_con c (set_con_next_seq MINIP_FIRST_SEQ);
  do! upd_con c (set_con_last_acked MINIP_FIRST_SEQ);
  do! upd_con c (set_con_next_recv MINIP_FIRST_SEQ);
  do! upd_con c (set_con_window WINDOW_SIZE);
  do q <- rtxq_create;
  do! upd_con c (set_con_rtxq q);
  match q with
  | None => ret false
  | Some _ =>
      do! upd_con c (set_con_sending 1);
      do! upd_con c (set_con_dup_acks 0);
      do! upd_con c (set_con_rto 3000);
      do! upd_con c (set_con_srtt 0);
      do! upd_con c (set_con_rttvar 0);
      ret true
  end.

Definition pepdna_con_alloc (syn : syn_tuple) (skb : option sk_buff)
    (hash_id ts port_id : Z) : KM (option positive) :=
  do ok <- call (Kzalloc ObjCon);
  if negb ok then ret None
  else
    do c <- fresh_addr;
    do! modify (fun s => set_st_cons (<[c := zero_con]> (st_cons s)) s);
    do! upd_con c (set_con_kref 1);
    do copy <- match skb with
               | Some b => do ok <- call (SkbCopy b); ret (if ok then Some b else None)
               | None => ret None
               end;
    do! upd_con c (set_con_skb copy);
    do v <- get_srv;
    match con_works cfg (srv_mode v) with
    | None => ret None
    | Some (l2r, r2l, tcfa) =>
        do! upd_con c (set_con_l2r_fn l2r);
        do! upd_con c (set_con_r2l_fn r2l);
        do! upd_con c (set_con_tcfa_fn tcfa);
        do! upd_con c (set_con_id (u32 hash_id));
        do! upd_con c (set_con_ts (u64 ts));
        do! when (CONFIG_PEPDNA_RINA cfg)
              (do! upd_con c (set_con_port_id port_id);
               upd_con c (set_con_flow None));
        do up <- if CONFIG_PEPDNA_MINIP cfg then con_init_minip c else ret true;
        if negb up then
          do! call Kfree;
          do! modify (fun s => set_st_cons (delete c (st_cons s)) s);
          ret None
        else
          do! upd_srv (fun v => set_srv_conns (srv_conns v + 1) v);
          do! upd_con c (set_con_lsock None);
          do! upd_con c (set_con_rsock None);
          do! upd_con c (set_con_lflag 0);
          do! upd_con c (set_con_rflag 0);
          do! upd_con c (set_con_tuple syn);
          do! hash_add c (u32 hash_id);
          do v <- get_srv;
          do q <- queue_work (srv_tcfa_wq v) (TcfaWork c);
          do! when (negb q) (pepdna_con_put (Some c));
          ret (Some c)
    end.

(** ** Closing *)

(** [write_lock_bh; if (flag) sk->sk_user_data = NULL; write_unlock_bh;
    if (flag) kernel_sock_shutdown(sock)] *)
Definition close_side (a : positive) (flag : bool) : KM unit :=
  do _k <- get_sock a;
  when flag
    (do! upd_sock a (set_sk_user_data UD_null);
     call (KernelSockShutdown a)).

(** The right side under CONFIG_PEPDNA_RINA in a mode other than TCP2TCP. *)
Definition close_right_rina (c : positive) (flow : option positive)
    (rconnected : bool) : KM unit :=
  do! upd_con c (set_con_rflag 0);
  when rconnected
    (do! match flow with
         | Some f => do w <- call (FlowHasWqs f); when w (call (WakeUpReaders f))
         | None => ret tt
         end;
     cancel_work_sync (R2lWork c)).

Definition pepdna_con_close (con : option positive) : KM unit :=
  match con with
  | None => ret tt
  | Some c =>
      do k <- get_con c;
      let flow := con_flow k in
      match con_lsock k with
      | None => pepdna_con_put (Some c)
      | Some lsk =>
          let lconnected := truth (con_lflag k) in
          let rconnected := truth (con_rflag k) in
          do! upd_con c (set_con_lflag 0);
          do! close_side lsk lconnected;
          do v <- get_srv;
          if is_mode (srv_mode v) TCP2TCP then
            match con_rsock k with
            | None => pepdna_con_put (Some c)
            | Some rsk =>
                do! upd_con c (set_con_rflag 0);
                do! close_side rsk rconnected;
                pepdna_con_put (Some c)
            end
          else
            do! when (CONFIG_PEPDNA_RINA cfg) (close_right_rina c flow rconnected);
            if CONFIG_PEPDNA_MINIP cfg then
              do! del_timer c;
              if rconnected then ret tt
              else
                do _rc <- rtxq_destroy (con_rtxq k);
                pepdna_con_put (Some c)
            else pepdna_con_put (Some c)
      end
  end.

(** ** Callbacks of the sockets of a connection *)

(** pepdna_l2r_conn_data_ready and pepdna_r2l_conn_data_ready (server.c) *)
Definition pepdna_l2r_conn_data_ready (sk : positive) : KM unit :=
  do k <- get_sock sk;
  let con := match sk_user_data k with UD_con c => Some c | _ => None end in
  do up <- lconnected con;
  match con with
  | Some c =>
      when up
        (do! pepdna_con_get c;
         do v <- get_srv;
         do q <- queue_work (srv_l2r_wq v) (L2rWork c);
         when (negb q) (pepdna_con_put (Some c)))
  | None => ret tt
  end.

Definition pepdna_r2l_conn_data_ready (sk : positive) : KM unit :=
  do k <- get_sock sk;
  let con := match sk_user_data k with UD_con c => Some c | _ => None end in
  do up <- rconnected con;
  match con with
  | Some c =>
      when up
        (do! pepdna_con_get c;
         do v <- get_srv;
         do q <- queue_work (srv_r2l_wq v) (R2lWork c);
         when (negb q) (pepdna_con_put (Some c)))
  | None => ret tt
  end.

(** pepdna_udp_data_ready (ccn.c) *)
Definition pepdna_udp_data_ready (sk : positive) : KM unit :=
  do k <- get_sock sk;
  match sk_user_data k with
  | UD_con c =>
      do! pepdna_con_get c;
      do v <- get_srv;
      do q <- queue_work (srv_r2l_wq v) (R2lWork c);
      when (negb q) (pepdna_con_put (Some c))
  | _ => ret tt
  end.

(** A data-ready function called through a pointer, other than the listener's
    own, which would call itself without end. *)
Definition ready_call (f : ready_fn) (sk : positive) : KM unit :=
  match f with
  | DR_default => call (SockDefReadable sk)
  | DR_l2r => pepdna_l2r_conn_data_ready sk
  | DR_r2l => pepdna_r2l_conn_data_ready sk
  | DR_udp => pepdna_udp_data_ready sk
  | DR_listen => throw BugOn
  end.

(** pepdna_tcp_listen_data_ready (tcp_listen.c) *)
Definition pepdna_tcp_listen_data_ready (sk : positive) : KM unit :=
  do k <- get_sock sk;
  match sk_user_data k with
  | UD_null => ready_call (sk_data_ready k) sk
  | u =>
      do l <- call (SkStateIsListen sk);
      do! when l (do v <- get_srv;
                  do _q <- queue_work (srv_accept_wq v) AcceptWork;
                  ret tt);
      match u with
      | UD_ready f => ready_call f sk
      | _ => throw OutOfBounds
      end
  end.

(** [sk->sk_data_ready(sk)] *)
Definition sk_data_ready_call (sk : positive) : KM unit :=
  do k <- get_sock sk;
  match sk_data_ready k with
  | DR_listen => pepdna_tcp_listen_data_ready sk
  | f => ready_call f sk
  end.

End Connection.

Arguments pepdna_con_put {P} c : simpl never.
Arguments pepdna_con_close {P} con : simpl never.
