(* ===== verification/Tcp.v ===== *)
(** tcp.c: forwarding between two TCP sockets. *)

From Stdlib Require Import ZArith Lia.
From stdpp Require Import base list gmap.
From S2P Require Import Prelude Ints Types Setters Kernel TcpUtils Connection.
Open Scope Z_scope.

Section Tcp.
Context `{P : Platform}.

Definition pepdna_con_i2i_fwd (fuel : nat) (from to : option positive) : KM Z :=
  do ok <- call (Kzalloc (ObjBuf MAX_BUF_SIZE));
  if negb ok then ret (- ENOMEM)
  else
    do r <- kernel_recvmsg from MAX_BUF_SIZE;
    let '(read, buffer) := r in
    if 0 <? read then
      do sent <- pepdna_sock_write fuel to buffer read;
      if sent <? 0 then do! call Kfree; ret (- 1)
      else do! call Kfree; ret read
    else do! call Kfree; ret read.

(** The loop of the forwarding works of tcp.c, rina.c and minip.c: [up] is the
    flag they test, [fwd] forwards one buffer, [fail] is what they do when it
    returns neither a positive count nor -EAGAIN. *)
Definition fwd_loop (fuel : nat) (c : positive) (up : option positive -> KM bool)
    (fwd : KM Z) (fail : KM unit) : KM unit :=
  iter fuel (fun _ : unit =>
    do b <- up (Some c);
    if negb b then ret (inr tt)
    else
      do rc <- fwd;
      if rc <=? 0 then
        if rc =? - EAGAIN then ret (inr tt)
        else do! fail; ret (inl tt)
      else ret (inl tt)) tt.

Definition pepdna_con_r2l_fwd (fuel : nat) (c : positive) : KM unit :=
  do! fwd_loop fuel c rconnected
        (do k <- get_con c; pepdna_con_i2i_fwd fuel (con_rsock k) (con_lsock k))
        (pepdna_con_close (Some c));
  pepdna_con_put (Some c).

Definition pepdna_con_l2r_fwd (fuel : nat) (c : positive) : KM unit :=
  do! fwd_loop fuel c lconnected
        (do k <- get_con c; pepdna_con_i2i_fwd fuel (con_lsock k) (con_rsock k))
        (pepdna_con_close (Some c));
  pepdna_con_put (Some c).

End Tcp.
