(* ===== verification/Netlink.v ===== *)
(** netlink.h and netlink.c: the netlink socket to the flow allocator, the
    message exchanged with it, and the dispatch of incoming messages. *)

From Stdlib Require Import ZArith Lia.
From stdpp Require Import base list gmap.
From S2P Require Import Prelude Ints Types Setters Kernel.
Open Scope Z_scope.

Definition NETLINK_MSS : Z := 21.
Definition NL_SEND_RETRIES : Z := 3.
Definition NL_RCVBUF_DEF : Z := 8388608.
Definition NL_SNDBUF_DEF : Z := 8388608.
Definition NL_SOCK_SNDBUF_LOCK : Z := 1.
Definition NL_SOCK_RCVBUF_LOCK : Z := 2.

(** struct nl_msg, packed; fields in host byte order. *)
Record nl_msg : Type := mkNlMsg {
  nl_saddr : Z;
  nl_source : Z;
  nl_daddr : Z;
  nl_dest : Z;
  nl_id : Z;
  nl_port_id : Z;
  nl_alloc : bool
}.

(** Its memory image, what memcpy(NLMSG_DATA(nlh), data, sizeof(struct nl_msg))
    copies, and the cast back of NLMSG_DATA(nlh). *)
Definition nl_msg_bytes (m : nl_msg) : list Z :=
  le_bytes 4 (nl_saddr m) ++ le_bytes 2 (nl_source m) ++ le_bytes 4 (nl_daddr m)
  ++ le_bytes 2 (nl_dest m) ++ le_bytes 4 (nl_id m) ++ le_bytes 4 (u32 (nl_port_id m))
  ++ [if nl_alloc m then 1 else 0].

Definition nl_msg_of_bytes (b : list Z) : nl_msg :=
  mkNlMsg (le_val (take 4 b)) (le_val (take 2 (drop 4 b)))
    (le_val (take 4 (drop 6 b))) (le_val (take 2 (drop 10 b)))
    (le_val (take 4 (drop 12 b))) (s32 (le_val (take 4 (drop 16 b))))
    (truth (default 0 (b !! 20%nat))).

Section Netlink.
Context `{P : Platform}.

(** One attempt and its retries; [attempts] is the C variable, [n] bounds the
    retries that are left.  netlink_unicast dereferences the socket it is given. *)
Fixpoint nl_sendmsg_loop (n : nat) (m : nl_msg) (attempts : Z) : KM Z :=
  do ok <- call NlAllocSkb;
  if negb ok then ret (- ENOMEM)
  else
    do h <- call NlmsgPut;
    if negb h then do! call KfreeSkb; ret (- 1)
    else
      do nl <- gets st_nl_sock;
      do _sock <- deref nl;
      do pid <- gets st_nl_port_id;
      do rc <- call (NetlinkUnicast (nl_msg_bytes m) pid);
      if (rc =? - ECONNREFUSED) && (attempts <? NL_SEND_RETRIES) then
        match n with
        | O => out_of_fuel
        | S n' => nl_sendmsg_loop n' m (attempts + 1)
        end
      else ret rc.

Definition pepdna_nl_sendmsg (saddr source daddr dest id port_id : Z) (alloc : bool)
    : KM Z :=
  nl_sendmsg_loop (Z.to_nat NL_SEND_RETRIES)
    (mkNlMsg (ntohl saddr) (ntohs source) (ntohl daddr) (ntohs dest) id port_id alloc) 0.

(** The buffer sizes and lock bits set on the new socket. *)
Definition nl_sock_tune (k : sock) : sock :=
  let k := set_sk_userlocks (Z.lor (sk_userlocks k) NL_SOCK_SNDBUF_LOCK) k in
  let k := set_sk_sndbuf NL_SNDBUF_DEF k in
  let k := set_sk_userlocks (Z.lor (sk_userlocks k) NL_SOCK_RCVBUF_LOCK) k in
  set_sk_rcvbuf NL_RCVBUF_DEF k.

Definition pepdna_netlink_init : KM Z :=
  do! modify (set_st_nl_mode (param_mode cfg));
  do sk <- call NetlinkKernelCreate;
  do! modify (set_st_nl_sock sk);
  match sk with
  | None => ret (- ENOMEM)
  | Some k => do! modify (set_st_nl_sock (Some (nl_sock_tune k))); ret 0
  end.

Definition pepdna_netlink_stop : KM unit :=
  do sk <- gets st_nl_sock;
  match sk with
  | Some _ => do! call NetlinkKernelRelease; modify (set_st_nl_sock None)
  | None => ret tt
  end.

(** An incoming message: its length, the sender's port and its data.  The first
    message only tells the port of the allocator. *)
Record nl_skb : Type := mkNlSkb { nls_len : Z; nls_pid : Z; nls_data : list Z }.

(** nlmsg_total_size(0): the aligned length of a netlink header. *)
Definition nlmsg_total_size_0 : Z := 16.

(** The message behind the netlink header, cast to a struct nl_msg; the callbacks
    read all of it. *)
Definition nl_msg_data (skb : nl_skb) : KM nl_msg :=
  if Z.of_nat (length (nls_data skb)) <? NETLINK_MSS then throw OutOfBounds
  else ret (nl_msg_of_bytes (nls_data skb)).

Definition pepdna_nl_recv_msg (i2r r2i : nl_msg -> KM unit) (skb : nl_skb) : KM unit :=
  if nlmsg_total_size_0 <=? nls_len skb then
    do m <- gets st_nl_mode;
    do pid <- gets st_nl_port_id;
    let first := modify (set_st_nl_port_id (nls_pid skb)) in
    match mode_of m with
    | Some TCP2RINA =>
        when (CONFIG_PEPDNA_RINA cfg)
          (if pid =? - 1 then first else do data <- nl_msg_data skb; i2r data)
    | Some RINA2TCP =>
        when (CONFIG_PEPDNA_RINA cfg)
          (if pid =? - 1 then first else do data <- nl_msg_data skb; r2i data)
    | _ => ret tt
    end
  else ret tt.

End Netlink.
