(* ===== verification/Minip.v ===== *)
(** minip.h and minip.c: the MINIP protocol between two PEP-DNA nodes: frame
    construction, the sender (window, retransmission timeout, segmentation), the
    receiver, and the handlers of the six packet types. *)

From Stdlib Require Import ZArith Lia.
From stdpp Require Import base list gmap.
From S2P Require Import Prelude Ints Types Setters Kernel Hash TcpUtils Rtxq Connection Tcp.
Open Scope Z_scope.

(** ** Layout *)

(** sizeof(struct minip_hdr), packed, and sizeof(struct syn_tuple), with two
    bytes of padding behind each port. *)
Definition sizeof_minip_hdr : Z := 19.
Definition sizeof_syn_tuple : Z := 16.

(** The memory image of a struct syn_tuple written over the uninitialised
    buffer [old]: the padding keeps what was there. *)
Definition syn_bytes (old : list Z) (syn : syn_tuple) : list Z :=
  let pad i := default 0 (old !! i) in
  le_bytes 4 (syn_saddr syn) ++ le_bytes 2 (syn_source syn) ++ [pad 6%nat; pad 7%nat]
  ++ le_bytes 4 (syn_daddr syn) ++ le_bytes 2 (syn_dest syn) ++ [pad 14%nat; pad 15%nat].

Definition syn_of_bytes (b : list Z) : syn_tuple :=
  mkSyn (le_val (take 4 b)) (le_val (take 2 (drop 4 b)))
    (le_val (take 4 (drop 8 b))) (le_val (take 2 (drop 12 b))).

(** ** Pure parts *)

(** minip_update_cwnd *)
Definition minip_update_cwnd (k : con) : con :=
  let flight := u32 (con_next_seq k - u32 (con_last_acked k)) in
  let k :=
    if flight <=? WINDOW_SIZE then set_con_window (u8 (con_window k + 1)) k
    else if 0 <? con_window k then set_con_window (u8 (con_window k - 1)) k
    else k in
  if WINDOW_SIZE <? con_window k then set_con_window WINDOW_SIZE k else k.

(** minip_update_rto: [m] is a long, the fields are u32. *)
Definition minip_update_rto (k : con) (new_rtt : Z) : con :=
  let m := new_rtt in
  let k :=
    if truth (con_srtt k) then
      let m := s64 (m - Z.shiftr (con_srtt k) 3) in
      let k := set_con_srtt (u32 (con_srtt k + m)) k in
      let m := if m <? 0 then s64 (- m) else m in
      let m := s64 (m - Z.shiftr (con_rttvar k) 2) in
      set_con_rttvar (u32 (con_rttvar k + m)) k
    else
      let k := set_con_srtt (u32 (Z.shiftl m 3)) k in
      set_con_rttvar (u32 (Z.shiftl m 1)) k in
  set_con_rto (u32 (Z.shiftr (con_srtt k) 3 + con_rttvar k)) k.

Definition can_send (k : con) : bool :=
  if negb (truth (con_sending k)) || negb (truth (con_window k)) then false else true.

Section Minip.
Context `{P : Platform}.

(** ** Frames *)

(** The part the functions that send a frame share: find the device, allocate
    the buffer (answering [nomem] when there is none), build the device header,
    fill in the MINIP part of the uninitialised buffer and transmit. *)
Definition minip_xmit (nomem extra : Z) (to_mac : list Z)
    (fill : frame -> KM frame) : KM Z :=
  do d <- call DevGetByName;
  do dev <- deref d;
  do b <- call (AllocSkb (extra + sizeof_minip_hdr + dev_hlen dev + dev_tlen dev));
  match b with
  | None => ret nomem
  | Some old =>
      do rc <- call (DevHardHeader ETH_P_MINIP to_mac (extra + sizeof_minip_hdr));
      if rc <? 0 then do! call KfreeSkb; ret (- 1)
      else
        do f <- fill old;
        call (DevQueueXmit f)
  end.

Definition pepdna_minip_conn_delete (id : Z) (to_mac : list Z) : KM Z :=
  minip_xmit (- 1) 0 to_mac (fun old =>
    let h := f_hdr old in
    let h := set_h_pkt_type (pkt_val MINIP_CONN_DELETE) h in
    let h := set_h_sdu_len 0 h in
    let h := set_h_id (htonl id) h in
    ret (mkFrame h [])).

Definition pepdna_minip_conn_finished (id : Z) (to_mac : list Z) : KM Z :=
  minip_xmit (- 1) 0 to_mac (fun old =>
    let h := f_hdr old in
    let h := set_h_pkt_type (pkt_val MINIP_CONN_FINISHED) h in
    let h := set_h_sdu_len 0 h in
    let h := set_h_id (htonl id) h in
    ret (mkFrame h [])).

Definition pepdna_minip_send_response (id : Z) (to_mac : list Z) : KM Z :=
  minip_xmit (- 1) 0 to_mac (fun old =>
    let h := f_hdr old in
    let h := set_h_pkt_type (pkt_val MINIP_CONN_RESPONSE) h in
    let h := set_h_sdu_len 0 h in
    let h := set_h_id (htonl id) h in
    let h := set_h_seq (htonl MINIP_FIRST_SEQ) h in
    let h := set_h_ack (htonl (MINIP_FIRST_SEQ + 1)) h in
    ret (mkFrame h [])).

Definition pepdna_minip_send_ack (id ack : Z) (to_mac : list Z) (ts : Z) : KM Z :=
  minip_xmit (- 1) 0 to_mac (fun old =>
    let h := f_hdr old in
    let h := set_h_pkt_type (pkt_val MINIP_CONN_ACK) h in
    let h := set_h_sdu_len 0 h in
    let h := set_h_id (htonl id) h in
    let h := set_h_ack (htonl ack) h in
    let h := set_h_ts ts h in
    ret (mkFrame h [])).

Definition pepdna_minip_conn_request (saddr source daddr dest id : Z)
    (to_mac : list Z) : KM Z :=
  minip_xmit (- ENOMEM) sizeof_syn_tuple to_mac (fun old =>
    do now <- call JiffiesMsecs;
    let h := f_hdr old in
    let h := set_h_pkt_type (pkt_val MINIP_CONN_REQUEST) h in
    let h := set_h_sdu_len (u16 sizeof_syn_tuple) h in
    let h := set_h_id (htonl id) h in
    let h := set_h_seq (htonl MINIP_FIRST_SEQ) h in
    let h := set_h_ack (htonl MINIP_FIRST_SEQ) h in
    let h := set_h_ts (htonl (u32 now)) h in
    ret (mkFrame h (syn_bytes (f_data old) (mkSyn saddr source daddr dest)))).

(** The header pepdna_minip_skb_send writes over the uninitialised [h]. *)
Definition data_hdr (h : minip_hdr) (k : con) (len now : Z) : minip_hdr :=
  let h := set_h_pkt_type (pkt_val MINIP_CONN_DATA) h in
  let h := set_h_sdu_len (u16 len) h in
  let h := set_h_id (htonl (con_id k)) h in
  let h := set_h_seq (htonl (con_next_seq k)) h in
  set_h_ts (htonl (u32 now)) h.

Definition pepdna_minip_skb_send (c : positive) (buf : list Z) (len : Z) : KM Z :=
  do d <- call DevGetByName;
  do dev <- deref d;
  do b <- call (AllocSkb (len + sizeof_minip_hdr + dev_hlen dev + dev_tlen dev));
  match b with
  | None => ret (- ENOMEM)
  | Some old =>
      do v <- get_srv;
      do rc <- call (DevHardHeader ETH_P_MINIP (srv_to_mac v) (len + sizeof_minip_hdr));
      if rc <? 0 then do! call KfreeSkb; ret (- 1)
      else
        do k <- get_con c;
        do now <- call JiffiesMsecs;
        let skb := mkFrame (data_hdr (f_hdr old) k len now) buf in
        do cl <- call (SkbClone skb);
        if negb cl then do! call KfreeSkb; ret (- 1)
        else
          do rc <- rtxq_push (con_rtxq k) skb;
          if truth rc then
            do! call KfreeSkb; do! call KfreeSkb; ret (- 1)
          else call (DevQueueXmit skb)
  end.

(** ** The sender *)

(** The loop of pepdna_minip_conn_snd_data: [left] (here [togo]), [sent] and the last [rc]. *)
Definition snd_data_body (c : positive) (buf : list Z) (l : Z * Z * Z)
    : KM ((Z * Z * Z) + (Z * Z)) :=
  let '(togo, sent, rc) := l in
  if negb (truth togo) then ret (inr (sent, rc))
  else
    let copylen := Z.min togo MINIP_MSS in
    do rc <- pepdna_minip_skb_send c
               (take (Z.to_nat copylen) (drop (Z.to_nat sent) buf)) copylen;
    if rc <? 0 then ret (inr (sent, - EIO))
    else
      do! upd_con c (fun k => set_con_next_seq (u32 (con_next_seq k + 1)) k);
      do! upd_con c (fun k =>
            if 0 <? con_window k then set_con_window (u8 (con_window k - 1)) k else k);
      ret (inl (togo - copylen, sent + copylen, rc)).

(** Every round sends at least one byte, so [len] rounds and a last test are
    enough. *)
Definition pepdna_minip_conn_snd_data (c : positive) (buf : list Z) (len : Z) : KM Z :=
  do r <- iter (S (Z.to_nat len)) (snd_data_body c buf) (len, 0, 0);
  let '(sent, rc) := r in
  ret (if truth sent then s32 sent else rc).

Definition minip_sender_timeout (c : positive) : KM unit :=
  do n <- rtxq_size c;
  do k <- get_con c;
  do gone <-
    if truth n then
      do! upd_con c (set_con_sending 0);
      do! upd_con c (set_con_state RECOVERY);
      do rc <- rtxq_full_rtx (con_rtxq k) (u32 (u32 (con_last_acked k) + 1));
      if rc <? 0 then
        do v <- get_srv;
        do _rc <- pepdna_minip_conn_delete (con_id k) (srv_to_mac v);
        do! pepdna_con_close (Some c);
        ret true
      else ret false
    else ret false;
  if (gone : bool) then ret tt
  else do k <- get_con c; mod_timer c (con_rto k).

(** pepdna_con_i2minip_fwd *)
Definition pepdna_con_i2minip_fwd (c : positive) : KM Z :=
  do k <- get_con c;
  if negb (can_send k) then ret (- EAGAIN)
  else
    let how_much := MINIP_MSS * con_window k in
    do ok <- call (Kzalloc (ObjBuf how_much));
    if negb ok then ret (- ENOMEM)
    else
      do r <- kernel_recvmsg (con_lsock k) how_much;
      let '(read, buff) := r in
      if 0 <? read then
        do sent <- pepdna_minip_conn_snd_data c buff read;
        if sent <? 0 then do! call Kfree; ret (- 1)
        else do! call Kfree; ret read
      else do! call Kfree; ret read.

Definition pepdna_con_i2m_work (fuel : nat) (c : positive) : KM unit :=
  do! fwd_loop fuel c lconnected (pepdna_con_i2minip_fwd c)
        (do k <- get_con c;
         do v <- get_srv;
         do _rc <- pepdna_minip_conn_delete (con_id k) (srv_to_mac v);
         pepdna_con_close (Some c));
  pepdna_con_put (Some c).

(** The body of pepdna_con_m2i_work is commented out. *)
Definition pepdna_con_m2i_work (c : positive) : KM unit := ret tt.

(** pepdna_minip_handshake: the assignments after the failed request are made
    in every case. *)
Definition pepdna_minip_handshake (c : positive) : KM unit :=
  do k <- get_con c;
  do v <- get_srv;
  let t := con_tuple k in
  do rc <- pepdna_minip_conn_request (syn_saddr t) (syn_source t) (syn_daddr t)
             (syn_dest t) (con_id k) (srv_to_mac v);
  do! when (rc <? 0) (pepdna_con_close (Some c));
  do! upd_con c (set_con_state REQUEST_SENT);
  upd_con c (fun k => set_con_next_seq (u32 (con_next_seq k + 1)) k).

(** ** The receiver *)

(** Reinjection of the initial SYN, shared with tcp_connect.c and rina.c. *)
Definition reinject_syn (k : con) : KM unit :=
  if CONFIG_PEPDNA_LOCAL_SENDER cfg then
    do v <- get_srv;
    do l <- deref (srv_listener v);
    do _k <- get_sock l;
    do b <- deref (con_skb k);
    do _rc <- call (IpLocalOut b); ret tt
  else
    do b <- deref (con_skb k);
    do _rc <- call (NetifReceiveSkb b); ret tt.

(** pepdna_con_minip2i_fwd: [sdu_len] bytes are read from behind the header. *)
Definition pepdna_con_minip2i_fwd (fuel : nat) (c : positive) (skb : frame) : KM Z :=
  let hdr := f_hdr skb in
  do k <- get_con c;
  do read <-
    if ntohl (h_seq hdr) =? con_next_recv k then
      if Z.of_nat (length (f_data skb)) <? h_sdu_len hdr then throw OutOfBounds
      else
        do sent <- pepdna_sock_write fuel (con_lsock k)
                     (take (Z.to_nat (h_sdu_len hdr)) (f_data skb)) (h_sdu_len hdr);
        if sent <? 0 then ret (- 1)
        else
          do! upd_con c (fun k => set_con_next_recv (u32 (con_next_recv k + 1)) k);
          ret (h_sdu_len hdr)
    else ret (- EAGAIN);
  do k <- get_con c;
  do v <- get_srv;
  do _rc <- pepdna_minip_send_ack (con_id k) (con_next_recv k) (srv_to_mac v) (h_ts hdr);
  ret read.

Definition pepdna_minip_recv_data (fuel : nat) (skb : frame) : KM Z :=
  do con <- pepdna_con_find (ntohl (h_id (f_hdr skb)));
  match con with
  | None => ret (- 1)
  | Some c =>
      do rc <- pepdna_con_minip2i_fwd fuel c skb;
      do! when ((rc <=? 0) && negb (rc =? - EAGAIN))
            (do k <- get_con c;
             do v <- get_srv;
             do _rc <- pepdna_minip_conn_delete (con_id k) (srv_to_mac v);
             pepdna_con_close (Some c));
      ret 0
  end.

(** The branch of pepdna_minip_recv_ack for an ACK above last_acked. *)
Definition recv_good_ack (c : positive) (ack : Z) : KM Z :=
  do! upd_con c (set_con_dup_acks 0);
  do! upd_con c (set_con_last_acked (s32 (ack - 1)));
  do k <- get_con c;
  do credit <- rtxq_ack (con_rtxq k) ack;
  do k <- get_con c;
  do! when (con_state k =? RECOVERY)
        (do! upd_con c (set_con_sending 1);
         upd_con c (set_con_state ESTABLISHED));
  do! upd_con c (fun k => set_con_window (u8 (con_window k + credit)) k);
  do n <- rtxq_size c;
  do! when (n <? Z.shiftr WINDOW_SIZE 1) (upd_con c minip_update_cwnd);
  do k <- get_con c;
  do l <- deref (con_lsock k);
  do! sk_data_ready_call l;
  ret 0.

(** The branch for an ACK equal to last_acked. *)
Definition recv_dup_ack (c : positive) (ack : Z) : KM Z :=
  do! upd_con c (fun k => set_con_dup_acks (s32 (con_dup_acks k + 1)) k);
  do! upd_con c (set_con_state RECOVERY);
  do! upd_con c (set_con_sending 0);
  do k <- get_con c;
  if negb (con_dup_acks k =? 1) then ret 0
  else
    do rc <- rtxq_full_rtx (con_rtxq k) ack;
    do! when (rc <? 0)
          (do v <- get_srv;
           do _rc <- pepdna_minip_conn_delete (con_id k) (srv_to_mac v);
           pepdna_con_close (Some c));
    ret 0.

Definition pepdna_minip_recv_ack (skb : frame) : KM Z :=
  let hdr := f_hdr skb in
  do con <- pepdna_con_find (ntohl (h_id hdr));
  match con with
  | None => ret (- 1)
  | Some c =>
      let ack := ntohl (h_ack hdr) in
      do k <- get_con c;
      if ack <? u32 (con_last_acked k) then ret 0
      else
        do now <- call JiffiesMsecs;
        let rtt := u32 (u32 now - ntohl (h_ts hdr)) in
        do! when (truth (h_ts hdr) && truth rtt)
              (upd_con c (fun k => minip_update_rto k rtt));
        do k <- get_con c;
        do! mod_timer c (con_rto k);
        if u32 (con_last_acked k) <? ack then recv_good_ack c ack
        else if u32 (con_last_acked k) =? ack then recv_dup_ack c ack
        else ret 0
  end.

Definition pepdna_minip_recv_finished (skb : frame) : KM Z :=
  do con <- pepdna_con_find (ntohl (h_id (f_hdr skb)));
  match con with
  | None => ret (- 1)
  | Some c =>
      do! upd_con c (set_con_rflag 0);
      do! pepdna_con_close (Some c);
      ret 0
  end.

Definition pepdna_minip_recv_delete (skb : frame) : KM Z :=
  do con <- pepdna_con_find (ntohl (h_id (f_hdr skb)));
  match con with
  | None => ret (- 1)
  | Some c =>
      do k <- get_con c;
      do v <- get_srv;
      do _rc <- pepdna_minip_conn_finished (con_id k) (srv_to_mac v);
      do! upd_con c (set_con_rflag 0);
      do! pepdna_con_close (Some c);
      ret 0
  end.

Definition pepdna_minip_recv_response (skb : frame) : KM Z :=
  do con <- pepdna_con_find (ntohl (h_id (f_hdr skb)));
  match con with
  | None => ret (- 1)
  | Some c =>
      do! upd_con c (set_con_rflag 1);
      do! upd_con c (fun k => set_con_last_acked (s32 (con_last_acked k + 1)) k);
      do! upd_con c (set_con_state ESTABLISHED);
      do! upd_con c (fun k => set_con_next_recv (u32 (con_next_recv k + 1)) k);
      do k <- get_con c;
      do! reinject_syn k;
      ret 0
  end.

Definition pepdna_minip_recv_request (skb : frame) : KM Z :=
  if Z.of_nat (length (f_data skb)) <? sizeof_syn_tuple then throw OutOfBounds
  else
    let syn := syn_of_bytes (f_data skb) in
    let hash := pepdna_hash32_rjenkins1_2 (syn_saddr syn) (syn_source syn) in
    do con <- pepdna_con_alloc syn None hash 0 0;
    match con with
    | None => ret (- 1)
    | Some _ => ret 0
    end.

Definition pepdna_minip_recv_packet (fuel : nat) (a : positive) : KM Z :=
  do skb <- get_skb a;
  do rc <- match pkt_of (h_pkt_type (f_hdr skb)) with
           | Some MINIP_CONN_REQUEST => pepdna_minip_recv_request skb
           | Some MINIP_CONN_RESPONSE => pepdna_minip_recv_response skb
           | Some MINIP_CONN_DATA => pepdna_minip_recv_data fuel skb
           | Some MINIP_CONN_ACK => pepdna_minip_recv_ack skb
           | Some MINIP_CONN_DELETE => pepdna_minip_recv_delete skb
           | Some MINIP_CONN_FINISHED => pepdna_minip_recv_finished skb
           | None => ret 0
           end;
  do! kfree_rx_skb a;
  ret rc.

End Minip.
