(* ===== verification/Rina.v ===== *)
(** rina.h and rina.c: forwarding between a TCP socket and a RINA flow, and the
    netlink callbacks that tell the module about allocated flows.  The flow
    belongs to the RINA stack: its state, its wait queues and its queue of SDUs
    are asked of the environment each time the code looks at them. *)

From Stdlib Require Import ZArith Lia.
From stdpp Require Import base list gmap.
From S2P Require Import Prelude Ints Types Setters Kernel Hash TcpUtils Connection Tcp.
From S2P Require Import Netlink Minip Rds.
Open Scope Z_scope.

Definition FLOW_POLL_TIMEOUT : Z := 100.

Section Rina.
Context `{P : Platform}.

(** ** Waiting for data *)

Definition flow_is_ok (flow : option positive) : KM bool :=
  match flow with
  | None => ret false
  | Some f =>
      do w <- call (FlowHasWqs f);
      if negb w then ret false
      else
        do s1 <- call (FlowState f);
        if s1 =? PORT_STATE_ALLOCATED then ret true
        else
          do s2 <- call (FlowState f);
          ret (s2 =? PORT_STATE_DISABLED)
  end.

Definition rfifo_is_empty (flow : option positive) : KM bool :=
  do f <- deref flow; call (RfifoIsEmpty f).

Definition queue_is_ready (flow : option positive) : KM bool :=
  do ok <- flow_is_ok flow;
  if negb ok then ret true
  else do e <- rfifo_is_empty flow; ret (negb e).

(** The loop: [inl] is the return inside it, [inr] the value it breaks with. *)
Definition wait_for_sdu_body (flow : option positive) (timeo : Z)
    : KM (Z + (Z + Z)) :=
  do ok <- flow_is_ok flow;
  if negb ok then ret (inr (inl (- ESHUTDOWN)))
  else
    do f <- deref flow;
    do! call (PrepareToWait f);
    do e <- if truth timeo then rfifo_is_empty flow else ret false;
    do timeo <- if (e : bool) then call (ScheduleTimeout timeo) else ret timeo;
    do r <- if negb (truth timeo) then ret true else queue_is_ready flow;
    if (r : bool) then ret (inr (inr timeo))
    else
      do sig <- call SignalPending;
      if sig then ret (inr (inr (- ERESTARTSYS))) else ret (inl timeo).

Definition pepdna_wait_for_sdu (fuel : nat) (flow : option positive) : KM Z :=
  do timeo <- call (UsecsToJiffies FLOW_POLL_TIMEOUT);
  do r <- iter fuel (wait_for_sdu_body flow) timeo;
  match r with
  | inl e => ret e
  | inr timeo =>
      do ok <- flow_is_ok flow;
      if ok then do f <- deref flow; do! call (FinishWait f); ret timeo
      else ret (- ESHUTDOWN)
  end.

(** ** Writing to a flow *)

(** The loop: [left] (here [togo]) and [sent]; the result is [sent] and [rc]. *)
Definition flow_write_body (f : positive) (pid max : Z) (buf : list Z) (l : Z * Z)
    : KM ((Z * Z) + (Z * Z)) :=
  let '(togo, sent) := l in
  if negb (truth togo) then ret (inr (sent, 0))
  else
    let copylen := Z.min togo max in
    do du <- call (DuCreate copylen);
    if negb du then ret (inr (sent, - ENOMEM))
    else
      do w <- call (DuWrite f pid (take (Z.to_nat copylen) (drop (Z.to_nat sent) buf)));
      if truth w then ret (inr (sent, - EIO))
      else ret (inl (togo - copylen, sent + copylen)).

(** [flow->state] is an unsigned enumeration. *)
Definition pepdna_flow_write (flow : option positive) (pid : Z) (buf : list Z) (len : Z)
    : KM Z :=
  match flow with
  | None => ret (- EBADF)
  | Some f =>
      do s <- call (FlowState f);
      if u32 s <? 0 then ret (- ESHUTDOWN)
      else
        do max <- call (MaxSduSize f);
        do r <- iter (S (Z.to_nat len)) (flow_write_body f pid max buf) (len, 0);
        let '(sent, rc) := r in
        ret (if truth sent then s32 sent else rc)
  end.

(** ** Flow allocation *)

Definition pepdna_rina_flow_alloc (c : positive) : KM unit :=
  do k <- get_con c;
  let t := con_tuple k in
  do rc <- pepdna_nl_sendmsg (syn_saddr t) (syn_source t) (syn_daddr t) (syn_dest t)
             (con_id k) (con_port_id k) true;
  when (rc <? 0) (pepdna_con_close (Some c)).

Definition flow_is_ready (c : positive) : KM bool :=
  do k <- get_con c;
  do flow <- call (KfaFlowFindByPid (con_port_id k));
  match flow with
  | None => ret false
  | Some f =>
      do! upd_con c (set_con_flow (Some f));
      do! call (SetFlowState f PORT_STATE_ALLOCATED);
      ret (truth (con_port_id k))
  end.

Definition pepdna_flow_set_iowqs (f : positive) : KM Z :=
  do ok <- call (Kzalloc ObjIowaitqs);
  if negb ok then ret (- ENOMEM)
  else do! call (SetFlowWqs f); ret 0.

(** [if (!con->flow->wqs) pepdna_flow_set_iowqs(con->flow)] *)
Definition ensure_iowqs (c : positive) : KM unit :=
  do k <- get_con c;
  do f <- deref (con_flow k);
  do w <- call (FlowHasWqs f);
  when (negb w) (do _rc <- pepdna_flow_set_iowqs f; ret tt).

(** ** Forwarding *)

Definition pepdna_con_rina2i_fwd (fuel : nat) (c : positive) : KM Z :=
  do k <- get_con c;
  let port_id := con_port_id k in
  do irq <- call InInterrupt;
  if irq then throw BugOn
  else
    do early <- iter fuel (fun _ : unit =>
      do up <- rconnected (Some c);
      if negb up then ret (inr false)
      else
        do k <- get_con c;
        do timeo <- pepdna_wait_for_sdu fuel (con_flow k);
        if 0 <? timeo then ret (inr false)
        else if (timeo =? - ERESTARTSYS) || (timeo =? - ESHUTDOWN) || (timeo =? - EINTR)
        then ret (inr true)
        else ret (inl tt)) tt;
    if (early : bool) then ret (- 1)
    else
      do r <- call (KfaFlowDuRead port_id MAX_SDU_SIZE);
      let '(read, du) := r in
      if read <=? 0 then ret read
      else
        match du with
        | None => ret (- EIO)
        | Some b =>
            do sent <- pepdna_sock_write fuel (con_lsock k) b read;
            do! call DuDestroy;
            ret (if sent <? 0 then - 1 else read)
        end.

Definition pepdna_con_i2rina_fwd (c : positive) : KM Z :=
  do k <- get_con c;
  do ok <- call (Kzalloc (ObjBuf MAX_BUF_SIZE));
  if negb ok then ret (- ENOMEM)
  else
    do r <- kernel_recvmsg (con_lsock k) MAX_BUF_SIZE;
    let '(read, buffer) := r in
    if 0 <? read then
      do sent <- pepdna_flow_write (con_flow k) (con_port_id k) buffer read;
      if sent <? 0 then do! call Kfree; ret (- 1)
      else do! call Kfree; ret read
    else do! call Kfree; ret read.

Definition pepdna_con_i2r_work (fuel : nat) (c : positive) : KM unit :=
  do! fwd_loop fuel c lconnected (pepdna_con_i2rina_fwd c)
        (do k <- get_con c;
         do _rc <- pepdna_nl_sendmsg 0 0 0 0 (con_id k) (con_port_id k) false;
         pepdna_con_close (Some c));
  pepdna_con_put (Some c).

Definition pepdna_con_r2i_work (fuel : nat) (c : positive) : KM unit :=
  do! iter fuel (fun _ : unit =>
        do up <- rconnected (Some c);
        if negb up then ret (inr tt)
        else
          do rc <- pepdna_con_rina2i_fwd fuel c;
          do! when (rc <=? 0)
                (if rc =? - EAGAIN then call CondResched
                 else do! upd_con c (set_con_rflag 0); pepdna_con_close (Some c));
          ret (inl tt)) tt;
  pepdna_con_put (Some c).

(** ** Netlink callbacks *)

(** The test after kzalloc is IS_ERR, which a NULL pointer passes. *)
Definition nl_r2i_callback (m : nl_msg) : KM unit :=
  if nl_alloc m then
    do ok <- call (Kzalloc ObjSyn);
    if negb ok then throw NullDeref
    else
      let syn := mkSyn (htonl (nl_saddr m)) (htons (nl_source m))
                   (htonl (nl_daddr m)) (htons (nl_dest m)) in
      let hash_id := pepdna_hash32_rjenkins1_2 (syn_saddr syn) (syn_source syn) in
      do _con <- pepdna_con_alloc syn None hash_id 0 (nl_port_id m);
      call Kfree
  else
    do con <- pepdna_con_find (nl_id m);
    match con with
    | None => ret tt
    | Some c =>
        do ready <- flow_is_ready c;
        when ready
          (do! ensure_iowqs c;
           do! upd_con c (set_con_rflag 1);
           do! upd_con c (set_con_lflag 1);
           do! pepdna_con_get c;
           do v <- get_srv;
           do q <- queue_work (srv_r2l_wq v) (R2lWork c);
           if negb q then pepdna_con_put (Some c)
           else
             do k <- get_con c;
             do l <- deref (con_lsock k);
             sk_data_ready_call l)
    end.

Definition nl_i2r_callback (m : nl_msg) : KM unit :=
  do con <- pepdna_con_find (nl_id m);
  match con with
  | None => ret tt
  | Some c =>
      do! upd_con c (set_con_port_id (nl_port_id m));
      do ready <- flow_is_ready c;
      when ready
        (do! upd_con c (set_con_rflag 1);
         do! ensure_iowqs c;
         do k <- get_con c;
         reinject_syn k)
  end.

End Rina.
