(* ===== verification/Ccn.v ===== *)
(** ccn.c: forwarding of an HTTP request as a CCN interest, over a UDP socket to
    a CCN relay.  The construction of names and interests is in [CcnLib]. *)

From Stdlib Require Import ZArith Lia.
From stdpp Require Import base list gmap.
From S2P Require Import Prelude Ints Types Setters Kernel Hash TcpUtils Connection Tcp.
From S2P Require Import ByteMem NdnTlv CcnPrefix CcnLib.
Open Scope Z_scope.

Definition INADDR_LOOPBACK : Z := 0x7f000001.

(** ** C strings: the bytes before the first NUL *)

Fixpoint c_str (l : list Z) : list Z :=
  match l with
  | c :: l' => if c =? 0 then [] else c :: c_str l'
  | [] => []
  end.

(** strstr(s, "GET"): the string from the first occurrence on. *)
Definition GET : list Z := [71; 69; 84].

Fixpoint strstr_GET (s : list Z) : option (list Z) :=
  if decide (take 3 s = GET) then Some s
  else match s with
       | _ :: s' => strstr_GET s'
       | [] => None
       end.

(** The word at the head of a string and what follows it. *)
Fixpoint scan_word (s : list Z) : list Z * list Z :=
  match s with
  | c :: s' => if is_space c then ([], s)
               else let '(w, r) := scan_word s' in (c :: w, r)
  | [] => ([], [])
  end.

(** "/ndn/test/" *)
Definition url_prefix : list Z := [47; 110; 100; 110; 47; 116; 101; 115; 116; 47].

(** sscanf(pos, "%*s %s", content): what is stored; nothing is when the string ends
    before the second word. *)
Definition scan_content (pos : list Z) : option (list Z) :=
  let '(_, rest) := scan_word pos in
  let '(w, _) := scan_word (skip_spaces rest) in
  match w with [] => None | _ => Some w end.

(** The arrays [content] and [url] of pepdna_fwd_request, all zero. *)
Definition sizeof_url : nat := 32.
Definition zero_array : list Z := replicate sizeof_url 0.

(** strcpy of the string [s] to the position [i] of an array. *)
Definition strcpy_at (i : Z) (s : list Z) : BM unit := wr_bytes i (s ++ [0]).

Section Ccn.
Context `{P : Platform}.

(** parse_request: the arrays [content] and [url] afterwards. *)
Definition parse_request (request content url : list Z) : KM (list Z * list Z) :=
  do '(_, url) <- on_buffer url (strcpy_at 0 url_prefix);
  do content <- match strstr_GET (c_str request) with
                | Some pos =>
                    match scan_content pos with
                    | Some w => do '(_, content) <- on_buffer content (strcpy_at 0 w); ret content
                    | None => ret content
                    end
                | None => ret content
                end;
  do '(_, url) <- on_buffer url (strcpy_at (zlen (c_str url)) (c_str content));
  ret (content, url).

(** Of the options only the nonce is set; mustbefresh and interestlifetime are what
    the stack held. *)
Definition pepdna_send_to_ccn_relay (sock : option positive) (content : list Z) : KM Z :=
  do prefix <- ccnl_URItoPrefixK content CCNL_SUITE_NDNTLV None;
  do nonce <- call PrandomU32;
  do junk <- call StackOpts;
  let opts := mkIOpts (s32 nonce) (u8 (fst junk)) (u32 (snd junk)) in
  do buf <- ccnl_mkSimpleInterestK prefix opts;
  match buf with
  | None => ret (- 1)
  | Some b => kernel_sendmsg sock b
  end.

Definition pepdna_fwd_request (from to : option positive) : KM Z :=
  do ok <- call (Kzalloc (ObjBuf MAX_BUF_SIZE));
  if negb ok then ret (- ENOMEM)
  else
    do r <- kernel_recvmsg from MAX_BUF_SIZE;
    let '(rc, buffer) := r in
    if 0 <? rc then
      if MAX_BUF_SIZE <=? rc then throw OutOfBounds
      else
        do '(_, url) <- parse_request (take (Z.to_nat rc) buffer ++ [0]) zero_array zero_array;
        do rc <- pepdna_send_to_ccn_relay to (c_str url);
        do! modify (set_st_request_done true);
        do! call Kfree;
        ret rc
    else do! call Kfree; ret rc.

Definition pepdna_udp_open (c : positive) : KM unit :=
  do r <- call (SockCreateKern false);
  let '(rc, k0) := r in
  if rc <? 0 then ret tt
  else
    do sk <- new_sock k0;
    do k <- get_con c;
    let daddr := if CONFIG_PEPDNA_LOCALHOST cfg then htonl INADDR_LOOPBACK
                 else syn_daddr (con_tuple k) in
    do! upd_sock sk (set_sk_reuse 1);
    do! pepdna_set_bufsize sk;
    do! when (CONFIG_PEPDNA_LOCALHOST cfg) (pepdna_set_mark sk PEPDNA_SOCK_MARK);
    do rc <- call (KernelConnect sk daddr (syn_dest (con_tuple k)));
    if rc <? 0 then
      do! sock_release sk;
      pepdna_con_put (Some c)
    else
      do _ok <- call (Kzalloc ObjIpStr);
      do! call Kfree;
      do! upd_con c (set_con_rsock (Some sk));
      do! upd_sock sk (set_sk_data_ready DR_udp);
      do! upd_sock sk (set_sk_user_data (UD_con c));
      do k <- get_con c;
      do b <- deref (con_skb k);
      do _rc <- call (NetifReceiveSkb b);
      ret tt.

Definition pepdna_con_c2i_work (fuel : nat) (c : positive) : KM unit :=
  do! iter fuel (fun _ : unit =>
        do up <- lconnected (Some c);
        if negb up then ret (inr tt)
        else
          do k <- get_con c;
          do rc <- pepdna_con_i2i_fwd fuel (con_rsock k) (con_lsock k);
          if rc <=? 0 then
            if rc =? - EAGAIN then ret (inr tt)
            else do! pepdna_con_close (Some c); ret (inr tt)
          else ret (inl tt)) tt;
  pepdna_con_put (Some c).

Definition pepdna_con_i2c_work (fuel : nat) (c : positive) : KM unit :=
  do! iter fuel (fun _ : unit =>
        do up <- lconnected (Some c);
        if negb up then ret (inr tt)
        else
          do k <- get_con c;
          do done <- gets st_request_done;
          if negb done then
            do rc <- pepdna_fwd_request (con_lsock k) (con_rsock k);
            if rc <=? 0 then do! pepdna_con_close (Some c); ret (inr tt)
            else ret (inl tt)
          else
            do rc <- pepdna_con_i2i_fwd fuel (con_lsock k) (con_rsock k);
            if rc <=? 0 then
              if rc =? - EAGAIN then ret (inr tt)
              else do! pepdna_con_close (Some c); ret (inr tt)
            else ret (inl tt)) tt;
  pepdna_con_put (Some c).

End Ccn.
