(* ===== verification/Request.v ===== *)
(** The HTTP request the CCN gateway reads: what word a client asks for, as a relation
    between strings, and that parse_request finds this word, and overruns its arrays
    when it is too long. *)

From Stdlib Require Import ZArith Lia.
From stdpp Require Import base list gmap.
From S2P Require Import Prelude Ints Types Setters Kernel ByteMem NdnTlv CcnPrefix CcnLib.
From S2P Require Import Hash TcpUtils Connection Tcp Ccn.
Open Scope Z_scope.

(** ** What is asked for *)

Definition space (c : Z) : Prop := is_space c = true.
Definition no_space (c : Z) : Prop := is_space c = false.

(** [l] is empty or starts with a character of the kind [Q]. *)
Definition starts (Q : Z -> Prop) (l : list Z) : Prop := forall c, head l = Some c -> Q c.

Definition contains (t s : list Z) : Prop := exists a b, s = a ++ t ++ b.

(** The string [s] asks for [w]: the word behind the first "GET", which may have more
    characters attached; nothing when there is no "GET" or no second word. *)
Inductive asks (s : list Z) : list Z -> Prop :=
| asks_nothing : ~ contains GET s -> asks s []
| asks_word pre verb gap w rest :
    s = pre ++ GET ++ verb ++ gap ++ w ++ rest ->
    ~ contains GET (pre ++ [71; 69]) ->
    Forall no_space verb -> Forall space gap -> Forall no_space w -> starts space rest ->
    (gap = [] -> w = []) -> (w = [] -> rest = []) ->
    asks s w.

(** ** Words *)

Lemma starts_app_nil Q : starts Q [].
Proof. by intros c. Qed.

Lemma scan_word_app w r :
  Forall no_space w -> starts space r -> scan_word (w ++ r) = (w, r).
Proof.
  intros Hw Hr. induction Hw as [|c w Hc _ IH]; cbn [app scan_word].
  - destruct r as [|c r]; [done|]. cbn. by rewrite (Hr c eq_refl).
  - by rewrite Hc, IH.
Qed.

Lemma scan_word_split s :
  exists w r, scan_word s = (w, r) /\ s = w ++ r /\ Forall no_space w /\ starts space r.
Proof.
  induction s as [|c s (w & r & IH & -> & Hw & Hr)]; cbn [scan_word].
  - exists [], []. split_and!; [done|done|constructor|apply starts_app_nil].
  - destruct (is_space c) eqn:E.
    + exists [], (c :: w ++ r). split_and!; [done|done|constructor|]. by intros c' [= <-].
    + exists (c :: w), r. rewrite IH. split_and!; [done|done|by constructor|done].
Qed.

Lemma skip_spaces_app g r :
  Forall space g -> starts no_space r -> skip_spaces (g ++ r) = r.
Proof.
  intros Hg Hr. induction Hg as [|c g Hc _ IH]; cbn [app skip_spaces].
  - destruct r as [|c r]; [done|]. cbn. by rewrite (Hr c eq_refl).
  - by rewrite Hc.
Qed.

Lemma skip_spaces_split s :
  exists g, s = g ++ skip_spaces s /\ Forall space g /\ starts no_space (skip_spaces s).
Proof.
  induction s as [|c s (g & Hs & Hg & Hr)]; cbn [skip_spaces].
  - exists []. split_and!; [done|constructor|apply starts_app_nil].
  - destruct (is_space c) eqn:E.
    + exists (c :: g). split_and!; [by rewrite Hs at 1|by constructor|done].
    + exists []. split_and!; [done|constructor|]. by intros c' [= <-].
Qed.

Lemma starts_app Q a b : starts Q a -> (a = [] -> starts Q b) -> starts Q (a ++ b).
Proof. intros Ha Hb. destruct a as [|c a]; [by apply Hb|exact Ha]. Qed.

Lemma Forall_starts Q a : Forall Q a -> starts Q a.
Proof. intros [|c a' Hc _] d; [done|]. by intros [= <-]. Qed.

(** sscanf on a string of the shape of [asks_word]. *)
Lemma scan_content_word verb gap w rest :
  Forall no_space verb -> Forall space gap -> Forall no_space w -> starts space rest ->
  (gap = [] -> w = []) -> (w = [] -> rest = []) ->
  default [] (scan_content (GET ++ verb ++ gap ++ w ++ rest)) = w.
Proof.
  intros Hv Hg Hw Hr Hgw Hwr. unfold scan_content. rewrite app_assoc.
  rewrite scan_word_app.
  - rewrite skip_spaces_app; [|done|].
    + rewrite scan_word_app by done. by destruct w.
    + apply starts_app; [by apply Forall_starts|]. intros Hn. rewrite (Hwr Hn). apply starts_app_nil.
  - apply Forall_app. split; [by repeat constructor|done].
  - apply starts_app; [by apply Forall_starts|]. intros Hn. pose proof (Hgw Hn) as Hw0.
    rewrite Hw0, (Hwr Hw0). apply starts_app_nil.
Qed.

Lemma scan_content_split b :
  exists verb gap rest, let w := default [] (scan_content (GET ++ b)) in
    b = verb ++ gap ++ w ++ rest /\ Forall no_space verb /\ Forall space gap /\
    Forall no_space w /\ starts space rest /\ (gap = [] -> w = []) /\ (w = [] -> rest = []).
Proof.
  unfold scan_content. destruct (scan_word_split b) as (verb & r & Hb & -> & Hv & Hr).
  rewrite app_assoc, scan_word_app by (done || (apply Forall_app; split; [by repeat constructor|done])).
  destruct (skip_spaces_split r) as (gap & Hg & Hgs & Hs).
  destruct (scan_word_split (skip_spaces r)) as (w & rest & Hw & Hwr & Hws & Hrs).
  rewrite Hw. exists verb, gap, rest. replace (default [] match w with [] => None | _ => Some w end)
    with w by by destruct w.
  assert (w = [] -> rest = []) as Hnil.
  { intros ->. cbn in Hwr. rewrite Hwr in Hs. destruct rest as [|c rest]; [done|].
    pose proof (Hs c eq_refl) as H1. pose proof (Hrs c eq_refl) as H2. unfold space, no_space in *. congruence. }
  split_and!; try done; [by rewrite <- Hwr, <- Hg|].
  intros ->. cbn in Hg. rewrite <- Hg in Hwr. destruct w as [|c w]; [done|]. exfalso.
  rewrite Hwr in Hr. pose proof (Hr c eq_refl) as H1. apply Forall_cons in Hws as [H2 _].
  unfold space, no_space in *. congruence.
Qed.

(** ** The first "GET" *)

Lemma take_GET s : take 3 s = GET <-> exists b, s = GET ++ b.
Proof.
  split; [|by intros [b ->]]. intros H. exists (drop 3 s). by rewrite <- H, take_drop.
Qed.

(** An occurrence at the front is in the part before an earlier end. *)
Lemma first_contains x pre b :
  take 3 (x :: pre ++ GET ++ b) = GET -> contains GET ((x :: pre) ++ [71; 69]).
Proof.
  intros H. exists [], (drop 3 ((x :: pre) ++ [71; 69])).
  rewrite <- (take_drop 3 ((x :: pre) ++ [71; 69])) at 1. cbn [app]. f_equal.
  rewrite <- H. symmetry. change (pre ++ GET ++ b) with (pre ++ [71; 69] ++ 84 :: b).
  rewrite (app_assoc pre). apply (take_app_le (x :: pre ++ [71; 69])).
  cbn [length]. rewrite length_app. cbn. lia.
Qed.

Lemma contains_cons x s : contains GET s -> contains GET (x :: s).
Proof. intros (a & b & ->). by exists (x :: a), b. Qed.

Lemma strstr_first pre b :
  ~ contains GET (pre ++ [71; 69]) -> strstr_GET (pre ++ GET ++ b) = Some (GET ++ b).
Proof.
  induction pre as [|x pre IH]; intros Hn; [done|]. cbn [app strstr_GET]. rewrite decide_False.
  - apply IH. intros H. apply Hn. cbn [app]. by apply contains_cons.
  - intros H. apply Hn. by apply first_contains in H.
Qed.

Lemma strstr_none s : ~ contains GET s -> strstr_GET s = None.
Proof.
  induction s as [|x s IH]; intros Hn; [done|]. cbn [strstr_GET]. rewrite decide_False.
  - apply IH. intros H. by apply Hn, contains_cons.
  - intros [b H]%take_GET. apply Hn. by exists [], b.
Qed.

Lemma not_contains_short : ~ contains GET [71; 69].
Proof. intros (a & b & H). apply (f_equal length) in H. rewrite !length_app in H. cbn in H. lia. Qed.

Lemma strstr_split s :
  match strstr_GET s with
  | Some pos => exists pre b, pos = GET ++ b /\ s = pre ++ GET ++ b /\ ~ contains GET (pre ++ [71; 69])
  | None => ~ contains GET s
  end.
Proof.
  induction s as [|x s IH]; cbn [strstr_GET].
  - rewrite decide_False by done. intros (a & b & H). by destruct a.
  - case_decide as Ht.
    + apply take_GET in Ht as [b Hb]. exists [], b. split_and!; [done|done|exact not_contains_short].
    + destruct (strstr_GET s) as [pos|].
      * destruct IH as (pre & b & -> & -> & Hn). exists (x :: pre), b. split_and!; [done|done|].
        intros (a & c & H). destruct a as [|y a]; cbn [app] in H.
        -- apply Ht. apply take_GET. exists (drop 3 (x :: pre ++ [71; 69]) ++ 84 :: b).
           change (GET ++ b) with ([71; 69] ++ 84 :: b). rewrite (app_assoc pre), app_comm_cons.
           rewrite H. done.
        -- injection H as -> H. apply Hn. by exists a, c.
      * intros (a & c & H). destruct a as [|y a]; cbn [app] in H.
        -- apply Ht. by rewrite H.
        -- injection H as -> H. apply IH. by exists a, c.
Qed.

(** ** The parser *)

(** What sscanf leaves in the empty array [content]. *)
Definition found (s : list Z) : list Z := default [] (pos ← strstr_GET s; scan_content pos).

Lemma found_asks s : asks s (found s).
Proof.
  unfold found. pose proof (strstr_split s) as H. destruct (strstr_GET s) as [pos|]; cbn [mbind option_bind].
  - destruct H as (pre & b & -> & Hs & Hn).
    destruct (scan_content_split b) as (verb & gap & rest & Hb & Hv & Hg & Hw & Hr & H1 & H2).
    revert Hb Hw Hr H1 H2. generalize (default [] (scan_content (GET ++ b))). intros w Hb Hw Hr H1 H2.
    apply (asks_word s pre verb gap w rest); try done. by rewrite Hs, Hb.
  - by apply asks_nothing.
Qed.

Lemma asks_found s w : asks s w -> found s = w.
Proof.
  intros [Hn|pre verb gap w' rest -> Hn Hv Hg Hw Hr H1 H2]; unfold found.
  - by rewrite strstr_none.
  - rewrite strstr_first by done. cbn [mbind option_bind]. by apply scan_content_word.
Qed.

Lemma c_str_app s r : Forall (fun c => c <> 0) s -> c_str (s ++ 0 :: r) = s.
Proof.
  induction 1 as [|c s Hc _ IH]; [done|]. cbn [app c_str].
  destruct (c =? 0) eqn:E; [by apply Z.eqb_eq in E|by rewrite IH].
Qed.

Lemma c_str_nonzero s : Forall (fun c => c <> 0) (c_str s).
Proof.
  induction s as [|c s IH]; cbn [c_str]; [constructor|].
  destruct (c =? 0) eqn:E; [constructor|]. constructor; [by apply Z.eqb_neq|done].
Qed.

(** The word consists of characters of the string. *)
Lemma asks_sub Q s w : asks s w -> Forall Q s -> Forall Q w.
Proof. intros [Hn|pre verb gap w' rest -> Hn Hv Hg Hw Hr H1 H2] HQ; [constructor|]. by rewrite !Forall_app in HQ; destruct_and!. Qed.

Section Parser.
Context `{P : Platform}.

(** strcpy into an array: the string is there, or it does not fit. *)
Lemma strcpy_run i (w m : list Z) (s : st) :
  0 <= i <= zlen m ->
  on_buffer m (strcpy_at i w) s =
    if i + zlen w <? zlen m then Ret (tt, put_at i (w ++ [0]) m) s else Fault OutOfBounds s.
Proof.
  intros Hi. unfold on_buffer, strcpy_at, wr_bytes. rewrite zlen_app. change (zlen [0]) with 1.
  destruct (0 <=? i) eqn:E; [|lia]. cbn [andb].
  destruct (i + zlen w <? zlen m) eqn:E1, (i + (zlen w + 1) <=? zlen m) eqn:E2; done || lia.
Qed.

Lemma c_str_put w m :
  Forall (fun c => c <> 0) w -> c_str (put_at 0 (w ++ [0]) m) = w.
Proof. intros Hw. unfold put_at. cbn [Z.to_nat take app]. rewrite <- app_assoc. by apply c_str_app. Qed.

(** strcat: the string behind the one that is there. *)
Lemma c_str_cat u w r :
  Forall (fun c => c <> 0) u -> Forall (fun c => c <> 0) w ->
  c_str (put_at (zlen u) (w ++ [0]) (u ++ r)) = u ++ w.
Proof.
  intros Hu Hw. unfold put_at, zlen. rewrite Nat2Z.id, take_app_length, <- app_assoc, app_assoc.
  apply c_str_app, Forall_app. by split.
Qed.

Lemma found_run request (s : st) :
  let w := found (c_str request) in
  (match strstr_GET (c_str request) with
   | Some pos =>
       match scan_content pos with
       | Some w => do '(_, content) <- on_buffer zero_array (strcpy_at 0 w); ret content
       | None => ret zero_array
       end
   | None => ret zero_array
   end) s = (if zlen w <? 32 then Ret (put_at 0 (w ++ [0]) zero_array) s else Fault OutOfBounds s).
Proof.
  unfold found. destruct (strstr_GET _) as [pos|]; cbn [mbind option_bind default]; [|done].
  destruct (scan_content pos) as [w|]; [|done]. unfold bind. rewrite strcpy_run by done.
  change (0 + zlen w <? zlen zero_array) with (zlen w <? 32). change (default [] (Some w)) with w.
  by destruct (zlen w <? 32).
Qed.

(** The arrays the parser leaves. *)
Definition url_start : list Z := put_at 0 (url_prefix ++ [0]) zero_array.
Definition content_array (w : list Z) : list Z := put_at 0 (w ++ [0]) zero_array.
Definition url_array (w : list Z) : list Z := put_at (zlen url_prefix) (w ++ [0]) url_start.

Lemma url_prefix_nonzero : Forall (fun c => c <> 0) url_prefix.
Proof. by repeat constructor. Qed.

Lemma c_str_content w : Forall (fun c => c <> 0) w -> c_str (content_array w) = w.
Proof. apply c_str_put. Qed.

Lemma c_str_url w : Forall (fun c => c <> 0) w -> c_str (url_array w) = url_prefix ++ w.
Proof. exact (c_str_cat url_prefix w (drop 10 url_start) url_prefix_nonzero). Qed.

Lemma parse_request_arrays request w s :
  asks (c_str request) w ->
  parse_request request zero_array zero_array s =
    if zlen w <? 22 then Ret (content_array w, url_array w) s else Fault OutOfBounds s.
Proof.
  intros Ha. pose proof (asks_sub _ _ _ Ha (c_str_nonzero request)) as Hw.
  unfold parse_request, bind at 1. rewrite strcpy_run by done. fold url_start.
  change (0 + zlen url_prefix <? zlen zero_array) with true. cbv iota beta.
  unfold bind at 1. rewrite found_run, (asks_found _ _ Ha). fold (content_array w).
  pose proof (zlen_ge0 w) as H0.
  destruct (zlen w <? 32) eqn:E; [|destruct (zlen w <? 22) eqn:E2; [lia|done]].
  unfold bind. rewrite (c_str_content w Hw).
  rewrite (c_str_put url_prefix zero_array url_prefix_nonzero : c_str url_start = url_prefix).
  rewrite strcpy_run by done. fold (url_array w).
  change (zlen url_prefix + zlen w <? zlen url_start) with (10 + zlen w <? 32).
  by destruct (zlen w <? 22) eqn:E2, (10 + zlen w <? 32) eqn:E3; try lia.
Qed.

Lemma parse_request_run request w s :
  asks (c_str request) w ->
  if zlen w <? 22 then
    exists content url, parse_request request zero_array zero_array s = Ret (content, url) s /\
      c_str content = w /\ c_str url = url_prefix ++ w
  else parse_request request zero_array zero_array s = Fault OutOfBounds s.
Proof.
  intros Ha. pose proof (asks_sub _ _ _ Ha (c_str_nonzero request)) as Hw.
  rewrite (parse_request_arrays _ _ _ Ha). destruct (zlen w <? 22); [|done].
  exists (content_array w), (url_array w). split; [done|].
  split; [by apply c_str_content|by apply c_str_url].
Qed.

(** C35: the request parser of the CCN gateway.  Every request asks for exactly one word
    [w], the one behind its first GET or none.  When it has less than 22 characters,
    parse_request leaves the word in [content] and the fixed prefix and the word in
    [url]; a longer word is written beyond the end of an array of 32 bytes. *)
Theorem parse_request_bound request s :
  exists w, (forall w', asks (c_str request) w' <-> w' = w) /\
    if zlen w <? 22 then
      exists content url, parse_request request zero_array zero_array s = Ret (content, url) s /\
        c_str content = w /\ c_str url = url_prefix ++ w
    else parse_request request zero_array zero_array s = Fault OutOfBounds s.
Proof.
  exists (found (c_str request)). split.
  - intros w'. split; [|intros ->; apply found_asks]. by intros <-%asks_found.
  - apply parse_request_run, found_asks.
Qed.

End Parser.

(** "xGET /a b" asks for "/a", and "GE T" for nothing. *)
Lemma asks_examples :
  found [120; 71; 69; 84; 32; 47; 97; 32; 98] = [47; 97] /\ found [71; 69; 32; 84] = [].
Proof. by split. Qed.
