(* ===== verification/TcpListen.v ===== *)
(** tcp_listen.c: the listening socket and the acceptor. *)

From Stdlib Require Import ZArith Lia.
From stdpp Require Import base list gmap.
From S2P Require Import Prelude Ints Types Setters Kernel TcpUtils Connection.
Open Scope Z_scope.

Section TcpListen.
Context `{P : Platform}.

(** Creates, tunes and binds the listener; its address stays in the server also
    when binding or listening fails and the socket is released. *)
Definition pepdna_tcp_listen_init : KM Z :=
  do r <- call (SockCreateKern true);
  let '(rc, k0) := r in
  if rc <? 0 then ret rc
  else
    do sk <- new_sock k0;
    do! upd_srv (set_srv_listener (Some sk));
    do! upd_sock sk (set_sk_reuse 1);
    do! pepdna_set_bufsize sk;
    do! pepdna_tcp_nonagle sk;
    do! pepdna_tcp_nodelayedack sk;
    do! pepdna_ip_transparent sk;
    do! upd_sock sk (fun k => set_sk_user_data (UD_ready (sk_data_ready k)) k);
    do! upd_sock sk (set_sk_data_ready DR_listen);
    do v <- get_srv;
    do rc <- call (KernelBind sk 0 (htons (u16 (srv_port v))));
    if rc <? 0 then do! sock_release sk; ret (- EINVAL)
    else
      do rc <- call (KernelListen sk MAX_CONNS);
      if rc <? 0 then do! sock_release sk; ret (- EINVAL)
      else ret 0.

(** What the acceptor does with an accepted socket of the connection [c];
    [Some rc] is a return from pepdna_tcp_accept. *)
Definition accept_con (c asock : positive) : KM (option Z) :=
  do! upd_con c (set_con_lsock (Some asock));
  do! upd_sock asock (set_sk_data_ready DR_l2r);
  do! upd_sock asock (set_sk_user_data (UD_con c));
  do! upd_con c (set_con_lflag 1);
  do! upd_con c (set_con_rflag 1);
  do v <- get_srv;
  do stop <-
    if is_mode (srv_mode v) TCP2RINA then
      do! pepdna_con_get c;
      do q <- queue_work (srv_r2l_wq v) (R2lWork c);
      if negb q then do! pepdna_con_put (Some c); ret true else ret false
    else ret false;
  if (stop : bool) then ret (Some (- 1))
  else
    do! sk_data_ready_call asock;
    do k <- get_con c;
    do! match con_rsock k with
        | Some rsk => sk_data_ready_call rsk
        | None => ret tt
        end;
    ret None.

Definition pepdna_tcp_accept (fuel : nat) : KM Z :=
  do v <- get_srv;
  let lsock := srv_listener v in
  iter fuel (fun _ : unit =>
    do l <- deref lsock;
    do _k <- get_sock l;
    do r <- call (KernelAccept l);
    let '(rc, k0) := r in
    if rc <? 0 then ret (inr rc)
    else
      do asock <- new_sock k0;
      do hash_id <- identify_client asock;
      do con <- pepdna_con_find hash_id;
      match con with
      | None => do! sock_release asock; ret (inr (- 1))
      | Some c =>
          do r <- accept_con c asock;
          match r with
          | Some rc => ret (inr rc)
          | None => ret (inl tt)
          end
      end) tt.

Definition pepdna_acceptor_work (fuel : nat) : KM unit :=
  do _rc <- pepdna_tcp_accept fuel; ret tt.

(** The callback the kernel had installed is put back. *)
Definition pepdna_tcp_listen_stop (sock : option positive) : KM unit :=
  match sock with
  | None => ret tt
  | Some sk =>
      do v <- get_srv;
      if is_mode (srv_mode v) RINA2TCP || is_mode (srv_mode v) RINA2RINA then ret tt
      else
        do k <- get_sock sk;
        do! match sk_user_data k with
            | UD_null => ret tt
            | UD_ready f =>
                do! upd_sock sk (set_sk_data_ready f);
                upd_sock sk (set_sk_user_data UD_null)
            | UD_con _ => throw OutOfBounds
            end;
        do q <- deref (srv_accept_wq v);
        do! call (FlushWorkqueue q);
        do! call (FlushWork AcceptWork);
        sock_release sk
  end.

End TcpListen.
