(* ===== verification/TcpConnect.v ===== *)
(** tcp_connect.c: the connection to the target host. *)

From Stdlib Require Import ZArith Lia.
From stdpp Require Import base list gmap.
From S2P Require Import Prelude Ints Types Setters Kernel TcpUtils Connection.
From S2P Require Import Netlink Minip Ccn.
Open Scope Z_scope.

Section TcpConnect.
Context `{P : Platform}.

(** Registers the callbacks of a socket of the connection. *)
Definition set_callbacks (sk : positive) (f : ready_fn) (c : positive) : KM unit :=
  do! upd_sock sk (set_sk_data_ready f);
  upd_sock sk (set_sk_user_data (UD_con c)).

(** Steps 1 to 5 of pepdna_tcp_connect; [None] is [goto err]. *)
Definition tcp_connect_sock (c : positive) : KM (option positive) :=
  do r <- call (SockCreateKern true);
  let '(rc, k0) := r in
  if rc <? 0 then ret None
  else
    do sk <- new_sock k0;
    do k <- get_con c;
    let t := con_tuple k in
    let daddr := if CONFIG_PEPDNA_LOCAL_RECEIVER cfg then htonl INADDR_LOOPBACK
                 else syn_daddr t in
    do! upd_sock sk (set_sk_reuse 1);
    do! pepdna_set_bufsize sk;
    do! pepdna_tcp_nonagle sk;
    do! pepdna_tcp_nodelayedack sk;
    do! when (negb (CONFIG_PEPDNA_LOCAL_SENDER cfg)) (pepdna_ip_transparent sk);
    do! when (CONFIG_PEPDNA_LOCAL_SENDER cfg || CONFIG_PEPDNA_LOCAL_RECEIVER cfg)
          (pepdna_set_mark sk PEPDNA_SOCK_MARK);
    do rc <- if CONFIG_PEPDNA_LOCAL_SENDER cfg then ret 0
             else call (KernelBind sk (syn_saddr t) (syn_source t));
    if rc <? 0 then do! sock_release sk; ret None
    else
      do rc <- call (KernelConnect sk daddr (syn_dest t));
      if (rc <? 0) && negb (rc =? - EINPROGRESS) then
        do! call (KernelSockShutdown sk);
        do! sock_release sk;
        ret None
      else
        do _from <- call (Kzalloc ObjIpStr);
        do _to <- call (Kzalloc ObjIpStr);
        do! call Kfree;
        do! call Kfree;
        ret (Some sk).

(** The part under CONFIG_PEPDNA_RINA; false is [goto err]. *)
Definition tcp_connect_rina (c sk : positive) : KM bool :=
  do k <- get_con c;
  let t := con_tuple k in
  do rc <- pepdna_nl_sendmsg (syn_saddr t) (syn_source t) (syn_daddr t) (syn_dest t)
             (con_id k) (con_port_id k) true;
  if rc <? 0 then ret false
  else
    do! upd_con c (set_con_lsock (Some sk));
    do! set_callbacks sk DR_l2r c;
    ret true.

(** The part under CONFIG_PEPDNA_MINIP; false is [goto err]. *)
Definition tcp_connect_minip (c sk : positive) : KM bool :=
  do k <- get_con c;
  do v <- get_srv;
  do rc <- pepdna_minip_send_response (con_id k) (srv_to_mac v);
  if rc <? 0 then ret false
  else
    do! upd_con c (set_con_state ESTABLISHED);
    do! upd_con c (fun k => set_con_next_seq (u32 (con_next_seq k + 1)) k);
    do! upd_con c (fun k => set_con_last_acked (s32 (con_last_acked k + 1)) k);
    do! upd_con c (fun k => set_con_next_recv (u32 (con_next_recv k + 1)) k);
    do! upd_con c (set_con_lsock (Some sk));
    do! set_callbacks sk DR_l2r c;
    do! upd_con c (set_con_lflag 1);
    do! sk_data_ready_call sk;
    ret true.

Definition pepdna_tcp_connect (c : positive) : KM unit :=
  do r <- tcp_connect_sock c;
  match r with
  | None => pepdna_con_close (Some c)
  | Some sk =>
      do v <- get_srv;
      if is_mode (srv_mode v) TCP2TCP then
        do! upd_con c (set_con_rsock (Some sk));
        do! set_callbacks sk DR_r2l c;
        do k <- get_con c;
        reinject_syn k
      else
        do ok <-
          if CONFIG_PEPDNA_RINA cfg && is_mode (srv_mode v) RINA2TCP
          then tcp_connect_rina c sk else ret true;
        if negb ok then pepdna_con_close (Some c)
        else
          do ok <-
            if CONFIG_PEPDNA_MINIP cfg && is_mode (srv_mode v) MINIP2TCP
            then tcp_connect_minip c sk else ret true;
          if negb ok then pepdna_con_close (Some c) else ret tt
  end.

End TcpConnect.
