(* ===== verification/Server.v ===== *)
(** server.h and server.c: the work queues, the netfilter hook that intercepts
    SYN packets, the handler of MINIP frames, and starting and stopping the
    server in each mode. *)

From Stdlib Require Import ZArith Lia.
From stdpp Require Import base list gmap.
From S2P Require Import Prelude Ints Types Setters Kernel Hash TcpUtils Connection.
From S2P Require Import Netlink Minip TcpListen.
Open Scope Z_scope.

Definition IPPROTO_TCP : Z := 6.

(** Verdicts of a netfilter hook and results of a packet handler. *)
Inductive verdict : Type := NF_DROP | NF_ACCEPT | NF_STOLEN.
Inductive rx_result : Type := NET_RX_SUCCESS | NET_RX_DROP.

Section Server.
Context `{P : Platform}.

(** ** Work queues *)

(** alloc_workqueue: the new queue, or NULL. *)
Definition alloc_workqueue : KM (option positive) :=
  do ok <- call AllocWorkqueue;
  if ok then do a <- fresh_addr; ret (Some a) else ret None.

(** [wq = srv->q; srv->q = NULL; destroy_workqueue(wq)] *)
Definition unwind_wq (get : server -> option positive)
    (set : option positive -> server -> server) : KM unit :=
  do v <- get_srv;
  do! upd_srv (set None);
  do q <- deref (get v);
  call (DestroyWorkqueue q).

Definition pepdna_work_init : KM Z :=
  do q <- alloc_workqueue;
  match q with
  | None => ret (- ENOMEM)
  | Some q =>
    do! upd_srv (set_srv_l2r_wq (Some q));
    do q <- alloc_workqueue;
    match q with
    | None =>
        do! unwind_wq srv_l2r_wq set_srv_l2r_wq;
        ret (- ENOMEM)
    | Some q =>
      do! upd_srv (set_srv_r2l_wq (Some q));
      do q <- alloc_workqueue;
      match q with
      | None =>
          do! unwind_wq srv_r2l_wq set_srv_r2l_wq;
          do! unwind_wq srv_l2r_wq set_srv_l2r_wq;
          ret (- ENOMEM)
      | Some q =>
        do! upd_srv (set_srv_accept_wq (Some q));
        do v <- get_srv;
        if srv_mode v <? 6 then
          do q <- alloc_workqueue;
          match q with
          | None =>
              do! unwind_wq srv_accept_wq set_srv_accept_wq;
              do! unwind_wq srv_r2l_wq set_srv_r2l_wq;
              do! unwind_wq srv_l2r_wq set_srv_l2r_wq;
              ret (- ENOMEM)
          | Some q => do! upd_srv (set_srv_tcfa_wq (Some q)); ret 0
          end
        else ret 0
      end
    end
  end.

(** [if (srv->q) { flush; destroy; srv->q = NULL; }] *)
Definition stop_wq (get : server -> option positive)
    (set : option positive -> server -> server) : KM unit :=
  do v <- get_srv;
  match get v with
  | Some q =>
      do! call (FlushWorkqueue q);
      do! call (DestroyWorkqueue q);
      upd_srv (set None)
  | None => ret tt
  end.

Definition pepdna_work_stop : KM unit :=
  do! stop_wq srv_r2l_wq set_srv_r2l_wq;
  do! stop_wq srv_tcfa_wq set_srv_tcfa_wq;
  do! stop_wq srv_accept_wq set_srv_accept_wq;
  stop_wq srv_l2r_wq set_srv_l2r_wq.

(** ** The netfilter hook *)

(** The packets the hook looks at: TCP with SYN and neither ACK nor RST. *)
Definition is_syn (skb : sk_buff) : bool :=
  (skb_protocol skb =? IPPROTO_TCP)
  && (skb_syn skb && negb (skb_ack skb) && negb (skb_rst skb)).

(** The branch for a SYN of no known connection. *)
Definition hook_new_con (skb : sk_buff) (hash_id : Z) : KM verdict :=
  do ok <- call (Kzalloc ObjSyn);
  if negb ok then ret NF_DROP
  else
    let syn := mkSyn (skb_saddr skb) (skb_source skb) (skb_daddr skb) (skb_dest skb) in
    do ts <- call KtimeGetRealFastNs;
    let skb := set_skb_tstamp (u64 ts) skb in
    do con <- pepdna_con_alloc syn (Some skb) hash_id (u64 ts) 0;
    match con with
    | None => do! call Kfree; ret NF_DROP
    | Some _ =>
        do! call Kfree;
        do! when (negb (CONFIG_PEPDNA_LOCAL_SENDER cfg)) (call ConsumeSkb);
        ret NF_STOLEN
    end.

Definition pepdna_pre_hook (skb : option sk_buff) : KM verdict :=
  match skb with
  | None => ret NF_ACCEPT
  | Some skb =>
      if is_syn skb then
        if (CONFIG_PEPDNA_LOCAL_SENDER cfg || CONFIG_PEPDNA_LOCAL_RECEIVER cfg)
           && (skb_mark skb =? PEPDNA_SOCK_MARK)
        then ret NF_ACCEPT
        else if ntohs (skb_dest skb) =? SSH_PORT then ret NF_ACCEPT
        else
          let hash_id := pepdna_hash32_rjenkins1_2 (skb_saddr skb) (skb_source skb) in
          do con <- pepdna_con_find hash_id;
          match con with
          | None => hook_new_con skb hash_id
          | Some c =>
              do k <- get_con c;
              if negb (skb_tstamp skb =? con_ts k) then ret NF_DROP else ret NF_ACCEPT
          end
      else ret NF_ACCEPT
  end.

(** pepdna_minip_skb_recv: the frame at address [a]. *)
Definition pepdna_minip_skb_recv (fuel : nat) (a : option positive) : KM rx_result :=
  match a with
  | None => ret NET_RX_DROP
  | Some a =>
      do rc <- pepdna_minip_recv_packet fuel a;
      if truth rc then do! kfree_rx_skb a; ret NET_RX_DROP
      else ret NET_RX_SUCCESS
  end.

(** ** Starting *)

Definition init_accept_work : KM unit := upd_srv (set_srv_accept_fn WF_acceptor_work).

(** pepdna_i2i_start; pepdna_i2c_start has the same body. *)
Definition pepdna_i2i_start : KM Z :=
  do! init_accept_work;
  do rc <- pepdna_work_init;
  if rc <? 0 then ret rc
  else
    do rc <- pepdna_tcp_listen_init;
    if rc <? 0 then do! pepdna_work_stop; ret rc
    else do! call NfRegisterNetHooks; ret 0.

Definition pepdna_i2c_start : KM Z :=
  do! init_accept_work;
  do rc <- pepdna_work_init;
  if rc <? 0 then ret rc
  else
    do rc <- pepdna_tcp_listen_init;
    if rc <? 0 then do! pepdna_work_stop; ret rc
    else do! call NfRegisterNetHooks; ret 0.

Definition pepdna_r2i_start : KM Z :=
  do rc <- pepdna_netlink_init;
  if rc <? 0 then ret rc
  else
    do rc <- pepdna_work_init;
    if rc <? 0 then do! pepdna_netlink_stop; ret rc
    else ret 0.

Definition pepdna_i2r_start : KM Z :=
  do! init_accept_work;
  do rc <- pepdna_netlink_init;
  if rc <? 0 then ret rc
  else
    do rc <- pepdna_work_init;
    if rc <? 0 then do! pepdna_netlink_stop; ret rc
    else
      do rc <- pepdna_tcp_listen_init;
      if rc <? 0 then do! pepdna_netlink_stop; do! pepdna_work_stop; ret rc
      else do! call NfRegisterNetHooks; ret 0.

Definition pepdna_r2r_start : KM Z := ret 0.

Definition pepdna_m2i_start : KM Z :=
  do rc <- pepdna_work_init;
  if rc <? 0 then ret rc
  else
    do _dev <- call DevGetByName;
    do! call DevAddPack;
    ret 0.

Definition pepdna_i2m_start : KM Z :=
  do! init_accept_work;
  do rc <- pepdna_work_init;
  if rc <? 0 then do! pepdna_netlink_stop; ret rc
  else
    do rc <- pepdna_tcp_listen_init;
    if rc <? 0 then do! pepdna_work_stop; ret rc
    else
      do! call NfRegisterNetHooks;
      do _dev <- call DevGetByName;
      do! call DevAddPack;
      ret 0.

Definition pepdna_c2i_start : KM Z := ret 0.
Definition pepdna_c2c_start : KM Z := ret 0.

Definition init_pepdna_server : KM unit :=
  do! modify (set_st_srv (SrvLive zero_server));
  do! upd_srv (set_srv_mode (u32 (param_mode cfg)));
  do! upd_srv (set_srv_port (param_port cfg));
  do! when (CONFIG_PEPDNA_MINIP cfg)
        match param_macstr cfg with
        | Some str =>
            do v <- get_srv;
            do mac <- call (MacPton str (srv_to_mac v));
            upd_srv (set_srv_to_mac mac)
        | None => ret tt
        end;
  do! upd_srv (set_srv_listener None);
  do! upd_srv (set_srv_accept_wq None);
  do! upd_srv (set_srv_tcfa_wq None);
  do! upd_srv (set_srv_l2r_wq None);
  do! upd_srv (set_srv_r2l_wq None);
  do! upd_srv (set_srv_conns 0);
  upd_srv (set_srv_htable (replicate (Z.to_nat PEPDNA_HASH_BITS) [])).

(** The start function the switch of pepdna_server_start selects. *)
Definition start_mode (mode : Z) : option (KM Z) :=
  match mode_of mode with
  | Some TCP2TCP => Some pepdna_i2i_start
  | Some TCP2RINA => if CONFIG_PEPDNA_RINA cfg then Some pepdna_i2r_start else None
  | Some RINA2TCP => if CONFIG_PEPDNA_RINA cfg then Some pepdna_r2i_start else None
  | Some RINA2RINA => if CONFIG_PEPDNA_RINA cfg then Some pepdna_r2r_start else None
  | Some TCP2CCN => if CONFIG_PEPDNA_CCN cfg then Some pepdna_i2c_start else None
  | Some CCN2TCP => if CONFIG_PEPDNA_CCN cfg then Some pepdna_c2i_start else None
  | Some CCN2CCN => if CONFIG_PEPDNA_CCN cfg then Some pepdna_c2c_start else None
  | Some TCP2MINIP => if CONFIG_PEPDNA_MINIP cfg then Some pepdna_i2m_start else None
  | Some MINIP2TCP => if CONFIG_PEPDNA_MINIP cfg then Some pepdna_m2i_start else None
  | None => None
  end.

(** [pepdna_srv] keeps pointing to the server object after it is freed. *)
Definition err_start : KM Z :=
  do! call Kfree;
  do! modify (set_st_srv SrvFreed);
  ret (- 1).

Definition pepdna_server_start : KM Z :=
  do ok <- call (Kzalloc ObjServer);
  if negb ok then ret (- ENOMEM)
  else
    do! init_pepdna_server;
    do v <- get_srv;
    match start_mode (srv_mode v) with
    | None => err_start
    | Some start =>
        do rc <- start;
        if rc <? 0 then err_start else ret 0
    end.

(** ** Stopping *)

Fixpoint close_all (l : list positive) : KM unit :=
  match l with
  | [] => ret tt
  | c :: n => do! pepdna_con_close (Some c); close_all n
  end.

(** hlist_for_each_entry_safe over [pepdna_srv->htable]: the array decays to a
    pointer to its first bucket. *)
Definition pepdna_server_stop : KM unit :=
  do v <- get_srv;
  let lsock := srv_listener v in
  do! when (srv_mode v <? 4) (call NfUnregisterNetHooks);
  do! when (truth (srv_conns v)) (close_all (default [] (srv_htable v !! 0%nat)));
  do! pepdna_netlink_stop;
  do! upd_srv (set_srv_listener None);
  do! pepdna_tcp_listen_stop lsock;
  do! pepdna_work_stop;
  do! when (CONFIG_PEPDNA_MINIP cfg) (call DevRemovePack);
  do! call Kfree;
  modify (set_st_srv SrvNull).

End Server.
