(* ===== verification/Core.v ===== *)
(** core.c and sysctl.c: module parameters, loading and unloading. *)

From Stdlib Require Import ZArith Lia.
From stdpp Require Import base list gmap strings.
From S2P Require Import Prelude Ints Types Setters Kernel TcpUtils Server.
Open Scope Z_scope.

(** The name of the mode in the log. *)
Definition get_mode_name (mode : Z) : string :=
  match mode with
  | 0 => "TCP2TCP"
  | 1 => "TCP2RINA"
  | 2 => "TCP2CCN"
  | 3 => "TCP2MINIP"
  | 4 => "RINA2TCP"
  | 5 => "MINIP2TCP"
  | 6 => "CCN2TCP"
  | 7 => "RINA2RINA"
  | 8 => "CCN2CCN"
  | _ => "ERROR"
  end%string.

Section Core.
Context `{P : Platform}.

(** Without CONFIG_SYSCTL both are empty macros (core.h). *)
Definition pepdna_register_sysctl : KM Z :=
  if CONFIG_SYSCTL cfg then
    do ok <- call RegisterNetSysctl;
    if ok then ret 0 else ret (- ENOMEM)
  else ret 0.

Definition pepdna_unregister_sysctl : KM unit :=
  when (CONFIG_SYSCTL cfg) (call UnregisterNetSysctl).

Definition pepdna_init : KM Z :=
  do! modify (set_st_rmem [RCVBUF_DEF; RCVBUF_DEF; RCVBUF_DEF]);
  do! modify (set_st_wmem [SNDBUF_DEF; SNDBUF_DEF; SNDBUF_DEF]);
  do rc <- pepdna_register_sysctl;
  if truth rc then ret rc
  else
    do rc <- pepdna_server_start;
    if rc <? 0 then do! pepdna_unregister_sysctl; ret rc
    else ret 0.

Definition pepdna_exit : KM unit :=
  do! pepdna_server_stop;
  pepdna_unregister_sysctl.

End Core.
