(* ===== verification/System.v ===== *)
(** The module as a whole: the entry points the kernel calls, as the steps of a
    transition system. *)

From Stdlib Require Import ZArith Lia.
From stdpp Require Import base list gmap.
From S2P Require Import Prelude Ints Types Setters Kernel Hash TcpUtils Connection Tcp.
From S2P Require Import Netlink Minip Rina Ccn TcpListen TcpConnect Server Core.
Open Scope Z_scope.

Section System.
Context `{P : Platform}.

(** The function of a work item, run by a work queue. *)
Definition work_func (w : work) : KM work_fn :=
  match w with
  | L2rWork c => do k <- get_con c; ret (con_l2r_fn k)
  | R2lWork c => do k <- get_con c; ret (con_r2l_fn k)
  | TcfaWork c => do k <- get_con c; ret (con_tcfa_fn k)
  | AcceptWork => do v <- get_srv; ret (srv_accept_fn v)
  end.

Definition work_con (w : work) : option positive :=
  match w with
  | L2rWork c | R2lWork c | TcfaWork c => Some c
  | AcceptWork => None
  end.

Definition run_work (fuel : nat) (w : work) : KM unit :=
  do f <- work_func w;
  match f, work_con w with
  | WF_con_l2r_fwd, Some c => pepdna_con_l2r_fwd fuel c
  | WF_con_r2l_fwd, Some c => pepdna_con_r2l_fwd fuel c
  | WF_tcp_connect, Some c => pepdna_tcp_connect c
  | WF_con_i2r_work, Some c => pepdna_con_i2r_work fuel c
  | WF_con_r2i_work, Some c => pepdna_con_r2i_work fuel c
  | WF_rina_flow_alloc, Some c => pepdna_rina_flow_alloc c
  | WF_con_i2m_work, Some c => pepdna_con_i2m_work fuel c
  | WF_con_m2i_work, Some c => pepdna_con_m2i_work c
  | WF_minip_handshake, Some c => pepdna_minip_handshake c
  | WF_con_i2c_work, Some c => pepdna_con_i2c_work fuel c
  | WF_con_c2i_work, Some c => pepdna_con_c2i_work fuel c
  | WF_udp_open, Some c => pepdna_udp_open c
  | WF_acceptor_work, None => pepdna_acceptor_work fuel
  | _, _ => throw NullDeref
  end.

(** What can happen to a loaded module. *)
Inductive action : Type :=
| ASyn (skb : sk_buff)               (* a packet reaches the netfilter hook *)
| AFrame (f : frame)                 (* a MINIP frame arrives *)
| AReady (sk : positive)             (* a socket becomes readable *)
| AWork (w : work)                   (* a queued work item runs *)
| ATimer (c : positive)              (* a retransmission timer expires *)
| ANetlink (m : nl_skb).             (* a netlink message arrives *)

(** The first occurrence of a work item leaves the queue when it starts. *)
Fixpoint remove_work (w : work) (l : list work) : list work :=
  match l with
  | [] => []
  | v :: l' => if decide (v = w) then l' else v :: remove_work w l'
  end.

Definition rx_frame (fuel : nat) (f : frame) : KM unit :=
  do a <- fresh_addr;
  do! modify (fun s => set_st_skbs (<[a := f]> (st_skbs s)) s);
  do _r <- pepdna_minip_skb_recv fuel (Some a);
  ret tt.

Definition exec (fuel : nat) (a : action) : KM unit :=
  match a with
  | ASyn skb => do _v <- pepdna_pre_hook (Some skb); ret tt
  | AFrame f => rx_frame fuel f
  | AReady sk => sk_data_ready_call sk
  | AWork w =>
      do! modify (fun s => set_st_pending (remove_work w (st_pending s)) s);
      run_work fuel w
  | ATimer c =>
      do! upd_con c (set_con_timer None);
      minip_sender_timeout c
  | ANetlink m => pepdna_nl_recv_msg nl_i2r_callback nl_r2i_callback m
  end.

(** An action is possible when its source exists: a work item is queued, a timer
    is pending, a socket is alive; frames need the MINIP build. *)
Definition enabled (a : action) (s : st) : Prop :=
  match a with
  | ASyn _ | ANetlink _ => True
  | AFrame _ => CONFIG_PEPDNA_MINIP cfg = true
  | AReady sk => is_Some (st_socks s !! sk)
  | AWork w => w ∈ st_pending s
  | ATimer c => exists k t, st_cons s !! c = Some k /\ con_timer k = Some t
  end.

(** One entry point runs to completion. *)
Inductive step (s : st) : action -> st -> Prop :=
| step_exec a fuel s' : enabled a s -> exec fuel a s = Ret tt s' -> step s a s'.

Inductive reachable (s0 : st) : st -> Prop :=
| reach_refl : reachable s0 s0
| reach_step s a s' : reachable s0 s -> step s a s' -> reachable s0 s'.

End System.
