(* ===== verification/Sample.v ===== *)
(** A concrete platform, on which the hypotheses of the theorems are shown to be
    satisfiable and the model can be run: allocations and transmissions succeed,
    a socket accepts at most three bytes at a time, and what the sockets have to
    read is a list of messages, the state of the environment. *)

From Stdlib Require Import ZArith Lia.
From stdpp Require Import base list gmap.
From S2P Require Import Prelude Ints Types Setters Kernel.
Open Scope Z_scope.

Definition no_sock : sock := mkSock UD_null DR_default 0 0 0 0.
Definition no_hdr : minip_hdr := mkHdr 0 0 0 0 0 0.
Definition eth0 : net_device := mkDev 16 0 [2; 0; 0; 0; 0; 1].

(** How many bytes a socket accepts at once. *)
Definition sample_sndbuf : Z := 3.

Definition sample_recv (len : Z) (e : list (list Z)) : (Z * list Z) * list (list Z) :=
  match e with
  | [] => ((- EAGAIN, []), [])
  | m :: e' =>
      if Z.of_nat (length m) <=? len then ((Z.of_nat (length m), m), e')
      else ((- EIO, []), e')
  end.

Definition sample_call (R : Type) (c : kE R) (e : list (list Z)) : R * list (list Z) :=
  match c in kE R return R * list (list Z) with
  | Kzalloc _ => (true, e)
  | Kfree => (tt, e)
  | SkbCopy _ => (true, e)
  | ConsumeSkb => (tt, e)
  | NetifReceiveSkb _ => (0, e)
  | IpLocalOut _ => (0, e)
  | DevGetByName => (Some eth0, e)
  | AllocSkb _ => (Some (mkFrame no_hdr []), e)
  | DevHardHeader _ _ _ => (0, e)
  | DevQueueXmit _ => (0, e)
  | KfreeSkb => (tt, e)
  | SkbClone _ => (true, e)
  | SkbUnref _ => (true, e)
  | JiffiesMsecs => (1000, e)
  | ModTimer _ _ => (tt, e)
  | DelTimer _ => (tt, e)
  | KtimeGetRealFastNs => (77, e)
  | UsecsToJiffies _ => (1, e)
  | AllocWorkqueue => (true, e)
  | FlushWorkqueue _ => (tt, e)
  | DestroyWorkqueue _ => (tt, e)
  | QueueWork _ _ => (true, e)
  | FlushWork _ => (tt, e)
  | CancelWorkSync _ => (tt, e)
  | SockCreateKern _ => ((0, no_sock), e)
  | KernelBind _ _ _ => (0, e)
  | KernelListen _ _ => (0, e)
  | KernelConnect _ _ _ => (0, e)
  | KernelAccept _ => ((- EAGAIN, no_sock), e)
  | GetPeerName _ => ((0, (0, 0)), e)
  | KernelSockShutdown _ => (tt, e)
  | SockRelease _ => (tt, e)
  | KernelRecvmsg _ len => sample_recv len e
  | KernelSendmsg _ b => (Z.min sample_sndbuf (Z.of_nat (length b)), e)
  | TcpSockSetQuickack _ => (tt, e)
  | TcpSockSetNodelay _ => (tt, e)
  | IpTransparent _ => (0, e)
  | SockSetMark _ _ => (tt, e)
  | SkStreamIsWriteable _ => (true, e)
  | ClearNospace _ => (tt, e)
  | WaitEventTimeout _ => (tt, e)
  | SkStateIsListen _ => (true, e)
  | SockDefReadable _ => (tt, e)
  | NetlinkKernelCreate => (Some no_sock, e)
  | NetlinkKernelRelease => (tt, e)
  | NlAllocSkb => (true, e)
  | NlmsgPut => (true, e)
  | NetlinkUnicast _ _ => (0, e)
  | NfRegisterNetHooks => (tt, e)
  | NfUnregisterNetHooks => (tt, e)
  | DevAddPack => (tt, e)
  | DevRemovePack => (tt, e)
  | RegisterNetSysctl => (true, e)
  | UnregisterNetSysctl => (tt, e)
  | MacPton _ old => (old, e)
  | KfaFlowFindByPid _ => (Some 1%positive, e)
  | FlowState _ => (3, e)
  | SetFlowState _ _ => (tt, e)
  | FlowHasWqs _ => (true, e)
  | SetFlowWqs _ => (tt, e)
  | RfifoIsEmpty _ => (true, e)
  | PrepareToWait _ => (tt, e)
  | FinishWait _ => (tt, e)
  | ScheduleTimeout _ => (0, e)
  | SignalPending => (false, e)
  | InInterrupt => (false, e)
  | CondResched => (tt, e)
  | MaxSduSize _ => (1000, e)
  | DuCreate _ => (true, e)
  | DuWrite _ _ _ => (0, e)
  | KfaFlowDuRead _ _ => ((0, None), e)
  | DuDestroy => (tt, e)
  | WakeUpReaders _ => (tt, e)
  | StackOpts => ((0, 0), e)
  | PrandomU32 => (4, e)
  end.

(** The kernel's hash_min for 64-bit words is a multiplication; the low bits of
    the key serve here. *)
Definition sample_hash_min (val bits : Z) : nat := Z.to_nat (val mod 2 ^ bits).

Definition sample (f : config) : Platform := {|
  E := list (list Z);
  kcall := sample_call;
  hash_min := sample_hash_min;
  cfg := f
|}.

#[global] Instance sample_hash_law f : HashMinLaw (sample f).
Proof.
  intros k bits Hb. cbn. unfold sample_hash_min.
  pose proof (Z.mod_pos_bound k (2 ^ bits) ltac:(lia)). lia.
Qed.

(** Builds. *)
Definition tcp_build : config :=
  mkConfig false false false false false false true 9999 (mode_val TCP2TCP) None.
Definition minip_build (mode : server_mode) : config :=
  mkConfig false true false false false false true 9999 (mode_val mode) None.
Definition rina_build (mode : server_mode) : config :=
  mkConfig true false false false false false true 9999 (mode_val mode) None.

(** The module before it is loaded, with [input] for its sockets to read. *)
Definition unloaded_st (f : config) (input : list (list Z)) : @st (sample f) :=
  @mkSt (sample f) input [] SrvNull ∅ ∅ ∅ ∅ 1 [] None (- 1) 0 false [] [].
