(* ===== verification/SampleRun.v ===== *)
(** States of the module on the concrete platform of [Sample]: loaded in each
    mode, and after a first SYN. *)

From Stdlib Require Import ZArith Lia.
From stdpp Require Import base list gmap.
From S2P Require Import Prelude Ints Types Setters Kernel Hash TcpUtils Rtxq Connection Tcp.
From S2P Require Import Netlink Minip Rina Ccn TcpListen TcpConnect Server Core System Sample.
Open Scope Z_scope.

(** The state an outcome ends in, [d] if it has none. *)
Definition state_of {S A} (d : S) (o : outcome S A) : S :=
  match o with Ret _ s | Fault _ s => s | NoFuel => d end.

Definition loaded (f : config) (input : list (list Z)) : @st (sample f) :=
  state_of (unloaded_st f input) (@pepdna_init (sample f) (unloaded_st f input)).

(** One entry point. *)
Definition after {f : config} (a : action) (s : @st (sample f)) : @st (sample f) :=
  state_of s (@exec (sample f) 100 a s).

(** A SYN from 10.0.0.1:40000 to 10.0.0.2:80. *)
Definition syn1 : sk_buff :=
  mkSkb IPPROTO_TCP (htonl 0x0a000001) (htonl 0x0a000002) (htons 40000) (htons 80)
    true false false 0 0.

Definition syn1_tuple : syn_tuple :=
  mkSyn (htonl 0x0a000001) (htons 40000) (htonl 0x0a000002) (htons 80).

Definition syn1_id : Z := pepdna_hash32_rjenkins1_2 (skb_saddr syn1) (skb_source syn1).

(** The first connection of a state. *)
Definition first_con {f} (s : @st (sample f)) : positive :=
  match map_to_list (st_cons s) with (c, _) :: _ => c | [] => 1%positive end.

(** A TCP2TCP node with one connection that is established on both sides. *)
Definition both_sides (k : con) : con :=
  set_con_lflag 1 (set_con_rflag 1
    (set_con_lsock (Some 101%positive) (set_con_rsock (Some 102%positive) k))).

Definition tcp_pair (input : list (list Z)) : @st (sample tcp_build) :=
  let s := after (ASyn syn1) (loaded tcp_build input) in
  let c := 6%positive in
  let s := state_of s (@upd_con (sample tcp_build) c both_sides s) in
  @set_st_socks (sample tcp_build)
    (<[101%positive := set_sk_user_data (UD_con c) no_sock]>
      (<[102%positive := set_sk_user_data (UD_con c) no_sock]> (st_socks s))) s.

(** The left socket was accepted. *)
Definition left_side (k : con) : con :=
  set_con_lflag 1 (set_con_rflag 1 (set_con_lsock (Some 101%positive) k)).

(** A TCP2MINIP node after the handshake: the SYN, the request it sends, and the
    response of the other node; then the accepted left socket. *)
Definition response_frame (id : Z) : frame :=
  mkFrame (mkHdr (pkt_val MINIP_CONN_RESPONSE) 0 (htonl id) (htonl MINIP_FIRST_SEQ)
    (htonl (MINIP_FIRST_SEQ + 1)) 0) [].

Definition minip_sender (input : list (list Z)) : @st (sample (minip_build TCP2MINIP)) :=
  let s := after (ASyn syn1) (loaded (minip_build TCP2MINIP) input) in
  let c := first_con s in
  let s := after (AWork (TcfaWork c)) s in
  let s := after (AFrame (response_frame syn1_id)) s in
  let s := state_of s (@upd_con (sample (minip_build TCP2MINIP)) c left_side s) in
  @set_st_socks (sample (minip_build TCP2MINIP))
    (<[101%positive := set_sk_data_ready DR_l2r (set_sk_user_data (UD_con c) no_sock)]>
      (st_socks s)) s.

(** A MINIP2TCP node after the request: its connection to the target is made and
    the response is sent. *)
Definition request_frame : frame :=
  mkFrame (mkHdr (pkt_val MINIP_CONN_REQUEST) 16 (htonl syn1_id) (htonl MINIP_FIRST_SEQ)
    (htonl MINIP_FIRST_SEQ) 0) (syn_bytes [] syn1_tuple).

Definition minip_receiver (input : list (list Z)) : @st (sample (minip_build MINIP2TCP)) :=
  let s := after (AFrame request_frame) (loaded (minip_build MINIP2TCP) input) in
  after (AWork (TcfaWork (first_con s))) s.
