(* ===== verification/Frame.v ===== *)
(** What a run leaves alone and what it says to the environment: the relations
    [keeps] (a component of the state is unchanged) and [emits] (the trace grows
    by events of a class), both preorders, with the lemmas and the tactic [pres]
    that derive them from the text of a function. *)

From Stdlib Require Import ZArith Lia.
From stdpp Require Import base list gmap.
From S2P Require Import Prelude Ints Types Setters Kernel Hash TcpUtils Rtxq Connection.
Open Scope Z_scope.

Section Relations.
Context `{P : Platform}.

Definition keeps {A} (f : st -> A) (s s' : st) : Prop := f s' = f s.

Definition emits (ok : event -> Prop) (s s' : st) : Prop :=
  exists evs, st_trace s' = st_trace s ++ evs /\ Forall ok evs.

#[global] Instance keeps_preorder {A} (f : st -> A) : PreOrder (keeps f).
Proof. split; [done|]. unfold keeps. intros x y z H1 H2. congruence. Qed.

#[global] Instance emits_preorder ok : PreOrder (emits ok).
Proof.
  split.
  - intros s. exists []. by rewrite app_nil_r.
  - intros x y z (e1 & H1 & F1) (e2 & H2 & F2). exists (e1 ++ e2).
    rewrite H2, H1, app_assoc. split; [done | by apply Forall_app].
Qed.

(** Both at once. *)
Definition both (R1 R2 : st -> st -> Prop) (s s' : st) : Prop := R1 s s' /\ R2 s s'.

#[global] Instance both_preorder R1 R2 `{!PreOrder R1, !PreOrder R2} :
  PreOrder (both R1 R2).
Proof.
  split; [by intros s; split|].
  intros x y z [] []. split; by etrans.
Qed.

(** [I] survives; the invariants of the state are proved in this form. *)
Definition stable (I : st -> Prop) (s s' : st) : Prop := I s -> I s'.

#[global] Instance stable_preorder I : PreOrder (stable I).
Proof. split; [by intros s H|]. intros x y z H1 H2 H. auto. Qed.

(** A component no call to the environment touches. *)
Class EnvFree {A} (f : st -> A) : Prop :=
  env_free : forall s tr e, f (set_st_trace tr (set_st_env e s)) = f s.

#[global] Instance env_free_cons : EnvFree st_cons := fun _ _ _ => eq_refl.
#[global] Instance env_free_socks : EnvFree st_socks := fun _ _ _ => eq_refl.
#[global] Instance env_free_srv : EnvFree st_srv := fun _ _ _ => eq_refl.
#[global] Instance env_free_rtxqs : EnvFree st_rtxqs := fun _ _ _ => eq_refl.
#[global] Instance env_free_skbs : EnvFree st_skbs := fun _ _ _ => eq_refl.
#[global] Instance env_free_next : EnvFree st_next := fun _ _ _ => eq_refl.
#[global] Instance env_free_pending : EnvFree st_pending := fun _ _ _ => eq_refl.

Lemma keeps_call {A} (f : st -> A) `{!EnvFree f} {R} (c : kE R) :
  preserves (keeps f) (call c).
Proof.
  intros s. destruct (call_total c s) as (r & e & ->). unfold keeps. apply env_free.
Qed.

Lemma stable_call (I : st -> Prop) `{!EnvFree I} {R} (c : kE R) :
  preserves (stable I) (call c).
Proof.
  intros s. destruct (call_total c s) as (r & e & ->). unfold stable. by rewrite env_free.
Qed.

Lemma emits_call (ok : event -> Prop) {R} (c : kE R) :
  (forall r, ok (Ev c r)) -> preserves (emits ok) (call c).
Proof.
  intros Hok s. destruct (call_total c s) as (r & e & ->).
  exists [Ev c r]. split; [done | by constructor].
Qed.

Lemma both_intro {A} R1 R2 (m : KM A) :
  preserves R1 m -> preserves R2 m -> preserves (both R1 R2) m.
Proof.
  intros H1 H2 s. specialize (H1 s). specialize (H2 s).
  destruct (m s); by repeat split.
Qed.

(** Reading never changes the state. *)
Lemma pres_get_con (R : st -> st -> Prop) `{!Reflexive R} c : preserves R (get_con c).
Proof. intros s. unfold get_con. destruct (_ !! _); exact (reflexivity s). Qed.

Lemma pres_get_srv (R : st -> st -> Prop) `{!Reflexive R} : preserves R get_srv.
Proof. intros s. unfold get_srv. destruct (st_srv s); exact (reflexivity s). Qed.

Lemma pres_get_sock (R : st -> st -> Prop) `{!Reflexive R} a : preserves R (get_sock a).
Proof. intros s. unfold get_sock. destruct (_ !! _); exact (reflexivity s). Qed.

Lemma pres_get_rtxq (R : st -> st -> Prop) `{!Reflexive R} a : preserves R (get_rtxq a).
Proof. intros s. unfold get_rtxq. destruct (_ !! _); exact (reflexivity s). Qed.

Lemma pres_get_skb (R : st -> st -> Prop) `{!Reflexive R} a : preserves R (get_skb a).
Proof. intros s. unfold get_skb. destruct (_ !! _); exact (reflexivity s). Qed.

Lemma pres_deref (R : st -> st -> Prop) `{!Reflexive R} {A} (o : option A) :
  preserves R (deref o).
Proof. intros s. destruct o; exact (reflexivity s). Qed.

(** A direct update of the state. *)
Lemma pres_modify (R : st -> st -> Prop) f : (forall s, R s (f s)) -> preserves R (modify f).
Proof. intros H s. apply H. Qed.

Lemma pres_fresh (R : st -> st -> Prop) :
  (forall s a, R s (set_st_next a s)) -> preserves R fresh_addr.
Proof. intros H s. apply H. Qed.

(** A run that returns gives the relation. *)
Lemma pres_run {A} (R : st -> st -> Prop) (m : KM A) s a s' :
  preserves R m -> m s = Ret a s' -> R s s'.
Proof. intros H Hr. specialize (H s). by rewrite Hr in H. Qed.

End Relations.

#[export] Hint Resolve pres_get_con pres_get_srv pres_get_sock pres_get_rtxq
  pres_get_skb pres_deref keeps_call stable_call : km.

(** Walks over the text of a function; what is left are the calls and updates the
    hint database does not know. *)
Ltac pres_step :=
  match goal with
  | |- preserves _ (bind _ _) => apply preserves_bind; [apply _ | | intros ?]
  | |- preserves _ (iter _ _ _) => apply preserves_iter; [apply _ | intros ?]
  | |- preserves _ (when ?b _) => unfold when
  | |- preserves _ (ret _) => apply preserves_ret; apply _
  | |- preserves _ (throw _) => apply preserves_throw; apply _
  | |- preserves _ (gets _) => apply preserves_gets; apply _
  | |- preserves _ (match ?x with _ => _ end) => destruct x
  | |- preserves _ (let '(_, _) := ?x in _) => destruct x
  | |- preserves (emits _) (call _) => apply emits_call; intros ?; try done
  | |- preserves (keeps _) (modify _) => apply pres_modify; intros ?; reflexivity
  | |- preserves (emits _) (modify _) =>
      apply pres_modify; intros ?; exists []; rewrite app_nil_r; done
  | |- preserves (keeps _) fresh_addr => apply pres_fresh; intros ? ?; reflexivity
  | |- preserves (emits _) fresh_addr =>
      apply pres_fresh; intros ? ?; exists []; rewrite app_nil_r; done
  | |- preserves (both _ _) _ => apply both_intro
  | |- preserves _ _ => solve [auto with km typeclass_instances]
  end.
Ltac pres := repeat pres_step.

Section FrameLemmas.
Context `{P : Platform}.

Lemma keeps_upd_con {A} (f : st -> A) c g :
  (forall s m, f (set_st_cons m s) = f s) -> preserves (keeps f) (upd_con c g).
Proof.
  intros H. unfold upd_con. pres. intros s. cbn. apply H.
Qed.

Lemma stable_upd_con (I : st -> Prop) c f :
  (forall s k, I s -> st_cons s !! c = Some k ->
     I (set_st_cons (<[c := f k]> (st_cons s)) s)) ->
  preserves (stable I) (upd_con c f).
Proof.
  intros H s. unfold upd_con, bind, get_con. destruct (st_cons s !! c) eqn:E; [|done].
  cbn. intros HI. by apply H.
Qed.

Lemma stable_upd_srv (I : st -> Prop) f :
  (forall s v, I s -> st_srv s = SrvLive v -> I (set_st_srv (SrvLive (f v)) s)) ->
  preserves (stable I) (upd_srv f).
Proof.
  intros H s. unfold upd_srv, bind, get_srv. destruct (st_srv s) eqn:E; try done.
  cbn. intros HI. by apply H.
Qed.

Lemma stable_upd_sock (I : st -> Prop) a f :
  (forall s m, I s -> I (set_st_socks m s)) -> preserves (stable I) (upd_sock a f).
Proof.
  intros H s. unfold upd_sock, bind, get_sock. destruct (st_socks s !! a) eqn:E; [|done].
  cbn. intros HI. by apply H.
Qed.

Lemma stable_sock_release (I : st -> Prop) `{!EnvFree I} a :
  (forall s m, I s -> I (set_st_socks m s)) -> preserves (stable I) (sock_release a).
Proof.
  intros H s. unfold sock_release. destruct (st_socks s !! a); [|by intros ?].
  unfold bind. destruct (call_total (SockRelease a) s) as (r & e & ->). cbn.
  intros HI. apply H. by rewrite env_free.
Qed.

(** A relation that holds at every step of a sequence starting in [I] and holding
    from [s]: used when the update depends on what is known of the state. *)
Lemma stable_run {A} (I : st -> Prop) (m : KM A) s a s' :
  preserves (stable I) m -> I s -> m s = Ret a s' -> I s'.
Proof. intros H HI Hr. specialize (H s). rewrite Hr in H. auto. Qed.

Lemma keeps_sock_release {A} (f : st -> A) `{!EnvFree f} a :
  (forall s m, f (set_st_socks m s) = f s) -> preserves (keeps f) (sock_release a).
Proof.
  intros H s. unfold sock_release. destruct (st_socks s !! a); [|done].
  unfold bind. destruct (call_total (SockRelease a) s) as (r & e & ->). cbn.
  unfold keeps. rewrite H. apply env_free.
Qed.

Lemma emits_sock_release (ok : event -> Prop) a :
  (forall r, ok (Ev (SockRelease a) r)) -> preserves (emits ok) (sock_release a).
Proof.
  intros H s. unfold sock_release. destruct (st_socks s !! a); [|exact (reflexivity s)].
  unfold bind. destruct (call_total (SockRelease a) s) as (r & e & ->). cbn.
  exists [Ev (SockRelease a) r]. split; [done | by constructor].
Qed.

Lemma emits_upd_con ok c g : preserves (emits ok) (upd_con c g).
Proof. unfold upd_con. pres. Qed.

Lemma emits_upd_srv ok g : preserves (emits ok) (upd_srv g).
Proof. unfold upd_srv. pres. Qed.

Lemma emits_upd_sock ok a g : preserves (emits ok) (upd_sock a g).
Proof. unfold upd_sock. pres. Qed.

(** Waiting for room in a socket buffer changes nothing and only waits. *)
Definition wait_event (e : event) : Prop :=
  match e with
  | Ev (WaitEventTimeout _) _ | Ev (SkStreamIsWriteable _) _ | Ev (ClearNospace _) _ => True
  | _ => False
  end.

Lemma wait_to_send_keeps {A} (f : st -> A) `{!EnvFree f} fuel sk :
  preserves (keeps f) (pepdna_wait_to_send fuel sk).
Proof. unfold pepdna_wait_to_send, user_con, pepdna_sock_writeable. pres. Qed.

Lemma wait_to_send_emits fuel sk :
  preserves (emits wait_event) (pepdna_wait_to_send fuel sk).
Proof. unfold pepdna_wait_to_send, user_con, pepdna_sock_writeable. pres. Qed.

Lemma sock_write_keeps {A} (f : st -> A) `{!EnvFree f} fuel sock buf len :
  preserves (keeps f) (pepdna_sock_write fuel sock buf len).
Proof.
  unfold pepdna_sock_write, sock_write_body, kernel_sendmsg. pres.
  apply wait_to_send_keeps. apply _.
Qed.

End FrameLemmas.

#[export] Hint Resolve wait_to_send_keeps wait_to_send_emits sock_write_keeps
  emits_upd_con emits_upd_srv emits_upd_sock : km.

#[export] Hint Extern 1 (preserves (emits _) (sock_release _)) =>
  apply emits_sock_release; intros; done : km.
#[export] Hint Extern 1 (preserves (keeps _) (sock_release _)) =>
  apply keeps_sock_release; [apply _ | intros; reflexivity] : km.
#[export] Hint Extern 1 (preserves (keeps _) (upd_con _ _)) =>
  apply keeps_upd_con; intros; reflexivity : km.
#[export] Hint Extern 1 (preserves (stable _) (sock_release _)) =>
  apply stable_sock_release; [apply _ | intros; assumption] : km.
#[export] Hint Extern 1 (preserves (stable _) (upd_sock _ _)) =>
  apply stable_upd_sock; intros; assumption : km.
