(* ===== verification/Relay.v ===== *)
(** Stream relaying over TCP: what pepdna_sock_write hands to the kernel, what
    pepdna_con_i2i_fwd moves, and the forwarding works of tcp.c as relays of the
    byte stream between the two sockets of a connection. *)

From Stdlib Require Import ZArith Lia.
From stdpp Require Import base list gmap.
From S2P Require Import Prelude Ints Types Setters Kernel Hash TcpUtils Rtxq Connection Tcp.
From S2P Require Import Frame.
Open Scope Z_scope.

(** ** The byte streams of a trace *)

(** The bytes the kernel accepted for socket [a] in one event. *)
Definition accepted (a : positive) (e : event) : list Z :=
  match e with
  | Ev c r =>
      match c in kE R return R -> list Z with
      | KernelSendmsg a' b => fun rc => if decide (a' = a) then take (Z.to_nat rc) b else []
      | _ => fun _ => []
      end r
  end.

(** The bytes the kernel delivered from socket [a] in one event. *)
Definition received (a : positive) (e : event) : list Z :=
  match e with
  | Ev c r =>
      match c in kE R return R -> list Z with
      | KernelRecvmsg a' _ => fun r =>
          if decide (a' = a) then if 0 <? fst r then snd r else [] else []
      | _ => fun _ => []
      end r
  end.

Definition stream_out (a : positive) (evs : list event) : list Z :=
  concat (accepted a <$> evs).
Definition stream_in (a : positive) (evs : list event) : list Z :=
  concat (received a <$> evs).

(** kernel_sendmsg accepts at most what it is given, kernel_recvmsg delivers as
    many bytes as it says and no more than it was asked for. *)
Class SendmsgLaw (P : Platform) : Prop :=
  sendmsg_le : forall a b e, fst (kcall (KernelSendmsg a b) e) <= Z.of_nat (length b).
Class RecvmsgLaw (P : Platform) : Prop :=
  recvmsg_len : forall a n e, let '(r, b) := fst (kcall (KernelRecvmsg a n) e) in
    0 < r -> Z.of_nat (length b) = r /\ r <= n.

Section Streams.
Context `{P : Platform}.

Lemma stream_out_app a e1 e2 : stream_out a (e1 ++ e2) = stream_out a e1 ++ stream_out a e2.
Proof. unfold stream_out. by rewrite fmap_app, concat_app. Qed.

Lemma stream_in_app a e1 e2 : stream_in a (e1 ++ e2) = stream_in a e1 ++ stream_in a e2.
Proof. unfold stream_in. by rewrite fmap_app, concat_app. Qed.

(** Events that move no bytes. *)
Definition silent (e : event) : Prop :=
  match e with
  | Ev c _ => match c with KernelSendmsg _ _ | KernelRecvmsg _ _ => False | _ => True end
  end.

Lemma silent_streams a evs :
  Forall silent evs -> stream_out a evs = [] /\ stream_in a evs = [].
Proof.
  induction 1 as [|[R c r] evs He _ [IH1 IH2]]; [done|].
  unfold stream_out, stream_in in *. cbn. rewrite IH1, IH2.
  by destruct c.
Qed.

Lemma wait_silent e : wait_event e -> silent e.
Proof. destruct e as [R c r]. by destruct c. Qed.

(** What a run of a part of the program added to the trace. *)
Definition added (s s' : st) (evs : list event) : Prop := st_trace s' = st_trace s ++ evs.

Lemma added_trans s1 s2 s3 e1 e2 :
  added s1 s2 e1 -> added s2 s3 e2 -> added s1 s3 (e1 ++ e2).
Proof. unfold added. intros -> ->. by rewrite app_assoc. Qed.

Lemma kernel_sendmsg_inv sock b s rc s' :
  kernel_sendmsg sock b s = Ret rc s' ->
  exists a e, sock = Some a /\ kcall (KernelSendmsg a b) (st_env s) = (rc, e)
    /\ s' = set_st_trace (st_trace s ++ [Ev (KernelSendmsg a b) rc]) (set_st_env e s).
Proof.
  unfold kernel_sendmsg, bind, deref, get_sock. destruct sock as [a|]; [|done]. cbn.
  destruct (st_socks s !! a); [|done].
  destruct (kcall (KernelSendmsg a b) (st_env s)) as [r e] eqn:Hk.
  rewrite (call_run _ _ _ _ Hk). intros [= <- <-]. eauto.
Qed.

Lemma kernel_recvmsg_inv sock n s r s' :
  kernel_recvmsg sock n s = Ret r s' ->
  exists a e, sock = Some a /\ kcall (KernelRecvmsg a n) (st_env s) = (r, e)
    /\ s' = set_st_trace (st_trace s ++ [Ev (KernelRecvmsg a n) r]) (set_st_env e s).
Proof.
  unfold kernel_recvmsg, bind, deref, get_sock. destruct sock as [a|]; [|done]. cbn.
  destruct (st_socks s !! a); [|done].
  destruct (kcall (KernelRecvmsg a n) (st_env s)) as [x e] eqn:Hk.
  rewrite (call_run _ _ _ _ Hk). intros [= <- <-]. eauto.
Qed.

(** ** pepdna_sock_write *)

(** The loop invariant: [sent] bytes of the buffer are accepted, in order, and
    nothing is received. *)
Definition write_inv (s0 : st) (a : positive) (buf : list Z) (l : write_loop) (s : st)
    : Prop :=
  0 <= wl_left l /\ 0 <= wl_sent l /\ wl_left l + wl_sent l = Z.of_nat (length buf) /\
  exists evs, added s0 s evs /\ stream_in a evs = [] /\
    (forall d, stream_in d evs = []) /\
    stream_out a evs = take (Z.to_nat (wl_sent l)) buf /\
    (forall d, d <> a -> stream_out d evs = []).

Definition write_post (s0 : st) (a : positive) (buf : list Z) (r : Z) (s : st) : Prop :=
  exists evs, added s0 s evs /\ (forall d, stream_in d evs = []) /\
    (forall d, d <> a -> stream_out d evs = []) /\
    ((r = Z.of_nat (length buf) /\ stream_out a evs = buf) \/
     (r < 0 /\ exists n, (n < length buf)%nat /\ stream_out a evs = take n buf)).

Lemma write_inv_silent s0 a buf l s s' :
  write_inv s0 a buf l s -> emits silent s s' -> write_inv s0 a buf l s'.
Proof.
  intros (? & ? & ? & evs & Hadd & Hin & Hins & Hout & Hd) (evs' & Htr & Hsil).
  split_and!; try done. exists (evs ++ evs').
  assert (added s0 s' (evs ++ evs')) by (eapply added_trans; eauto).
  pose proof (fun d => silent_streams d _ Hsil) as Hs.
  split_and!; [done| | | |]; intros; rewrite ?stream_in_app, ?stream_out_app.
  - by rewrite Hin, (proj2 (Hs a)).
  - by rewrite Hins, (proj2 (Hs d)).
  - by rewrite Hout, (proj1 (Hs a)), app_nil_r.
  - by rewrite Hd, (proj1 (Hs d)).
Qed.

Context `{!SendmsgLaw P}.

Lemma write_inv_send s0 a buf l s rc e :
  write_inv s0 a buf l s ->
  let b := take (Z.to_nat (wl_left l)) (drop (Z.to_nat (wl_sent l)) buf) in
  kcall (KernelSendmsg a b) (st_env s) = (rc, e) ->
  let s' := set_st_trace (st_trace s ++ [Ev (KernelSendmsg a b) rc]) (set_st_env e s) in
  (0 <= rc <= wl_left l -> write_inv s0 a buf (mkWL (wl_left l - rc) (wl_sent l + rc) (wl_count l)) s')
  /\ (rc <= 0 -> write_inv s0 a buf l s') /\ rc <= wl_left l.
Proof.
  intros (Hl & Hs & Hlen & evs & Hadd & Hin & Hins & Hout & Hd) b Hk s'.
  assert (Z.of_nat (length b) = wl_left l) as Hb.
  { unfold b. rewrite length_take, length_drop. lia. }
  assert (forall k, stream_in k (evs ++ [Ev (KernelSendmsg a b) rc]) = []) as Hins'.
  { intros k. rewrite stream_in_app, Hins. done. }
  assert (forall d, d <> a -> stream_out d (evs ++ [Ev (KernelSendmsg a b) rc]) = []) as Hd'.
  { intros d Hne. rewrite stream_out_app, Hd by done. unfold stream_out. cbn.
    by rewrite decide_False. }
  assert (added s0 s' (evs ++ [Ev (KernelSendmsg a b) rc])) as Hadd'.
  { eapply added_trans; [exact Hadd | done]. }
  assert (stream_out a (evs ++ [Ev (KernelSendmsg a b) rc])
          = take (Z.to_nat (wl_sent l)) buf ++ take (Z.to_nat rc) b) as Hout'.
  { rewrite stream_out_app, Hout. unfold stream_out. cbn.
    by rewrite decide_True, app_nil_r. }
  split_and!.
  - intros Hrc. split_and!; cbn; [lia|lia|lia|].
    eexists. split_and!; [done|done|done| |done]. rewrite Hout'. unfold b.
    rewrite take_take, Nat.min_l by lia. rewrite take_take_drop. f_equal. lia.
  - intros Hrc. split_and!; [done|done|done|].
    eexists. split_and!; [done|done|done| |done]. rewrite Hout'.
    replace (Z.to_nat rc) with 0%nat by lia. by rewrite take_0, app_nil_r.
  - pose proof (sendmsg_le a b (st_env s)) as Hle. rewrite Hk in Hle. cbn in Hle. lia.
Qed.

Lemma sock_write_body_spec s0 fuel a buf l :
  Z.of_nat (length buf) < 2 ^ 31 ->
  hoare (write_inv s0 a buf l) (sock_write_body fuel (Some a) buf l)
    (fun r s => match r with
                | inl l' => write_inv s0 a buf l' s
                | inr x => write_post s0 a buf x s
                end).
Proof.
  intros Hsz s Hinv. pose proof Hinv as (Hl & Hs & Hlen & _).
  assert (forall r s, write_inv s0 a buf l s -> wl_left l <> 0 -> r < 0 ->
          write_post s0 a buf r s) as Herr.
  { intros r s1 (_ & _ & _ & evs & ? & _ & ? & Ho & ?) Hne Hr. exists evs.
    split_and!; [done..|]. right. split; [done|].
    exists (Z.to_nat (wl_sent l)). split; [lia | done]. }
  unfold sock_write_body. destruct (truth (wl_left l)) eqn:Ht; cbn [negb]; last first.
  { unfold truth in Ht. assert (wl_left l = 0) as H0 by lia. cbn.
    destruct Hinv as (_ & _ & _ & evs & ? & _ & ? & Ho & ?). exists evs.
    split_and!; [done..|]. left. split.
    - rewrite s32_small by lia. lia.
    - rewrite Ho, firstn_all2; [done | lia]. }
  assert (wl_left l <> 0) as Hne by (unfold truth in Ht; lia). clear Ht.
  unfold bind at 1. destruct (kernel_sendmsg _ _ s) as [rc s1| |] eqn:Hrun; [|done|done].
  apply kernel_sendmsg_inv in Hrun as (a' & e & [= <-] & Hk & ->).
  destruct (write_inv_send _ _ _ _ _ _ _ Hinv Hk) as (Hpos & Hneg & Hle). cbv zeta in *.
  destruct (rc =? 0) eqn:E0.
  { apply Z.eqb_eq in E0. subst rc. destruct (wl_count l + 1 <? 2); cbn.
    - specialize (Hneg ltac:(lia)). exact Hneg.
    - apply Herr; [apply Hneg; lia | done | done]. }
  destruct (0 <? rc) eqn:E1.
  { cbn. assert (0 <= rc <= wl_left l) as Hr by lia. specialize (Hpos Hr).
    unfold u64. rewrite !wrap_small by lia. exact Hpos. }
  destruct (rc =? - EAGAIN); cbn.
  - unfold bind. set (s1 := set_st_trace _ _) in *.
    pose proof (wait_to_send_emits fuel a s1) as Hw.
    destruct (pepdna_wait_to_send fuel a s1) as [[] s2| |]; [|done|done]. cbn.
    eapply write_inv_silent; [apply Hneg; lia|]. destruct Hw as (evs & ? & Hf).
    exists evs. split; [done|]. eapply Forall_impl; [exact Hf | apply wait_silent].
  - apply Herr; [apply Hneg; lia | done | lia].
Qed.

(** Whatever the kernel answers, a write that returns has handed the kernel the
    whole buffer, in order and once, or fails with a proper prefix handed over;
    no other socket is touched. *)
Lemma sock_write_relays s0 fuel a buf r s :
  Z.of_nat (length buf) < 2 ^ 31 ->
  pepdna_sock_write fuel (Some a) buf (Z.of_nat (length buf)) s0 = Ret r s ->
  write_post s0 a buf r s.
Proof.
  intros Hsz Hrun. unfold pepdna_sock_write in Hrun.
  pose proof (hoare_iter (write_inv s0 a buf) (sock_write_body fuel (Some a) buf)
                (write_post s0 a buf) (fun l => sock_write_body_spec s0 fuel a buf l Hsz)
                fuel (mkWL (Z.of_nat (length buf)) 0 0) s0) as H.
  rewrite Hrun in H. apply H. split_and!; cbn; [lia|lia|lia|].
  exists []. unfold added. rewrite app_nil_r. by split_and!.
Qed.

(** ** pepdna_con_i2i_fwd *)

(** The bytes sent to [b] are a prefix of the bytes received from [a]; they are
    equal when the result is positive or -EAGAIN. *)
Definition fwd_post (s : st) (a b : positive) (r : Z) (s' : st) : Prop :=
  exists evs, added s s' evs /\
    (forall d, d <> a -> stream_in d evs = []) /\
    (forall d, d <> b -> stream_out d evs = []) /\
    stream_out b evs `prefix_of` stream_in a evs /\
    (0 < r \/ r = - EAGAIN -> stream_out b evs = stream_in a evs).

Lemma call_inv {R} (c : kE R) s r s' :
  call c s = Ret r s' ->
  exists e, kcall c (st_env s) = (r, e)
    /\ s' = set_st_trace (st_trace s ++ [Ev c r]) (set_st_env e s).
Proof. unfold call. destruct (kcall c (st_env s)). intros [= <- <-]. eauto. Qed.

Lemma fwd_post_silent s a b r s1 s' evs :
  fwd_post s a b r s1 -> added s1 s' evs -> Forall silent evs -> fwd_post s a b r s'.
Proof.
  intros (e & Hadd & Hi & Ho & Hp & He) Ha Hs. exists (e ++ evs).
  pose proof (fun d => silent_streams d _ Hs) as Hsil.
  split_and!; [by eapply added_trans|..]; intros;
    rewrite ?stream_in_app, ?stream_out_app, ?(proj1 (Hsil _)), ?(proj2 (Hsil _)),
      ?app_nil_r; auto.
Qed.

Context `{!RecvmsgLaw P}.

Lemma received_event a d n r b :
  stream_in d [Ev (KernelRecvmsg a n) (r, b)]
  = if decide (a = d) then if 0 <? r then b else [] else [].
Proof. unfold stream_in. cbn. by rewrite app_nil_r. Qed.

Lemma i2i_fwd_relays fuel a b s r s' :
  pepdna_con_i2i_fwd fuel (Some a) (Some b) s = Ret r s' -> fwd_post s a b r s'.
Proof.
  intros Hrun. unfold pepdna_con_i2i_fwd in Hrun. run_inv Hrun.
  apply call_inv in Hrun0 as (e0 & _ & ->). destruct r0; cbn [negb] in Hrun; last first.
  { injection Hrun as <- <-. exists [Ev (Kzalloc (ObjBuf MAX_BUF_SIZE)) false].
    by split_and!. }
  set (s1 := set_st_trace _ _) in Hrun.
  assert (fwd_post s a b 1 s1) as H1.
  { exists [Ev (Kzalloc (ObjBuf MAX_BUF_SIZE)) true]. by split_and!. }
  run_inv Hrun. apply kernel_recvmsg_inv in Hrun0 as (a' & e1 & [= <-] & Hk & ->).
  destruct r0 as [rd buf]. set (s2 := set_st_trace _ _) in Hrun.
  pose proof (recvmsg_len a MAX_BUF_SIZE (st_env s1)) as Hlaw. rewrite Hk in Hlaw. cbn in Hlaw.
  assert (exists e, added s s2 e /\ (forall d, stream_out d e = []) /\
            (forall d, stream_in d e = if decide (a = d) then if 0 <? rd then buf else [] else []))
    as (e & Hadd & Hout & Hin).
  { exists ([Ev (Kzalloc (ObjBuf MAX_BUF_SIZE)) true] ++ [Ev (KernelRecvmsg a MAX_BUF_SIZE) (rd, buf)]).
    split_and!.
    - by eapply (added_trans _ s1).
    - done.
    - intros d. rewrite stream_in_app, received_event. done. }
  destruct (0 <? rd) eqn:Erd.
  - specialize (Hlaw ltac:(lia)) as [Hlen Hmax]. unfold MAX_BUF_SIZE in Hmax.
    run_inv Hrun. rewrite <- Hlen in Hrun0.
    apply sock_write_relays in Hrun0 as (e2 & Hadd2 & Hi2 & Ho2 & Hcase);
      [|rewrite Hlen; lia].
    assert (forall x, (r0 < 0 -> x = -1) -> (0 <= r0 -> x = rd) -> fwd_post s a b x s0) as Hfin.
    { intros x Hx1 Hx2. exists (e ++ e2).
      split_and!; [by eapply added_trans|..].
      - intros d Hd. by rewrite stream_in_app, Hin, decide_False, Hi2 by done.
      - intros d Hd. by rewrite stream_out_app, Hout, Ho2.
      - rewrite stream_out_app, stream_in_app, Hout, Hin, Hi2, decide_True, app_nil_r by done.
        cbn. destruct Hcase as [[_ ->]|[_ (n & _ & ->)]]; [done | apply prefix_take].
      - rewrite stream_out_app, stream_in_app, Hout, Hin, Hi2, decide_True, app_nil_r by done.
        cbn. destruct Hcase as [[_ ->]|[Hneg _]]; [done|].
        rewrite (Hx1 Hneg). unfold EAGAIN. intros [?|?]; lia. }
    destruct (r0 <? 0) eqn:Er0; run_inv Hrun; apply call_inv in Hrun0 as (e3 & _ & ->);
      injection Hrun as <- <-; (eapply fwd_post_silent;
      [apply Hfin; lia | done | by repeat constructor]).
  - run_inv Hrun. apply call_inv in Hrun0 as (e3 & _ & ->). injection Hrun as <- <-.
    eapply (fwd_post_silent _ _ _ _ s2); [| done | by repeat constructor].
    exists e. split_and!; [done|..]; intros; rewrite ?Hin, ?Hout; try done;
      destruct (decide _); try done.
Qed.

(** ** Closing moves no bytes and ends the loop *)

Lemma rtxqueue_flush_silent l : preserves (emits silent) (rtxqueue_flush l).
Proof.
  induction l as [|e l IH]; cbn; unfold rtxq_entry_destroy; pres; apply IH.
Qed.

Lemma rtxq_destroy_silent q : preserves (emits silent) (rtxq_destroy q).
Proof.
  unfold rtxq_destroy, rtxqueue_destroy. pres; apply rtxqueue_flush_silent.
Qed.

Lemma con_put_silent c : preserves (emits silent) (pepdna_con_put c).
Proof.
  unfold pepdna_con_put, pepdna_con_kref_release, release_side, hlist_del. pres.
Qed.

Lemma con_close_silent c : preserves (emits silent) (pepdna_con_close c).
Proof.
  unfold pepdna_con_close, close_side, close_right_rina, cancel_work_sync, del_timer. pres;
    solve [apply con_put_silent | apply rtxq_destroy_silent].
Qed.

(** [field] of connection [c] is zero, if the connection is still there. *)
Definition zero_field (field : con -> Z) (c : positive) (s : st) : Prop :=
  forall k, st_cons s !! c = Some k -> field k = 0.

#[local] Instance zero_field_env field c : EnvFree (zero_field field c) :=
  fun _ _ _ => eq_refl.

Lemma zero_field_upd field c d f :
  (forall k, field k = 0 -> field (f k) = 0) ->
  preserves (stable (zero_field field c)) (upd_con d f).
Proof.
  intros Hf. apply stable_upd_con. intros s k HI Hd k'. cbn.
  destruct (decide (d = c)) as [->|Hne].
  - rewrite lookup_insert_eq. intros [= <-]. auto.
  - rewrite lookup_insert_ne by done. apply HI.
Qed.

Lemma zero_field_put field c d :
  (forall v k, field (set_con_kref v k) = field k) ->
  (forall v k, field (set_con_lsock v k) = field k) ->
  (forall v k, field (set_con_rsock v k) = field k) ->
  preserves (stable (zero_field field c)) (pepdna_con_put d).
Proof.
  intros H1 H2 H3.
  unfold pepdna_con_put, pepdna_con_kref_release, release_side, hlist_del. pres.
  all: try (apply zero_field_upd; intros ? Hk; rewrite ?H1, ?H2, ?H3; exact Hk).
  all: try (apply stable_upd_srv; intros; assumption).
  apply pres_modify. intros s HI k. cbn. intros Hk.
  apply HI. by apply lookup_delete_Some in Hk as [_ ?].
Qed.

(** After pepdna_con_close of a connection with a left socket the left flag is
    clear; in TCP2TCP mode with a right socket, the right flag too. *)
Lemma con_close_lflag c s a s' :
  (forall k, st_cons s !! c = Some k -> is_Some (con_lsock k)) ->
  pepdna_con_close (Some c) s = Ret a s' -> zero_field con_lflag c s'.
Proof.
  intros Hl Hrun. unfold pepdna_con_close in Hrun. run_inv Hrun.
  unfold get_con in Hrun0. destruct (st_cons s !! c) as [k|] eqn:Ek; [|done].
  injection Hrun0 as <- <-. destruct (Hl k eq_refl) as [lsk El]. rewrite El in Hrun.
  run_inv Hrun. rewrite (upd_con_run _ _ _ _ Ek) in Hrun0. injection Hrun0 as <- <-.
  eapply (stable_run (zero_field con_lflag c)); [| |exact Hrun].
  - unfold close_side, close_right_rina, cancel_work_sync, del_timer, rtxq_destroy. pres.
    all: try (apply zero_field_put; done).
    all: try (apply zero_field_upd; done).
    all: unfold rtxqueue_destroy; pres.
    all: try (apply pres_modify; intros ? HI; exact HI).
    all: match goal with |- preserves _ (rtxqueue_flush ?l) => induction l as [|e l' IH] end;
         cbn; unfold rtxq_entry_destroy; pres; apply IH.
  - intros k'. cbn. rewrite lookup_insert_eq. by intros [= <-].
Qed.

Lemma con_close_rflag c s v a s' :
  st_srv s = SrvLive v -> is_mode (srv_mode v) TCP2TCP = true ->
  (forall k, st_cons s !! c = Some k -> is_Some (con_lsock k) /\ is_Some (con_rsock k)) ->
  pepdna_con_close (Some c) s = Ret a s' -> zero_field con_rflag c s'.
Proof.
  intros Hv Hm Hl Hrun. unfold pepdna_con_close in Hrun. run_inv Hrun.
  unfold get_con in Hrun0. destruct (st_cons s !! c) as [k|] eqn:Ek; [|done].
  injection Hrun0 as <- <-. destruct (Hl k eq_refl) as [[lsk El] [rsk Er]].
  rewrite El in Hrun. run_inv Hrun. rewrite (upd_con_run _ _ _ _ Ek) in Hrun0.
  injection Hrun0 as <- <-. run_inv Hrun. rename Hrun0 into Hside.
  set (s1 := set_st_cons (<[c:=set_con_lflag 0 k]> (st_cons s)) s) in *.
  assert (keeps st_srv s1 s0 /\ keeps st_cons s1 s0) as [Hsrv Hcons].
  { split; (eapply pres_run; [|exact Hside]); unfold close_side, upd_sock; pres. }
  run_inv Hrun. assert (st_srv s0 = SrvLive v) as Hs0 by (rewrite Hsrv; exact Hv).
  rewrite (get_srv_run _ _ Hs0) in Hrun0. injection Hrun0 as <- <-.
  rewrite Hm, Er in Hrun. run_inv Hrun.
  assert (st_cons s0 !! c = Some (set_con_lflag 0 k)) as Ec.
  { rewrite Hcons. cbn. by rewrite lookup_insert_eq. }
  rewrite (upd_con_run _ _ _ _ Ec) in Hrun0. injection Hrun0 as <- <-.
  eapply (stable_run (zero_field con_rflag c)); [| |exact Hrun].
  - unfold close_side. pres; apply zero_field_put; done.
  - intros k'. cbn. rewrite lookup_insert_eq. by intros [= <-].
Qed.

(** ** The forwarding works as stream relays *)

(** During [s0 -> s] the bytes accepted for [b] are a prefix of the bytes
    received from [a], and no other socket was read or written. *)
Definition relays (s0 : st) (a b : positive) (s : st) : Prop :=
  exists evs, added s0 s evs /\
    (forall d, d <> a -> stream_in d evs = []) /\
    (forall d, d <> b -> stream_out d evs = []) /\
    stream_out b evs `prefix_of` stream_in a evs.

(** ... and nothing that was received is still missing. *)
Definition relays_all (s0 : st) (a b : positive) (s : st) : Prop :=
  exists evs, added s0 s evs /\
    (forall d, d <> a -> stream_in d evs = []) /\
    (forall d, d <> b -> stream_out d evs = []) /\
    stream_out b evs = stream_in a evs.

Lemma relays_all_relays s0 a b s : relays_all s0 a b s -> relays s0 a b s.
Proof. intros (evs & ? & ? & ? & H). exists evs. rewrite H. by split_and!. Qed.

Lemma relays_silent s0 a b s s' :
  relays s0 a b s -> emits silent s s' -> relays s0 a b s'.
Proof.
  intros (e & Hadd & Hi & Ho & Hp) (evs & Ha & Hs). exists (e ++ evs).
  pose proof (fun d => silent_streams d _ Hs) as Hsil.
  split_and!; [by eapply added_trans|..]; intros;
    rewrite ?stream_in_app, ?stream_out_app, ?(proj1 (Hsil _)), ?(proj2 (Hsil _)),
      ?app_nil_r; auto.
Qed.

Lemma relays_all_fwd s0 a b s r s' :
  relays_all s0 a b s -> fwd_post s a b r s' ->
  relays s0 a b s' /\ (0 < r \/ r = - EAGAIN -> relays_all s0 a b s').
Proof.
  intros (e & Hadd & Hi & Ho & Hp) (e2 & Ha2 & Hi2 & Ho2 & Hp2 & He2).
  assert (added s0 s' (e ++ e2)) by by eapply added_trans.
  assert (forall d, d <> a -> stream_in d (e ++ e2) = []).
  { intros d Hd. by rewrite stream_in_app, Hi, Hi2. }
  assert (forall d, d <> b -> stream_out d (e ++ e2) = []).
  { intros d Hd. by rewrite stream_out_app, Ho, Ho2. }
  split.
  - exists (e ++ e2). split_and!; [done..|].
    rewrite stream_in_app, stream_out_app, Hp. by apply prefix_app.
  - intros Hr. exists (e ++ e2). split_and!; [done..|].
    rewrite stream_in_app, stream_out_app, Hp. by rewrite He2.
Qed.

Section FwdLoop.
Context (c a b : positive) (flag : con -> Z) (src dst : con -> option positive).
Context (ready : con -> server -> Prop).
Hypothesis ready_sides : forall k v, ready k v -> src k = Some a /\ dst k = Some b.

(** The connection, while it is there, and the server are as the close needs. *)
Definition loop_base (s : st) : Prop :=
  exists v, st_srv s = SrvLive v /\ (forall k, st_cons s !! c = Some k -> ready k v).

Hypothesis close_clears : forall s x s',
  loop_base s -> pepdna_con_close (Some c) s = Ret x s' -> zero_field flag c s'.

Definition up_flag (o : option positive) : KM bool :=
  match o with
  | None => ret false
  | Some c => do k <- get_con c; ret (truth (flag k))
  end.

Lemma fwd_loop_relays s0 fuel fuel' :
  hoare (fun s => relays s0 a b s /\ ((relays_all s0 a b s /\ loop_base s) \/ zero_field flag c s))
    (fwd_loop fuel c up_flag
       (do k <- get_con c; pepdna_con_i2i_fwd fuel' (src k) (dst k))
       (pepdna_con_close (Some c)))
    (fun _ s => relays s0 a b s).
Proof using All.
  unfold fwd_loop.
  apply (hoare_iter (fun (_ : unit) s => relays s0 a b s /\
    ((relays_all s0 a b s /\ loop_base s) \/ zero_field flag c s))).
  intros _ s (Hrel & Hcase). unfold up_flag, bind, get_con.
  destruct (st_cons s !! c) as [k|] eqn:Ek; [|exact I]. cbn.
  destruct (truth (flag k)) eqn:Et; cbn; [|done].
  destruct Hcase as [(Hall & Hb)|Hz].
  2:{ rewrite (Hz k Ek) in Et. done. }
  rewrite Ek. pose proof Hb as (v & Hv & Hready).
  destruct (ready_sides _ _ (Hready k Ek)) as [-> ->].
  destruct (pepdna_con_i2i_fwd fuel' (Some a) (Some b) s) as [rc s1| |] eqn:Hf; [|done|done].
  assert (loop_base s1) as Hb1.
  { assert (keeps st_cons s s1 /\ keeps st_srv s s1) as [Hc1 Hs1].
    { split; (eapply pres_run; [|exact Hf]);
        unfold pepdna_con_i2i_fwd, kernel_recvmsg; pres. }
    exists v. rewrite Hs1, Hc1. done. }
  apply i2i_fwd_relays in Hf. destruct (relays_all_fwd _ _ _ _ _ _ Hall Hf) as [Hr1 Hr2].
  destruct (rc <=? 0) eqn:Erc.
  - destruct (rc =? - EAGAIN); cbn; [done|].
    pose proof (con_close_silent (Some c) s1) as Hsil.
    destruct (pepdna_con_close (Some c) s1) as [u s2| |] eqn:Hcl; [|exact I|exact I]. cbn.
    split; [by eapply relays_silent|]. right. by eapply close_clears.
  - cbn. split; [done|]. left. split; [apply Hr2; lia | done].
Qed.
End FwdLoop.

(** Both sides of a TCP2TCP connection that is open. *)
Definition tcp_con (c a b : positive) (s : st) : Prop :=
  exists v k, st_srv s = SrvLive v /\ srv_mode v = mode_val TCP2TCP /\
    st_cons s !! c = Some k /\ con_lsock k = Some a /\ con_rsock k = Some b.

Lemma relays_all_refl s a b : relays_all s a b s.
Proof. exists []. unfold added. rewrite app_nil_r. by split_and!. Qed.

Lemma hoare_run {A} I (m : KM A) (Q : A -> st -> Prop) s x s' :
  hoare I m Q -> I s -> m s = Ret x s' -> Q x s'.
Proof. intros H HI Hr. specialize (H s HI). by rewrite Hr in H. Qed.

Lemma l2r_work_relays fuel c a b s s' :
  tcp_con c a b s -> pepdna_con_l2r_fwd fuel c s = Ret tt s' -> relays s a b s'.
Proof.
  intros (v & k & Hv & Hm & Hk & Hl & Hr) Hrun. unfold pepdna_con_l2r_fwd in Hrun.
  run_inv Hrun. eapply relays_silent; [|eapply pres_run; [apply con_put_silent|exact Hrun]].
  pose (ready := fun (k : con) (_ : server) => con_lsock k = Some a /\ con_rsock k = Some b).
  eapply (hoare_run _ _ (fun _ s' => relays s a b s')); [| |exact Hrun0].
  - apply (fwd_loop_relays c a b con_lflag con_lsock con_rsock ready).
    + by intros ? ? [].
    + intros s1 x s2 (v' & _ & Hready) Hcl. eapply con_close_lflag; [|exact Hcl].
      intros k' Hk'. destruct (Hready k' Hk') as [-> _]. eauto.
  - split; [apply relays_all_relays, relays_all_refl|]. left. split; [apply relays_all_refl|].
    exists v. split; [done|]. intros k' Hk'. rewrite Hk in Hk'. by injection Hk' as <-.
Qed.

Lemma r2l_work_relays fuel c a b s s' :
  tcp_con c a b s -> pepdna_con_r2l_fwd fuel c s = Ret tt s' -> relays s b a s'.
Proof.
  intros (v & k & Hv & Hm & Hk & Hl & Hr) Hrun. unfold pepdna_con_r2l_fwd in Hrun.
  run_inv Hrun. eapply relays_silent; [|eapply pres_run; [apply con_put_silent|exact Hrun]].
  pose (ready := fun (k : con) (v : server) =>
    (con_rsock k = Some b /\ con_lsock k = Some a) /\ is_mode (srv_mode v) TCP2TCP = true).
  eapply (hoare_run _ _ (fun _ s' => relays s b a s')); [| |exact Hrun0].
  - apply (fwd_loop_relays c b a con_rflag con_rsock con_lsock ready).
    + by intros ? ? [? _].
    + intros s1 x s2 (v' & Hv' & Hready) Hcl.
      destruct (st_cons s1 !! c) as [k'|] eqn:Ek'.
      * destruct (Hready k' eq_refl) as [[Hb Ha] Hm'].
        eapply con_close_rflag; [done | done | | exact Hcl].
        intros k2. rewrite Ek'. intros [= <-]. rewrite Ha, Hb. eauto.
      * unfold pepdna_con_close, bind, get_con in Hcl. by rewrite Ek' in Hcl.
  - split; [apply relays_all_relays, relays_all_refl|]. left. split; [apply relays_all_refl|].
    exists v. split; [done|]. intros k' Hk'. rewrite Hk in Hk'. injection Hk' as <-.
    split; [done|]. unfold is_mode. by rewrite Hm.
Qed.

End Streams.
