(* ===== verification/RelayClaims.v ===== *)
(** The relay of bytes between two TCP sockets: what is claimed of it, with the
    termination of the write loop. *)

From Stdlib Require Import ZArith Lia.
From stdpp Require Import base list gmap.
From S2P Require Import Prelude Ints Types Setters Kernel Hash TcpUtils Rtxq Connection Tcp.
From S2P Require Import Frame Relay Sample SampleRun.
Open Scope Z_scope.

(** The sockets of the platform have room: a send is never told to try again. *)
Class NoAgainLaw (P : Platform) : Prop :=
  sendmsg_not_again : forall a b e, fst (kcall (KernelSendmsg a b) e) <> - EAGAIN.

Section Termination.
Context `{P : Platform, !SendmsgLaw P, !NoAgainLaw P}.

(** Rounds left in the loop of pepdna_sock_write: a positive answer sends at
    least a byte and only one zero answer is tolerated. *)
Definition write_measure (l : write_loop) (_ : st) : nat :=
  Z.to_nat (wl_left l) + Z.to_nat (2 - wl_count l).

Lemma sock_write_round fuel a buf l n :
  total (fun s => (is_Some (st_socks s !! a) /\ 0 <= wl_left l /\
             wl_left l + wl_sent l = Z.of_nat (length buf) /\ 0 <= wl_sent l /\
             Z.of_nat (length buf) < 2 ^ 31 /\ 0 <= wl_count l <= 1) /\
             write_measure l s = n)
    (sock_write_body fuel (Some a) buf l)
    (fun r s => match r with
       | inl l' => (is_Some (st_socks s !! a) /\ 0 <= wl_left l' /\
             wl_left l' + wl_sent l' = Z.of_nat (length buf) /\ 0 <= wl_sent l' /\
             Z.of_nat (length buf) < 2 ^ 31 /\ 0 <= wl_count l' <= 1) /\
             (write_measure l' s < n)%nat
       | inr _ => True
       end).
Proof.
  intros s [((k & Hk) & Hl & Hs & Hs0 & Hsz & Hc) Hn]. unfold sock_write_body.
  destruct (truth (wl_left l)) eqn:El; cbn [negb]; [|done].
  assert (0 < wl_left l) by (unfold truth in El; lia).
  unfold kernel_sendmsg, bind, deref, get_sock, ret. rewrite Hk.
  set (b := take _ _). unfold call.
  destruct (kcall (KernelSendmsg a b) (st_env s)) as [rc e] eqn:Ek.
  pose proof (sendmsg_le a b (st_env s)) as Hle. rewrite Ek in Hle. cbn in Hle.
  pose proof (sendmsg_not_again a b (st_env s)) as Hna. rewrite Ek in Hna. cbn in Hna.
  assert (Z.of_nat (length b) <= wl_left l) by (unfold b; rewrite length_take; lia).
  unfold write_measure in *.
  destruct (rc =? 0) eqn:E0.
  { destruct (wl_count l + 1 <? 2) eqn:E2; [|done]. cbn. split_and!; try done; eauto; lia. }
  destruct (0 <? rc) eqn:E1.
  { cbn. rewrite !u64_small by lia. split_and!; eauto; lia. }
  destruct (rc =? - EAGAIN) eqn:E3; [lia | done].
Qed.

Lemma sock_write_returns fuel a buf s :
  is_Some (st_socks s !! a) -> Z.of_nat (length buf) < 2 ^ 31 ->
  (length buf + 2 < fuel)%nat ->
  exists r s', pepdna_sock_write fuel (Some a) buf (Z.of_nat (length buf)) s = Ret r s'.
Proof.
  intros Ha Hsz Hf. unfold pepdna_sock_write.
  pose proof (total_iter
    (fun l s => is_Some (st_socks s !! a) /\ 0 <= wl_left l /\
             wl_left l + wl_sent l = Z.of_nat (length buf) /\ 0 <= wl_sent l /\
             Z.of_nat (length buf) < 2 ^ 31 /\ 0 <= wl_count l <= 1)
    write_measure (sock_write_body fuel (Some a) buf) (fun _ _ => True)) as H.
  specialize (H (fun l n => sock_write_round fuel a buf l n) fuel
    (mkWL (Z.of_nat (length buf)) 0 0) s).
  destruct (iter fuel _ _ s) as [r s'| |]; [eauto|exfalso; apply H..].
  all: unfold write_measure; cbn; split_and!; try done; lia.
Qed.

End Termination.

Section Claims.
Context `{P : Platform, !SendmsgLaw P}.

(** C7: when the socket has room, pepdna_sock_write returns for every buffer,
    with fuel above its length plus two, and either it returned the length and the
    socket accepted exactly the bytes of the buffer in order, or it returned an
    error and the socket accepted a proper prefix of them; no other socket was
    written to and nothing was read. *)
Theorem sock_write_exact `{!NoAgainLaw P} fuel a buf s :
  is_Some (st_socks s !! a) -> Z.of_nat (length buf) < 2 ^ 31 ->
  (length buf + 2 < fuel)%nat ->
  exists r s', pepdna_sock_write fuel (Some a) buf (Z.of_nat (length buf)) s = Ret r s' /\
    write_post s a buf r s'.
Proof.
  intros Ha Hsz Hf. destruct (sock_write_returns fuel a buf s Ha Hsz Hf) as (r & s' & Hr).
  exists r, s'. split; [done|]. by eapply sock_write_relays.
Qed.

Context `{!RecvmsgLaw P}.

(** One round of forwarding between two TCP sockets: what the target accepted
    is a prefix of what was read from the source, all of it when the result is
    positive or -EAGAIN, and no other socket is touched, also when the socket has
    no room and the write waits. *)
Theorem i2i_fwd_exact fuel a b s r s' :
  pepdna_con_i2i_fwd fuel (Some a) (Some b) s = Ret r s' -> fwd_post s a b r s'.
Proof. apply i2i_fwd_relays. Qed.

(** C9: the left-to-right work of a TCP2TCP connection: over the whole run, the
    bytes the right socket accepted are a prefix of the bytes read from the left
    socket, in order, without loss, duplication or reordering inside it, and no
    other socket is read or written. *)
Theorem l2r_work_prefix fuel c a b s s' :
  tcp_con c a b s -> pepdna_con_l2r_fwd fuel c s = Ret tt s' -> relays s a b s'.
Proof. apply l2r_work_relays. Qed.

(** The right-to-left work of a TCP2TCP connection: over the whole run, the
    bytes the left socket accepted are a prefix of the bytes read from the right
    socket, and no other socket is read or written. *)
Theorem r2l_work_prefix fuel c a b s s' :
  tcp_con c a b s -> pepdna_con_r2l_fwd fuel c s = Ret tt s' -> relays s b a s'.
Proof. apply r2l_work_relays. Qed.

End Claims.

(** ** Witnesses *)

#[global] Instance sample_sendmsg f : SendmsgLaw (sample f).
Proof. intros a b e. cbn. lia. Qed.

#[global] Instance sample_no_again f : NoAgainLaw (sample f).
Proof. intros a b e. cbn. unfold sample_sndbuf, EAGAIN. lia. Qed.

#[global] Instance sample_recvmsg f : RecvmsgLaw (sample f).
Proof.
  intros a n e. cbn. destruct e as [|m e]; cbn; [unfold EAGAIN; lia|].
  destruct (Z.of_nat (length m) <=? n) eqn:E; cbn; [lia | unfold EIO; lia].
Qed.

Lemma sock_write_exact_witness :
  exists r s', @pepdna_sock_write (sample tcp_build) 20 (Some 101%positive)
      [1; 2; 3; 4; 5; 6; 7] 7 (tcp_pair []) = Ret r s' /\
    write_post (tcp_pair []) 101%positive [1; 2; 3; 4; 5; 6; 7] r s'.
Proof.
  apply (@sock_write_exact (sample tcp_build) _ _ 20 101%positive [1; 2; 3; 4; 5; 6; 7]).
  - vm_compute. eauto.
  - cbn. lia.
  - cbn. lia.
Defined.

(** Two messages wait at the left socket. *)
Definition two_msgs : list (list Z) := [[71; 69; 84; 32]; [47; 10]].

Definition fwd1 : outcome (@st (sample tcp_build)) Z :=
  @pepdna_con_i2i_fwd (sample tcp_build) 20 (Some 101%positive) (Some 102%positive)
    (tcp_pair two_msgs).

Lemma i2i_fwd_exact_witness :
  fwd_post (tcp_pair two_msgs) 101%positive 102%positive 4 (state_of (tcp_pair []) fwd1).
Proof.
  apply (@i2i_fwd_exact (sample tcp_build) _ _ 20). vm_compute. reflexivity.
Defined.

Lemma tcp_pair_con input : tcp_con 6 101 102 (tcp_pair input).
Proof.
  eexists _, _. split_and!; try (vm_compute; reflexivity).
Qed.

Definition l2r1 : outcome (@st (sample tcp_build)) unit :=
  @pepdna_con_l2r_fwd (sample tcp_build) 20 6 (tcp_pair two_msgs).
Definition r2l1 : outcome (@st (sample tcp_build)) unit :=
  @pepdna_con_r2l_fwd (sample tcp_build) 20 6 (tcp_pair two_msgs).

Lemma l2r_work_prefix_witness :
  relays (tcp_pair two_msgs) 101%positive 102%positive (state_of (tcp_pair []) l2r1).
Proof.
  apply (@l2r_work_prefix (sample tcp_build) _ _ 20 6); [apply tcp_pair_con|].
  vm_compute. reflexivity.
Defined.

Lemma r2l_work_prefix_witness :
  relays (tcp_pair two_msgs) 102%positive 101%positive (state_of (tcp_pair []) r2l1).
Proof.
  apply (@r2l_work_prefix (sample tcp_build) _ _ 20 6); [apply tcp_pair_con|].
  vm_compute. reflexivity.
Defined.
