(* ===== verification/RtxqProps.v ===== *)
(** The retransmission queue: what acknowledgement, push and retransmission do
    to the list of frames. *)

From Stdlib Require Import ZArith Lia.
From stdpp Require Import base list gmap.
From S2P Require Import Prelude Ints Types Setters Kernel Rtxq Frame.
Open Scope Z_scope.

Definition entry_seq (e : rtxq_entry) : Z := skb_seq_get (e_skb e).

(** The entries an ACK removes: the head of the queue up to the first entry that
    is not acknowledged. *)
Fixpoint acked (ack : Z) (l : list rtxq_entry) : list rtxq_entry :=
  match l with
  | [] => []
  | e :: l' => if ack <=? entry_seq e then [] else e :: acked ack l'
  end.

Fixpoint unacked (ack : Z) (l : list rtxq_entry) : list rtxq_entry :=
  match l with
  | [] => []
  | e :: l' => if ack <=? entry_seq e then l else unacked ack l'
  end.

Lemma acked_unacked ack l : acked ack l ++ unacked ack l = l.
Proof. induction l as [|e l IH]; [done|]. cbn. case_match; [done|]. cbn. by rewrite IH. Qed.

(** The queue holds consecutive sequence numbers, the last one before [next];
    [rtxq_window] is this without the numbers' wrap-around. *)
Definition seqs_from (first : Z) (l : list rtxq_entry) : Prop :=
  entry_seq <$> l = seqZ first (Z.of_nat (length l)).

Lemma seqs_from_cons first e l :
  seqs_from first (e :: l) <-> entry_seq e = first /\ seqs_from (first + 1) l.
Proof.
  unfold seqs_from. cbn [fmap list_fmap length].
  rewrite seqZ_cons by lia. rewrite Nat2Z.inj_succ, Z.pred_succ. split.
  - intros [= -> H]. split; [done|]. rewrite <- Z.add_1_r in H. exact H.
  - intros [-> H]. f_equal. rewrite <- Z.add_1_r. exact H.
Qed.

Lemma seqs_from_app first l1 l2 :
  seqs_from first (l1 ++ l2) <->
  seqs_from first l1 /\ seqs_from (first + Z.of_nat (length l1)) l2.
Proof.
  revert first. induction l1 as [|e l1 IH]; intros first.
  - cbn [length app]. change (Z.of_nat 0) with 0. rewrite Z.add_0_r. split; [|tauto].
    intros H. split; [done | exact H].
  - cbn [app length]. rewrite !seqs_from_cons, IH.
    replace (first + 1 + Z.of_nat (length l1)) with (first + Z.of_nat (S (length l1))) by lia.
    tauto.
Qed.

(** On such a queue an ACK removes exactly the entries below it. *)
Lemma acked_count first l ack :
  seqs_from first l ->
  length (acked ack l) = Nat.min (Z.to_nat (ack - first)) (length l).
Proof.
  revert first. induction l as [|e l IH]; intros first; [cbn; lia|].
  rewrite seqs_from_cons. intros [He Hl]. cbn. rewrite He.
  destruct (ack <=? first) eqn:E; cbn; [lia|]. rewrite (IH _ Hl). lia.
Qed.

Lemma unacked_seqs first l ack :
  seqs_from first l -> first <= ack -> seqs_from (Z.min ack (first + Z.of_nat (length l))) (unacked ack l).
Proof.
  revert first. induction l as [|e l IH]; intros first Hs Hle; [done|].
  apply seqs_from_cons in Hs as [He Hl]. cbn [unacked]. rewrite He.
  destruct (ack <=? first) eqn:E.
  - replace (Z.min _ _) with first by (cbn [length]; lia). by apply seqs_from_cons.
  - specialize (IH (first + 1) Hl ltac:(lia)).
    by replace (Z.min ack (first + Z.of_nat (length (e :: l))))
      with (Z.min ack (first + 1 + Z.of_nat (length l))) by (cbn [length]; lia).
Qed.

Lemma unacked_filter first l ack :
  seqs_from first l -> unacked ack l = filter (fun e => ack <= entry_seq e) l.
Proof.
  revert first. induction l as [|e l IH]; intros first; [done|].
  intros [He Hl]%seqs_from_cons. cbn [unacked]. destruct (ack <=? entry_seq e) eqn:E.
  - rewrite filter_cons_True by lia. f_equal. symmetry.
    apply list_eq_Forall2. assert (Forall (fun e => ack <= entry_seq e) l) as Hall.
    { revert Hl. assert (ack <= first + 1) by lia. clear -H. revert first H.
      induction l as [|e' l IH]; intros first H; [by constructor|].
      intros [? ?]%seqs_from_cons. constructor; [lia|]. eapply (IH (first + 1)); [lia|done]. }
    apply list_eq_Forall2. clear -Hall. induction Hall as [|x l Hx _ IH]; [done|].
    rewrite filter_cons_True by done. by rewrite IH.
  - rewrite filter_cons_False by lia. by eapply IH.
Qed.

(** Runs the next call of the goal. *)
Ltac call_out :=
  match goal with
  | |- context [call ?c ?x] =>
      let r := fresh "r" in let e := fresh "e" in
      destruct (call_total c x) as (r & e & ->); cbv iota beta
  end.

Section Props.
Context `{P : Platform}.

(** What a run changes at most: the environment, the trace and the queues. *)
Definition same_but_rtxq (s s' : st) : Prop :=
  st_cons s' = st_cons s /\ st_srv s' = st_srv s /\ st_socks s' = st_socks s /\
  st_skbs s' = st_skbs s /\ st_pending s' = st_pending s /\ st_next s' = st_next s.

#[global] Instance same_but_rtxq_preorder : PreOrder same_but_rtxq.
Proof.
  split; [by intros s|]. unfold same_but_rtxq. intros x y z H1 H2.
  destruct_and!. split_and!; congruence.
Qed.

Definition same_state (s s' : st) : Prop :=
  same_but_rtxq s s' /\ st_rtxqs s' = st_rtxqs s.

#[global] Instance same_state_preorder : PreOrder same_state.
Proof.
  split; [by intros s|]. unfold same_state. intros x y z [H1 E1] [H2 E2].
  split; [by etrans | congruence].
Qed.

Lemma same_state_call {R} (c : kE R) : preserves same_state (call c).
Proof. intros s. destruct (call_total c s) as (r & e & ->). by split. Qed.

Lemma entry_destroy_run e s :
  exists s', rtxq_entry_destroy (Some e) s = Ret 0 s' /\ same_state s s'.
Proof.
  unfold rtxq_entry_destroy, bind, when, ret. call_out. destruct r; call_out; try call_out;
    (eexists; split; [reflexivity|]; by split).
Qed.

(** The loop of an ACK always returns, with the unacknowledged rest and the
    number of removed entries as credit. *)
Lemma entries_ack_run l len credit ack s :
  exists s', entries_ack l len credit ack s =
    Ret (unacked ack l, len - Z.of_nat (length (acked ack l)),
         credit + Z.of_nat (length (acked ack l))) s' /\ same_state s s'.
Proof.
  revert len credit s. induction l as [|e l IH]; intros len credit s; cbn [entries_ack].
  { exists s. split; [|done]. cbn. by rewrite Z.sub_0_r, Z.add_0_r. }
  cbn [acked unacked]. unfold entry_seq. destruct (ack <=? skb_seq_get (e_skb e)).
  { exists s. split; [|done]. cbn. by rewrite Z.sub_0_r, Z.add_0_r. }
  destruct (entry_destroy_run e s) as (s1 & H1 & Hs1). rewrite (bind_Ret _ _ _ _ _ H1).
  cbn [truth Z.eqb negb]. destruct (IH (len - 1) (credit + 1) s1) as (s2 & H2 & Hs2).
  exists s2. split; [|by etrans]. change (truth 0) with false. cbv iota.
  rewrite H2. cbn [length]. do 2 f_equal; [f_equal; lia | lia].
Qed.

Lemma rtxq_ack_run a queue ack s :
  st_rtxqs s !! a = Some (mkRtxq (Some queue)) ->
  exists s', rtxq_ack (Some a) ack s = Ret (Z.of_nat (length (acked ack (q_head queue)))) s' /\
    same_but_rtxq s s' /\
    st_rtxqs s' = <[a := mkRtxq (Some (mkQueue
      (q_len queue - Z.of_nat (length (acked ack (q_head queue))))
      (unacked ack (q_head queue))))]> (st_rtxqs s).
Proof.
  intros Ha. unfold rtxq_ack, bind at 1. unfold get_rtxq. rewrite Ha.
  cbn [rq_queue deref]. unfold bind at 1, ret at 1. unfold rtxqueue_entries_ack.
  destruct (entries_ack_run (q_head queue) (q_len queue) 0 ack s) as (s1 & H1 & Hs1).
  unfold bind at 1. unfold bind at 1. rewrite H1. destruct Hs1 as [Hs1 Hq].
  unfold ret, put_rtxq, modify, bind. cbn.
  eexists. split; [reflexivity|]. split; [done|]. cbn. by rewrite Hq.
Qed.

Lemma rtxq_push_run a queue skb s s' rc :
  st_rtxqs s !! a = Some (mkRtxq (Some queue)) ->
  rtxq_push (Some a) skb s = Ret rc s' ->
  same_but_rtxq s s' /\
  ((rc = 0 /\ st_rtxqs s' = <[a := mkRtxq (Some (mkQueue (q_len queue + 1)
      (q_head queue ++ [mkEntry skb 0])))]> (st_rtxqs s)) \/
   (rc = - 1 /\ st_rtxqs s' = <[a := mkRtxq (Some queue)]> (st_rtxqs s))).
Proof.
  intros Ha. unfold rtxq_push, deref, bind, ret, get_rtxq. rewrite Ha. cbn [rq_queue].
  unfold rtxqueue_push, rtxq_entry_create, bind, ret. call_out.
  destruct r; cbn; intros [= <- <-]; (split; [done|]); [left | right]; done.
Qed.

(** ** Retransmission *)

(** What [rtxq_entry_rtx] may change of an entry: the time stamp in its header
    and the retry count. *)
Definition same_frame (e e' : rtxq_entry) : Prop :=
  entry_seq e' = entry_seq e /\ f_data (e_skb e') = f_data (e_skb e) /\
  h_pkt_type (f_hdr (e_skb e')) = h_pkt_type (f_hdr (e_skb e)) /\
  h_id (f_hdr (e_skb e')) = h_id (f_hdr (e_skb e)) /\
  h_sdu_len (f_hdr (e_skb e')) = h_sdu_len (f_hdr (e_skb e)).

(** The frames an event put on the wire. *)
Definition xmitted (e : event) : list frame :=
  match e with
  | Ev c _ => match c with DevQueueXmit f => [f] | _ => [] end
  end.
Definition wire (evs : list event) : list frame := concat (xmitted <$> evs).

Lemma wire_app e1 e2 : wire (e1 ++ e2) = wire e1 ++ wire e2.
Proof. unfold wire. by rewrite fmap_app, concat_app. Qed.

(** The events of a run, as the trace grew. *)
Definition grew (s s' : st) (evs : list event) : Prop := st_trace s' = st_trace s ++ evs.

Definition retries_ok (e : rtxq_entry) : Prop := 0 <= e_retries e <= MAX_MINIP_RETRY.

(** An entry after its retransmission. *)
Definition resent (e e' : rtxq_entry) : Prop :=
  same_frame e e' /\ e_retries e < MAX_MINIP_RETRY /\ e_retries e' = e_retries e + 1.

Lemma resent_retries e e' : retries_ok e -> resent e e' -> retries_ok e'.
Proof. unfold retries_ok, MAX_MINIP_RETRY. intros ? (_ & ? & ?). unfold MAX_MINIP_RETRY in *. lia. Qed.

Lemma entry_rtx_run e seq s :
  retries_ok e ->
  exists e' rc s' evs, rtxq_entry_rtx e seq s = Ret (e', rc) s' /\ same_state s s' /\
    grew s s' evs /\
    ((resent e e' /\ wire evs = [e_skb e']) \/
     (e_retries e = MAX_MINIP_RETRY /\ e' = e /\ rc = - 1 /\ wire evs = [])).
Proof.
  intros Hr. unfold rtxq_entry_rtx. destruct (e_retries e <? MAX_MINIP_RETRY) eqn:E.
  - unfold bind. call_out. call_out. eexists _, _, _, _. split; [reflexivity|].
    split; [by split|]. split; [unfold grew; cbn; by rewrite <- app_assoc|]. left.
    split; [|reflexivity]. split; [done|]. split; [lia|]. cbn.
    unfold retries_ok, MAX_MINIP_RETRY in *. apply u8_small. unfold is_u8. lia.
  - eexists _, _, _, []. split; [reflexivity|]. split; [done|].
    split; [unfold grew; by rewrite app_nil_r|]. right.
    split_and!; try done. unfold retries_ok in Hr. lia.
Qed.

(** The result of a retransmission of the whole queue from [ack] on. *)
Definition rtx_entry (ack : Z) (e e' : rtxq_entry) : Prop :=
  if ack <=? entry_seq e then resent e e' else e' = e.

Definition resent_frames (ack : Z) (l : list rtxq_entry) : list frame :=
  e_skb <$> filter (fun e => ack <= entry_seq e) l.

(** All of it, or a part before a failure. *)
Definition rtx_result (ack : Z) (l l' : list rtxq_entry) (rc : Z) (evs : list event) : Prop :=
  (rc = 0 /\ Forall2 (rtx_entry ack) l l' /\ wire evs = resent_frames ack l') \/
  (rc = - 1 /\ Forall2 (fun e e' => e' = e \/ resent e e') l l' /\
   wire evs `prefix_of` resent_frames ack l').

Lemma rtx_stop ack e e' l evs :
  e' = e /\ wire evs = [] \/ resent e e' /\ wire evs = [e_skb e'] /\ ack <= entry_seq e ->
  rtx_result ack (e :: l) (e' :: l) (- 1) evs.
Proof.
  intros Hc. right. split; [done|].
  assert (Forall2 (fun e e' => e' = e \/ resent e e') l l) as Hrefl.
  { apply Forall_Forall2_diag, Forall_true. by left. }
  destruct Hc as [[-> ->]|(Hr & -> & Hle)].
  - split; [constructor; auto | apply prefix_nil].
  - split; [constructor; auto|]. unfold resent_frames. destruct Hr as [[Hq _] _].
    rewrite filter_cons_True by lia. cbn. apply prefix_cons, prefix_nil.
Qed.

Lemma rtx_more ack e e' l l' rc ev1 ev2 :
  rtx_entry ack e e' ->
  wire ev1 = (if ack <=? entry_seq e then [e_skb e'] else []) ->
  rtx_result ack l l' rc ev2 -> rtx_result ack (e :: l) (e' :: l') rc (ev1 ++ ev2).
Proof.
  intros He Hw Hres.
  assert (resent_frames ack (e' :: l') = wire ev1 ++ resent_frames ack l') as Hf.
  { unfold resent_frames, rtx_entry in *. rewrite Hw. destruct (ack <=? entry_seq e) eqn:Ea.
    - destruct He as [[Hq _] _]. by rewrite filter_cons_True by lia.
    - subst. by rewrite filter_cons_False by lia. }
  unfold rtx_result. rewrite wire_app, Hf. destruct Hres as [(-> & H & ->)|(-> & H & Hp)].
  - left. split_and!; [done | by constructor | done].
  - right. split_and!; [done | | by apply prefix_app]. constructor; [|done].
    unfold rtx_entry in He. case_match; auto.
Qed.

Lemma entries_rtx_run l ack s :
  Forall retries_ok l ->
  exists l' rc s' evs, rtxqueue_entries_rtx l ack s = Ret (l', rc) s' /\ same_state s s' /\
    grew s s' evs /\ rtx_result ack l l' rc evs.
Proof.
  intros Hl. revert s. induction Hl as [|e l He Hl IH]; intros s; cbn [rtxqueue_entries_rtx].
  { eexists _, _, _, []. split; [reflexivity|]. split; [done|].
    split; [unfold grew; by rewrite app_nil_r|]. by left. }
  change (skb_seq_get (e_skb e)) with (entry_seq e).
  destruct (ack <=? entry_seq e) eqn:Ea.
  - destruct (entry_rtx_run e (entry_seq e) s He) as (e' & rc & s1 & ev1 & H1 & Hs1 & Hg1 & Hc).
    rewrite (bind_Ret _ _ _ _ _ H1). destruct (rc <? 0) eqn:Erc.
    { eexists _, _, _, ev1. split; [reflexivity|]. split_and!; [done..|].
      apply rtx_stop. destruct Hc as [[Hr Hw]|(_ & -> & _ & Hw)]; [right | by left].
      split_and!; [done..|lia]. }
    destruct Hc as [[Hr Hw]|(_ & _ & -> & _)]; [|lia].
    destruct (IH s1) as (l' & rc2 & s2 & ev2 & H2 & Hs2 & Hg2 & Hres).
    rewrite (bind_Ret _ _ _ _ _ H2). eexists _, _, _, (ev1 ++ ev2). split; [reflexivity|].
    split; [by etrans|]. split; [unfold grew in *; by rewrite Hg2, Hg1, app_assoc|].
    apply rtx_more; unfold rtx_entry; by rewrite ?Ea.
  - destruct (IH s) as (l' & rc2 & s2 & ev2 & H2 & Hs2 & Hg2 & Hres).
    rewrite (bind_Ret _ _ _ _ _ H2). eexists _, _, _, ([] ++ ev2). split; [reflexivity|].
    split; [done|]. split; [done|]. apply rtx_more; unfold rtx_entry; by rewrite ?Ea.
Qed.

Lemma full_rtx_run a queue ack s :
  st_rtxqs s !! a = Some (mkRtxq (Some queue)) -> Forall retries_ok (q_head queue) ->
  exists l' rc s' evs, rtxq_full_rtx (Some a) ack s = Ret rc s' /\ same_but_rtxq s s' /\
    st_rtxqs s' = <[a := mkRtxq (Some (mkQueue (q_len queue) l'))]> (st_rtxqs s) /\
    grew s s' evs /\ rtx_result ack (q_head queue) l' rc evs.
Proof.
  intros Ha Hq. unfold rtxq_full_rtx, bind at 1. unfold get_rtxq. rewrite Ha.
  cbn [rq_queue deref]. unfold bind at 1, ret at 1.
  destruct (entries_rtx_run (q_head queue) ack s Hq) as (l' & rc & s1 & evs & H1 & [Hs1 Hr] & Hg & Hres).
  rewrite (bind_Ret _ _ _ _ _ H1). unfold put_rtxq, modify, bind, ret. cbn.
  exists l', rc. eexists _, evs.
  assert ((if rc <? 0 then -1 else 0) = rc) as ->.
  { by destruct Hres as [(-> & _)|(-> & _)]. }
  split; [reflexivity|]. split; [done|]. cbn. by rewrite Hr.
Qed.

(** When the transmissions of the platform succeed, the result is 0 unless an entry
    had no retry left. *)
Lemma rtx_exhausted ack l l' rc evs :
  rtx_result ack l l' rc evs ->
  (exists e, e ∈ l /\ ack <= entry_seq e /\ e_retries e = MAX_MINIP_RETRY) -> rc = - 1.
Proof.
  intros [(_ & Hall & _)|[? _]] (e & He & Hle & Hr); [|done]. exfalso.
  apply list_elem_of_lookup in He as [i Hi].
  destruct (Forall2_lookup_l _ _ _ _ _ Hall Hi) as (e' & _ & H). unfold rtx_entry in H.
  destruct (ack <=? entry_seq e) eqn:E; [|lia]. destruct H as (_ & ? & _). lia.
Qed.

End Props.
