(* ===== verification/Sender.v ===== *)
(** The MINIP sender: segmentation of a buffer into numbered frames that are
    transmitted and kept for retransmission. *)

From Stdlib Require Import ZArith Lia.
From stdpp Require Import base list gmap.
From S2P Require Import Prelude Ints Types Setters Kernel Hash TcpUtils Rtxq Connection Tcp.
From S2P Require Import Minip Frame RtxqProps.
Open Scope Z_scope.

(** The transmit path of the platform works: the device is there, buffers are
    allocated and copied, and the device queue takes the frames. *)
Class TxLaw (P : Platform) : Prop := {
  tx_dev : forall e, is_Some (fst (kcall DevGetByName e));
  tx_alloc : forall n e, is_Some (fst (kcall (AllocSkb n) e));
  tx_header : forall p m n e, 0 <= fst (kcall (DevHardHeader p m n) e);
  tx_clone : forall f e, fst (kcall (SkbClone f) e) = true;
  tx_entry : forall e, fst (kcall (Kzalloc ObjRtxqEntry) e) = true;
  tx_xmit : forall f e, 0 <= fst (kcall (DevQueueXmit f) e)
}.

Lemma call_law_run `{P : Platform} {R} (c : kE R) (Q : R -> Prop) s :
  (forall e, Q (fst (kcall c e))) ->
  exists r e, call c s = Ret r (set_st_trace (st_trace s ++ [Ev c r]) (set_st_env e s)) /\ Q r.
Proof.
  intros H. specialize (H (st_env s)). unfold call.
  destruct (kcall c (st_env s)) as [r e]. eauto.
Qed.

(** Runs the next call of the goal and keeps what the law says of its answer. *)
Ltac call_law Q H :=
  match goal with
  | |- context [call ?c ?x] =>
      let r := fresh "r" in let e := fresh "e" in let E := fresh in
      destruct (call_law_run c Q x H) as (r & e & E & HQ); rewrite E; clear E;
      cbv iota beta
  end.

(** ** Segments *)

(** The pieces of at most [MINIP_MSS] bytes a buffer is cut into; [n] bounds
    their number. *)
Fixpoint segments (n : nat) (buf : list Z) : list (list Z) :=
  match n, buf with
  | O, _ | _, [] => []
  | S n', _ => take (Z.to_nat MINIP_MSS) buf :: segments n' (drop (Z.to_nat MINIP_MSS) buf)
  end.

Definition segment (buf : list Z) : list (list Z) := segments (length buf) buf.

Lemma segments_fuel n m buf :
  (length buf <= n)%nat -> (length buf <= m)%nat -> segments n buf = segments m buf.
Proof.
  revert m buf. induction n as [|n IH]; intros m buf Hn Hm.
  - destruct buf; [by destruct m | cbn in Hn; lia].
  - destruct buf as [|b buf]; [by destruct m|]. destruct m as [|m]; [cbn in Hm; lia|].
    cbn [segments]. f_equal. apply IH; rewrite length_drop; cbn in *;
      change (Z.to_nat MINIP_MSS) with (S 1480); lia.
Qed.

Lemma segment_cons buf :
  buf <> [] ->
  segment buf = take (Z.to_nat MINIP_MSS) buf :: segment (drop (Z.to_nat MINIP_MSS) buf).
Proof.
  destruct buf as [|b buf]; [done|]. intros _. unfold segment. cbn [length segments]. f_equal.
  apply segments_fuel; rewrite ?length_drop; cbn;
    change (Z.to_nat MINIP_MSS) with (S 1480); lia.
Qed.

Lemma segments_concat n buf : (length buf <= n)%nat -> concat (segments n buf) = buf.
Proof.
  revert buf. induction n as [|n IH]; intros buf Hn.
  - destruct buf; [done | cbn in Hn; lia].
  - destruct buf as [|b buf]; [done|]. cbn [segments concat]. rewrite IH.
    + apply take_drop.
    + rewrite length_drop. cbn in *. change (Z.to_nat MINIP_MSS) with (S 1480). lia.
Qed.

Lemma segment_concat buf : concat (segment buf) = buf.
Proof. by apply segments_concat. Qed.

Lemma segments_size n buf :
  Forall (fun b => 0 < Z.of_nat (length b) <= MINIP_MSS) (segments n buf).
Proof.
  revert buf. induction n as [|n IH]; intros buf; [constructor|].
  destruct buf as [|b buf]; [constructor|]. cbn [segments]. constructor; [|apply IH].
  rewrite length_take. cbn [length]. unfold MINIP_MSS. lia.
Qed.

(** As few as can be: each segment but the last is full. *)
Lemma segments_count n buf :
  (length buf <= n)%nat ->
  Z.of_nat (length (segments n buf)) = (Z.of_nat (length buf) + MINIP_MSS - 1) / MINIP_MSS.
Proof.
  revert buf. induction n as [|n IH]; intros buf Hn.
  - destruct buf; [done | cbn in Hn; lia].
  - destruct buf as [|b buf]; [done|]. cbn [segments]. cbn [length]. rewrite Nat2Z.inj_succ.
    rewrite IH by (rewrite length_drop; cbn in *; change (Z.to_nat MINIP_MSS) with (S 1480); lia).
    rewrite length_drop. cbn [length]. set (m := length buf). unfold MINIP_MSS.
    destruct (decide (Z.of_nat (S m) <= 1481)) as [H|H].
    + replace (Z.of_nat (S m - Z.to_nat 1481)) with 0 by lia.
      change ((0 + 1481 - 1) / 1481) with 0.
      apply Z.div_unique with (Z.of_nat (S m) - 1); lia.
    + replace (Z.of_nat (S m - Z.to_nat 1481)) with (Z.of_nat (S m) - 1481) by lia.
      replace (Z.of_nat (S m) + 1481 - 1) with ((Z.of_nat (S m) - 1481 + 1481 - 1) + 1 * 1481) by lia.
      rewrite Z.div_add by lia. lia.
Qed.

(** ** One frame *)

(** [f] is the data frame with number [q] and payload [b] of the connection
    with identifier [id]. *)
Definition data_frame (id q : Z) (b : list Z) (f : frame) : Prop :=
  h_pkt_type (f_hdr f) = pkt_val MINIP_CONN_DATA /\
  h_sdu_len (f_hdr f) = u16 (Z.of_nat (length b)) /\
  ntohl (h_id (f_hdr f)) = id /\ skb_seq_get f = q /\ f_data f = b.

Lemma data_hdr_frame h k b now :
  is_u32 (con_id k) -> is_u32 (con_next_seq k) ->
  data_frame (con_id k) (con_next_seq k) b
    (mkFrame (data_hdr h k (Z.of_nat (length b)) now) b).
Proof.
  intros H1 H2. split_and!; try done; unfold skb_seq_get; cbn; by apply ntohl_htonl.
Qed.

Section Sender.
Context `{P : Platform, !TxLaw P}.

(** Connection [c] with its queue, on a running server. *)
Definition sending_con (c : positive) (k : con) (a : positive) (q : rtxqueue) (s : st) : Prop :=
  (exists v, st_srv s = SrvLive v) /\ st_cons s !! c = Some k /\ con_rtxq k = Some a /\
  st_rtxqs s !! a = Some (mkRtxq (Some q)).

Lemma skb_send_run c k a q b s :
  sending_con c k a q s -> is_u32 (con_id k) -> is_u32 (con_next_seq k) ->
  exists rc s' evs f, pepdna_minip_skb_send c b (Z.of_nat (length b)) s = Ret rc s' /\ 0 <= rc /\
    same_but_rtxq s s' /\ grew s s' evs /\ wire evs = [f] /\
    data_frame (con_id k) (con_next_seq k) b f /\
    st_rtxqs s' = <[a := mkRtxq (Some (mkQueue (q_len q + 1)
      (q_head q ++ [mkEntry f 0])))]> (st_rtxqs s).
Proof.
  intros ((v & Hv) & Hk & Ha & Hq) Hid Hseq. unfold pepdna_minip_skb_send, bind.
  call_law (@is_Some net_device) tx_dev. destruct HQ as [dev ->]. unfold deref, ret at 1.
  call_law (@is_Some frame) (tx_alloc (Z.of_nat (length b) + sizeof_minip_hdr + dev_hlen dev + dev_tlen dev)).
  destruct HQ as [old ->]. unfold get_srv. cbn [st_srv set_st_trace set_st_env]. rewrite Hv.
  call_law (Z.le 0) (tx_header ETH_P_MINIP (srv_to_mac v) (Z.of_nat (length b) + sizeof_minip_hdr)).
  rewrite (proj2 (Z.ltb_ge _ _) HQ). clear HQ. unfold get_con. cbn [st_cons set_st_trace set_st_env].
  rewrite Hk. call_out. set (skb := mkFrame _ b). 
  call_law (fun b : bool => b = true) (tx_clone skb). subst r1. cbn [negb].
  unfold rtxq_push, deref, bind, ret, get_rtxq. rewrite Ha.
  cbn [st_rtxqs set_st_trace set_st_env]. rewrite Hq. cbn [rq_queue].
  unfold rtxqueue_push, rtxq_entry_create, bind, ret. call_law (fun b : bool => b = true) tx_entry. subst r1.
  unfold put_rtxq, modify. change (truth 0) with false. cbv iota beta.
  call_law (Z.le 0) (tx_xmit skb). eexists _, _, _, skb. split; [reflexivity|].
  split; [exact HQ|]. split; [done|].
  split; [unfold grew; cbn; by rewrite <- !app_assoc|].
  split; [done|]. split; [by apply data_hdr_frame | done].
Qed.

(** The connection after [n] frames. *)
Definition advance (n : Z) (k : con) : con :=
  set_con_window (Z.max 0 (con_window k - n))
    (set_con_next_seq (u32 (con_next_seq k + n)) k).

Definition sender_ok (k : con) : Prop :=
  is_u32 (con_id k) /\ is_u32 (con_next_seq k) /\ is_u8 (con_window k).

Lemma advance_0 k : sender_ok k -> advance 0 k = k.
Proof.
  intros (_ & H2 & H3). unfold advance. rewrite Z.add_0_r, Z.sub_0_r, u32_small by done.
  rewrite Z.max_r by (unfold is_u8 in H3; lia). by destruct k.
Qed.

Lemma advance_advance n m k : 0 <= n -> 0 <= m -> advance n (advance m k) = advance (m + n) k.
Proof.
  intros Hn Hm. unfold advance. cbn. rewrite u32_add_idemp_l, Z.add_assoc.
  replace (Z.max 0 (Z.max 0 (con_window k - m) - n))
    with (Z.max 0 (con_window k - (m + n))) by lia. done.
Qed.

Lemma advance_ok n k : 0 <= n -> sender_ok k -> sender_ok (advance n k).
Proof.
  intros Hn (H1 & H2 & H3). unfold sender_ok, advance. cbn.
  split_and!; [done | apply u32_range | unfold is_u8 in *; lia].
Qed.

(** The two updates of the loop are one step of [advance]. *)
Lemma advance_1 k :
  sender_ok k ->
  (let k1 := set_con_next_seq (u32 (con_next_seq k + 1)) k in
   if 0 <? con_window k1 then set_con_window (u8 (con_window k1 - 1)) k1 else k1)
  = advance 1 k.
Proof.
  intros (_ & _ & H3). unfold advance. cbn. unfold is_u8 in H3. destruct (0 <? con_window k) eqn:E.
  - rewrite u8_small by (unfold is_u8; lia). by rewrite Z.max_r by lia.
  - replace (Z.max 0 (con_window k - 1)) with (con_window k) by lia. by destruct k.
Qed.

(** The frames for the segments [l] of connection [k], from its next number on. *)
Definition frames_for (k : con) (l : list (list Z)) (fs : list frame) : Prop :=
  length fs = length l /\
  forall i f, fs !! i = Some f -> exists b, l !! i = Some b /\
    data_frame (con_id k) (u32 (con_next_seq k + Z.of_nat i)) b f.

Lemma frames_for_cons k b l f fs :
  data_frame (con_id k) (con_next_seq k) b f -> sender_ok k ->
  frames_for (advance 1 k) l fs -> frames_for k (b :: l) (f :: fs).
Proof.
  intros Hf (_ & Hs & _) [Hlen Hfs]. split; [cbn; by rewrite Hlen|].
  intros [|i] f' Hi; cbn in *.
  - injection Hi as <-. exists b. split; [done|]. by rewrite Z.add_0_r, u32_small.
  - destruct (Hfs i f' Hi) as (b' & Hb & Hd). exists b'. split; [done|].
    unfold advance in Hd. cbn in Hd. rewrite u32_add_idemp_l in Hd.
    replace (con_next_seq k + 1 + Z.of_nat i) with (con_next_seq k + Z.of_nat (S i)) in Hd by lia.
    exact Hd.
Qed.

Definition snd_post (c : positive) (k : con) (a : positive) (q : rtxqueue) (l : list (list Z))
    (s s' : st) : Prop :=
  exists fs evs, frames_for k l fs /\ grew s s' evs /\ wire evs = fs /\
    sending_con c (advance (Z.of_nat (length l)) k) a
      (mkQueue (q_len q + Z.of_nat (length l)) (q_head q ++ ((fun f => mkEntry f 0) <$> fs))) s' /\
    (forall d, d <> c -> st_cons s' !! d = st_cons s !! d) /\
    (forall b, b <> a -> st_rtxqs s' !! b = st_rtxqs s !! b).

Lemma snd_data_round c k a q buf togo sent rc s :
  sending_con c k a q s -> sender_ok k -> 0 < togo -> 0 <= sent ->
  togo + sent = Z.of_nat (length buf) ->
  exists rc' s', snd_data_body c buf (togo, sent, rc) s
      = Ret (inl (togo - Z.min togo MINIP_MSS, sent + Z.min togo MINIP_MSS, rc')) s' /\
    0 <= rc' /\
    snd_post c k a q [take (Z.to_nat MINIP_MSS) (drop (Z.to_nat sent) buf)] s s'.
Proof.
  intros Hc Hok Ht Hs Hlen. unfold snd_data_body.
  assert (truth togo = true) as -> by (unfold truth; destruct (togo =? 0) eqn:E; [lia | done]).
  cbn [negb]. set (b := take (Z.to_nat (Z.min togo MINIP_MSS)) (drop (Z.to_nat sent) buf)).
  assert (Z.of_nat (length b) = Z.min togo MINIP_MSS) as Hb.
  { unfold b. rewrite length_take, length_drop. unfold MINIP_MSS. lia. }
  assert (b = take (Z.to_nat MINIP_MSS) (drop (Z.to_nat sent) buf)) as Hb'.
  { unfold b. destruct (decide (togo <= MINIP_MSS)).
    - rewrite Z.min_l by done. rewrite !take_ge; [done|..]; rewrite length_drop; lia.
    - by rewrite Z.min_r by lia. }
  destruct Hok as (Hid & Hsq & Hw).
  destruct (skb_send_run c k a q b s Hc Hid Hsq)
    as (rc' & s1 & evs & f & Hrun & Hrc & Hsame & Hg & Hwire & Hf & Hq').
  rewrite Hb in Hrun. rewrite (bind_Ret _ _ _ _ _ Hrun).
  rewrite (proj2 (Z.ltb_ge _ _) Hrc).
  destruct Hsame as (Hcons & Hsrv & _). destruct Hc as ((v & Hv) & Hk & Ha & Hq).
  assert (st_cons s1 !! c = Some k) as Hk1 by by rewrite Hcons.
  unfold bind at 1. rewrite (upd_con_run _ _ _ _ Hk1).
  unfold bind at 1. erewrite upd_con_run; [|cbn; by rewrite lookup_insert_eq].
  exists rc'. eexists. split; [reflexivity|]. split; [done|].
  exists [f], evs. rewrite <- Hb'. split_and!.
  - split; [done|]. intros [|i] f' Hi; [|done]. injection Hi as <-. exists b.
    split; [done|]. by rewrite Z.add_0_r, u32_small.
  - done.
  - done.
  - split_and!.
    + exists v. cbn. by rewrite Hsrv.
    + cbn. rewrite lookup_insert_eq. f_equal. by apply advance_1.
    + done.
    + cbn. rewrite Hq'. by rewrite lookup_insert_eq.
  - intros d Hd. cbn. rewrite !lookup_insert_ne by done. by rewrite Hcons.
  - intros b0 Hb0. cbn. rewrite Hq'. by rewrite lookup_insert_ne.
Qed.

Lemma snd_post_nil c k a q s : sending_con c k a q s -> sender_ok k -> snd_post c k a q [] s s.
Proof.
  intros Hc Hok. exists [], []. split_and!; try done.
  - unfold grew. by rewrite app_nil_r.
  - cbn. rewrite advance_0 by done. rewrite app_nil_r, Z.add_0_r. by destruct q.
Qed.

Lemma snd_post_cons c k a q b l s s1 s' :
  sender_ok k ->
  snd_post c k a q [b] s s1 ->
  (forall q1, sending_con c (advance 1 k) a q1 s1 -> snd_post c (advance 1 k) a q1 l s1 s') ->
  snd_post c k a q (b :: l) s s'.
Proof.
  intros Hok (fs1 & ev1 & [Hl1 Hf1] & Hg1 & Hw1 & Hc1 & Ho1 & Hr1) Hrest.
  destruct fs1 as [|f [|]]; try done. cbn in Hc1.
  destruct (Hrest _ Hc1) as (fs & evs & Hfs & Hg & Hw & Hc & Ho & Hr).
  destruct (Hf1 0%nat f eq_refl) as (b' & [= ->] & Hd).
  rewrite Z.add_0_r, u32_small in Hd by apply Hok.
  exists (f :: fs), (ev1 ++ evs). split_and!.
  - by apply frames_for_cons.
  - unfold grew in *. by rewrite Hg, Hg1, app_assoc.
  - by rewrite wire_app, Hw1, Hw.
  - cbn [q_len q_head] in Hc. rewrite advance_advance in Hc by lia.
    cbn [length]. replace (Z.of_nat (S (length l))) with (1 + Z.of_nat (length l)) by lia.
    rewrite Z.add_assoc. by rewrite <- app_assoc in Hc.
  - intros d Hd'. by rewrite Ho, Ho1.
  - intros d Hd'. by rewrite Hr, Hr1.
Qed.

Lemma snd_data_loop c a buf : forall n k q togo sent rc s,
  sending_con c k a q s -> sender_ok k -> 0 <= togo -> 0 <= sent -> 0 <= rc ->
  togo + sent = Z.of_nat (length buf) -> (Z.to_nat togo < n)%nat ->
  exists rc' s', iter n (snd_data_body c buf) (togo, sent, rc) s
      = Ret (Z.of_nat (length buf), rc') s' /\ 0 <= rc' /\
    snd_post c k a q (segment (drop (Z.to_nat sent) buf)) s s'.
Proof.
  intros n. induction n as [|n IH]; intros k q togo sent rc s Hc Hok Ht Hs Hrc Hlen Hn; [lia|].
  cbn [iter]. destruct (decide (togo = 0)) as [->|Hne].
  - unfold bind. cbn. exists rc, s. split; [do 2 f_equal; lia|]. split; [done|].
    rewrite drop_ge by lia. by apply snd_post_nil.
  - destruct (snd_data_round c k a q buf togo sent rc s) as (rc' & s1 & H1 & Hrc' & Hp1);
      [done|done|lia|done|done|].
    rewrite (bind_Ret _ _ _ _ _ H1).
    assert (segment (drop (Z.to_nat sent) buf) = take (Z.to_nat MINIP_MSS) (drop (Z.to_nat sent) buf)
      :: segment (drop (Z.to_nat (sent + Z.min togo MINIP_MSS)) buf)) as ->.
    { rewrite segment_cons.
      2:{ intros E. apply (f_equal length) in E. rewrite length_drop in E. cbn in E. lia. }
      f_equal. f_equal. rewrite drop_drop. destruct (decide (togo <= MINIP_MSS)).
      - rewrite !drop_ge; [done|..]; lia.
      - rewrite Z.min_r by lia. f_equal. unfold MINIP_MSS. lia. }
    pose proof Hp1 as (fs1 & ev1 & [Hl1 _] & _ & _ & Hc1 & _).
    cbn in Hc1.
    destruct (IH (advance 1 k) _ (togo - Z.min togo MINIP_MSS) (sent + Z.min togo MINIP_MSS)
      rc' s1 Hc1) as (rc2 & s2 & H2 & Hrc2 & Hp2);
      [by apply advance_ok | unfold MINIP_MSS in *; lia .. |].
    exists rc2, s2. split; [done|]. split; [done|].
    eapply snd_post_cons; [done | exact Hp1 |]. intros q1 Hq1.
    assert (q1 = mkQueue (q_len q + 1) (q_head q ++ ((fun f => mkEntry f 0) <$> fs1))) as ->; [|exact Hp2].
    destruct Hc1 as (_ & _ & _ & Hc1). destruct Hq1 as (_ & _ & _ & Hq1).
    rewrite Hc1 in Hq1. by injection Hq1 as <-.
Qed.

(** pepdna_minip_conn_snd_data on a working transmit path. *)
Lemma snd_data_run c k a q buf s :
  sending_con c k a q s -> sender_ok k -> buf <> [] -> Z.of_nat (length buf) < 2 ^ 31 ->
  exists s', pepdna_minip_conn_snd_data c buf (Z.of_nat (length buf)) s
      = Ret (Z.of_nat (length buf)) s' /\ snd_post c k a q (segment buf) s s'.
Proof.
  intros Hc Hok Hne Hsz. unfold pepdna_minip_conn_snd_data.
  destruct (snd_data_loop c a buf (S (Z.to_nat (Z.of_nat (length buf)))) k q
    (Z.of_nat (length buf)) 0 0 s Hc Hok) as (rc & s' & H1 & _ & Hp); [lia..|].
  exists s'. rewrite (bind_Ret _ _ _ _ _ H1). split; [|done]. unfold ret. f_equal.
  assert (0 < Z.of_nat (length buf)) by (destruct buf; [done | cbn; lia]).
  unfold truth. destruct (Z.of_nat (length buf) =? 0) eqn:E; [lia|]. apply s32_small. lia.
Qed.

End Sender.
