(* ===== verification/Window.v ===== *)
(** The MINIP window and the retransmission timeout: what an acknowledgement
    does to the sender, and the bound on the frames in flight. *)

From Stdlib Require Import ZArith Lia.
From stdpp Require Import base list gmap.
From S2P Require Import Prelude Ints Types Setters Kernel Hash TcpUtils Rtxq Connection Tcp.
From S2P Require Import Minip Frame RtxqProps Sender.
Open Scope Z_scope.

(** ** The congestion window *)

Lemma update_cwnd_window k :
  is_u8 (con_window k) -> 0 <= con_window (minip_update_cwnd k) <= WINDOW_SIZE.
Proof.
  unfold minip_update_cwnd, is_u8, WINDOW_SIZE. intros Hw.
  pose proof (u8_range (con_window k + 1)) as H1. unfold is_u8 in H1.
  destruct (u32 (con_next_seq k - u32 (con_last_acked k)) <=? 12).
  - cbn. destruct (12 <? u8 (con_window k + 1)) eqn:E; cbn; lia.
  - destruct (0 <? con_window k) eqn:E; cbn.
    + rewrite u8_small by (unfold is_u8; lia).
      destruct (12 <? con_window k - 1) eqn:E2; cbn; [lia|].
      rewrite ?u8_small by (unfold is_u8; lia). lia.
    + destruct (12 <? con_window k) eqn:E2; cbn; lia.
Qed.

(** All other fields stay. *)
Lemma update_cwnd_rest k :
  minip_update_cwnd k = set_con_window (con_window (minip_update_cwnd k)) k.
Proof. unfold minip_update_cwnd. destruct k. by repeat case_match. Qed.

(** ** The retransmission timeout *)

(** [rto_ok B k]: the estimator has seen round trips of at most [B] milliseconds. *)
Definition rto_ok (B : Z) (k : con) : Prop :=
  0 <= con_srtt k <= 8 * B /\ 0 <= con_rttvar k <= 4 * B.

Lemma shiftr_div a n : 0 <= n -> Z.shiftr a n = a / 2 ^ n.
Proof. intros. by apply Z.shiftr_div_pow2. Qed.

(** A sample of at most [B] keeps the estimator within [B], and the timeout is at
    most five times [B]. *)
Lemma update_rto_bounds B k m :
  8 * B < 2 ^ 32 -> 0 <= m <= B -> rto_ok B k ->
  rto_ok B (minip_update_rto k m) /\ 0 <= con_rto (minip_update_rto k m) <= 5 * B.
Proof.
  intros HB Hm [Hs Hv]. unfold minip_update_rto.
  rewrite !shiftr_div by lia. change (2 ^ 3) with 8. change (2 ^ 2) with 4.
  destruct (truth (con_srtt k)).
  - assert (0 <= con_srtt k / 8 <= B) by (split; [apply Z.div_pos; lia | apply Z.div_le_upper_bound; lia]).
    assert (0 <= con_rttvar k / 4 <= con_rttvar k) as [? ?].
    { split; [apply Z.div_pos; lia|]. apply Z.div_le_upper_bound; lia. }
    assert (con_rttvar k - con_rttvar k / 4 <= 3 * B) by (Z.to_euclidean_division_equations; lia).
    assert (con_srtt k - con_srtt k / 8 <= 7 * B) by (Z.to_euclidean_division_equations; lia).
    assert (0 <= con_srtt k - con_srtt k / 8) by (Z.to_euclidean_division_equations; lia).
    rewrite (s64_small (m - con_srtt k / 8)) by lia.
    set (d := m - con_srtt k / 8).
    assert ((if d <? 0 then s64 (- d) else d) = Z.abs d) as Habs.
    { destruct (d <? 0) eqn:E; [rewrite s64_small by lia; lia | lia]. }
    cbn [con_srtt con_rttvar set_con_srtt set_con_rttvar set_con_rto con_rto].
    rewrite Habs. rewrite (s64_small (Z.abs d - con_rttvar k / 4)) by lia.
    rewrite (u32_small (con_srtt k + d)) by (unfold is_u32; lia).
    rewrite (u32_small (con_rttvar k + _)) by (unfold is_u32; lia).
    assert (0 <= (con_srtt k + d) / 8 <= B) by (split; [apply Z.div_pos; lia | apply Z.div_le_upper_bound; lia]).
    rewrite u32_small by (unfold is_u32; lia). unfold rto_ok. cbn. lia.
  - cbn [con_srtt con_rttvar set_con_srtt set_con_rttvar set_con_rto con_rto].
    rewrite !Z.shiftl_mul_pow2 by lia. change (2 ^ 3) with 8. change (2 ^ 1) with 2.
    rewrite (u32_small (m * 8)) by (unfold is_u32; lia).
    rewrite (u32_small (m * 2)) by (unfold is_u32; lia).
    rewrite Z.div_mul by lia. rewrite u32_small by (unfold is_u32; lia).
    unfold rto_ok. cbn. lia.
Qed.

(** The first sample. *)
Lemma update_rto_first k m :
  con_srtt k = 0 -> 0 <= 8 * m < 2 ^ 32 ->
  con_srtt (minip_update_rto k m) = 8 * m /\ con_rttvar (minip_update_rto k m) = 2 * m /\
  con_rto (minip_update_rto k m) = 3 * m.
Proof.
  intros H0 Hm. unfold minip_update_rto. rewrite H0. cbn.
  rewrite !Z.shiftl_mul_pow2 by lia. change (2 ^ 3) with 8. change (2 ^ 1) with 2.
  rewrite (u32_small (m * 8)), (u32_small (m * 2)) by (unfold is_u32; lia).
  rewrite shiftr_div by lia. change (2 ^ 3) with 8. rewrite Z.div_mul by lia.
  rewrite u32_small by (unfold is_u32; lia). lia.
Qed.

(** A steady round trip: the smoothed value does not move. *)
Lemma update_rto_steady k m :
  0 < 8 * m < 2 ^ 32 -> con_srtt k = 8 * m -> 0 <= con_rttvar k < 2 ^ 32 ->
  con_srtt (minip_update_rto k m) = 8 * m /\
  con_rttvar (minip_update_rto k m) = con_rttvar k - con_rttvar k / 4.
Proof.
  intros Hm Hs Hv. unfold minip_update_rto. rewrite Hs.
  assert (truth (8 * m) = true) as ->.
  { unfold truth. destruct (8 * m =? 0) eqn:E; [lia | done]. }
  rewrite !shiftr_div by lia. change (2 ^ 3) with 8. change (2 ^ 2) with 4.
  replace (8 * m / 8) with m by (rewrite Z.mul_comm, Z.div_mul; lia).
  rewrite Z.sub_diag. cbn [con_srtt con_rttvar set_con_srtt set_con_rttvar set_con_rto].
  change (s64 0) with 0. change (0 <? 0) with false. cbv iota.
  assert (0 <= con_rttvar k / 4 <= con_rttvar k).
  { split; [apply Z.div_pos; lia | apply Z.div_le_upper_bound; lia]. }
  rewrite (s64_small (0 - _)) by lia. rewrite Z.add_0_r.
  rewrite !u32_small by (unfold is_u32; lia). lia.
Qed.

(** ** Acknowledgements *)

Section Acks.
Context `{P : Platform}.

(** The frames a sender may have in flight: the window may be raised to
    [WINDOW_SIZE] while the queue holds less than half of it. *)
Definition max_flight : Z := WINDOW_SIZE + Z.shiftr WINDOW_SIZE 1 - 1.

(** The window and the queue of a sender agree. *)
Definition window_ok (k : con) (q : rtxqueue) : Prop :=
  0 <= con_window k /\ q_len q = Z.of_nat (length (q_head q)) /\
  con_window k + q_len q <= max_flight.

Definition ack_queue (ack : Z) (q : rtxqueue) : rtxqueue :=
  mkQueue (q_len q - Z.of_nat (length (acked ack (q_head q)))) (unacked ack (q_head q)).

(** What the good-ACK branch makes of the connection. *)
Definition ack_con (ack : Z) (q : rtxqueue) (k : con) : con :=
  let k := set_con_last_acked (s32 (ack - 1)) (set_con_dup_acks 0 k) in
  let k := if con_state k =? RECOVERY
           then set_con_state ESTABLISHED (set_con_sending 1 k) else k in
  let k := set_con_window (u8 (con_window k + Z.of_nat (length (acked ack (q_head q))))) k in
  if u32 (q_len (ack_queue ack q)) <? Z.shiftr WINDOW_SIZE 1 then minip_update_cwnd k else k.

Lemma length_acked ack l : (length (acked ack l) + length (unacked ack l) = length l)%nat.
Proof. rewrite <- length_app. by rewrite acked_unacked. Qed.

Lemma ack_con_lsock ack q k : con_lsock (ack_con ack q k) = con_lsock k.
Proof.
  unfold ack_con. destruct (_ <? _); [rewrite update_cwnd_rest|]; cbn;
    by destruct (con_state k =? RECOVERY).
Qed.

(** The bound survives an acknowledgement of any number. *)
Lemma ack_window_ok ack q k : window_ok k q -> window_ok (ack_con ack q k) (ack_queue ack q).
Proof.
  intros (Hw & Hlen & Hsum). pose proof (length_acked ack (q_head q)) as Hl.
  change max_flight with 17 in *.
  unfold ack_con. set (k1 := set_con_last_acked _ _).
  set (k2 := if con_state k1 =? RECOVERY then _ else k1).
  assert (con_window k2 = con_window k) as Hk2 by (unfold k2; by destruct (con_state k1 =? RECOVERY)).
  set (cr := Z.of_nat (length (acked ack (q_head q)))) in *.
  assert (u8 (con_window k + cr) = con_window k + cr) as Hu.
  { apply u8_small. unfold is_u8, cr. lia. }
  rewrite Hk2, Hu. set (k3 := set_con_window (con_window k + cr) k2).
  assert (u32 (q_len (ack_queue ack q)) = Z.of_nat (length (unacked ack (q_head q)))) as Hq.
  { cbn. fold cr. unfold cr. rewrite u32_small; [lia | unfold is_u32; lia]. }
  rewrite Hq. split_and!; cbn [q_len q_head ack_queue]; [|unfold cr; lia|].
  - destruct (_ <? _); [apply update_cwnd_window; cbn; unfold is_u8, cr; lia | cbn; unfold cr; lia].
  - change max_flight with 17. destruct (_ <? _) eqn:E.
    + pose proof (update_cwnd_window k3) as Hb. change (con_window k3) with (con_window k + cr) in Hb.
      unfold is_u8, WINDOW_SIZE, cr in *. change (Z.shiftr 12 1) with 6 in E.
      specialize (Hb ltac:(lia)). lia.
    + change (con_window k3) with (con_window k + cr). unfold cr. lia.
Qed.

(** The state after the bookkeeping of a good ACK: only the connection and its
    queue differ. *)
Definition acked_state (c a : positive) (ack : Z) (k : con) (q : rtxqueue) (s s1 : st) : Prop :=
  st_srv s1 = st_srv s /\ st_cons s1 = <[c := ack_con ack q k]> (st_cons s) /\
  st_rtxqs s1 = <[a := mkRtxq (Some (ack_queue ack q))]> (st_rtxqs s) /\
  st_socks s1 = st_socks s /\ st_pending s1 = st_pending s /\ st_skbs s1 = st_skbs s.

(** [s1] is [s] but for the connection [c], which is [k] now. *)
Definition con_becomes (c : positive) (k : con) (s s1 : st) : Prop :=
  st_cons s1 = <[c := k]> (st_cons s) /\ st_srv s1 = st_srv s /\ st_rtxqs s1 = st_rtxqs s /\
  st_socks s1 = st_socks s /\ st_pending s1 = st_pending s /\ st_skbs s1 = st_skbs s.

Lemma upd_con_becomes c f k s :
  st_cons s !! c = Some k -> exists s1, upd_con c f s = Ret tt s1 /\ con_becomes c (f k) s s1.
Proof. intros Hk. rewrite (upd_con_run _ _ _ _ Hk). eexists. by split. Qed.

Lemma con_becomes_trans c k1 k2 s s1 s2 :
  con_becomes c k1 s s1 -> con_becomes c k2 s1 s2 -> con_becomes c k2 s s2.
Proof.
  unfold con_becomes. intros (Hc1 & ? & ? & ? & ? & ?) (Hc2 & ? & ? & ? & ? & ?).
  split_and!; try congruence. by rewrite Hc2, Hc1, insert_insert_eq.
Qed.

Lemma con_becomes_lookup c k s s1 : con_becomes c k s s1 -> st_cons s1 !! c = Some k.
Proof. intros [-> _]. by rewrite lookup_insert_eq. Qed.

Lemma when_becomes c k k' b m s :
  st_cons s !! c = Some k ->
  (exists s1, m s = Ret tt s1 /\ con_becomes c k' s s1) ->
  exists s1, when b m s = Ret tt s1 /\ con_becomes c (if b then k' else k) s s1.
Proof.
  intros Hk Hm. destruct b; [done|]. exists s. split; [done|].
  unfold con_becomes. by rewrite insert_id.
Qed.

Lemma rtxq_size_run c k a q s :
  st_cons s !! c = Some k -> con_rtxq k = Some a ->
  st_rtxqs s !! a = Some (mkRtxq (Some q)) -> rtxq_size c s = Ret (u32 (q_len q)) s.
Proof.
  intros Hk Ha Hq. unfold rtxq_size, bind, deref, get_rtxq, ret.
  by rewrite (get_con_run _ _ _ Hk), Ha, Hq.
Qed.

(** The branch for a good ACK: the bookkeeping, then the callback of the left
    socket, which the code calls without a test for NULL. *)
Lemma good_ack_run c k a q ack s :
  sending_con c k a q s ->
  exists s1, acked_state c a ack k q s s1 /\
    recv_good_ack c ack s =
      match con_lsock k with
      | Some l => (do! sk_data_ready_call l; ret 0) s1
      | None => Fault NullDeref s1
      end.
Proof.
  intros (Hv & Hk & Ha & Hq). unfold recv_good_ack.
  destruct (upd_con_becomes c (set_con_dup_acks 0) k s Hk) as (s1 & H1 & Hb1).
  rewrite (bind_Ret _ _ _ _ _ H1).
  destruct (upd_con_becomes c (set_con_last_acked (s32 (ack - 1))) _ s1
    (con_becomes_lookup _ _ _ _ Hb1)) as (s2 & H2 & Hb2).
  rewrite (bind_Ret _ _ _ _ _ H2). pose proof (con_becomes_trans _ _ _ _ _ _ Hb1 Hb2) as Hb.
  set (k1 := set_con_last_acked _ _) in *. clear Hb1 Hb2 H1 H2 s1.
  rewrite (bind_Ret _ _ _ _ _ (get_con_run _ _ _ (con_becomes_lookup _ _ _ _ Hb))).
  destruct Hb as (Hc2 & Hv2 & Hr2 & Hs2 & Hp2 & Hk2).
  change (con_rtxq k1) with (con_rtxq k). rewrite Ha. rewrite <- Hr2 in Hq.
  destruct (rtxq_ack_run a q ack s2 Hq) as (s3 & H3 & (Hc3 & Hv3 & Hs3 & Hk3 & Hp3 & _) & Hq3).
  rewrite (bind_Ret _ _ _ _ _ H3). fold (ack_queue ack q) in Hq3.
  assert (st_cons s3 !! c = Some k1) as Hl3 by (rewrite Hc3, Hc2; by rewrite lookup_insert_eq).
  rewrite (bind_Ret _ _ _ _ _ (get_con_run _ _ _ Hl3)).
  destruct (when_becomes c k1 (set_con_state ESTABLISHED (set_con_sending 1 k1))
    (con_state k1 =? RECOVERY) (do! upd_con c (set_con_sending 1);
       upd_con c (set_con_state ESTABLISHED)) s3 Hl3) as (s4 & H4 & Hb4).
  { destruct (upd_con_becomes c (set_con_sending 1) k1 s3 Hl3) as (sa & Ha1 & Hba).
    rewrite (bind_Ret _ _ _ _ _ Ha1). destruct (upd_con_becomes c (set_con_state ESTABLISHED) _ sa
      (con_becomes_lookup _ _ _ _ Hba)) as (sb & Hb1 & Hbb).
    exists sb. split; [done|]. by eapply con_becomes_trans. }
  rewrite (bind_Ret _ _ _ _ _ H4). set (k2 := if con_state k1 =? RECOVERY then _ else k1) in *.
  set (g := fun k0 : con => set_con_window _ k0).
  destruct (upd_con_becomes c g k2 s4 (con_becomes_lookup _ _ _ _ Hb4)) as (s5 & H5 & Hb5).
  rewrite (bind_Ret _ _ _ _ _ H5). pose proof (con_becomes_trans _ _ _ _ _ _ Hb4 Hb5) as Hb.
  pose proof (con_becomes_lookup _ _ _ _ Hb) as Hl5.
  assert (con_rtxq (g k2) = Some a) as Hga.
  { unfold k2. by destruct (con_state k1 =? RECOVERY). }
  assert (st_rtxqs s5 !! a = Some (mkRtxq (Some (ack_queue ack q)))) as Hq5.
  { destruct Hb as (_ & _ & -> & _). rewrite Hq3. by rewrite lookup_insert_eq. }
  rewrite (bind_Ret _ _ _ _ _ (rtxq_size_run _ _ _ _ _ Hl5 Hga Hq5)).
  destruct (when_becomes c (g k2) (minip_update_cwnd (g k2))
    (u32 (q_len (ack_queue ack q)) <? Z.shiftr WINDOW_SIZE 1) (upd_con c minip_update_cwnd)
    s5 Hl5) as (s6 & H6 & Hb6); [by apply upd_con_becomes|].
  rewrite (bind_Ret _ _ _ _ _ H6). pose proof (con_becomes_trans _ _ _ _ _ _ Hb Hb6) as Hb'.
  change (if _ <? _ then minip_update_cwnd (g k2) else g k2) with (ack_con ack q k) in Hb'.
  rewrite (bind_Ret _ _ _ _ _ (get_con_run _ _ _ (con_becomes_lookup _ _ _ _ Hb'))).
  assert (con_lsock (ack_con ack q k) = con_lsock k) as -> by apply ack_con_lsock.
  exists s6. destruct Hb' as (Hc6 & ? & ? & ? & ? & ?).
  split; [|by destruct (con_lsock k)].
  unfold acked_state. split_and!; try congruence.
  rewrite Hc6, Hc3, Hc2. by rewrite insert_insert_eq.
Qed.

(** [field] of connection [c] has the value [x], if the connection is there. *)
Definition field_is {A} (field : con -> A) (c : positive) (x : A) (s : st) : Prop :=
  forall k, st_cons s !! c = Some k -> field k = x.

#[global] Instance field_is_env {A} (field : con -> A) c x : EnvFree (field_is field c x) :=
  fun _ _ _ => eq_refl.

Lemma field_is_upd {A} (field : con -> A) c x d f :
  (forall k, field (f k) = field k) -> preserves (stable (field_is field c x)) (upd_con d f).
Proof.
  intros Hf. apply stable_upd_con. intros s k HI Hd k'. cbn.
  destruct (decide (d = c)) as [->|Hne].
  - rewrite lookup_insert_eq. intros [= <-]. rewrite Hf. by apply HI.
  - rewrite lookup_insert_ne by done. apply HI.
Qed.

(** What the data-ready callbacks may do to a connection: count references and
    release it. *)
Definition sender_view (k : con) : Z * Z * Z * Z * Z * Z * option positive :=
  (con_window k, con_last_acked k, con_dup_acks k, con_sending k, con_state k, con_next_seq k,
   con_rtxq k).

End Acks.
