(* ===== verification/Receiver.v ===== *)
(** The MINIP receiver: in-order delivery of data frames to the left socket, the
    acknowledgement of every frame, and the end-to-end guarantee over a channel
    that loses, duplicates and reorders frames. *)

From Stdlib Require Import ZArith Lia.
From stdpp Require Import base list gmap.
From S2P Require Import Prelude Ints Types Setters Kernel Hash TcpUtils Rtxq Connection Tcp.
From S2P Require Import Minip Frame Relay RtxqProps Sender.
Open Scope Z_scope.

Section Receiver.
Context `{P : Platform}.

(** ** Sending an ACK *)

(** The frame pepdna_minip_send_ack transmits. *)
Definition ack_frame (id ack ts : Z) (f : frame) : Prop :=
  h_pkt_type (f_hdr f) = pkt_val MINIP_CONN_ACK /\ h_sdu_len (f_hdr f) = 0 /\
  h_id (f_hdr f) = htonl id /\ h_ack (f_hdr f) = htonl ack /\ h_ts (f_hdr f) = ts /\
  f_data f = [].

(** The kernel refuses what a frame needs: a buffer, or the device header. *)
Definition frame_refused (e : event) : Prop :=
  match e with
  | Ev c r =>
      match c in kE R return R -> Prop with
      | AllocSkb _ => fun b => b = None
      | DevHardHeader _ _ _ => fun rc => rc < 0
      | _ => fun _ => False
      end r
  end.

(** One ACK went out, or none because the kernel refused it. *)
Definition ack_answer (id ack ts : Z) (evs : list event) : Prop :=
  (exists a, wire evs = [a] /\ ack_frame id ack ts a) \/
  (wire evs = [] /\ Exists frame_refused evs).

Lemma send_ack_run id ack mac ts s rc s' :
  pepdna_minip_send_ack id ack mac ts s = Ret rc s' ->
  same_state s s' /\ exists evs, grew s s' evs /\ Forall silent evs /\ ack_answer id ack ts evs.
Proof.
  unfold pepdna_minip_send_ack, minip_xmit, bind, deref, ret, throw. call_out.
  destruct r as [dev|]; [|done]. call_out. destruct r as [old|]; cycle 1.
  { intros [= <- <-]. split; [by split|]. eexists. split; [unfold grew; cbn; by rewrite <- app_assoc|].
    split; [repeat constructor|]. right. split; [done|]. by apply Exists_cons_tl, Exists_cons_hd. }
  call_out. destruct (r <? 0) eqn:Er.
  { call_out. intros [= <- <-]. split; [by split|].
    eexists. split; [unfold grew; cbn; by rewrite <- !app_assoc|].
    split; [repeat constructor|]. right. split; [done|].
    apply Exists_cons_tl, Exists_cons_tl, Exists_cons_hd. cbn. lia. }
  call_out. intros [= <- <-]. split; [by split|].
  eexists. split; [unfold grew; cbn; by rewrite <- !app_assoc|].
  split; [repeat constructor|]. left. eexists. split; [reflexivity|]. done.
Qed.

(** ** One data frame *)

(** The payload the receiver reads from a frame. *)
Definition payload (f : frame) : list Z := take (Z.to_nat (h_sdu_len (f_hdr f))) (f_data f).

(** What one frame does to connection [c] with left socket [l]; [k'] is the
    connection afterwards. *)
Inductive rx_step (l : positive) (f : frame) (k k' : con) (evs : list event) : Z -> Prop :=
| rx_deliver :                       (* the expected frame, written completely *)
    skb_seq_get f = con_next_recv k -> stream_out l evs = payload f ->
    k' = set_con_next_recv (u32 (con_next_recv k + 1)) k ->
    rx_step l f k k' evs (h_sdu_len (f_hdr f))
| rx_broken n :                      (* the expected frame, a failing write *)
    skb_seq_get f = con_next_recv k -> stream_out l evs = take n (payload f) -> k' = k ->
    rx_step l f k k' evs (- 1)
| rx_ignored :                       (* any other frame *)
    skb_seq_get f <> con_next_recv k -> stream_out l evs = [] -> k' = k ->
    rx_step l f k k' evs (- EAGAIN).

Context `{!SendmsgLaw P}.

Definition frame_ok (f : frame) : Prop :=
  0 <= h_sdu_len (f_hdr f) < 2 ^ 16 /\ h_sdu_len (f_hdr f) <= Z.of_nat (length (f_data f)).

Lemma payload_len f : frame_ok f -> Z.of_nat (length (payload f)) = h_sdu_len (f_hdr f).
Proof. intros [? ?]. unfold payload. rewrite length_take. lia. Qed.

(** Writing to a socket transmits no MINIP frame. *)
Definition no_xmit (e : event) : Prop := xmitted e = [].

Lemma no_xmit_wire evs : Forall no_xmit evs -> wire evs = [].
Proof. induction 1 as [|e evs He _ IH]; [done|]. unfold wire in *. cbn. by rewrite He, IH. Qed.

Lemma sock_write_no_wire fuel sk buf len s r s' evs :
  pepdna_sock_write fuel sk buf len s = Ret r s' -> grew s s' evs -> wire evs = [].
Proof.
  intros Hrun Hg. assert (preserves (emits no_xmit) (pepdna_sock_write fuel sk buf len)) as H.
  { unfold pepdna_sock_write, sock_write_body, kernel_sendmsg, pepdna_wait_to_send, user_con,
      pepdna_sock_writeable. pres. }
  destruct (pres_run _ _ _ _ _ H Hrun) as (evs' & Ht & Hall). unfold grew in Hg.
  rewrite Hg in Ht. apply app_inv_head in Ht as <-. by apply no_xmit_wire.
Qed.

(** The delivery part of pepdna_con_minip2i_fwd, without the ACK. *)
Definition minip2i_deliver (fuel : nat) (c : positive) (skb : frame) (k : con) : KM Z :=
  let hdr := f_hdr skb in
  if ntohl (h_seq hdr) =? con_next_recv k then
    if Z.of_nat (length (f_data skb)) <? h_sdu_len hdr then throw OutOfBounds
    else
      do sent <- pepdna_sock_write fuel (con_lsock k)
                   (take (Z.to_nat (h_sdu_len hdr)) (f_data skb)) (h_sdu_len hdr);
      if sent <? 0 then ret (- 1)
      else
        do! upd_con c (fun k => set_con_next_recv (u32 (con_next_recv k + 1)) k);
        ret (h_sdu_len hdr)
  else ret (- EAGAIN).

Lemma minip2i_deliver_run fuel c l f k s r s' :
  frame_ok f -> st_cons s !! c = Some k -> con_lsock k = Some l ->
  minip2i_deliver fuel c f k s = Ret r s' ->
  exists k' evs, st_cons s' = <[c := k']> (st_cons s) /\ st_srv s' = st_srv s /\
    grew s s' evs /\ wire evs = [] /\ rx_step l f k k' evs r.
Proof.
  intros Hf Hk Hl. unfold minip2i_deliver. change (ntohl (h_seq (f_hdr f))) with (skb_seq_get f).
  destruct (skb_seq_get f =? con_next_recv k) eqn:Eseq; cycle 1.
  { intros [= <- <-]. exists k, []. split_and!; [by rewrite insert_id | done | | done |].
    - unfold grew. by rewrite app_nil_r.
    - apply rx_ignored; [lia | done | done]. }
  destruct Hf as [Hlen Hle]. destruct (_ <? _) eqn:E; [lia|]. fold (payload f).
  intros Hrun. run_inv Hrun. rewrite Hl in Hrun0.
  pose proof (payload_len f (conj Hlen Hle)) as Hp. rewrite <- Hp in Hrun0.
  pose proof (sock_write_relays s fuel l (payload f) r0 s0 ltac:(lia) Hrun0)
    as (evs & Hadd & _ & _ & Hout).
  pose proof (pres_run _ _ _ _ _ (sock_write_keeps st_cons fuel _ _ _) Hrun0) as Hcons.
  pose proof (pres_run _ _ _ _ _ (sock_write_keeps st_srv fuel _ _ _) Hrun0) as Hsrv.
  pose proof (sock_write_no_wire fuel _ _ _ _ _ _ _ Hrun0 Hadd) as Hwire.
  unfold keeps in Hcons, Hsrv. destruct (r0 <? 0) eqn:Er0.
  - injection Hrun as <- <-. destruct Hout as [[? _]|(_ & n & _ & Hout)]; [lia|].
    exists k, evs. rewrite Hcons, Hsrv. split_and!; [by rewrite insert_id | done | done | done |].
    eapply rx_broken; [lia | done | done].
  - destruct Hout as [[_ Hout]|[? _]]; [|lia]. run_inv Hrun.
    rewrite (upd_con_run c _ s0 k) in Hrun1 by by rewrite Hcons.
    injection Hrun1 as <- <-. injection Hrun as <- <-.
    eexists _, evs. split_and!; [cbn; by rewrite Hcons | done | done | done |].
    apply rx_deliver; [lia | done | done].
Qed.

Lemma minip2i_eq fuel c skb s :
  pepdna_con_minip2i_fwd fuel c skb s =
  (do k <- get_con c;
   do read <- minip2i_deliver fuel c skb k;
   do k <- get_con c;
   do v <- get_srv;
   do _rc <- pepdna_minip_send_ack (con_id k) (con_next_recv k) (srv_to_mac v) (h_ts (f_hdr skb));
   ret read) s.
Proof. reflexivity. Qed.

Lemma silent_stream_out l evs : Forall silent evs -> stream_out l evs = [].
Proof. intros H. by apply silent_streams. Qed.

(** The whole function: delivery, and an ACK of the number expected next that
    echoes the time stamp (none when the kernel refused the frame). *)
Lemma minip2i_run fuel c l f k s r s' :
  frame_ok f -> st_cons s !! c = Some k -> con_lsock k = Some l ->
  pepdna_con_minip2i_fwd fuel c f s = Ret r s' ->
  exists k' evs, st_cons s' = <[c := k']> (st_cons s) /\ st_srv s' = st_srv s /\
    grew s s' evs /\ rx_step l f k k' evs r /\
    ack_answer (con_id k') (con_next_recv k') (h_ts (f_hdr f)) evs.
Proof.
  intros Hf Hk Hl Hrun. rewrite minip2i_eq in Hrun. run_inv Hrun.
  rewrite (get_con_run _ _ _ Hk) in Hrun0. injection Hrun0 as <- <-.
  run_inv Hrun.
  destruct (minip2i_deliver_run _ _ _ _ _ _ _ _ Hf Hk Hl Hrun0)
    as (k' & ev1 & Hc1 & Hs1 & Hg1 & Hw1 & Hstep).
  assert (st_cons s0 !! c = Some k') as Hk' by by rewrite Hc1, lookup_insert_eq.
  run_inv Hrun. rewrite (get_con_run _ _ _ Hk') in Hrun1. injection Hrun1 as <- <-.
  run_inv Hrun. assert (s1 = s0) as ->.
  { unfold get_srv in Hrun1. destruct (st_srv s0); by simplify_eq. }
  run_inv Hrun. injection Hrun as <- <-.
  apply send_ack_run in Hrun2 as ([(Hc2 & Hs2 & _) _] & ev2 & Hg2 & Hsil & Hw2).
  exists k', (ev1 ++ ev2). split_and!.
  - by rewrite Hc2, Hc1.
  - by rewrite Hs2, Hs1.
  - unfold grew in *. by rewrite Hg2, Hg1, app_assoc.
  - pose proof (silent_stream_out l ev2 Hsil) as Hn.
    destruct Hstep; [eapply rx_deliver | eapply rx_broken | eapply rx_ignored]; eauto;
      by rewrite stream_out_app, Hn, app_nil_r.
  - unfold ack_answer in *. rewrite wire_app, Hw1, Exists_app. tauto.
Qed.

(** ** A sequence of frames *)

(** The frames the network hands over, until a write fails and the connection is
    given up. *)
Fixpoint rx_frames (fuel : nat) (c : positive) (fs : list frame) : KM unit :=
  match fs with
  | [] => ret tt
  | f :: fs' =>
      do rc <- pepdna_con_minip2i_fwd fuel c f;
      if rc =? - 1 then ret tt else rx_frames fuel c fs'
  end.

(** [f] carries the [i]-th of the segments [segs], numbered from [n0]. *)
Definition genuine (n0 : Z) (segs : list (list Z)) (f : frame) : Prop :=
  frame_ok f /\ exists i b, segs !! i = Some b /\ skb_seq_get f = n0 + Z.of_nat i /\ payload f = b.

(** What was delivered from segment [m] on, when the receiver now expects number
    [m']: the segments in between, and a part of the next one if a write failed. *)
Definition delivered (segs : list (list Z)) (m m' : nat) (out : list Z) : Prop :=
  (m <= m' <= length segs)%nat /\
  exists x, x `prefix_of` default [] (segs !! m') /\
    out = concat (take (m' - m) (drop m segs)) ++ x.

Lemma delivered_prefix segs m m' out : delivered segs m m' out -> out `prefix_of` concat (drop m segs).
Proof.
  intros [Hm (x & Hx & ->)]. rewrite <- (take_drop (m' - m) (drop m segs)) at 2.
  rewrite concat_app. apply prefix_app. rewrite drop_drop.
  replace (m + (m' - m))%nat with m' by lia. destruct (segs !! m') as [b|] eqn:Hb; cbn in Hx.
  - rewrite (drop_S _ _ _ Hb). cbn. by apply prefix_app_r.
  - apply prefix_nil_inv in Hx as ->. apply prefix_nil.
Qed.

Lemma delivered_all segs out : delivered segs 0 (length segs) out -> out = concat segs.
Proof.
  intros [_ (x & Hx & ->)]. rewrite lookup_ge_None_2 in Hx by done.
  apply prefix_nil_inv in Hx as ->. rewrite Nat.sub_0_r, drop_0, take_ge by done.
  apply app_nil_r.
Qed.

Lemma delivered_step segs m m' b out :
  segs !! m = Some b -> delivered segs (S m) m' out -> delivered segs m m' (b ++ out).
Proof.
  intros Hb [Hm (x & Hx & ->)]. split; [lia|]. exists x. split; [done|].
  rewrite (drop_S _ _ _ Hb). replace (m' - m)%nat with (S (m' - S m)) by lia. cbn.
  by rewrite app_assoc.
Qed.

Lemma delivered_part segs m b n :
  segs !! m = Some b -> delivered segs m m (take n b).
Proof.
  intros Hb. split; [apply lookup_lt_Some in Hb; lia|]. exists (take n b).
  rewrite Hb, Nat.sub_diag. split; [|done]. cbn. exists (drop n b). by rewrite take_drop.
Qed.

Lemma rx_frames_run fuel c l n0 segs fs :
  Forall (genuine n0 segs) fs -> 0 <= n0 -> n0 + Z.of_nat (length segs) < 2 ^ 32 ->
  forall m k s s', (m <= length segs)%nat -> st_cons s !! c = Some k -> con_lsock k = Some l ->
  con_next_recv k = n0 + Z.of_nat m -> rx_frames fuel c fs s = Ret tt s' ->
  exists evs m' k', grew s s' evs /\ st_cons s' !! c = Some k' /\
    con_next_recv k' = n0 + Z.of_nat m' /\ delivered segs m m' (stream_out l evs).
Proof.
  intros Hfs Hn0 Hmax. induction Hfs as [|f fs [Hok (i & b & Hi & Hseq & Hpay)] _ IH];
    intros m k s s' Hm Hk Hl Hnr Hrun; cbn [rx_frames] in Hrun.
  { injection Hrun as <-. exists [], m, k. split_and!; [unfold grew; by rewrite app_nil_r|done..|].
    split; [lia|]. exists []. rewrite Nat.sub_diag. split; [apply prefix_nil | done]. }
  run_inv Hrun. destruct (minip2i_run _ _ _ _ _ _ _ _ Hok Hk Hl Hrun0)
    as (k' & ev1 & Hc1 & _ & Hg1 & Hstep & _).
  assert (st_cons s0 !! c = Some k') as Hk' by by rewrite Hc1, lookup_insert_eq.
  destruct Hstep as [Hs Hout Hk1|n Hs Hout Hk1|Hs Hout Hk1].
  - assert (i = m) as -> by lia. pose proof (lookup_lt_Some _ _ _ Hi) as Hlt.
    destruct (h_sdu_len (f_hdr f) =? - 1) eqn:E; [destruct Hok; lia|].
    assert (con_next_recv k' = n0 + Z.of_nat (S m)) as Hnr'.
    { subst k'. cbn. rewrite Hnr, u32_small; [lia|]. unfold is_u32. lia. }
    destruct (IH (S m) k' s0 s') as (ev2 & m' & k2 & Hg2 & Hk2 & Hn2 & Hd2);
      [lia | done | by subst k' | done | done |].
    exists (ev1 ++ ev2), m', k2. split_and!; [|done|done|].
    + unfold grew in *. by rewrite Hg2, Hg1, app_assoc.
    + rewrite stream_out_app, Hout, Hpay. by apply delivered_step.
  - assert (i = m) as -> by lia. rewrite Z.eqb_refl in Hrun. injection Hrun as <-. subst k'.
    exists ev1, m, k. split_and!; [done..|]. rewrite Hout, Hpay. by apply delivered_part.
  - subst k'. change (- EAGAIN =? - 1) with false in Hrun. cbv iota in Hrun.
    destruct (IH m k s0 s') as (ev2 & m' & k2 & Hg2 & Hk2 & Hn2 & Hd2); [done..|].
    exists (ev1 ++ ev2), m', k2. split_and!; [|done|done|].
    + unfold grew in *. by rewrite Hg2, Hg1, app_assoc.
    + by rewrite stream_out_app, Hout.
Qed.

End Receiver.
