(* ===== verification/MinipClaims.v ===== *)
(** What is claimed of MINIP: segmentation, the retransmission queue, the window
    and the timeout of the sender, delivery at the receiver, and the guarantee
    from one end to the other. *)

From Stdlib Require Import ZArith Lia.
From stdpp Require Import base list gmap.
From S2P Require Import Prelude Ints Types Setters Kernel Hash TcpUtils Rtxq Connection Tcp.
From S2P Require Import Minip Sample SampleRun Frame Relay RelayClaims RtxqProps Sender Window Receiver.
Open Scope Z_scope.

Section Sending.
Context `{P : Platform}.

(** The window and the queue after a buffer that fits the window. *)
Lemma send_window_ok k q buf fs :
  window_ok k q -> Z.of_nat (length buf) <= MINIP_MSS * con_window k ->
  length fs = length (segment buf) ->
  window_ok (advance (Z.of_nat (length (segment buf))) k)
    (mkQueue (q_len q + Z.of_nat (length (segment buf))) (q_head q ++ fs)).
Proof.
  intros (Hw & Hl & Hs) Hb Hf.
  assert (Z.of_nat (length (segment buf)) <= con_window k) as Hn.
  { unfold segment. rewrite segments_count by done. unfold MINIP_MSS in *.
    apply Z.lt_succ_r, Z.div_lt_upper_bound; lia. }
  unfold window_ok, advance. cbn. rewrite length_app, Hf. lia.
Qed.

(** Every frame of [fs'] is a copy of a frame of [fs]: the network delivers what
    was transmitted, any number of times and in any order, and a retransmission
    differs in its time stamp at most. *)
Definition copy_of (f f' : frame) : Prop :=
  skb_seq_get f' = skb_seq_get f /\ h_sdu_len (f_hdr f') = h_sdu_len (f_hdr f) /\
  f_data f' = f_data f.

Definition channel (fs fs' : list frame) : Prop :=
  Forall (fun f' => exists f, f ∈ fs /\ copy_of f f') fs'.

Lemma frame_genuine k segs fs f f' :
  frames_for k segs fs -> Forall (fun b => 0 < Z.of_nat (length b) <= MINIP_MSS) segs ->
  is_u32 (con_next_seq k) -> con_next_seq k + Z.of_nat (length segs) < 2 ^ 32 ->
  f ∈ fs -> copy_of f f' -> genuine (con_next_seq k) segs f'.
Proof.
  intros [Hlen Hfs] Hsz Hk Hmax [i Hi]%list_elem_of_lookup (Hq & Hsl & Hd).
  destruct (Hfs i f Hi) as (b & Hb & (_ & Hf2 & _ & Hf4 & Hf5)).
  pose proof (Forall_lookup_1 _ _ _ _ Hsz Hb) as Hbl. unfold MINIP_MSS in Hbl.
  pose proof (lookup_lt_Some _ _ _ Hb) as Hlt.
  rewrite u16_small in Hf2 by (unfold is_u16; lia).
  split.
  - split; rewrite Hsl, Hf2; [lia|]. rewrite Hd, Hf5. lia.
  - exists i, b. split; [done|]. rewrite Hq, Hf4. unfold is_u32 in Hk. split.
    + apply u32_small. unfold is_u32. lia.
    + unfold payload. rewrite Hsl, Hf2, Hd, Hf5. apply take_ge. lia.
Qed.

Lemma channel_genuine k segs fs fs' :
  frames_for k segs fs -> Forall (fun b => 0 < Z.of_nat (length b) <= MINIP_MSS) segs ->
  is_u32 (con_next_seq k) -> con_next_seq k + Z.of_nat (length segs) < 2 ^ 32 ->
  channel fs fs' -> Forall (genuine (con_next_seq k) segs) fs'.
Proof.
  intros Hfr Hsz Hk Hmax Hch. eapply Forall_impl; [exact Hch|]. intros f' (f & Hin & Hcp).
  by eapply frame_genuine.
Qed.

End Sending.

Section Claims.

(** C6: pepdna_minip_conn_snd_data on a working transmit path sends a buffer of
    any length completely: the frames put on the wire are, in order, the segments
    of the buffer, each of at most MINIP_MSS bytes and none empty, their
    concatenation is the buffer, they carry the connection's identifier and
    consecutive sequence numbers from next_seq on, they are appended to the
    retransmission queue, and next_seq and the window move by their number. *)
Theorem snd_data_sends `{P : Platform, !TxLaw P} c k a q buf s :
  sending_con c k a q s -> sender_ok k -> buf <> [] -> Z.of_nat (length buf) < 2 ^ 31 ->
  (exists s', pepdna_minip_conn_snd_data c buf (Z.of_nat (length buf)) s
      = Ret (Z.of_nat (length buf)) s' /\ snd_post c k a q (segment buf) s s') /\
  concat (segment buf) = buf /\
  Forall (fun b => 0 < Z.of_nat (length b) <= MINIP_MSS) (segment buf).
Proof.
  intros Hc Hk Hne Hsz. split; [by apply snd_data_run|].
  split; [apply segment_concat | apply segments_size].
Qed.

(** C1: from end to end: a node sends a buffer in MINIP frames; another node, on
    its own platform and expecting the sender's next number, processes any
    sequence of copies of those frames (lost, duplicated, reordered,
    retransmitted).  The bytes its left socket accepts are a prefix of the
    buffer, and they are the whole buffer once it expects the number after the
    last frame. *)
Theorem end_to_end (PA PB : Platform) `{!@TxLaw PA, !@SendmsgLaw PB}
    (c : positive) k a q buf (s : @st PA) :
  sending_con c k a q s -> sender_ok k -> buf <> [] -> Z.of_nat (length buf) < 2 ^ 31 ->
  con_next_seq k + Z.of_nat (length (segment buf)) < 2 ^ 32 ->
  exists (s' : @st PA) evs,
    pepdna_minip_conn_snd_data c buf (Z.of_nat (length buf)) s = Ret (Z.of_nat (length buf)) s' /\
    grew s s' evs /\
    forall fs fuel d kB l (t t' : @st PB),
      channel (wire evs) fs -> st_cons t !! d = Some kB -> con_lsock kB = Some l ->
      con_next_recv kB = con_next_seq k -> @rx_frames PB fuel d fs t = Ret tt t' ->
      exists evsB kB', grew t t' evsB /\ st_cons t' !! d = Some kB' /\
        stream_out l evsB `prefix_of` buf /\
        (con_next_recv kB' = con_next_seq k + Z.of_nat (length (segment buf)) ->
         stream_out l evsB = buf).
Proof.
  intros Hc Hk Hne Hsz Hmax.
  destruct (snd_data_run c k a q buf s Hc Hk Hne Hsz) as (s' & Hrun & fs0 & evs & Hfr & Hg & Hw & _).
  exists s', evs. split; [done|]. split; [done|].
  intros fs fuel d kB l t t' Hch Hd Hl Hnr Hrx. destruct Hk as (Hid & Hseq & _).
  rewrite Hw in Hch.
  pose proof (channel_genuine _ _ _ _ Hfr (segments_size _ _) Hseq Hmax Hch) as Hgen.
  destruct (rx_frames_run fuel d l (con_next_seq k) (segment buf) fs Hgen) with (m := 0%nat)
    (k := kB) (s := t) (s' := t') as (evsB & m' & kB' & HgB & HkB & Hn & Hdel);
    [unfold is_u32 in *; lia | done | lia | done | done | lia | done |].
  exists evsB, kB'. split; [done|]. split; [done|]. split.
  - apply delivered_prefix in Hdel. by rewrite drop_0, segment_concat in Hdel.
  - intros Hend. assert (m' = length (segment buf)) as -> by lia.
    apply delivered_all in Hdel. by rewrite segment_concat in Hdel.
Qed.

Context `{P : Platform}.

(** C14: one data frame at the receiver: with the expected number its payload is
    written to the left socket and the expectation moves by one (or the write
    failed and the connection is left alone), any other frame delivers nothing,
    and whichever it was the receiver transmits exactly one frame, the ACK of the
    number it expects now, echoing the time stamp; it transmits none only when the
    kernel refused it the buffer or the device header in this very run. *)
Theorem receiver_step `{!SendmsgLaw P} fuel c l f k s r s' :
  frame_ok f -> st_cons s !! c = Some k -> con_lsock k = Some l ->
  pepdna_con_minip2i_fwd fuel c f s = Ret r s' ->
  exists k' evs, st_cons s' = <[c := k']> (st_cons s) /\ st_srv s' = st_srv s /\
    grew s s' evs /\ rx_step l f k k' evs r /\
    ack_answer (con_id k') (con_next_recv k') (h_ts (f_hdr f)) evs.
Proof. apply minip2i_run. Qed.

(** C15: an ACK on a queue with consecutive numbers: rtxq_ack always succeeds,
    removes exactly the frames below the ACK, keeps the others in order, corrects
    the length and returns the number of removed frames as credit. *)
Theorem rtxq_ack_exact a queue first ack s :
  st_rtxqs s !! a = Some (mkRtxq (Some queue)) -> seqs_from first (q_head queue) ->
  exists s' credit, rtxq_ack (Some a) ack s = Ret credit s' /\ same_but_rtxq s s' /\
    credit = Z.min (Z.max 0 (ack - first)) (Z.of_nat (length (q_head queue))) /\
    st_rtxqs s' = <[a := mkRtxq (Some (mkQueue (q_len queue - credit)
      (filter (fun e => ack <= entry_seq e) (q_head queue))))]> (st_rtxqs s).
Proof.
  intros Ha Hs. destruct (rtxq_ack_run a queue ack s Ha) as (s' & Hr & Hsame & Hq).
  exists s', (Z.of_nat (length (acked ack (q_head queue)))).
  split_and!; [done | done | | by rewrite Hq, (unacked_filter first)].
  rewrite (acked_count first) by done. lia.
Qed.

(** C16: a retransmission of the queue from a number on always returns: either
    every frame at or above it was transmitted again, in order, with its number,
    identifier and payload unchanged and its retry count raised by one, or the
    result is -1 and a prefix of them was; the queue keeps its frames either way.
    A frame that was retransmitted three times makes it fail. *)
Theorem full_rtx_exact a queue ack s :
  st_rtxqs s !! a = Some (mkRtxq (Some queue)) -> Forall retries_ok (q_head queue) ->
  exists l' rc s' evs, rtxq_full_rtx (Some a) ack s = Ret rc s' /\ same_but_rtxq s s' /\
    st_rtxqs s' = <[a := mkRtxq (Some (mkQueue (q_len queue) l'))]> (st_rtxqs s) /\
    grew s s' evs /\ rtx_result ack (q_head queue) l' rc evs /\
    ((exists e, e ∈ q_head queue /\ ack <= entry_seq e /\ e_retries e = MAX_MINIP_RETRY) ->
     rc = - 1).
Proof.
  intros Ha Hq. destruct (full_rtx_run a queue ack s Ha Hq)
    as (l' & rc & s' & evs & H1 & H2 & H3 & H4 & H5).
  exists l', rc, s', evs. split_and!; try done. by apply rtx_exhausted with (1 := H5).
Qed.

(** C22: sending keeps the frames in flight bounded: on a working transmit path
    ([TxLaw]: the device is there, buffers are allocated and copied, and the device
    queue takes every frame) a non-empty buffer that fits the window is sent completely
    and keeps window plus queue length within 17.  (When the device refuses a frame,
    it stays queued although the window is not decremented.) *)
Theorem send_keeps_bound `{!TxLaw P} c k a q buf s :
  sending_con c k a q s -> sender_ok k -> window_ok k q -> buf <> [] ->
  Z.of_nat (length buf) <= MINIP_MSS * con_window k ->
  exists s' k' q', pepdna_minip_conn_snd_data c buf (Z.of_nat (length buf)) s
      = Ret (Z.of_nat (length buf)) s' /\ sending_con c k' a q' s' /\ window_ok k' q'.
Proof.
  intros Hc Hk Hw Hne Hb. assert (Z.of_nat (length buf) < 2 ^ 31).
  { destruct Hk as (_ & _ & Hu). unfold is_u8, MINIP_MSS in *. lia. }
  destruct (snd_data_run c k a q buf s Hc Hk Hne) as (s' & Hrun & fs & evs & [Hl _] & _ & _ & Hc' & _);
    [done|]. eexists s', _, _. split; [done|]. split; [exact Hc'|].
  apply send_window_ok; [done | done | by rewrite length_fmap].
Qed.

(** C23: the bookkeeping of a good ACK keeps window plus queue length within 17, so
    the 8-bit window does not wrap around, and is exactly this: it removes the
    acknowledged frames from the queue, sets last_acked to the ACK minus one,
    ends a recovery, credits the window with the removed frames and adapts it;
    what follows is only the callback of the left socket, called without a test
    for a missing socket. *)
Theorem good_ack_keeps_bound c k a q ack s :
  sending_con c k a q s -> window_ok k q ->
  window_ok (ack_con ack q k) (ack_queue ack q) /\
  exists s1, acked_state c a ack k q s s1 /\
    recv_good_ack c ack s =
      match con_lsock k with
      | Some l => (do! sk_data_ready_call l; ret 0) s1
      | None => Fault NullDeref s1
      end.
Proof. intros Hc Hw. split; [by apply ack_window_ok | by apply good_ack_run]. Qed.

End Claims.

(** C34: while every measured round trip is at most B milliseconds (and 8 B fits
    32 bits), the smoothed round trip time stays within B, its deviation within
    4 B (in the scaled representation of the code), and the retransmission timeout
    within 5 B: no wrap-around of the unsigned fields. *)
Theorem rto_bounded B k m :
  8 * B < 2 ^ 32 -> 0 <= m <= B -> rto_ok B k ->
  rto_ok B (minip_update_rto k m) /\ 0 <= con_rto (minip_update_rto k m) <= 5 * B.
Proof. apply update_rto_bounds. Qed.

(** The first sample sets the timeout to three times the round trip, and
    further samples of the same value leave the smoothed time alone and let the
    deviation decay by a quarter each. *)
Theorem rto_first_and_steady k m :
  con_srtt k = 0 -> 0 < 8 * m < 2 ^ 32 ->
  con_rto (minip_update_rto k m) = 3 * m /\
  con_srtt (minip_update_rto (minip_update_rto k m) m) = 8 * m /\
  con_rttvar (minip_update_rto (minip_update_rto k m) m) = 2 * m - 2 * m / 4.
Proof.
  intros H0 Hm. destruct (update_rto_first k m H0) as (H1 & H2 & H3); [lia|].
  split; [done|]. destruct (update_rto_steady (minip_update_rto k m) m) as [H4 H5];
    [done | done | lia |]. split; [done|]. by rewrite H5, H2.
Qed.

(** ** Witnesses *)

#[global] Instance sample_tx f : TxLaw (sample f).
Proof. split; intros; cbn; eauto; lia. Qed.

Abbreviation SND := (sample (minip_build TCP2MINIP)).
Abbreviation RCV := (sample (minip_build MINIP2TCP)).

Definition con_of {f} (s : @st (sample f)) (c : positive) : con :=
  default zero_con (st_cons s !! c).

(** Two segments. *)
Definition buf2 : list Z := replicate 1481 7 ++ [1; 2; 3].

Lemma minip_sender_sending :
  @sending_con SND 6 (con_of (minip_sender []) 6) 7 (mkQueue 0 []) (minip_sender []).
Proof.
  split; [eexists; vm_compute; reflexivity|]. split_and!; vm_compute; reflexivity.
Qed.

Lemma minip_sender_ok : sender_ok (con_of (minip_sender []) 6).
Proof. by split_and!; vm_compute; split. Qed.

Lemma snd_data_sends_witness :
  exists s', @pepdna_minip_conn_snd_data SND 6 buf2 (Z.of_nat (length buf2)) (minip_sender [])
      = Ret (Z.of_nat (length buf2)) s' /\
    snd_post 6 (con_of (minip_sender []) 6) 7 (mkQueue 0 []) (segment buf2) (minip_sender []) s'.
Proof.
  destruct (@snd_data_sends SND _ 6 (con_of (minip_sender []) 6) 7 (mkQueue 0 []) buf2
    (minip_sender [])) as [H _].
  - apply minip_sender_sending.
  - apply minip_sender_ok.
  - discriminate.
  - vm_compute. reflexivity.
  - exact H.
Defined.

(** The frames of [buf2], the second one first, and each of them twice. *)
Definition sent2 : outcome (@st SND) Z :=
  @pepdna_minip_conn_snd_data SND 6 buf2 (Z.of_nat (length buf2)) (minip_sender []).
Definition frames2 : list frame :=
  wire (drop (length (st_trace (minip_sender []))) (st_trace (state_of (minip_sender []) sent2))).
Definition arrivals2 : list frame := reverse frames2 ++ frames2.

Lemma grew_drop {f} (s s' : @st (sample f)) evs :
  grew s s' evs -> drop (length (st_trace s)) (st_trace s') = evs.
Proof. intros ->. apply drop_app_length. Qed.

Lemma channel_dup fs : channel fs (reverse fs ++ fs).
Proof.
  apply Forall_forall. intros f Hf. exists f. split; [|done].
  apply elem_of_app in Hf as [Hf|Hf]; [|exact Hf]. by rewrite elem_of_reverse in Hf.
Qed.

Lemma end_to_end_witness :
  exists evsB, grew (minip_receiver [])
      (state_of (minip_receiver []) (@rx_frames RCV 1000 6 arrivals2 (minip_receiver []))) evsB /\
    stream_out 8%positive evsB = buf2.
Proof.
  destruct (@end_to_end SND RCV _ _ 6 (con_of (minip_sender []) 6) 7 (mkQueue 0 []) buf2
    (minip_sender [])) as (s' & evs & Hrun & Hg & H).
  - apply minip_sender_sending.
  - apply minip_sender_ok.
  - discriminate.
  - vm_compute. reflexivity.
  - vm_compute. reflexivity.
  - assert (wire evs = frames2) as Hw.
    { unfold frames2, sent2. rewrite Hrun. cbn [state_of]. by rewrite (grew_drop _ _ _ Hg). }
    destruct (H arrivals2 1000%nat 6%positive (con_of (minip_receiver []) 6) 8%positive
      (minip_receiver []) (state_of (minip_receiver []) (@rx_frames RCV 1000 6 arrivals2 (minip_receiver []))))
      as (evsB & kB' & HgB & HkB & _ & Hall).
    + rewrite Hw. exact (channel_dup frames2).
    + vm_compute. reflexivity.
    + vm_compute. reflexivity.
    + vm_compute. reflexivity.
    + vm_compute. reflexivity.
    + exists evsB. split; [exact HgB|]. apply Hall. revert HkB. vm_compute.
      intros [= <-]. reflexivity.
Defined.

(** The first data frame of a connection. *)
Definition data10 : frame :=
  mkFrame (mkHdr (pkt_val MINIP_CONN_DATA) 4 (htonl syn1_id) (htonl 10) 0 5) [1; 2; 3; 4].

Definition rx1 : outcome (@st RCV) Z := @pepdna_con_minip2i_fwd RCV 20 6 data10 (minip_receiver []).

Lemma receiver_step_witness :
  exists k' evs, grew (minip_receiver []) (state_of (minip_receiver []) rx1) evs /\
    rx_step 8 data10 (con_of (minip_receiver []) 6) k' evs 4.
Proof.
  destruct (@receiver_step RCV _ 20 6 8 data10 (con_of (minip_receiver []) 6) (minip_receiver []) 4
    (state_of (minip_receiver []) rx1)) as (k' & evs & _ & _ & Hg & Hs & _).
  - vm_compute. by repeat split.
  - vm_compute. reflexivity.
  - vm_compute. reflexivity.
  - vm_compute. reflexivity.
  - exists k', evs. split; [exact Hg | exact Hs].
Defined.

(** A sender with three small frames in its queue. *)
Definition small_sender : @st SND :=
  let s := minip_sender [] in
  let send b s := state_of s (@pepdna_minip_conn_snd_data SND 6 b (Z.of_nat (length b)) s) in
  send [3; 3] (send [2; 2] (send [1; 1] s)).

Definition small_queue : rtxqueue :=
  match st_rtxqs small_sender !! 7%positive with
  | Some (mkRtxq (Some q)) => q
  | _ => mkQueue 0 []
  end.

Lemma rtxq_ack_exact_witness :
  exists s', @rtxq_ack SND (Some 7%positive) 12 small_sender = Ret 2 s' /\
    same_but_rtxq small_sender s'.
Proof.
  destruct (@rtxq_ack_exact SND 7 small_queue 10 12 small_sender) as (s' & cr & H & Hs & -> & _).
  - vm_compute. reflexivity.
  - vm_compute. reflexivity.
  - exists s'. split; [exact H | exact Hs].
Defined.

Lemma full_rtx_exact_witness :
  exists l' rc s' evs, @rtxq_full_rtx SND (Some 7%positive) 11 small_sender = Ret rc s' /\
    grew small_sender s' evs /\ rtx_result 11 (q_head small_queue) l' rc evs.
Proof.
  destruct (@full_rtx_exact SND 7 small_queue 11 small_sender)
    as (l' & rc & s' & evs & H1 & _ & _ & H2 & H3 & _).
  - vm_compute. reflexivity.
  - apply Forall_forall. intros e He. revert He. vm_compute. intros He.
    repeat (apply elem_of_cons in He as [->|He]; [by vm_compute; split|]).
    by apply elem_of_nil in He.
  - exists l', rc, s', evs. split; [exact H1|]. split; [exact H2 | exact H3].
Defined.

Lemma minip_sender_window : window_ok (con_of (minip_sender []) 6) (mkQueue 0 []).
Proof. split_and!; by vm_compute. Qed.

Lemma send_keeps_bound_witness :
  exists s' k' q', @pepdna_minip_conn_snd_data SND 6 buf2 (Z.of_nat (length buf2)) (minip_sender [])
      = Ret (Z.of_nat (length buf2)) s' /\ sending_con 6 k' 7 q' s' /\ window_ok k' q'.
Proof.
  apply (@send_keeps_bound SND _ 6 (con_of (minip_sender []) 6) 7 (mkQueue 0 []) buf2).
  - apply minip_sender_sending.
  - apply minip_sender_ok.
  - apply minip_sender_window.
  - discriminate.
  - vm_compute. discriminate.
Defined.

Lemma good_ack_keeps_bound_witness :
  window_ok (ack_con 12 small_queue (con_of small_sender 6)) (ack_queue 12 small_queue).
Proof.
  destruct (@good_ack_keeps_bound SND 6 (con_of small_sender 6) 7 small_queue 12 small_sender)
    as [H _].
  - split; [eexists; vm_compute; reflexivity|]. split_and!; vm_compute; reflexivity.
  - split_and!; by vm_compute.
  - exact H.
Defined.

Lemma rto_bounded_witness :
  0 <= con_rto (minip_update_rto (minip_update_rto zero_con 40) 90) <= 5 * 100.
Proof.
  destruct (rto_bounded 100 (minip_update_rto zero_con 40) 90) as [_ H];
    [lia | lia | by vm_compute; repeat split | exact H].
Defined.

Lemma rto_first_and_steady_witness : con_rto (minip_update_rto zero_con 40) = 120.
Proof.
  destruct (rto_first_and_steady zero_con 40) as [H _]; [reflexivity | lia | exact H].
Defined.
