(* ===== verification/Delivery.v ===== *)
(** Completeness of MINIP delivery: when the application behind the receiver's socket
    goes on reading, so that the socket is full only for a while, and the network
    device is there, the receiver handles every frame, and once the arrivals contain
    all frames in turn, among whatever duplicates and reorderings, the whole buffer
    has been delivered. *)

From Stdlib Require Import ZArith Lia.
From stdpp Require Import base list gmap.
From S2P Require Import Prelude Ints Types Setters Kernel Hash TcpUtils Rtxq Connection Tcp.
From S2P Require Import Minip Sample SampleRun Frame Relay RtxqProps Sender Receiver MinipClaims.
Open Scope Z_scope.

(** The application behind a socket goes on reading.  [busy a e] bounds how often the
    socket [a] may still answer that it is full: each such answer, to a send or to the
    question whether there is room, lowers it, and waiting does not raise it.  A send
    takes at least a byte or is told to try again.  No bound on what is accepted at
    once, and a socket that accepted bytes may be full again, up to [patience] times. *)
Class DrainLaw (P : Platform) : Type := {
  busy : positive -> E -> nat;
  patience : nat;
  busy_le a e : (busy a e <= patience)%nat;
  drain_send a b e : b <> [] ->
    0 < fst (kcall (KernelSendmsg a b) e) \/
    fst (kcall (KernelSendmsg a b) e) = - EAGAIN /\
      (busy a (snd (kcall (KernelSendmsg a b) e)) < busy a e)%nat;
  drain_poll a e :
    fst (kcall (SkStreamIsWriteable a) e) = true /\
      (busy a (snd (kcall (SkStreamIsWriteable a) e)) <= busy a e)%nat \/
    (busy a (snd (kcall (SkStreamIsWriteable a) e)) < busy a e)%nat;
  drain_wait a e : (busy a (snd (kcall (WaitEventTimeout a) e)) <= busy a e)%nat;
  drain_clear a e : (busy a (snd (kcall (ClearNospace a) e)) <= busy a e)%nat
}.
Arguments patience P {_}.

(** The network device of the module exists. *)
Class DevLaw (P : Platform) : Prop :=
  dev_there : forall e, is_Some (fst (kcall DevGetByName e)).

Section Delivery.
Context `{P : Platform, !SendmsgLaw P, !DrainLaw P, !DevLaw P}.

(** ** Writing to a socket that may be full *)

(** The socket is alive and its user data is a connection that is alive. *)
Definition owned_sock (a : positive) (s : st) : Prop :=
  exists k d, st_socks s !! a = Some k /\ sk_user_data k = UD_con d /\ is_Some (st_cons s !! d).

Lemma owned_sock_env a s s' :
  st_socks s' = st_socks s -> st_cons s' = st_cons s -> owned_sock a s -> owned_sock a s'.
Proof. unfold owned_sock. by intros -> ->. Qed.

(** A call of the kernel changes only the environment and the trace. *)
Lemma call_env {R} (c : kE R) s :
  exists s', call c s = Ret (fst (kcall c (st_env s))) s' /\
    st_env s' = snd (kcall c (st_env s)) /\ st_socks s' = st_socks s /\ st_cons s' = st_cons s.
Proof.
  destruct (kcall c (st_env s)) as [r e] eqn:Hk. rewrite (call_run _ _ _ _ Hk). by eexists.
Qed.

Definition waiting (a : positive) (_ : unit) (s : st) : nat := busy a (st_env s).

Lemma poll_run a s :
  exists w s', pepdna_sock_writeable a s = Ret w s' /\ st_socks s' = st_socks s /\
    st_cons s' = st_cons s /\ (busy a (st_env s') <= busy a (st_env s))%nat /\
    (w = false -> (busy a (st_env s') < busy a (st_env s))%nat).
Proof.
  unfold pepdna_sock_writeable, bind, ret.
  destruct (call_env (SkStreamIsWriteable a) s) as (s1 & -> & He1 & Hs1 & Hc1).
  pose proof (drain_poll a (st_env s)) as Hp. rewrite <- He1 in Hp.
  destruct (fst (kcall _ _)); cycle 1.
  { exists false, s1. destruct Hp as [[? _]|Hp]; [done|]. split_and!; [done..|lia|done]. }
  destruct (call_env (ClearNospace a) s1) as (s2 & -> & He2 & Hs2 & Hc2).
  pose proof (drain_clear a (st_env s1)) as Hq. rewrite <- He2 in Hq.
  exists true, s2. split_and!; [done|congruence|congruence|lia|done].
Qed.

(** One round of pepdna_wait_to_send, on a socket with the contents [k]. *)
Definition wait_round (a : positive) (k : sock) (_ : unit) : KM (unit + unit) :=
  do! call (WaitEventTimeout a);
  do c <- user_con (sk_user_data k);
  do v <- get_con c;
  if negb (truth (con_rflag v)) then ret (inr tt)
  else do w <- pepdna_sock_writeable a; ret (if w then inr tt else inl tt).

(** What stays: the contents of the socket, its connection, and at most [n] refusals. *)
Definition wait_state (a : positive) (k : sock) (d : positive) (n : nat) (s : st) : Prop :=
  st_socks s !! a = Some k /\ is_Some (st_cons s !! d) /\ (busy a (st_env s) <= n)%nat.

Lemma wait_round_total a k d b i n :
  sk_user_data k = UD_con d ->
  total (fun s => wait_state a k d b s /\ waiting a i s = n) (wait_round a k i)
    (fun r s => match r with
       | inl i' => wait_state a k d b s /\ (waiting a i' s < n)%nat
       | inr _ => wait_state a k d b s
       end).
Proof.
  intros Hd s [(Hk & [v Hv] & Hb) Hn]. unfold waiting, wait_state in *.
  unfold wait_round, bind at 1.
  destruct (call_env (WaitEventTimeout a) s) as (s1 & -> & He1 & Hs1 & Hc1).
  pose proof (drain_wait a (st_env s)) as Hw. rewrite <- He1 in Hw.
  rewrite Hd. unfold user_con, bind, ret, get_con. rewrite Hc1, Hv.
  destruct (truth (con_rflag v)); cbn [negb]; cycle 1.
  { rewrite Hs1, Hc1. split_and!; eauto; lia. }
  destruct (poll_run a s1) as (w & s2 & -> & Hs2 & Hc2 & Hb2 & Hlt).
  destruct w; rewrite Hs2, Hc2, Hs1, Hc1; [split_and!; eauto; lia|].
  specialize (Hlt eq_refl). split_and!; eauto; lia.
Qed.

Lemma wait_to_send_total fuel a s :
  owned_sock a s -> (busy a (st_env s) < fuel)%nat ->
  exists s', pepdna_wait_to_send fuel a s = Ret tt s' /\ owned_sock a s' /\
    (busy a (st_env s') <= busy a (st_env s))%nat.
Proof.
  intros (k & d & Hk & Hd & Hlive) Hf. unfold pepdna_wait_to_send, bind at 1, get_sock.
  rewrite Hk. fold (wait_round a k).
  pose proof (total_iter (fun _ => wait_state a k d (busy a (st_env s))) (waiting a)
    (wait_round a k) (fun _ => wait_state a k d (busy a (st_env s)))
    (fun i n => wait_round_total a k d _ i n Hd) fuel tt s) as H.
  destruct (iter fuel _ tt s) as [[] s'| |]; [|exfalso; apply H; by split_and!..].
  destruct H as (H1 & H2 & H3); [by split_and!|]. exists s'. split_and!; [done|by exists k, d|done].
Qed.

(** What holds between the rounds of pepdna_sock_write. *)
Definition write_state (a : positive) (buf : list Z) (l : write_loop) (s : st) : Prop :=
  owned_sock a s /\ 0 <= wl_left l /\ 0 <= wl_sent l /\
  wl_left l + wl_sent l = Z.of_nat (length buf) /\ Z.of_nat (length buf) < 2 ^ 31.

(** The rounds left: [patience] refusals before each byte. *)
Definition write_rounds (a : positive) (l : write_loop) (s : st) : nat :=
  Z.to_nat (wl_left l) * S (patience P) + busy a (st_env s).

Lemma write_round_all fuel a buf l n :
  (patience P < fuel)%nat ->
  total (fun s => write_state a buf l s /\ write_rounds a l s = n)
    (sock_write_body fuel (Some a) buf l)
    (fun r s => match r with
       | inl l' => write_state a buf l' s /\ (write_rounds a l' s < n)%nat
       | inr r => 0 <= r
       end).
Proof.
  intros Hfu s [(Ho & Hl & Hs & Hsum & Hsz) Hn]. unfold sock_write_body.
  destruct (truth (wl_left l)) eqn:El; cbn [negb]; cycle 1.
  { cbn. rewrite s32_small; lia. }
  assert (0 < wl_left l) by (unfold truth in El; lia).
  unfold kernel_sendmsg, bind, deref, get_sock, ret. pose proof Ho as (k & d & Hk & _).
  rewrite Hk. set (b := take _ _).
  assert (0 < Z.of_nat (length b) <= wl_left l) as Hb.
  { unfold b. rewrite length_take, length_drop. lia. }
  pose proof (sendmsg_le a b (st_env s)) as Hle.
  assert (b <> []) as Hne by (intros ->; cbn in Hb; lia).
  pose proof (drain_send a b (st_env s) Hne) as Hp.
  destruct (call_env (KernelSendmsg a b) s) as (s1 & -> & He1 & Hs1 & Hc1). rewrite <- He1 in Hp.
  pose proof (owned_sock_env a s s1 Hs1 Hc1 Ho) as Ho1. pose proof (busy_le a (st_env s1)) as Hb1.
  set (rc := fst _) in *. unfold write_rounds in *. destruct Hp as [Hp|[Hp Hbusy]].
  - destruct (rc =? 0) eqn:E0; [lia|]. destruct (0 <? rc) eqn:E1; [|lia].
    unfold write_state. cbn. rewrite !u64_small by lia. split_and!; try done; nia.
  - rewrite Hp. change (- EAGAIN =? 0) with false. change (0 <? - EAGAIN) with false.
    change (- EAGAIN =? - EAGAIN) with true. cbv iota.
    destruct (wait_to_send_total fuel a s1 Ho1) as (s2 & -> & Ho2 & Hb2); [lia|].
    unfold write_state. split_and!; try done; lia.
Qed.

(** Fuel for a buffer: a round for each byte and each refusal. *)
Definition write_fuel (len : nat) : nat := S len * S (patience P).

Lemma sock_write_all fuel a buf s :
  owned_sock a s -> Z.of_nat (length buf) < 2 ^ 31 -> (write_fuel (length buf) <= fuel)%nat ->
  exists s', pepdna_sock_write fuel (Some a) buf (Z.of_nat (length buf)) s
    = Ret (Z.of_nat (length buf)) s'.
Proof.
  intros Ha Hsz Hf. unfold write_fuel in Hf.
  pose proof (busy_le a (st_env s)) as Hb.
  pose proof (total_iter (write_state a buf) (write_rounds a)
    (sock_write_body fuel (Some a) buf) (fun r _ => 0 <= r)
    (fun l n => write_round_all fuel a buf l n ltac:(nia))
    fuel (mkWL (Z.of_nat (length buf)) 0 0) s) as H.
  destruct (pepdna_sock_write fuel (Some a) buf (Z.of_nat (length buf)) s) as [r s'|f s'|] eqn:Er;
    unfold pepdna_sock_write in Er; rewrite Er in H.
  2,3: exfalso; apply H; unfold write_state, write_rounds; cbn; rewrite ?Nat2Z.id;
    split_and!; try done; nia.
  exists s'. destruct (sock_write_relays s fuel a buf r s' Hsz Er)
    as (evs & _ & _ & _ & [[-> _]|[Hr _]]); [done|]. exfalso. assert (0 <= r); [|lia].
  apply H. unfold write_state, write_rounds. cbn. rewrite ?Nat2Z.id. split_and!; try done; nia.
Qed.

(** ** One frame *)

Lemma send_ack_total id ack mac ts s :
  exists rc s', pepdna_minip_send_ack id ack mac ts s = Ret rc s'.
Proof.
  unfold pepdna_minip_send_ack, minip_xmit, bind, ret.
  call_law (fun d : option net_device => is_Some d) dev_there. destruct HQ as [dev ->].
  cbn [deref]. unfold ret. call_out. destruct r; [|eauto]. call_out.
  destruct (r <? 0); call_out; eauto.
Qed.

(** A connection whose left socket is alive and owned by a live connection, on a node
    with a server. *)
Definition rx_ready (c l : positive) (k : con) (s : st) : Prop :=
  st_cons s !! c = Some k /\ con_lsock k = Some l /\ owned_sock l s /\
  exists v, st_srv s = SrvLive v.

Lemma deliver_total fuel c l f k s :
  frame_ok f -> rx_ready c l k s -> (write_fuel (Z.to_nat (h_sdu_len (f_hdr f))) <= fuel)%nat ->
  exists r s', minip2i_deliver fuel c f k s = Ret r s' /\ r <> - 1 /\ owned_sock l s'.
Proof.
  intros [Hlen Hle] (Hk & Hl & Ha & _) Hfu. unfold minip2i_deliver.
  destruct (_ =? _); [|by eexists _, _]. destruct (_ <? _) eqn:E; [lia|].
  fold (payload f). pose proof (payload_len f (conj Hlen Hle)) as Hp.
  rewrite <- Hp, Nat2Z.id in Hfu. rewrite Hl, <- Hp.
  destruct (sock_write_all fuel l (payload f) s Ha) as (s1 & H1); [lia..|].
  rewrite (bind_Ret _ _ _ _ _ H1). destruct (_ <? 0) eqn:E2; [lia|].
  pose proof (pres_run _ _ _ _ _ (sock_write_keeps st_cons fuel _ _ _) H1) as Hc.
  pose proof (pres_run _ _ _ _ _ (sock_write_keeps st_socks fuel _ _ _) H1) as Hs.
  unfold keeps in Hc, Hs.
  rewrite (bind_Ret _ _ _ _ _ (upd_con_run c _ s1 k ltac:(by rewrite Hc))). unfold ret.
  eexists _, _. split; [reflexivity|]. split; [lia|].
  destruct Ha as (k0 & d & Hk0 & Hd & Hlive). exists k0, d. cbn. rewrite Hs, Hc.
  split_and!; [done..|]. destruct (decide (d = c)) as [->|Hne].
  - by rewrite lookup_insert_eq.
  - by rewrite lookup_insert_ne.
Qed.

Lemma minip2i_total fuel c l f k s :
  frame_ok f -> rx_ready c l k s -> (write_fuel (Z.to_nat (h_sdu_len (f_hdr f))) <= fuel)%nat ->
  exists r s' k' evs, pepdna_con_minip2i_fwd fuel c f s = Ret r s' /\ r <> - 1 /\
    rx_ready c l k' s' /\ rx_step l f k k' evs r.
Proof.
  intros Hf Hr Hfu. destruct (deliver_total fuel c l f k s Hf Hr Hfu) as (r & s1 & H1 & Hne & Hs1).
  destruct Hr as (Hk & Hl & Ha & v & Hv).
  destruct (minip2i_deliver_run _ _ _ _ _ _ _ _ Hf Hk Hl H1) as (k1 & ev1 & Hc1 & Hv1 & _).
  assert (st_cons s1 !! c = Some k1) as Hk1 by by rewrite Hc1, lookup_insert_eq.
  destruct (send_ack_total (con_id k1) (con_next_recv k1) (srv_to_mac v) (h_ts (f_hdr f)) s1)
    as (rc & s2 & H2).
  assert (pepdna_con_minip2i_fwd fuel c f s = Ret r s2) as Hrun.
  { rewrite minip2i_eq, (bind_Ret _ _ _ _ _ (get_con_run _ _ _ Hk)), (bind_Ret _ _ _ _ _ H1).
    rewrite (bind_Ret _ _ _ _ _ (get_con_run _ _ _ Hk1)).
    rewrite (bind_Ret _ _ _ _ _ (get_srv_run s1 v ltac:(by rewrite Hv1))).
    by rewrite (bind_Ret _ _ _ _ _ H2). }
  destruct (minip2i_run _ _ _ _ _ _ _ _ Hf Hk Hl Hrun) as (k' & evs & Hc' & Hv' & _ & Hst & _).
  apply send_ack_run in H2 as ([(Hc2 & _ & Hs2 & _) _] & _).
  exists r, s2, k', evs. split; [exact Hrun|]. split; [exact Hne|]. split; [|exact Hst].
  unfold rx_ready. split_and!.
  - by rewrite Hc', lookup_insert_eq.
  - by inversion Hst; subst k'.
  - exact (owned_sock_env l s1 s2 Hs2 Hc2 Hs1).
  - exists v. by rewrite Hv'.
Qed.

(** ** All frames *)

(** The frames [gs] carry the numbers from [n0 + j] up to [n0 + n], one each. *)
Definition in_turn (n0 : Z) (j n : nat) (gs : list frame) : Prop :=
  skb_seq_get <$> gs = (fun i => n0 + Z.of_nat i) <$> seq j (n - j).

Lemma in_turn_cons n0 j n g gs :
  in_turn n0 j n (g :: gs) ->
  (j < n)%nat /\ skb_seq_get g = n0 + Z.of_nat j /\ in_turn n0 (S j) n gs.
Proof.
  unfold in_turn. destruct (n - j)%nat as [|d] eqn:E; [done|]. cbn. intros [= H1 H2].
  split; [lia|]. split; [done|]. by replace (n - S j)%nat with d by lia.
Qed.

Lemma in_turn_nil n0 j n : in_turn n0 j n [] -> (n <= j)%nat.
Proof. unfold in_turn. destruct (n - j)%nat eqn:E; [lia | done]. Qed.

(** What the rest of the frames has to contain after one more of them. *)
Lemma in_turn_step n0 j n gs f fs m :
  in_turn n0 j n gs -> gs `sublist_of` f :: fs -> (j <= m)%nat ->
  exists j' gs', in_turn n0 j' n gs' /\ gs' `sublist_of` fs /\
    (skb_seq_get f = n0 + Z.of_nat m -> (j' <= S m)%nat) /\
    (skb_seq_get f <> n0 + Z.of_nat m -> (j' <= m)%nat).
Proof.
  intros Ht Hsub Hj. apply sublist_cons_r in Hsub as [Hsub|(gs' & -> & Hsub)].
  - exists j, gs. split_and!; [done | done | lia | lia].
  - apply in_turn_cons in Ht as (_ & Hg & Ht). exists (S j), gs'. split_and!; [done..|lia|].
    intros Hne. destruct (decide (j = m)) as [->|]; [done | lia].
Qed.

Lemma rx_frames_all fuel c l n0 segs fs :
  Forall (genuine n0 segs) fs -> Forall (fun f => write_fuel (Z.to_nat (h_sdu_len (f_hdr f))) <= fuel)%nat fs ->
  0 <= n0 -> n0 + Z.of_nat (length segs) < 2 ^ 32 ->
  forall gs j m k s, (m <= length segs)%nat -> rx_ready c l k s ->
  con_next_recv k = n0 + Z.of_nat m -> in_turn n0 j (length segs) gs ->
  gs `sublist_of` fs -> (j <= m)%nat ->
  exists s' k', rx_frames fuel c fs s = Ret tt s' /\ st_cons s' !! c = Some k' /\
    con_next_recv k' = n0 + Z.of_nat (length segs).
Proof.
  intros Hfs Hfu Hn0 Hmax. induction Hfs as [|f fs [Hok (i & b & Hi & Hseq & _)] _ IH];
    intros gs j m k s Hm Hr Hnr Ht Hsub Hj.
  { apply sublist_nil_r in Hsub as ->. apply in_turn_nil in Ht. destruct Hr as [Hk _].
    exists s, k. split_and!; [done | done |]. rewrite Hnr. lia. }
  apply Forall_cons in Hfu as [Hf1 Hfu]. specialize (IH Hfu).
  destruct (minip2i_total fuel c l f k s Hok Hr Hf1) as (r & s1 & k1 & evs & H1 & Hne & Hr1 & Hst).
  destruct (in_turn_step _ _ _ _ _ _ _ Ht Hsub Hj) as (j' & gs' & Ht' & Hsub' & Hin & Hout).
  cbn [rx_frames]. rewrite (bind_Ret _ _ _ _ _ H1). destruct (r =? - 1) eqn:E; [lia|].
  destruct Hst as [Hs _ ->|n _ _ _|Hs _ ->]; [|done|].
  - assert (i = m) as -> by lia. pose proof (lookup_lt_Some _ _ _ Hi) as Hlt.
    apply (IH gs' j' (S m) _ s1) with (2 := Hr1); try done; [|apply Hin; lia].
    cbn. rewrite Hnr, u32_small; [lia|]. unfold is_u32. lia.
  - apply (IH gs' j' m _ s1) with (2 := Hr1); try done. apply Hout. lia.
Qed.

End Delivery.

(** The frames on the wire carry consecutive numbers, and so do copies of them. *)
Lemma copies_in_turn k segs fs gs :
  frames_for k segs fs -> is_u32 (con_next_seq k) ->
  con_next_seq k + Z.of_nat (length segs) < 2 ^ 32 ->
  Forall2 copy_of fs gs -> in_turn (con_next_seq k) 0 (length segs) gs.
Proof.
  intros [Hlen Hfs] Hk Hmax Hcp. unfold in_turn. rewrite Nat.sub_0_r.
  apply list_eq_same_length with (length segs).
  { by rewrite length_fmap, length_seq. }
  { by rewrite length_fmap, <- (Forall2_length _ _ _ Hcp). }
  intros i x y Hi Hx Hy. apply list_lookup_fmap_Some in Hx as (g & -> & Hg).
  apply list_lookup_fmap_Some in Hy as (i' & -> & Hy). apply lookup_seq in Hy as [-> _].
  destruct (Forall2_lookup_r _ _ _ _ _ Hcp Hg) as (f & Hf & (Hq & _)).
  destruct (Hfs i f Hf) as (b & _ & (_ & _ & _ & Hf4 & _)).
  rewrite Hq, Hf4. unfold is_u32 in Hk. rewrite u32_small; [done|]. unfold is_u32. lia.
Qed.

Lemma genuine_size n0 segs fs :
  Forall (fun b => 0 < Z.of_nat (length b) <= MINIP_MSS) segs -> Forall (genuine n0 segs) fs ->
  Forall (fun f => h_sdu_len (f_hdr f) <= MINIP_MSS) fs.
Proof.
  intros Hsz Hgen. eapply Forall_impl; [exact Hgen|]. intros f [Hok (i & b & Hb & _ & Hp)].
  rewrite <- (payload_len f Hok), Hp. by apply (Forall_lookup_1 _ _ _ _ Hsz Hb).
Qed.

(** C2: nothing is lost for good.  A node with a working transmit path sends a
    non-empty buffer, whose segments do not make the sequence number wrap around.
    Another node expects the sender's next number, has a server, a network device, and
    a live left socket that belongs to a live connection and whose application goes on
    reading: the socket may be full, but answers so at most [patience] times in a row,
    and takes at least a byte otherwise ([DrainLaw]).  Then it handles any arrivals made
    of copies of those frames without fault and in bounded time, waiting for room
    where the socket is full, and when the arrivals contain a copy of every frame in
    turn (what repeated retransmission of the unacknowledged frames brings about),
    among any duplicates and frames out of order, its left socket has accepted the
    whole buffer. *)
Theorem complete_delivery (PA PB : Platform)
    `{!@TxLaw PA, !@SendmsgLaw PB, !DrainLaw PB, !DevLaw PB}
    (c : positive) k a q buf (s : @st PA) :
  sending_con c k a q s -> sender_ok k -> buf <> [] -> Z.of_nat (length buf) < 2 ^ 31 ->
  con_next_seq k + Z.of_nat (length (segment buf)) < 2 ^ 32 ->
  exists (s' : @st PA) evs,
    pepdna_minip_conn_snd_data c buf (Z.of_nat (length buf)) s = Ret (Z.of_nat (length buf)) s' /\
    grew s s' evs /\
    forall fs gs fuel d kB l (t : @st PB),
      channel (wire evs) fs -> Forall2 copy_of (wire evs) gs -> gs `sublist_of` fs ->
      rx_ready d l kB t -> con_next_recv kB = con_next_seq k ->
      (write_fuel (P := PB) (Z.to_nat MINIP_MSS) <= fuel)%nat ->
      exists t' evsB, @rx_frames PB fuel d fs t = Ret tt t' /\ grew t t' evsB /\
        stream_out l evsB = buf.
Proof.
  intros Hc Hk Hne Hsz Hmax.
  destruct (snd_data_run c k a q buf s Hc Hk Hne Hsz)
    as (s' & Hrun & fs0 & evs & Hfr & Hg & Hw & _).
  exists s', evs. split; [done|]. split; [done|].
  intros fs gs fuel d kB l t Hch Hcp Hsub Hr Hnr Hfu. destruct Hk as (Hid & Hseq & _).
  rewrite Hw in Hch, Hcp. pose proof (segments_size (length buf) buf) as Hseg.
  pose proof (channel_genuine _ _ _ _ Hfr Hseg Hseq Hmax Hch) as Hgen.
  pose proof (genuine_size _ _ _ Hseg Hgen) as Hlen.
  assert (0 <= con_next_seq k) as Hpos by (unfold is_u32 in *; lia).
  destruct (rx_frames_all fuel d l (con_next_seq k) (segment buf) fs Hgen) with (gs := gs)
    (j := 0%nat) (m := 0%nat) (k := kB) (s := t) as (t' & kB' & Hrx & HkB' & Hn');
    [|done|done|lia|done|lia|by eapply copies_in_turn|done|lia|].
  { eapply Forall_impl; [exact Hlen|]. intros f. cbn beta. unfold write_fuel in *. nia. }
  destruct Hr as (HkB & Hl & _). exists t'.
  destruct (rx_frames_run fuel d l (con_next_seq k) (segment buf) fs Hgen Hpos Hmax 0 kB t t')
    as (evsB & m' & k2 & HgB & Hk2 & Hn & Hdel); [lia | done | done | lia | done |].
  exists evsB. split; [done|]. split; [done|]. rewrite HkB' in Hk2. injection Hk2 as <-.
  assert (m' = length (segment buf)) as -> by lia.
  apply delivered_all in Hdel. by rewrite segment_concat in Hdel.
Qed.

(** ** A receiver whose application is slow *)

(** The sample platform, but after a send took bytes the socket is full and says so
    twice before it has room again; the state counts the refusals left. *)
Definition slow_call (R : Type) (c : kE R) (e : nat) : R * nat :=
  match c in kE R return R * nat with
  | KernelSendmsg _ b =>
      match Nat.min e 2 with
      | O => (Z.min sample_sndbuf (Z.of_nat (length b)), 2%nat)
      | S e' => (- EAGAIN, e')
      end
  | SkStreamIsWriteable _ => match Nat.min e 2 with O => (true, O) | S e' => (false, e') end
  | c' => (fst (sample_call _ c' []), e)
  end.
Definition slow (f : config) : Platform := {|
  E := nat; kcall := slow_call; hash_min := sample_hash_min; cfg := f
|}.

(** A state of the sample platform, with the socket full. *)
Definition slowed f (s : @st (sample f)) : @st (slow f) :=
  @mkSt (slow f) 2%nat [] (st_srv s) (st_cons s) (st_socks s) (st_rtxqs s) (st_skbs s)
    (st_next s) (st_pending s) (st_nl_sock s) (st_nl_port_id s) (st_nl_mode s)
    (st_request_done s) (st_rmem s) (st_wmem s).

#[global] Instance slow_sendmsg f : SendmsgLaw (slow f).
Proof.
  intros a b e. cbn [kcall slow slow_call]. destruct (Nat.min e 2); cbn [fst];
    unfold sample_sndbuf, EAGAIN; lia.
Qed.

#[global] Instance slow_drain f : DrainLaw (slow f).
Proof.
  refine {| busy := fun _ (e : @E (slow f)) => Nat.min (e : nat) 2; patience := 2 |}; intros a;
    try (intros [|x b] e Hb; [done|]); try intros e; cbn [kcall slow slow_call fst snd]; try lia;
    destruct (Nat.min e 2) as [|e'] eqn:He; cbn [fst snd length]; unfold sample_sndbuf; lia.
Defined.

#[global] Instance slow_dev f : DevLaw (slow f).
Proof. intros e. cbn. eauto. Qed.

Abbreviation SLOW := (slow (minip_build MINIP2TCP)).
Definition slow_receiver : @st SLOW := slowed (minip_build MINIP2TCP) (minip_receiver []).

Lemma slow_receiver_ready : rx_ready 6 8 (con_of (minip_receiver []) 6) slow_receiver.
Proof.
  split_and!; [vm_compute; reflexivity..| |eexists; vm_compute; reflexivity].
  exists (default no_sock (st_socks slow_receiver !! 8%positive)), 6%positive.
  split_and!; [vm_compute; reflexivity..|eexists; vm_compute; reflexivity].
Qed.

(** The second frame first, then both in turn, then both again in reverse. *)
Lemma complete_delivery_witness :
  exists t' evsB,
    @rx_frames SLOW 5000 6 (arrivals2 ++ reverse frames2) slow_receiver = Ret tt t' /\
    grew slow_receiver t' evsB /\ stream_out 8%positive evsB = buf2.
Proof.
  destruct (@complete_delivery SND SLOW _ _ _ _ 6 (con_of (minip_sender []) 6) 7 (mkQueue 0 []) buf2
    (minip_sender [])) as (s' & evs & Hrun & Hg & H).
  - apply minip_sender_sending.
  - apply minip_sender_ok.
  - discriminate.
  - vm_compute. reflexivity.
  - vm_compute. reflexivity.
  - assert (wire evs = frames2) as Hw.
    { unfold frames2, sent2. rewrite Hrun. cbn [state_of]. by rewrite (grew_drop _ _ _ Hg). }
    rewrite Hw in H.
    apply (H (arrivals2 ++ reverse frames2) frames2 5000%nat 6%positive (con_of (minip_receiver []) 6)).
    + apply Forall_app. split; [exact (channel_dup frames2)|].
      exact (proj1 (proj1 (Forall_app _ _ _) (channel_dup frames2))).
    + apply Forall_Forall2_diag, Forall_forall. intros f _. unfold copy_of. by split_and!.
    + unfold arrivals2. rewrite <- app_assoc. apply sublist_inserts_l, sublist_inserts_r. reflexivity.
    + apply slow_receiver_ready.
    + vm_compute. reflexivity.
    + apply Nat.leb_le. vm_compute. reflexivity.
Defined.
