(* ===== verification/Table.v ===== *)
(** The connection table: the well-formedness of the hash table, the reference
    counts and the connection counter, and what lookup, allocation and release
    do to it. *)

From Stdlib Require Import ZArith Lia.
From stdpp Require Import base list gmap.
From S2P Require Import Prelude Ints Types Setters Kernel Hash TcpUtils Rtxq Connection.
From S2P Require Import Frame.
Open Scope Z_scope.

(** ** Maintaining an invariant

    [maintains I m]: a run of [m] from a state in [I] that returns ends in [I].
    In contrast to [preserves (stable I)] it says nothing of a run that stops in
    a fault, so [I] may be broken for a moment inside [m]. *)

Section Maintains.
Context `{P : Platform}.

Definition maintains {A} (I : st -> Prop) (m : KM A) : Prop := hoare I m (fun _ => I).

Lemma maintains_ret {A} I (a : A) : maintains I (ret a).
Proof. by apply hoare_ret. Qed.

Lemma maintains_throw {A} I f : maintains I (@throw st A f).
Proof. by intros s _. Qed.

Lemma maintains_bind {A B} I (m : KM A) (k : A -> KM B) :
  maintains I m -> (forall a, maintains I (k a)) -> maintains I (bind m k).
Proof. intros. by eapply hoare_bind. Qed.

(** The first part of a sequence maintains what the rest starts from. *)
Lemma maintains_then {A B} I (m : KM A) (k : A -> KM B) Q :
  maintains I m -> (forall a, hoare I (k a) Q) -> hoare I (bind m k) Q.
Proof. intros. by eapply hoare_bind. Qed.

Lemma maintains_iter {X R} I fuel (body : X -> KM (X + R)) x :
  (forall x, maintains I (body x)) -> maintains I (iter fuel body x).
Proof.
  intros Hb. unfold maintains. eapply (hoare_iter (fun _ => I)).
  intros i. eapply hoare_conseq; [apply Hb | done |]. by intros [] s.
Qed.

Lemma maintains_preserves {A} I (m : KM A) : preserves (stable I) m -> maintains I m.
Proof. intros H s HI. specialize (H s). destruct (m s); auto. Qed.

Lemma maintains_modify I f : (forall s, I s -> I (f s)) -> maintains I (modify f).
Proof. intros H s HI. by apply H. Qed.

Lemma maintains_call I `{!EnvFree I} {R} (c : kE R) : maintains I (call c).
Proof. by apply maintains_preserves, stable_call. Qed.

End Maintains.

Create HintDb maint discriminated.
#[export] Hint Resolve maintains_call : maint.

(** The walk over a program text for [maintains]. *)
Ltac maint_step :=
  match goal with
  | |- maintains _ (bind _ _) => apply maintains_bind; [ | intros ?]
  | |- maintains _ (iter _ _ _) => apply maintains_iter; intros ?
  | |- maintains _ (when ?b _) => unfold when
  | |- maintains _ (ret _) => apply maintains_ret
  | |- maintains _ (throw _) => apply maintains_throw
  | |- maintains _ (match ?x with _ => _ end) => destruct x
  | |- maintains _ (get_con _) => apply maintains_preserves, pres_get_con; apply _
  | |- maintains _ get_srv => apply maintains_preserves, pres_get_srv; apply _
  | |- maintains _ (get_sock _) => apply maintains_preserves, pres_get_sock; apply _
  | |- maintains _ (get_rtxq _) => apply maintains_preserves, pres_get_rtxq; apply _
  | |- maintains _ (get_skb _) => apply maintains_preserves, pres_get_skb; apply _
  | |- maintains _ (deref _) => apply maintains_preserves, pres_deref; apply _
  | |- maintains _ (gets _) => apply maintains_preserves, preserves_gets; apply _
  | |- maintains _ _ => solve [auto with maint typeclass_instances]
  end.
Ltac maint := repeat maint_step.

Section Table.
Context `{P : Platform}.

(** ** Well-formedness

    [table_ok x d m v]: the table of server [v] has its nine buckets, lists each
    connection once, and only connections that are allocated in [m], in the
    bucket of their identifier and with a positive reference count (but for the
    connection [x], which is being released); [srv_conns] exceeds the number of
    connections in it by [d]. *)

Record table_ok (x : option positive) (d : Z) (m : gmap positive con) (v : server)
    : Prop := {
  tok_len : length (srv_htable v) = Z.to_nat PEPDNA_HASH_BITS;
  tok_nodup : NoDup (concat (srv_htable v));
  tok_entry : forall i b c, srv_htable v !! i = Some b -> c ∈ b ->
    exists k, m !! c = Some k /\ pepdna_hash (con_id k) = i /\
      (x = Some c \/ 0 < con_kref k);
  tok_conns : srv_conns v = Z.of_nat (length (concat (srv_htable v))) + d
}.

Definition wfg (x : option positive) (d : Z) (s : st) : Prop :=
  (forall c, is_Some (st_cons s !! c) -> (c < st_next s)%positive) /\
  (forall v, st_srv s = SrvLive v -> table_ok x d (st_cons s) v).

Definition wf : st -> Prop := wfg None 0.

#[global] Instance wfg_env x d : EnvFree (wfg x d) := fun _ _ _ => eq_refl.
#[global] Instance wf_env : EnvFree wf := fun _ _ _ => eq_refl.

(** ** Elements of a list of buckets *)

Lemma elem_of_concat_lookup (l : list (list positive)) c :
  c ∈ concat l <-> exists i b, l !! i = Some b /\ c ∈ b.
Proof.
  rewrite list_elem_of_In, in_concat. split.
  - intros (b & Hb & Hc). apply list_elem_of_In in Hb, Hc.
    apply list_elem_of_lookup in Hb as [i Hi]. eauto.
  - intros (i & b & Hi & Hc). exists b. split; apply list_elem_of_In; [|done].
    by eapply list_elem_of_lookup_2.
Qed.

Lemma concat_insert_cons (l : list (list positive)) i b c :
  l !! i = Some b -> concat (<[i := c :: b]> l) ≡ₚ c :: concat l.
Proof.
  revert i. induction l as [|b0 l IH]; intros [|i]; cbn; [done|done| |].
  - by intros [= ->].
  - intros Hi. rewrite (IH _ Hi). by rewrite Permutation_middle.
Qed.

Lemma concat_filter (Q : positive -> Prop) `{!forall x, Decision (Q x)}
    (l : list (list positive)) :
  concat (filter Q <$> l) = filter Q (concat l).
Proof. induction l as [|b l IH]; cbn; [done|]. by rewrite filter_app, <- IH. Qed.

Lemma length_filter_ne (l : list positive) c :
  NoDup l -> c ∈ l ->
  Z.of_nat (length (filter (fun d => d <> c) l)) = Z.of_nat (length l) - 1.
Proof.
  induction 1 as [|y l Hy Hnd IH]; [by intros ?%elem_of_nil|].
  intros [->|Hc]%elem_of_cons.
  - rewrite filter_cons_False by tauto. cbn [length].
    assert (filter (fun d => d <> y) l = l) as ->; [|lia].
    clear -Hy. induction l as [|z l IH]; [done|].
    rewrite not_elem_of_cons in Hy. destruct Hy as [? Hy].
    rewrite filter_cons_True by congruence. by rewrite IH.
  - rewrite filter_cons_True by (intros ->; done). cbn [length].
    specialize (IH Hc). lia.
Qed.

(** ** Updates that keep the table well-formed *)

Lemma table_ok_insert x d m v c k :
  table_ok x d m v ->
  (c ∈ concat (srv_htable v) -> forall k0, m !! c = Some k0 ->
     con_id k = con_id k0 /\ (x = Some c \/ 0 < con_kref k)) ->
  table_ok x d (<[c := k]> m) v.
Proof.
  intros [Hl Hn He Hc] Hk. split; [done|done| |done].
  intros i b c' Hi Hc'. destruct (He i b c' Hi Hc') as (k' & Hk' & Hh & Hr).
  destruct (decide (c = c')) as [<-|Hne].
  - destruct (Hk ltac:(apply elem_of_concat_lookup; eauto) k' Hk') as [Hid Hpos].
    exists k. rewrite lookup_insert_eq. split_and!; [done | by rewrite Hid | done].
  - exists k'. by rewrite lookup_insert_ne.
Qed.

Lemma wfg_upd_con x d c f :
  (forall k, con_id (f k) = con_id k) ->
  (forall k, 0 < con_kref k -> 0 < con_kref (f k)) ->
  maintains (wfg x d) (upd_con c f).
Proof.
  intros Hid Hkr. apply maintains_preserves, stable_upd_con.
  intros s k [Hf Hw] Hk. split.
  - intros c'. cbn. destruct (decide (c = c')) as [<-|Hne].
    + intros _. apply Hf. eauto.
    + rewrite lookup_insert_ne by done. apply Hf.
  - intros v Hv. apply table_ok_insert; [by apply Hw|].
    intros Hin k0 Hk0. cbn in Hv. destruct (Hw v Hv) as [_ _ He _].
    apply elem_of_concat_lookup in Hin as (i & b & Hi & Hb).
    destruct (He i b c Hi Hb) as (k1 & Hk1 & _ & Hr). simplify_eq.
    split; [done|]. destruct Hr; auto.
Qed.

Lemma wfg_upd_srv x d f :
  (forall v, srv_htable (f v) = srv_htable v) -> (forall v, srv_conns (f v) = srv_conns v) ->
  maintains (wfg x d) (upd_srv f).
Proof.
  intros Ht Hc. apply maintains_preserves, stable_upd_srv.
  intros s v [Hf Hw] Hv. split; [done|]. intros v' [= <-].
  destruct (Hw v Hv) as [H1 H2 H3 H4]. split; by rewrite ?Ht, ?Hc.
Qed.

(** A change outside the connections, the server and the allocator. *)
Lemma wfg_modify x d f :
  (forall s, st_cons (f s) = st_cons s) -> (forall s, st_srv (f s) = st_srv s) ->
  (forall s, st_next (f s) = st_next s) -> maintains (wfg x d) (modify f).
Proof.
  intros H1 H2 H3 s Hw. unfold wfg. cbn. by rewrite H1, H2, H3.
Qed.

Lemma wfg_fresh x d : maintains (wfg x d) fresh_addr.
Proof.
  intros s [Hf Hw]. cbn. split; [|done]. intros c Hc. cbn. apply Hf in Hc. cbn in *. lia.
Qed.

Lemma wfg_upd_sock x d a f : maintains (wfg x d) (upd_sock a f).
Proof. apply maintains_preserves, stable_upd_sock. by intros s m. Qed.

Lemma wfg_sock_release x d a : maintains (wfg x d) (sock_release a).
Proof. apply maintains_preserves, stable_sock_release; [apply _|]. by intros s m. Qed.

Lemma wfg_new_sock x d k : maintains (wfg x d) (new_sock k).
Proof. unfold new_sock. maint; [apply wfg_fresh | by apply wfg_modify]. Qed.

Lemma wfg_queue_work x d q w : maintains (wfg x d) (queue_work q w).
Proof. unfold queue_work. maint. by apply wfg_modify. Qed.

Lemma wfg_put_rtxq x d a q : maintains (wfg x d) (put_rtxq a q).
Proof. by apply wfg_modify. Qed.

Lemma wfg_kfree_rx_skb x d a : maintains (wfg x d) (kfree_rx_skb a).
Proof.
  intros s Hw. unfold kfree_rx_skb. destruct (st_skbs s !! a); [|done].
  revert s Hw. change (maintains (wfg x d)
    (do! call KfreeSkb; modify (fun s => set_st_skbs (delete a (st_skbs s)) s))).
  maint. by apply wfg_modify.
Qed.

End Table.

#[export] Hint Resolve wfg_fresh wfg_upd_sock wfg_sock_release wfg_new_sock
  wfg_queue_work wfg_put_rtxq wfg_kfree_rx_skb : maint.
#[export] Hint Extern 2 (maintains (wfg _ _) (upd_con _ _)) =>
  apply wfg_upd_con; [by intros [] | try (by intros []); intros ?; cbn; lia] : maint.
#[export] Hint Extern 2 (maintains (wfg _ _) (upd_srv _)) =>
  apply wfg_upd_srv; by intros [] : maint.
#[export] Hint Extern 2 (maintains (wfg _ _) (modify _)) =>
  apply wfg_modify; by intros [] : maint.
#[export] Hint Extern 1 (maintains wf _) => unfold wf : maint.
