(* ===== verification/TableOps.v ===== *)
(** Lookup, release and allocation on a well-formed connection table. *)

From Stdlib Require Import ZArith Lia.
From stdpp Require Import base list gmap.
From S2P Require Import Prelude Ints Types Setters Kernel Hash TcpUtils Rtxq Connection.
From S2P Require Import Frame Table.
Open Scope Z_scope.

Section TableOps.
Context `{P : Platform}.

(** ** Lookup *)

(** The connections listed in the table. *)
Definition listed (v : server) (c : positive) : Prop := c ∈ concat (srv_htable v).

(** The connections of the table with identifier [key]. *)
Definition has_id (s : st) (v : server) (key : Z) (c : positive) : Prop :=
  listed v c /\ exists k, st_cons s !! c = Some k /\ con_id k = key.

Lemma bucket_find_spec s key l :
  (forall c, c ∈ l -> is_Some (st_cons s !! c)) ->
  exists r, bucket_find l key s = Ret r s /\
    match r with
    | Some c => c ∈ l /\ exists k, st_cons s !! c = Some k /\ con_id k = key
    | None => forall c k, c ∈ l -> st_cons s !! c = Some k -> con_id k <> key
    end.
Proof.
  induction l as [|c l IH]; intros Hl; cbn.
  { exists None. split; [done|]. by intros c k ?%elem_of_nil. }
  destruct (Hl c) as [k Hk]; [by left|]. rewrite (bind_Ret _ _ _ k s) by by apply get_con_run.
  destruct (con_id k =? key) eqn:Eid.
  { exists (Some c). split; [done|]. split; [by left|]. exists k. split; [done | lia]. }
  destruct IH as (r & Hr & Hpost); [intros; apply Hl; by right|].
  exists r. split; [done|]. destruct r as [c'|].
  - destruct Hpost as [? ?]. split; [by right | done].
  - intros c' k' [->|Hc']%elem_of_cons Hk'; [simplify_eq; lia | by eapply Hpost].
Qed.

Lemma con_find_spec `{!HashMinLaw P} s v key :
  wf s -> st_srv s = SrvLive v ->
  exists r, pepdna_con_find key s = Ret r s /\
    match r with
    | Some c => has_id s v key c
    | None => forall c, ~ has_id s v key c
    end.
Proof.
  intros [_ Hw] Hv. specialize (Hw v Hv) as [Hlen Hnd He _].
  unfold pepdna_con_find. rewrite (bind_Ret _ _ _ v s) by by apply get_srv_run.
  assert (exists b, srv_htable v !! pepdna_hash key = Some b) as [b Hb].
  { apply lookup_lt_is_Some_2. rewrite Hlen.
    pose proof (hash_min_lt key HASH_BITS ltac:(done)) as Hlt. unfold pepdna_hash.
    change (2 ^ HASH_BITS) with 8 in Hlt. change (Z.to_nat PEPDNA_HASH_BITS) with 9%nat. lia. }
  rewrite Hb. destruct (bucket_find_spec s key b) as (r & Hr & Hpost).
  { intros c Hc. destruct (He _ _ _ Hb Hc) as (k & ? & _). eauto. }
  exists r. split; [done|]. destruct r as [c|].
  - destruct Hpost as [Hc Hk]. split; [|done]. apply elem_of_concat_lookup. eauto.
  - intros c [(i & b' & Hi & Hc)%elem_of_concat_lookup (k & Hk & Hid)].
    destruct (He i b' c Hi Hc) as (k' & Hk' & Hh & _). simplify_eq.
    by eapply Hpost.
Qed.

Lemma con_find_keeps key R `{!Reflexive R} : preserves R (pepdna_con_find key).
Proof.
  intros s. unfold pepdna_con_find, bind.
  destruct (get_srv s) as [v s1| |] eqn:E; unfold get_srv in E; destruct (st_srv s);
    simplify_eq; try exact (reflexivity _).
  destruct (srv_htable v !! pepdna_hash key) as [l|]; [|exact (reflexivity _)].
  induction l as [|c l IH]; cbn; [exact (reflexivity _)|].
  unfold bind, get_con. destruct (st_cons s1 !! c); [|exact (reflexivity _)].
  destruct (con_id _ =? key); [exact (reflexivity _) | exact IH].
Qed.

(** ** Release *)

Lemma wfg_hlist_del c :
  hoare (wfg (Some c) 0) (hlist_del c)
    (fun _ s => wfg None 1 s /\ forall v, st_srv s = SrvLive v -> ~ listed v c).
Proof.
  intros s [Hf Hw]. unfold hlist_del, bind, get_srv.
  destruct (st_srv s) as [|v|] eqn:Hv; try done.
  destruct (decide (c ∈ concat (srv_htable v))) as [Hin|]; [|done].
  rewrite (upd_srv_run _ _ _ Hv). specialize (Hw v eq_refl) as [H1 H2 H3 H4].
  assert (concat (filter (fun d => d <> c) <$> srv_htable v)
          = filter (fun d => d <> c) (concat (srv_htable v))) as Hcat by apply concat_filter.
  split; [split; [done|]|].
  - intros v' [= <-]. split; cbn.
    + by rewrite length_fmap.
    + rewrite Hcat. by apply NoDup_filter.
    + intros i b c' Hi Hc'. apply list_lookup_fmap_Some in Hi as (b0 & -> & Hi).
      apply list_elem_of_filter in Hc' as [Hne Hc'].
      destruct (H3 i b0 c' Hi Hc') as (k & ? & ? & [[= ->]|?]); [done|]. eauto.
    + rewrite Hcat, length_filter_ne by done. lia.
  - intros v' [= <-]. unfold listed. cbn. rewrite Hcat.
    intros [Hne _]%list_elem_of_filter. done.
Qed.

Lemma table_ok_delete x d m v c :
  ~ listed v c -> table_ok x d m v -> table_ok x d (delete c m) v.
Proof.
  intros Hn [H1 H2 H3 H4]. split; [done|done| |done].
  intros i b c' Hi Hc'. destruct (H3 i b c' Hi Hc') as (k & ? & ? & ?).
  exists k. rewrite lookup_delete_ne; [done|].
  intros ->. apply Hn, elem_of_concat_lookup. eauto.
Qed.

Lemma wfg_kref_release c :
  hoare (wfg (Some c) 0) (pepdna_con_kref_release c) (fun _ => wf).
Proof.
  unfold pepdna_con_kref_release.
  apply maintains_then; [unfold release_side; maint|intros _].
  apply maintains_then; [unfold release_side; maint|intros _].
  eapply hoare_bind; [apply wfg_hlist_del|intros ?; cbv beta].
  set (J := fun s => wfg None 1 s /\ forall v, st_srv s = SrvLive v -> ~ listed v c).
  assert (EnvFree J) by (intros ? ? ?; reflexivity).
  apply (maintains_then J); [apply (maintains_call J)|intros _].
  eapply (hoare_bind _ _ _ (fun _ => wfg None 1)).
  { intros s [[Hf Hw] Hn]. cbn. split.
    - intros c' [k Hk]. apply Hf. cbn in Hk. apply lookup_delete_Some in Hk as [_ ?]. eauto.
    - intros v Hv. apply table_ok_delete; auto. }
  intros _ s [Hf Hw]. unfold upd_srv, bind, get_srv.
  destruct (st_srv s) as [|v|] eqn:Hv; try done. cbn. split; [done|].
  intros v' [= <-]. destruct (Hw v eq_refl) as [H1 H2 H3 H4]. split; cbn; auto. lia.
Qed.

Lemma wf_con_put c : maintains wf (pepdna_con_put c).
Proof.
  intros s Hwf. unfold pepdna_con_put. destruct c as [c|]; [|done].
  unfold bind at 1. unfold get_con. destruct (st_cons s !! c) as [k|] eqn:Ek; [|done].
  destruct (0 <? con_kref k) eqn:Ekr; [|done].
  unfold bind. rewrite (upd_con_run _ _ _ _ Ek). unfold when.
  set (s1 := set_st_cons _ s). pose proof Hwf as [Hf Hw].
  assert (forall c', is_Some (st_cons s1 !! c') -> (c' < st_next s1)%positive) as Hf1.
  { intros c'. cbn. destruct (decide (c = c')) as [<-|Hne].
    - intros _. apply Hf. eauto.
    - rewrite lookup_insert_ne by done. apply Hf. }
  destruct (con_kref k - 1 =? 0) eqn:E1.
  - assert (wfg (Some c) 0 s1) as H1.
    { split; [done|]. intros v Hv. apply table_ok_insert.
      - destruct (Hw v Hv) as [? ? H3 ?]. split; [done|done| |done].
        intros i b c' Hi Hc'. destruct (H3 i b c' Hi Hc') as (k' & ? & ? & [?|?]); [done | eauto 6].
      - intros _ k0 Hk0. simplify_eq. split; [done | by left]. }
    pose proof (wfg_kref_release c s1 H1) as H2. by destruct (pepdna_con_kref_release c s1).
  - split; [done|]. intros v Hv. apply table_ok_insert; [by apply Hw|].
    intros _ k0 Hk0. simplify_eq. split; [done|]. right. cbn. lia.
Qed.

(** ** Allocation *)

(** [c] is a connection under construction: allocated with one reference and not
    yet in the table. *)
Definition new_con (c : positive) (d : Z) (Q : con -> Prop) (s : st) : Prop :=
  wfg None d s /\ (forall v, st_srv s = SrvLive v -> ~ listed v c) /\
  exists k, st_cons s !! c = Some k /\ con_kref k = 1 /\ Q k.

#[global] Instance new_con_env c d Q : EnvFree (new_con c d Q) := fun _ _ _ => eq_refl.

Lemma new_con_upd c d (Q Q' : con -> Prop) f :
  (forall k, con_kref k = 1 -> Q k -> con_kref (f k) = 1 /\ Q' (f k)) ->
  hoare (new_con c d Q) (upd_con c f) (fun _ => new_con c d Q').
Proof.
  intros Hf s ([Hfr Hw] & Hn & k & Hk & Hkr & HQ). rewrite (upd_con_run _ _ _ _ Hk).
  destruct (Hf k Hkr HQ) as [Hkr' HQ']. split_and!.
  - split.
    + intros c'. cbn. destruct (decide (c = c')) as [<-|Hne].
      * intros _. apply Hfr. eauto.
      * rewrite lookup_insert_ne by done. apply Hfr.
    + intros v Hv. apply table_ok_insert; [by apply Hw|].
      intros Hin. by destruct (Hn v Hv).
  - done.
  - exists (f k). cbn. by rewrite lookup_insert_eq.
Qed.

(** A change that keeps connections, server and allocator. *)
Lemma new_con_other {A} c d Q (m : KM A) :
  preserves (both (keeps st_cons) (keeps st_srv)) m ->
  (forall s, match m s with Ret _ s' => (st_next s <= st_next s')%positive | _ => True end) ->
  maintains (new_con c d Q) m.
Proof.
  intros Hm Hnx s ([Hfr Hw] & Hn & Hk). specialize (Hm s). specialize (Hnx s).
  destruct (m s) as [a s'| |]; [|done|done]. destruct Hm as [Hc Hs].
  unfold new_con, wfg. rewrite Hc, Hs. split_and!; [|done|done|done].
  intros c' Hc'. apply Hfr in Hc'. lia.
Qed.

Lemma next_mono_create s :
  match rtxq_create s with Ret _ s' => (st_next s <= st_next s')%positive | _ => True end.
Proof.
  unfold rtxq_create, bind. destruct (call_total (Kzalloc ObjRtxq) s) as ([] & e & ->);
    cbn; [|lia]. unfold rtxqueue_create, bind.
  match goal with |- context [call ?c ?s] => destruct (call_total c s) as ([] & e' & ->) end;
    cbn; [lia|]. unfold rtxq_destroy, bind, get_rtxq. cbn. rewrite lookup_insert_eq. cbn.
  match goal with |- context [call ?c ?s] => destruct (call_total c s) as ([] & e2 & ->) end.
  cbn. lia.
Qed.

Lemma rtxq_create_frame : preserves (both (keeps st_cons) (keeps st_srv)) rtxq_create.
Proof.
  unfold rtxq_create, rtxqueue_create, put_rtxq, rtxq_destroy, rtxqueue_destroy.
  assert (forall l f, EnvFree f -> preserves (keeps (A := gmap positive con) f) (rtxqueue_flush l)).
  { induction l as [|e l IH]; intros f Hf; cbn; unfold rtxq_entry_destroy; pres; by apply IH. }
  assert (forall l f, EnvFree f -> preserves (keeps (A := srv_ptr) f) (rtxqueue_flush l)).
  { induction l as [|e l IH]; intros f Hf; cbn; unfold rtxq_entry_destroy; pres; by apply IH. }
  pres.
Qed.

(** The first update of the fresh object. *)
Lemma new_con_fresh :
  hoare wf
    (do c <- fresh_addr;
     do! modify (fun s => set_st_cons (<[c := zero_con]> (st_cons s)) s);
     do! upd_con c (set_con_kref 1);
     ret c)
    (fun c s => new_con c 0 (fun k => k = set_con_kref 1 zero_con) s).
Proof.
  intros s [Hf Hw]. set (c := st_next s).
  assert (st_cons s !! c = None) as Hc.
  { destruct (st_cons s !! c) eqn:E; [|done].
    pose proof (Hf c ltac:(eauto)) as Hlt. unfold c in Hlt. lia. }
  unfold bind, fresh_addr, modify. fold c.
  erewrite (upd_con_run c _ _ zero_con); [|cbn; by rewrite lookup_insert_eq]. cbn.
  split_and!.
  - split.
    + intros c'. cbn. destruct (decide (c = c')) as [<-|Hne]; [unfold c; lia|].
      rewrite !lookup_insert_ne by done. intros Hs. apply Hf in Hs. fold c in Hs. lia.
    + intros v Hv. cbn in Hv. rewrite insert_insert_eq. apply table_ok_insert; [by apply Hw|].
      intros _ k0 Hk0. cbn in *. congruence.
  - intros v Hv Hin. cbn in Hv. apply elem_of_concat_lookup in Hin as (i & b & Hi & Hb).
    destruct (Hw v Hv) as [_ _ H3 _]. destruct (H3 i b c Hi Hb) as (k & Hk & _). congruence.
  - exists (set_con_kref 1 zero_con). cbn. by rewrite lookup_insert_eq.
Qed.

Lemma wfg_hash_add c key :
  hoare (new_con c 1 (fun k => con_id k = key)) (hash_add c key)
    (fun _ s => wf s /\ exists k, st_cons s !! c = Some k).
Proof.
  intros s ([Hf Hw] & Hn & k & Hk & Hkr & Hid). unfold hash_add, bind, get_srv.
  destruct (st_srv s) as [|v|] eqn:Hv; try done.
  destruct (srv_htable v !! pepdna_hash key) as [b|] eqn:Hb; [|done].
  rewrite (upd_srv_run _ _ _ Hv). specialize (Hw v eq_refl) as [H1 H2 H3 H4].
  specialize (Hn v eq_refl). pose proof (concat_insert_cons _ _ _ c Hb) as Hperm.
  split; [|cbn; eauto]. split; [done|]. intros v' [= <-]. split; cbn.
  - by rewrite length_insert.
  - rewrite Hperm. by apply NoDup_cons.
  - intros i b' c' Hi Hc'. destruct (decide (i = pepdna_hash key)) as [->|Hne].
    + rewrite list_lookup_insert_eq in Hi by by eapply lookup_lt_Some.
      injection Hi as <-. apply elem_of_cons in Hc' as [->|Hc'].
      * exists k. split_and!; [done | by rewrite Hid | right; lia].
      * by apply (H3 _ b).
    + rewrite list_lookup_insert_ne in Hi by done. by apply (H3 _ b').
  - rewrite Hperm. cbn [length]. lia.
Qed.

End TableOps.

#[export] Hint Resolve wf_con_put : maint.
