(* ===== verification/Alloc.v ===== *)
(** Allocation of a connection: pepdna_con_alloc keeps the table well-formed, and
    a connection it returns is initialised, listed and found, or freed again when its
    connect work is refused. *)

From Stdlib Require Import ZArith Lia.
From stdpp Require Import base list gmap.
From S2P Require Import Prelude Ints Types Setters Kernel Hash TcpUtils Rtxq Connection.
From S2P Require Import Frame Table TableOps.
Open Scope Z_scope.

Section Alloc.
Context `{P : Platform}.

(** The exact effect of an update on a connection under construction. *)
Definition image (Q : con -> Prop) (f : con -> con) (k' : con) : Prop :=
  exists k, Q k /\ k' = f k.

Lemma new_con_sp c d Q f :
  (forall k, con_kref (f k) = con_kref k) ->
  hoare (new_con c d Q) (upd_con c f) (fun _ => new_con c d (image Q f)).
Proof.
  intros Hk. apply new_con_upd. intros k H1 HQ. rewrite Hk. split; [done|]. by exists k.
Qed.

Lemma new_con_upd_then {A} c d Q f (m : KM A) R :
  (forall k, con_kref (f k) = con_kref k) ->
  hoare (new_con c d (image Q f)) m R ->
  hoare (new_con c d Q) (do! upd_con c f; m) R.
Proof. intros Hk Hm. eapply hoare_bind; [by apply new_con_sp | intros ?; exact Hm]. Qed.

Lemma new_con_weaken c d (Q Q' : con -> Prop) s :
  (forall k, con_kref k = 1 -> Q k -> Q' k) -> new_con c d Q s -> new_con c d Q' s.
Proof. intros H (? & ? & k & ? & ? & ?). split_and!; [done..|]. exists k. auto. Qed.

(** ** The fields of a new connection *)

(** A value that only a build with MINIP sets. *)
Definition minip_val (v : Z) : Z := if CONFIG_PEPDNA_MINIP cfg then v else 0.

(** The connection object before the MINIP fields are set: one reference, the copy of
    the packet, the works [w], the identifier, the time stamp, and the RINA port. *)
Definition started_con (copy : option sk_buff) (hash_id ts port_id : Z)
    (w : work_fn * work_fn * work_fn) : con :=
  mkCon 1 w.1.1 w.1.2 w.2 None (if CONFIG_PEPDNA_RINA cfg then port_id else 0)
    None None 0 0 0 0 0 0 0 0 0 0 None None 0 0 (u32 hash_id) (u64 ts) zero_syn copy.

(** The whole object, with retransmission queue [q]: in addition the initial numbers,
    window and timeout of MINIP, and the tuple.  Everything else is zero: no flow, no
    sockets, no timer, no duplicate ACKs, state 0. *)
Definition fresh_con (syn : syn_tuple) (copy : option sk_buff) (hash_id ts port_id : Z)
    (w : work_fn * work_fn * work_fn) (q : option positive) : con :=
  mkCon 1 w.1.1 w.1.2 w.2 None (if CONFIG_PEPDNA_RINA cfg then port_id else 0)
    q None 0 (minip_val 1) (minip_val MINIP_FIRST_SEQ) (minip_val MINIP_FIRST_SEQ) 0
    (minip_val WINDOW_SIZE) (minip_val MINIP_FIRST_SEQ) (minip_val 3000) 0 0
    None None 0 0 (u32 hash_id) (u64 ts) syn copy.

(** A build with MINIP has a queue; the packet is copied, or there was no memory. *)
Definition con_fresh (syn : syn_tuple) (skb : option sk_buff) (hash_id ts port_id : Z)
    (w : work_fn * work_fn * work_fn) (k : con) : Prop :=
  exists copy q, k = fresh_con syn copy hash_id ts port_id w q /\
    (copy = skb \/ copy = None) /\
    if CONFIG_PEPDNA_MINIP cfg then is_Some q else q = None.

Definition con_started (skb : option sk_buff) (hash_id ts port_id : Z)
    (w : work_fn * work_fn * work_fn) (k : con) : Prop :=
  exists copy, k = started_con copy hash_id ts port_id w /\ (copy = skb \/ copy = None).

Lemma con_init_minip_spec c Q :
  hoare (new_con c 0 Q) (con_init_minip c)
    (fun up s => if up then new_con c 0 (fun k' => exists k q, Q k /\
        k' = set_con_rttvar 0 (set_con_srtt 0 (set_con_rto 3000 (set_con_dup_acks 0
             (set_con_sending 1 (set_con_rtxq (Some q) (set_con_window WINDOW_SIZE
             (set_con_next_recv MINIP_FIRST_SEQ (set_con_last_acked MINIP_FIRST_SEQ
             (set_con_next_seq MINIP_FIRST_SEQ k)))))))))) s
      else new_con c 0 (fun _ => True) s).
Proof.
  unfold con_init_minip. do 4 (apply new_con_upd_then; [done|]).
  apply maintains_then.
  { apply new_con_other; [apply rtxq_create_frame | apply next_mono_create]. }
  intros q. apply new_con_upd_then; [done|]. destruct q as [q|].
  - do 5 (apply new_con_upd_then; [done|]). apply hoare_ret. intros s. apply new_con_weaken.
    intros k _ (?&(?&(?&(?&(?&(?&(?&(?&(?&(k0&HQ&->)&->)&->)&->)&->)&->)&->)&->)&->)&->).
    by exists k0, q.
  - apply hoare_ret. intros s. by apply new_con_weaken.
Qed.

(** The work queue refused the connect work of [c]: the last thing that happened is
    that [c] was freed, and it is not listed. *)
Definition alloc_refused (c : positive) (s : st) : Prop :=
  (exists q tr, st_trace s = tr ++ [Ev (QueueWork q (TcfaWork c)) false; Ev Kfree tt]) /\
  forall v, st_srv s = SrvLive v -> ~ listed v c.

(** The connection is at the head of its bucket with the fields of a new one and
    its connect work is queued; or it is gone because the work was refused. *)
Definition alloc_post (syn : syn_tuple) (skb : option sk_buff) (hash_id ts port_id : Z)
    (w : work_fn * work_fn * work_fn) (c : positive) (s : st) : Prop :=
  match st_cons s !! c with
  | Some k =>
      con_fresh syn skb hash_id ts port_id w k /\ TcfaWork c ∈ st_pending s /\
      exists v b, st_srv s = SrvLive v /\
        srv_htable v !! pepdna_hash (u32 hash_id) = Some (c :: b)
  | None => alloc_refused c s
  end.

(** Dropping the only reference of a connection without sockets. *)
Lemma con_put_fresh s v c k :
  st_srv s = SrvLive v -> listed v c -> st_cons s !! c = Some k -> con_kref k = 1 ->
  con_lsock k = None -> con_rsock k = None ->
  exists s' v', pepdna_con_put (Some c) s = Ret tt s' /\ st_srv s' = SrvLive v' /\
    ~ listed v' c /\ st_cons s' = delete c (st_cons s) /\
    st_trace s' = st_trace s ++ [Ev Kfree tt].
Proof.
  intros Hv Hin Hk Hkr Hl Hr. unfold pepdna_con_put.
  rewrite (bind_Ret _ _ _ _ _ (get_con_run _ _ _ Hk)), Hkr. change (0 <? 1) with true.
  cbv iota. unfold bind at 1. rewrite (upd_con_run _ _ _ _ Hk). unfold when.
  change (1 - 1 =? 0) with true. cbv iota. set (k1 := set_con_kref (1 - 1) k).
  set (s1 := set_st_cons _ s). assert (st_cons s1 !! c = Some k1) as Hk1.
  { cbn. by rewrite lookup_insert_eq. }
  unfold pepdna_con_kref_release, release_side. unfold bind at 1. unfold bind at 1.
  rewrite (get_con_run _ _ _ Hk1). cbv iota beta. change (con_lsock k1) with (con_lsock k).
  rewrite Hl. unfold ret at 1. unfold bind at 1. unfold bind at 1.
  rewrite (get_con_run _ _ _ Hk1). cbv iota beta. change (con_rsock k1) with (con_rsock k).
  rewrite Hr. unfold ret at 1. unfold hlist_del. unfold bind at 1. unfold bind at 1.
  rewrite (get_srv_run s1 v Hv), decide_True by exact Hin. rewrite (upd_srv_run _ s1 v Hv).
  unfold bind at 1. match goal with |- context [call ?cc ?ss] =>
    destruct (call_total cc ss) as ([] & e & ->) end.
  unfold bind at 1, modify. erewrite upd_srv_run by reflexivity.
  eexists _, _. split_and!; [reflexivity|reflexivity| | |done].
  - unfold listed. cbn. rewrite concat_filter, list_elem_of_filter. tauto.
  - cbn. apply map_eq. intros d. destruct (decide (d = c)) as [->|Hd];
      [by rewrite !lookup_delete_eq|]. by rewrite !lookup_delete_ne, lookup_insert_ne by done.
Qed.

Lemma hash_add_head c key Q :
  hoare (new_con c 1 (fun k => con_id k = key /\ Q k)) (hash_add c key)
    (fun _ s => wf s /\ exists v k b, st_srv s = SrvLive v /\ st_cons s !! c = Some k /\
       con_kref k = 1 /\ Q k /\ srv_htable v !! pepdna_hash key = Some (c :: b)).
Proof.
  intros s Hn. pose proof (wfg_hash_add c key s) as Hw.
  assert (new_con c 1 (fun k => con_id k = key) s) as Hn'.
  { eapply new_con_weaken; [|exact Hn]. by intros k _ []. }
  specialize (Hw Hn'). destruct Hn as (_ & _ & k & Hk & Hkr & Hid & HQ).
  unfold hash_add, bind, get_srv in *. destruct (st_srv s) as [|v|] eqn:Hv; try done.
  destruct (srv_htable v !! pepdna_hash key) as [b|] eqn:Hb; [|done].
  rewrite (upd_srv_run _ _ _ Hv) in *. destruct Hw as [Hw _]. split; [done|].
  eexists _, k, b. split_and!; [reflexivity|done|done|done|]. cbn.
  by rewrite list_lookup_insert_eq by by eapply lookup_lt_Some.
Qed.

(** The end of pepdna_con_alloc, from hash_add on. *)
Lemma alloc_end c (Q : con -> Prop) hash_id syn skb ts port_id w :
  (forall k, con_kref k = 1 -> Q k -> con_fresh syn skb hash_id ts port_id w k) ->
  hoare (new_con c 1 Q)
    (do! hash_add c (u32 hash_id);
     do v <- get_srv;
     do q <- queue_work (srv_tcfa_wq v) (TcfaWork c);
     do! when (negb q) (pepdna_con_put (Some c));
     ret (Some c))
    (fun r s => wf s /\ r = Some c /\ alloc_post syn skb hash_id ts port_id w c s).
Proof.
  intros HQ.
  eapply hoare_bind.
  { eapply hoare_conseq; [apply (hash_add_head c (u32 hash_id) Q) | | intros ? ? H; exact H].
    intros s. apply new_con_weaken. intros k Hk Hq. split; [|done].
    by destruct (HQ k Hk Hq) as (? & ? & -> & _). }
  intros _ s (Hwf & v & k & b & Hv & Hk & Hkr & Hq & Hb).
  rewrite (bind_Ret _ _ _ _ _ (get_srv_run _ _ Hv)).
  unfold queue_work. destruct (srv_tcfa_wq v) as [q|]; cbn [deref]; [|done].
  unfold bind at 1. unfold bind at 1. unfold ret at 1. unfold bind at 1.
  unfold alloc_post. pose proof (HQ k Hkr Hq) as Hfresh.
  destruct (call_total (QueueWork q (TcfaWork c)) s) as ([] & e & ->).
  - cbn. rewrite Hk. split_and!; [done..| |eauto]. apply elem_of_app. right. by left.
  - cbv iota beta. unfold modify, when, ret, bind. cbn [negb]. set (s1 := set_st_trace _ _).
    assert (listed v c) as Hin.
    { apply elem_of_concat_lookup. exists (pepdna_hash (u32 hash_id)), (c :: b).
      split; [done|by left]. }
    pose proof Hfresh as (copy & q0 & Hke & _).
    destruct (con_put_fresh s1 v c k Hv Hin Hk Hkr) as (s2 & v2 & Hrun & Hv2 & Hn & Hc2 & Ht2);
      [by rewrite Hke..|].
    pose proof (wf_con_put (Some c) s1 Hwf) as Hput. rewrite Hrun in Hput |- *.
    split_and!; [done|done|]. rewrite Hc2, lookup_delete_eq. split.
    + exists q, (st_trace s). rewrite Ht2. unfold s1. cbn. by rewrite <- app_assoc.
    + intros v'. rewrite Hv2. by intros [= <-].
Qed.

(** The MINIP part of the allocation in every build. *)
Lemma con_init_spec c skb hash_id ts port_id w :
  hoare (new_con c 0 (con_started skb hash_id ts port_id w))
    (if CONFIG_PEPDNA_MINIP cfg then con_init_minip c else ret true)
    (fun up s => if up then new_con c 0 (con_fresh zero_syn skb hash_id ts port_id w) s
      else new_con c 0 (fun _ => True) s).
Proof.
  unfold con_fresh, fresh_con, minip_val, con_started. destruct (CONFIG_PEPDNA_MINIP cfg).
  - eapply hoare_conseq; [apply con_init_minip_spec | done |]. intros [] s; [|done].
    apply new_con_weaken. intros k' _ (k & q & (copy & -> & Hcp) & ->).
    exists copy, (Some q). by split_and!.
  - apply hoare_ret. intros s. apply new_con_weaken. intros k _ (copy & -> & Hcp).
    by exists copy, None.
Qed.

Lemma new_con_count c Q :
  hoare (new_con c 0 Q) (upd_srv (fun v => set_srv_conns (srv_conns v + 1) v))
    (fun _ => new_con c 1 Q).
Proof.
  intros s ([Hf Hw] & Hn & Hk). unfold upd_srv, bind, get_srv.
  destruct (st_srv s) as [|v|] eqn:Hv; try done. cbn. split_and!; [split; [done|]| |done].
  - intros v' [= <-]. destruct (Hw v eq_refl) as [H1 H2 H3 H4]. split; cbn; auto. lia.
  - intros v' [= <-]. by apply (Hn v).
Qed.

Lemma new_con_drop c Q :
  hoare (new_con c 0 Q)
    (do! call Kfree;
     do! modify (fun s => set_st_cons (delete c (st_cons s)) s);
     ret (@None positive)) (fun r s => wf s /\ r = None).
Proof.
  apply maintains_then; [apply maintains_call; apply _|]. intros _ s ([Hf Hw] & Hn & Hk).
  cbn. split; [|done]. split.
  - intros c' [k Hk']. apply Hf. cbn in Hk'. apply lookup_delete_Some in Hk' as [_ ?]. eauto.
  - intros v Hv. apply table_ok_delete; auto.
Qed.

(** The object as it was allocated, with the copy of the packet. *)
Definition con_blank (skb : option sk_buff) (k : con) : Prop :=
  exists copy, k = set_con_skb copy (set_con_kref 1 zero_con) /\ (copy = skb \/ copy = None).

(** pepdna_con_alloc from the choice of the work functions on. *)
Lemma alloc_tail c syn skb hash_id ts port_id w :
  hoare (new_con c 0 (con_blank skb))
    (do! upd_con c (set_con_l2r_fn w.1.1);
     do! upd_con c (set_con_r2l_fn w.1.2);
     do! upd_con c (set_con_tcfa_fn w.2);
     do! upd_con c (set_con_id (u32 hash_id));
     do! upd_con c (set_con_ts (u64 ts));
     do! when (CONFIG_PEPDNA_RINA cfg)
           (do! upd_con c (set_con_port_id port_id); upd_con c (set_con_flow None));
     do up <- if CONFIG_PEPDNA_MINIP cfg then con_init_minip c else ret true;
     if negb up then
       do! call Kfree;
       do! modify (fun s => set_st_cons (delete c (st_cons s)) s);
       ret None
     else
       do! upd_srv (fun v => set_srv_conns (srv_conns v + 1) v);
       do! upd_con c (set_con_lsock None);
       do! upd_con c (set_con_rsock None);
       do! upd_con c (set_con_lflag 0);
       do! upd_con c (set_con_rflag 0);
       do! upd_con c (set_con_tuple syn);
       do! hash_add c (u32 hash_id);
       do v <- get_srv;
       do q <- queue_work (srv_tcfa_wq v) (TcfaWork c);
       do! when (negb q) (pepdna_con_put (Some c));
       ret (Some c))
    (fun r s => wf s /\ forall c', r = Some c' -> exists w',
       Some w = Some w' /\ alloc_post syn skb hash_id ts port_id w' c' s).
Proof.
  do 5 (apply new_con_upd_then; [done|]).
  eapply (hoare_bind _ _ _ (fun _ => new_con c 0 (con_started skb hash_id ts port_id w))).
  { unfold con_started, started_con, when. destruct (CONFIG_PEPDNA_RINA cfg).
    - apply new_con_upd_then; [done|]. apply new_con_upd.
      intros k Hk (?&(?&(?&(?&(?&(k0&(copy&->&Hcp)&->)&->)&->)&->)&->)&->).
      split; [done|]. by exists copy.
    - apply hoare_ret. intros s. apply new_con_weaken.
      intros k Hk (?&(?&(?&(?&(k0&(copy&->&Hcp)&->)&->)&->)&->)&->). by exists copy. }
  intros _. eapply hoare_bind; [apply con_init_spec|]. intros []; cbn [negb].
  2:{ eapply hoare_conseq; [apply new_con_drop | done |]. by intros r s [? ->]. }
  eapply hoare_bind; [apply new_con_count | intros ?; cbv beta].
  do 5 (apply new_con_upd_then; [done|]).
  eapply hoare_conseq; [eapply (alloc_end c _ hash_id syn skb ts port_id w) | intros ? H; exact H |].
  2:{ intros r s (? & -> & ?). split; [done|]. intros c' [= <-]. eauto. }
  intros k Hk (?&(?&(?&(?&(k0&(copy&q&->&Hcp&Hq)&->)&->)&->)&->)&->).
  by exists copy, q.
Qed.

(** The allocation of the object at the head of pepdna_con_alloc. *)
Lemma new_con_fresh_then {A} v0 (k : positive -> KM A) Q :
  (forall c, hoare (fun s => new_con c 0 (fun k => k = set_con_kref 1 zero_con) s /\
     st_srv s = SrvLive v0) (k c) Q) ->
  hoare (fun s => wf s /\ st_srv s = SrvLive v0)
    (do c <- fresh_addr;
     do! modify (fun s => set_st_cons (<[c := zero_con]> (st_cons s)) s);
     do! upd_con c (set_con_kref 1);
     k c) Q.
Proof.
  intros Hk s [Hwf Hv]. pose proof (new_con_fresh s Hwf) as Hn.
  unfold bind, fresh_addr, modify in *.
  erewrite upd_con_run in *; [|cbn; by rewrite lookup_insert_eq ..].
  cbn in Hn. apply Hk. by split.
Qed.

(** The copy of the packet. *)
Lemma skb_copy_spec (J : st -> Prop) skb :
  EnvFree J ->
  hoare J (match skb with
           | Some b => do ok <- call (SkbCopy b); ret (if ok then Some b else None)
           | None => ret None
           end) (fun copy s => J s /\ (copy = skb \/ copy = None)).
Proof.
  intros HJ. destruct skb as [b|]; [|apply hoare_ret; auto].
  eapply hoare_bind; [by apply (maintains_call J)|]. intros ok. apply hoare_ret.
  intros s Hs. split; [done|]. destruct ok; auto.
Qed.

(** pepdna_con_alloc on a well-formed table of server [v0]: the table stays
    well-formed, and a connection that is returned is as [alloc_post] says. *)
Lemma con_alloc_spec syn skb hash_id ts port_id v0 :
  hoare (fun s => wf s /\ st_srv s = SrvLive v0)
    (pepdna_con_alloc syn skb hash_id ts port_id)
    (fun r s => wf s /\ forall c, r = Some c -> exists w,
       con_works cfg (srv_mode v0) = Some w /\ alloc_post syn skb hash_id ts port_id w c s).
Proof.
  unfold pepdna_con_alloc.
  set (J := fun s => wf s /\ st_srv s = SrvLive v0).
  assert (EnvFree J) by (intros ? ? ?; reflexivity).
  apply (maintains_then J); [by apply maintains_call|]. intros []; cbn [negb].
  2:{ intros s [? ?]. cbn. split; [done|]. by intros. }
  apply new_con_fresh_then. intros c.
  set (J1 := fun s => new_con c 0 (fun k => k = set_con_kref 1 zero_con) s /\ st_srv s = SrvLive v0).
  assert (EnvFree J1) by (intros ? ? ?; reflexivity).
  eapply hoare_bind; [by apply (skb_copy_spec J1)|]. intros copy. cbv beta.
  eapply (hoare_bind _ _ _ (fun _ s => new_con c 0 (con_blank skb) s /\ st_srv s = SrvLive v0)).
  { intros s [[Hn Hv] Hcp]. pose proof Hn as (_ & _ & k & Hk & _).
    pose proof (new_con_upd c 0 (fun k => k = set_con_kref 1 zero_con) (con_blank skb)
      (set_con_skb copy)) as Hu.
    specialize (Hu ltac:(intros k' _ ->; split; [done|by exists copy]) s Hn). rewrite (upd_con_run _ _ _ _ Hk) in *. by split. }
  intros _ s [Hn Hv]. rewrite (bind_Ret _ _ _ _ _ (get_srv_run _ _ Hv)).
  destruct (con_works cfg (srv_mode v0)) as [[[l2r r2l] tcfa]|]; cycle 1.
  { cbn. split; [|done]. apply Hn. }
  clear Hv J J1 H H0. revert s Hn.
  apply (alloc_tail c syn skb hash_id ts port_id (l2r, r2l, tcfa)).
Qed.

(** The same in terms of the lookup. *)
Lemma con_alloc_found syn skb hash_id ts port_id v0 s c s' :
  wf s -> st_srv s = SrvLive v0 ->
  pepdna_con_alloc syn skb hash_id ts port_id s = Ret (Some c) s' ->
  match st_cons s' !! c with
  | Some k =>
      exists w, con_works cfg (srv_mode v0) = Some w /\
        con_fresh syn skb hash_id ts port_id w k /\ TcfaWork c ∈ st_pending s' /\
        pepdna_con_find (u32 hash_id) s' = Ret (Some c) s'
  | None => alloc_refused c s'
  end.
Proof.
  intros Hwf Hv Hrun.
  pose proof (con_alloc_spec syn skb hash_id ts port_id v0 s (conj Hwf Hv)) as H.
  rewrite Hrun in H. destruct H as (_ & H). destruct (H c eq_refl) as (w & Hw & Hpost).
  unfold alloc_post in Hpost. destruct (st_cons s' !! c) as [k|] eqn:Hk; [|done].
  destruct Hpost as (Hf & Hp & v & b & Hv' & Hb). exists w. split_and!; try done.
  unfold pepdna_con_find.
  rewrite (bind_Ret _ _ _ _ _ (get_srv_run _ _ Hv')), Hb. cbn [bucket_find].
  rewrite (bind_Ret _ _ _ _ _ (get_con_run _ _ _ Hk)).
  destruct Hf as (copy & q & -> & _). cbn. by rewrite Z.eqb_refl.
Qed.

End Alloc.
