(* ===== verification/Invariant.v ===== *)
(** Every entry point of the module keeps the connection table well-formed, and
    loading the module establishes it. *)

From Stdlib Require Import ZArith Lia.
From stdpp Require Import base list gmap.
From S2P Require Import Prelude Ints Types Setters Kernel Hash TcpUtils Rtxq Connection Tcp.
From S2P Require Import Netlink Minip Rina Ccn TcpListen TcpConnect Server Core System.
From S2P Require Import ByteMem NdnTlv CcnPrefix CcnLib Frame Table TableOps Alloc.
Open Scope Z_scope.

(** ** Maintenance of [wf], function by function *)

Section Maintain.
Context `{P : Platform}.

Lemma wf_con_find key : maintains wf (pepdna_con_find key).
Proof. apply maintains_preserves, con_find_keeps. apply _. Qed.

Lemma wf_con_get c : maintains wf (pepdna_con_get c).
Proof. unfold pepdna_con_get, wf. maint. Qed.

(** Without a server the allocation does not get past its first use of it. *)
Lemma con_alloc_no_srv syn skb hash_id ts port_id :
  hoare (fun s => wf s /\ forall v, st_srv s <> SrvLive v)
    (pepdna_con_alloc syn skb hash_id ts port_id) (fun _ => wf).
Proof.
  set (J := fun s => forall v, st_srv s <> SrvLive v).
  assert (EnvFree J) by (intros ? ? ?; reflexivity).
  intros s [Hwf HJ]. unfold pepdna_con_alloc, bind at 1.
  destruct (call_total (Kzalloc ObjCon) s) as ([] & e & ->); cbn [negb]; [|exact Hwf].
  set (s1 := set_st_trace _ _). assert (J s1) as HJ1 by exact HJ. clearbody s1.
  clear Hwf HJ. revert s1 HJ1.
  apply (maintains_then J); [by intros s1 Hs1|]. intros c.
  apply (maintains_then J); [by apply maintains_modify|]. intros _.
  apply (maintains_then J); [apply maintains_preserves, stable_upd_con; by intros|]. intros _.
  apply (maintains_then J); [destruct skb; maint|]. intros copy.
  apply (maintains_then J); [apply maintains_preserves, stable_upd_con; by intros|].
  intros _ s1 HJ. unfold bind at 1, get_srv. destruct (st_srv s1) eqn:E; try done.
  by destruct (HJ s0).
Qed.

Lemma wf_con_alloc syn skb hash_id ts port_id :
  maintains wf (pepdna_con_alloc syn skb hash_id ts port_id).
Proof.
  intros s Hwf. destruct (st_srv s) as [|v0|] eqn:Hv.
  2:{ pose proof (con_alloc_spec syn skb hash_id ts port_id v0 s (conj Hwf Hv)) as H.
      destruct (pepdna_con_alloc _ _ _ _ _ s); [by destruct H | done | done]. }
  all: apply con_alloc_no_srv; split; [done | by rewrite Hv].
Qed.

Lemma wf_entry_destroy e : maintains wf (rtxq_entry_destroy e).
Proof. unfold rtxq_entry_destroy. maint. Qed.

Lemma wf_flush l : maintains wf (rtxqueue_flush l).
Proof. induction l; cbn; maint. Qed.

Lemma wf_rtxq_destroy q : maintains wf (rtxq_destroy q).
Proof. unfold rtxq_destroy, rtxqueue_destroy. maint; apply wf_flush. Qed.

Lemma wf_entries_rtx l ack : maintains wf (rtxqueue_entries_rtx l ack).
Proof. induction l; cbn; unfold rtxq_entry_rtx; maint. Qed.

Lemma wf_entries_ack l n cr ack : maintains wf (entries_ack l n cr ack).
Proof. revert n cr. induction l; intros; cbn; maint. Qed.

Lemma wf_put_rtxq a q : maintains wf (put_rtxq a q).
Proof. apply wfg_put_rtxq. Qed.

Lemma wf_full_rtx q ack : maintains wf (rtxq_full_rtx q ack).
Proof. unfold rtxq_full_rtx. maint. apply wf_entries_rtx. Qed.

Lemma wf_rtxq_ack q ack : maintains wf (rtxq_ack q ack).
Proof.
  unfold rtxq_ack, rtxqueue_entries_ack. maint. apply wf_entries_ack.
Qed.

Lemma wf_rtxq_push q skb : maintains wf (rtxq_push q skb).
Proof. unfold rtxq_push, rtxqueue_push, rtxq_entry_create. maint. Qed.

Lemma wf_rtxq_size c : maintains wf (rtxq_size c).
Proof. unfold rtxq_size. maint. Qed.

Lemma wf_connected c : maintains wf (lconnected c) /\ maintains wf (rconnected c).
Proof. unfold lconnected, rconnected. split; maint. Qed.

Lemma wf_con_close c : maintains wf (pepdna_con_close c).
Proof.
  unfold pepdna_con_close, close_side, close_right_rina, cancel_work_sync, del_timer.
  maint; apply wf_rtxq_destroy.
Qed.

End Maintain.

#[export] Hint Resolve wf_con_find wf_con_get wf_con_alloc wf_entry_destroy wf_rtxq_destroy
  wf_full_rtx wf_rtxq_ack wf_rtxq_push wf_rtxq_size wf_con_close : maint.
#[export] Hint Extern 1 (maintains wf (lconnected _)) => apply wf_connected : maint.
#[export] Hint Extern 1 (maintains wf (rconnected _)) => apply wf_connected : maint.

Section MaintainHandlers.
Context `{P : Platform}.

Lemma wf_queue_work q w : maintains wf (queue_work q w).
Proof. apply wfg_queue_work. Qed.

Lemma wf_l2r_ready sk : maintains wf (pepdna_l2r_conn_data_ready sk).
Proof. unfold pepdna_l2r_conn_data_ready. maint. Qed.

Lemma wf_r2l_ready sk : maintains wf (pepdna_r2l_conn_data_ready sk).
Proof. unfold pepdna_r2l_conn_data_ready. maint. Qed.

Lemma wf_udp_ready sk : maintains wf (pepdna_udp_data_ready sk).
Proof. unfold pepdna_udp_data_ready. maint. Qed.

Lemma wf_ready_call f sk : maintains wf (ready_call f sk).
Proof.
  unfold ready_call. maint; [apply wf_l2r_ready | apply wf_r2l_ready | apply wf_udp_ready].
Qed.

Lemma wf_sk_data_ready sk : maintains wf (sk_data_ready_call sk).
Proof.
  unfold sk_data_ready_call, pepdna_tcp_listen_data_ready.
  maint; solve [apply wf_ready_call | apply wf_queue_work].
Qed.

Lemma wf_sock_write fuel sk buf len : maintains wf (pepdna_sock_write fuel sk buf len).
Proof.
  unfold pepdna_sock_write, sock_write_body, pepdna_wait_to_send, user_con,
    pepdna_sock_writeable, kernel_sendmsg. maint.
Qed.

Lemma wf_i2i_fwd fuel from to : maintains wf (pepdna_con_i2i_fwd fuel from to).
Proof. unfold pepdna_con_i2i_fwd, kernel_recvmsg. maint; apply wf_sock_write. Qed.

Lemma wf_fwd_loop fuel c up fwd fail :
  maintains wf (up (Some c)) -> maintains wf fwd -> maintains wf fail ->
  maintains wf (fwd_loop fuel c up fwd fail).
Proof. intros. unfold fwd_loop. maint; done. Qed.

Lemma wf_nl_loop n m a : maintains wf (nl_sendmsg_loop n m a).
Proof. revert a. induction n; intros; cbn; maint. by intros ? ?. Qed.

Lemma wf_minip_xmit nomem extra mac fill :
  (forall old, maintains wf (fill old)) -> maintains wf (minip_xmit nomem extra mac fill).
Proof. intros H. unfold minip_xmit. maint; done. Qed.

Lemma wf_reinject k : maintains wf (reinject_syn k).
Proof. unfold reinject_syn. maint. Qed.

End MaintainHandlers.

#[export] Hint Resolve wf_queue_work wf_sk_data_ready wf_sock_write wf_i2i_fwd wf_nl_loop
  wf_reinject : maint.
#[export] Hint Extern 1 (maintains wf (minip_xmit _ _ _ _)) =>
  apply wf_minip_xmit; intros ?; maint : maint.

Section MaintainWorks.
Context `{P : Platform}.

Lemma wf_l2r_fwd fuel c : maintains wf (pepdna_con_l2r_fwd fuel c).
Proof. unfold pepdna_con_l2r_fwd. maint. apply wf_fwd_loop; maint. Qed.

Lemma wf_r2l_fwd fuel c : maintains wf (pepdna_con_r2l_fwd fuel c).
Proof. unfold pepdna_con_r2l_fwd. maint. apply wf_fwd_loop; maint. Qed.

Lemma wf_wait_for_sdu fuel f : maintains wf (pepdna_wait_for_sdu fuel f).
Proof.
  unfold pepdna_wait_for_sdu, wait_for_sdu_body, queue_is_ready, rfifo_is_empty, flow_is_ok.
  maint.
Qed.

Lemma wf_rina2i fuel c : maintains wf (pepdna_con_rina2i_fwd fuel c).
Proof. unfold pepdna_con_rina2i_fwd. maint. apply wf_wait_for_sdu. Qed.

Lemma wf_flow_write f pid buf len : maintains wf (pepdna_flow_write f pid buf len).
Proof. unfold pepdna_flow_write, flow_write_body. maint. Qed.

Lemma wf_i2rina c : maintains wf (pepdna_con_i2rina_fwd c).
Proof. unfold pepdna_con_i2rina_fwd, kernel_recvmsg. maint; apply wf_flow_write. Qed.

Lemma wf_i2r_work fuel c : maintains wf (pepdna_con_i2r_work fuel c).
Proof.
  unfold pepdna_con_i2r_work. maint. apply wf_fwd_loop; maint;
    [apply wf_i2rina | apply wf_nl_loop].
Qed.

Lemma wf_r2i_work fuel c : maintains wf (pepdna_con_r2i_work fuel c).
Proof. unfold pepdna_con_r2i_work. maint. apply wf_rina2i. Qed.

Lemma wf_flow_alloc c : maintains wf (pepdna_rina_flow_alloc c).
Proof. unfold pepdna_rina_flow_alloc, pepdna_nl_sendmsg. maint. Qed.

Lemma wf_skb_send c buf len : maintains wf (pepdna_minip_skb_send c buf len).
Proof. unfold pepdna_minip_skb_send. maint. Qed.

(** The window never touches identifier or reference count. *)
Lemma wf_snd_data c buf len : maintains wf (pepdna_minip_conn_snd_data c buf len).
Proof.
  unfold pepdna_minip_conn_snd_data, snd_data_body. maint; [apply wf_skb_send|].
  apply wfg_upd_con; intros k; by destruct (0 <? con_window k).
Qed.

Lemma wf_i2minip c : maintains wf (pepdna_con_i2minip_fwd c).
Proof. unfold pepdna_con_i2minip_fwd, kernel_recvmsg. maint; apply wf_snd_data. Qed.

Lemma wf_delete id mac : maintains wf (pepdna_minip_conn_delete id mac).
Proof. unfold pepdna_minip_conn_delete. maint. Qed.

Lemma wf_i2m_work fuel c : maintains wf (pepdna_con_i2m_work fuel c).
Proof.
  unfold pepdna_con_i2m_work. maint. apply wf_fwd_loop; maint;
    [apply wf_i2minip | apply wf_delete].
Qed.

Lemma wf_handshake c : maintains wf (pepdna_minip_handshake c).
Proof. unfold pepdna_minip_handshake, pepdna_minip_conn_request. maint. Qed.

Lemma wf_c2i_work fuel c : maintains wf (pepdna_con_c2i_work fuel c).
Proof. unfold pepdna_con_c2i_work. maint. Qed.

Lemma wf_on_buffer {A} m (f : BM A) : maintains wf (on_buffer m f).
Proof. intros s Hs. unfold on_buffer. by destruct (f m). Qed.

Lemma wf_simple_interest n o : maintains wf (ccnl_mkSimpleInterestK n o).
Proof.
  unfold ccnl_mkSimpleInterestK, ccnl_mkInterestK. maint; apply wf_on_buffer.
Qed.

Lemma wf_uri_to_prefix uri suite n : maintains wf (ccnl_URItoPrefixK uri suite n).
Proof. unfold ccnl_URItoPrefixK, ccnl_prefix_newK. maint. Qed.

Lemma wf_i2c_work fuel c : maintains wf (pepdna_con_i2c_work fuel c).
Proof.
  unfold pepdna_con_i2c_work, pepdna_fwd_request, pepdna_send_to_ccn_relay, parse_request,
    kernel_recvmsg, kernel_sendmsg.
  maint; solve [apply wf_simple_interest | apply wf_uri_to_prefix | apply wf_on_buffer].
Qed.

Lemma wf_set_bufsize sk : maintains wf (pepdna_set_bufsize sk).
Proof. unfold pepdna_set_bufsize. maint. Qed.

Lemma wf_udp_open c : maintains wf (pepdna_udp_open c).
Proof. unfold pepdna_udp_open, pepdna_set_mark. maint; apply wf_set_bufsize. Qed.

Lemma wf_connect_sock c : maintains wf (tcp_connect_sock c).
Proof.
  unfold tcp_connect_sock, pepdna_set_mark, pepdna_ip_transparent, pepdna_tcp_nonagle,
    pepdna_tcp_nodelayedack. maint; apply wf_set_bufsize.
Qed.

Lemma wf_tcp_connect c : maintains wf (pepdna_tcp_connect c).
Proof.
  unfold pepdna_tcp_connect, tcp_connect_rina, tcp_connect_minip, set_callbacks,
    pepdna_nl_sendmsg, pepdna_minip_send_response. maint; apply wf_connect_sock.
Qed.

Lemma wf_acceptor fuel : maintains wf (pepdna_acceptor_work fuel).
Proof.
  unfold pepdna_acceptor_work, pepdna_tcp_accept, accept_con, identify_client. maint.
Qed.

Lemma wf_run_work fuel w : maintains wf (run_work fuel w).
Proof.
  unfold run_work, work_func, pepdna_con_m2i_work. maint.
  all: solve [ apply wf_l2r_fwd | apply wf_r2l_fwd | apply wf_tcp_connect
    | apply wf_i2r_work | apply wf_r2i_work | apply wf_flow_alloc | apply wf_i2m_work
    | apply wf_handshake | apply wf_i2c_work | apply wf_c2i_work | apply wf_udp_open
    | apply wf_acceptor ].
Qed.

End MaintainWorks.

Section MaintainEntries.
Context `{P : Platform}.

Lemma wf_minip2i fuel c skb : maintains wf (pepdna_con_minip2i_fwd fuel c skb).
Proof. unfold pepdna_con_minip2i_fwd, pepdna_minip_send_ack. maint. Qed.

Lemma wf_recv_data fuel skb : maintains wf (pepdna_minip_recv_data fuel skb).
Proof. unfold pepdna_minip_recv_data. maint; [apply wf_minip2i | apply wf_delete]. Qed.

Lemma update_cwnd_id k :
  con_id (minip_update_cwnd k) = con_id k /\ con_kref (minip_update_cwnd k) = con_kref k.
Proof. unfold minip_update_cwnd. by repeat case_match. Qed.

Lemma update_rto_id k rtt :
  con_id (minip_update_rto k rtt) = con_id k /\ con_kref (minip_update_rto k rtt) = con_kref k.
Proof. unfold minip_update_rto. by repeat case_match. Qed.

Lemma wf_update_cwnd c : maintains wf (upd_con c minip_update_cwnd).
Proof. apply wfg_upd_con; intros k; destruct (update_cwnd_id k) as [H1 H2]; lia. Qed.

Lemma wf_good_ack c ack : maintains wf (recv_good_ack c ack).
Proof. unfold recv_good_ack. maint. apply wf_update_cwnd. Qed.

Lemma wf_dup_ack c ack : maintains wf (recv_dup_ack c ack).
Proof. unfold recv_dup_ack. maint; apply wf_delete. Qed.

Lemma wf_recv_ack skb : maintains wf (pepdna_minip_recv_ack skb).
Proof.
  unfold pepdna_minip_recv_ack, mod_timer. maint; [|apply wf_good_ack | apply wf_dup_ack].
  apply wfg_upd_con; intros k; destruct (update_rto_id k
    (u32 (u32 a0 - ntohl (h_ts (f_hdr skb))))) as [H1 H2]; lia.
Qed.

Lemma wf_recv_packet fuel a : maintains wf (pepdna_minip_recv_packet fuel a).
Proof.
  unfold pepdna_minip_recv_packet, pepdna_minip_recv_request, pepdna_minip_recv_response,
    pepdna_minip_recv_delete, pepdna_minip_recv_finished, pepdna_minip_conn_finished.
  maint; [apply wf_recv_data | apply wf_recv_ack].
Qed.

Lemma wf_rx_frame fuel f : maintains wf (rx_frame fuel f).
Proof. unfold rx_frame, pepdna_minip_skb_recv. maint. apply wf_recv_packet. Qed.

Lemma wf_pre_hook skb : maintains wf (pepdna_pre_hook skb).
Proof. unfold pepdna_pre_hook, hook_new_con. maint. Qed.

Lemma wf_sender_timeout c : maintains wf (minip_sender_timeout c).
Proof. unfold minip_sender_timeout, mod_timer. maint; apply wf_delete. Qed.

Lemma wf_flow_is_ready c : maintains wf (flow_is_ready c).
Proof. unfold flow_is_ready. maint. Qed.

Lemma wf_ensure_iowqs c : maintains wf (ensure_iowqs c).
Proof. unfold ensure_iowqs, pepdna_flow_set_iowqs. maint. Qed.

Lemma wf_nl_recv m : maintains wf (pepdna_nl_recv_msg nl_i2r_callback nl_r2i_callback m).
Proof.
  unfold pepdna_nl_recv_msg, nl_msg_data, nl_i2r_callback, nl_r2i_callback. maint;
    solve [apply wf_flow_is_ready | apply wf_ensure_iowqs].
Qed.

Lemma wf_exec fuel a : maintains wf (exec fuel a).
Proof.
  destruct a; cbn [exec]; maint.
  all: solve [ apply wf_pre_hook | apply wf_rx_frame | apply wf_run_work
    | apply wf_sender_timeout | apply wf_nl_recv ].
Qed.

Lemma wf_reachable s s' : wf s -> reachable s s' -> wf s'.
Proof.
  intros Hwf. induction 1 as [|s1 a s2 _ IH [a' fuel s2' _ Hex]]; [done|].
  pose proof (wf_exec fuel a' s1 IH) as H. by rewrite Hex in H.
Qed.

(** ** Loading the module *)

(** The state before the module is loaded. *)
Definition unloaded (s : st) : Prop := st_srv s = SrvNull /\ st_cons s = ∅.

Definition empty_srv (v : server) : Prop :=
  srv_htable v = replicate (Z.to_nat PEPDNA_HASH_BITS) [] /\ srv_conns v = 0.

(** No connection yet, and a server without any. *)
Definition booted (s : st) : Prop :=
  st_cons s = ∅ /\ exists v, st_srv s = SrvLive v /\ empty_srv v.

#[global] Instance booted_env : EnvFree booted := fun _ _ _ => eq_refl.

Lemma booted_wf s : booted s -> wf s.
Proof.
  intros [Hc (v & Hv & Ht & Hn)]. split; [rewrite Hc; by intros c [k Hk]|].
  intros v' Hv'. replace v' with v by congruence. split; rewrite ?Ht, ?Hn, ?Hc.
  - by rewrite length_replicate.
  - constructor.
  - intros i b c Hi. apply lookup_replicate in Hi as [-> _]. by intros ?%elem_of_nil.
  - done.
Qed.

Lemma booted_upd_srv f :
  (forall v, srv_htable (f v) = srv_htable v) -> (forall v, srv_conns (f v) = srv_conns v) ->
  maintains booted (upd_srv f).
Proof.
  intros H1 H2. apply maintains_preserves, stable_upd_srv.
  intros s v [Hc (v' & Hv' & Ht & Hn)] Hv. assert (v' = v) as -> by congruence. split; [done|].
  eexists. split; [done|]. split; by rewrite ?H1, ?H2.
Qed.

Lemma booted_modify f :
  (forall s, st_cons (f s) = st_cons s) -> (forall s, st_srv (f s) = st_srv s) ->
  maintains booted (modify f).
Proof. intros H1 H2 s Hs. unfold booted. cbn. by rewrite H1, H2. Qed.

Lemma booted_upd_sock a f : maintains booted (upd_sock a f).
Proof. apply maintains_preserves, stable_upd_sock. by intros s m. Qed.

Lemma booted_sock_release a : maintains booted (sock_release a).
Proof. apply maintains_preserves, stable_sock_release; [apply _|]. by intros s m. Qed.

Lemma booted_fresh : maintains booted fresh_addr.
Proof. by intros s Hs. Qed.
End MaintainEntries.

#[export] Hint Resolve booted_upd_sock booted_sock_release booted_fresh : maint.
#[export] Hint Extern 2 (maintains booted (upd_srv _)) =>
  apply booted_upd_srv; by intros [] : maint.
#[export] Hint Extern 2 (maintains booted (modify _)) =>
  apply booted_modify; by intros [] : maint.

Section Load.
Context `{P : Platform}.

Lemma booted_work_init : maintains booted pepdna_work_init.
Proof. unfold pepdna_work_init, unwind_wq, alloc_workqueue. maint. Qed.

Lemma booted_work_stop : maintains booted pepdna_work_stop.
Proof. unfold pepdna_work_stop, stop_wq. maint. Qed.

Lemma booted_listen_init : maintains booted pepdna_tcp_listen_init.
Proof.
  unfold pepdna_tcp_listen_init, pepdna_ip_transparent, pepdna_tcp_nonagle,
    pepdna_tcp_nodelayedack, pepdna_set_bufsize, new_sock. maint.
Qed.

Lemma booted_netlink : maintains booted pepdna_netlink_init /\ maintains booted pepdna_netlink_stop.
Proof. unfold pepdna_netlink_init, pepdna_netlink_stop. split; maint. Qed.

Lemma booted_start mode start : start_mode mode = Some start -> maintains booted start.
Proof.
  destruct booted_netlink as [Hn1 Hn2]. pose proof booted_work_init as Hw1.
  pose proof booted_work_stop as Hw2. pose proof booted_listen_init as Hl.
  unfold start_mode. repeat case_match; intros [= <-];
    unfold pepdna_i2i_start, pepdna_i2r_start, pepdna_i2c_start, pepdna_i2m_start,
      pepdna_r2i_start, pepdna_m2i_start, pepdna_r2r_start, pepdna_c2i_start,
      pepdna_c2c_start, init_accept_work; maint; done.
Qed.

Lemma boot_init : hoare (fun s => st_cons s = ∅) init_pepdna_server (fun _ => booted).
Proof.
  unfold init_pepdna_server.
  apply (hoare_bind _ _ _ (fun _ => booted)).
  { intros s Hs. cbn. split; [exact Hs|]. by exists zero_server. }
  intros _. apply maintains_then; [maint|]. intros _.
  apply maintains_then; [maint|]. intros _.
  apply maintains_then; [maint|]. intros _.
  do 5 (apply maintains_then; [maint|]; intros _).
  apply maintains_then.
  { apply maintains_preserves, stable_upd_srv. intros s v [Hc (v' & Hv' & Ht & _)] Hv.
    assert (v' = v) as -> by congruence. split; [done|]. by eexists. }
  intros _ s [Hc (v & Hv & _ & Hn)]. rewrite (upd_srv_run _ _ _ Hv). split; [done|].
  by eexists.
Qed.

(** No connection and no live server. *)
Definition not_started (s : st) : Prop :=
  st_cons s = ∅ /\ (st_srv s = SrvNull \/ st_srv s = SrvFreed).

Lemma server_start_spec :
  hoare (fun s => unloaded s) pepdna_server_start
    (fun rc s => (rc = 0 /\ booted s) \/ (rc < 0 /\ not_started s)).
Proof.
  unfold pepdna_server_start. set (J := fun s => unloaded s).
  assert (EnvFree J) by (intros ? ? ?; reflexivity).
  apply (maintains_then J); [by apply maintains_call|]. intros []; cbn [negb]; last first.
  { intros s [? ?]. right. split; [done|]. split; auto. }
  apply (hoare_bind _ _ _ (fun _ => booted)).
  { eapply hoare_conseq; [apply boot_init | by intros s [] | done]. }
  assert (hoare booted err_start (fun rc s => rc < 0 /\ not_started s)) as Herr.
  { unfold err_start. apply maintains_then; [maint|]. intros _ s [Hc _]. cbn.
    split; [lia|]. split; [exact Hc | by right]. }
  intros _ s Hb. destruct Hb as [Hc (v & Hv & He)] eqn:Eb.
  rewrite (bind_Ret _ _ _ _ _ (get_srv_run _ _ Hv)).
  destruct (start_mode (srv_mode v)) as [start|] eqn:Es.
  - unfold bind. pose proof (booted_start _ _ Es s Hb) as H1.
    destruct (start s) as [rc s1| |]; [|done|done].
    destruct (rc <? 0) eqn:E; [|left; by split].
    specialize (Herr s1 H1). destruct (err_start s1); [by right | done | done].
  - specialize (Herr s Hb). destruct (err_start s); [by right | done | done].
Qed.

Lemma init_spec :
  hoare unloaded pepdna_init
    (fun rc s => (rc = 0 /\ booted s) \/ (rc <> 0 /\ not_started s)).
Proof.
  unfold pepdna_init. set (J := fun s => unloaded s).
  assert (EnvFree J) by (intros ? ? ?; reflexivity).
  do 2 (apply (maintains_then J); [by apply maintains_modify|]; intros _).
  apply (maintains_then J).
  { unfold pepdna_register_sysctl. maint. }
  intros rc. destruct (truth rc) eqn:Erc.
  { intros s [? ?]. right. split; [|by split; auto].
    intros ->. discriminate. }
  eapply hoare_bind; [apply server_start_spec|]. intros rc'; cbv beta.
  intros s Hs. destruct (rc' <? 0) eqn:E.
  - destruct Hs as [[-> _]|[_ Hn]]; [discriminate|].
    unfold pepdna_unregister_sysctl, when, bind. destruct (CONFIG_SYSCTL cfg).
    + destruct (call_total UnregisterNetSysctl s) as (r & e & ->). cbn. right.
      split; [intros ->; discriminate | exact Hn].
    + cbn. right. split; [intros ->; discriminate | exact Hn].
  - destruct Hs as [[_ Hb]|[? _]]; [|lia]. cbn. by left.
Qed.

End Load.
