(* ===== verification/TableClaims.v ===== *)
(** What the connection table promises: it is well-formed in every state the
    loaded module reaches, a lookup is exact, a new connection is found, and the
    last reference removes a connection and nothing else. *)

From Stdlib Require Import ZArith Lia.
From stdpp Require Import base list gmap.
From S2P Require Import Prelude Ints Types Setters Kernel Hash TcpUtils Rtxq Connection Tcp.
From S2P Require Import Netlink Minip Rina Ccn TcpListen TcpConnect Server Core System.
From S2P Require Import Frame Table TableOps Alloc Invariant Sample SampleRun.
Open Scope Z_scope.

(** ** Release of the last reference *)

Section Release.
Context `{P : Platform}.

(** The sockets a connection owns are alive, and they are two. *)
Definition owns_socks (s : st) (k : con) : Prop :=
  (forall a, con_lsock k = Some a -> is_Some (st_socks s !! a)) /\
  (forall a, con_rsock k = Some a -> is_Some (st_socks s !! a)) /\
  (forall a, con_lsock k = Some a -> con_rsock k <> Some a).

Lemma sock_release_run a s :
  is_Some (st_socks s !! a) ->
  exists tr e, sock_release a s =
    Ret tt (set_st_socks (delete a (st_socks s)) (set_st_trace tr (set_st_env e s))).
Proof.
  intros [k Hk]. unfold sock_release, bind. rewrite Hk.
  destruct (call_total (SockRelease a) s) as ([] & e & ->). by eexists _, _.
Qed.

(** One side of the release: the socket of that side is gone, the connection's
    pointer to it is cleared, and nothing else changes but trace and environment. *)
Definition side_gone (side : con -> option positive)
    (clear : option positive -> con -> con) (c : positive) (k : con) (s s' : st) : Prop :=
  st_srv s' = st_srv s /\
  st_cons s' = (match side k with
                | Some _ => <[c := clear None k]> (st_cons s)
                | None => st_cons s end) /\
  st_socks s' = (match side k with
                 | Some a => delete a (st_socks s)
                 | None => st_socks s end).

Lemma release_side_run side clear c k s :
  st_cons s !! c = Some k ->
  (forall a, side k = Some a -> is_Some (st_socks s !! a)) ->
  exists s', release_side side clear c s = Ret tt s' /\ side_gone side clear c k s s'.
Proof.
  intros Hk Ha. unfold release_side. rewrite (bind_Ret _ _ _ _ _ (get_con_run _ _ _ Hk)).
  unfold side_gone. destruct (side k) as [a|]; [|by exists s].
  destruct (sock_release_run a s (Ha a eq_refl)) as (tr & e & Hr).
  rewrite (bind_Ret _ _ _ _ _ Hr). erewrite upd_con_run by exact Hk.
  eexists. by split_and!.
Qed.

Lemma con_put_last s v c k :
  wf s -> st_srv s = SrvLive v -> listed v c -> st_cons s !! c = Some k ->
  con_kref k = 1 -> owns_socks s k ->
  exists s' v', pepdna_con_put (Some c) s = Ret tt s' /\
    st_srv s' = SrvLive v' /\ st_cons s' = delete c (st_cons s) /\
    (forall d, listed v' d <-> listed v d /\ d <> c) /\ srv_conns v' = srv_conns v - 1 /\
    (forall a, con_lsock k = Some a \/ con_rsock k = Some a -> st_socks s' !! a = None).
Proof.
  intros Hwf Hv Hin Hk Hkr (Hl & Hr & Hne). unfold pepdna_con_put.
  rewrite (bind_Ret _ _ _ _ _ (get_con_run _ _ _ Hk)), Hkr. change (0 <? 1) with true.
  cbv iota. unfold bind at 1. rewrite (upd_con_run _ _ _ _ Hk). unfold when.
  change (1 - 1 =? 0) with true. cbv iota. set (k1 := set_con_kref (1 - 1) k).
  set (s1 := set_st_cons _ s). unfold pepdna_con_kref_release.
  destruct (release_side_run con_lsock set_con_lsock c k1 s1) as (s2 & H2 & Hv2 & Hc2 & Hs2);
    [cbn; by rewrite lookup_insert_eq | exact Hl|].
  rewrite (bind_Ret _ _ _ _ _ H2).
  set (k2 := match con_lsock k1 with Some _ => set_con_lsock None k1 | None => k1 end).
  assert (st_cons s2 !! c = Some k2) as Hk2.
  { rewrite Hc2. unfold k2. destruct (con_lsock k1); cbn; by rewrite lookup_insert_eq. }
  assert (con_rsock k2 = con_rsock k) as Hrk by (unfold k2; by destruct (con_lsock k1)).
  destruct (release_side_run con_rsock set_con_rsock c k2 s2) as (s3 & H3 & Hv3 & Hc3 & Hs3);
    [done| |].
  { intros a Ha. rewrite Hrk in Ha. rewrite Hs2. change (con_lsock k1) with (con_lsock k).
    destruct (con_lsock k) as [b|]; [|by apply Hr].
    rewrite lookup_delete_ne by (intros ->; by eapply Hne). by apply Hr. }
  rewrite (bind_Ret _ _ _ _ _ H3).
  assert (st_srv s3 = SrvLive v) as Hv' by by rewrite Hv3, Hv2.
  unfold hlist_del, bind at 1. rewrite (bind_Ret _ _ _ _ _ (get_srv_run _ _ Hv')).
  rewrite decide_True by exact Hin. rewrite (upd_srv_run _ _ _ Hv').
  unfold bind at 1. match goal with |- context [call ?cc ?ss] =>
    destruct (call_total cc ss) as ([] & e & ->) end.
  unfold bind at 1, modify. erewrite upd_srv_run by reflexivity.
  eexists _, _. split_and!; [reflexivity|reflexivity| | | |].
  - cbn. rewrite Hc3, Hc2. change (con_lsock k1) with (con_lsock k). rewrite Hrk.
    apply map_eq. intros d. destruct (decide (d = c)) as [->|Hd];
      [by rewrite !lookup_delete_eq|].
    destruct (con_rsock k), (con_lsock k);
      rewrite !lookup_delete_ne by done; cbn; by rewrite !lookup_insert_ne by done.
  - intros d. unfold listed. cbn. rewrite concat_filter, list_elem_of_filter. tauto.
  - done.
  - intros a Ha. cbn. rewrite Hs3, Hs2, Hrk. change (con_lsock k1) with (con_lsock k).
    destruct Ha as [Ha|Ha]; rewrite Ha; cbn.
    + destruct (con_rsock k) as [b|]; [|by rewrite lookup_delete_eq].
      destruct (decide (b = a)) as [->|]; [by rewrite lookup_delete_eq|].
      rewrite lookup_delete_ne by done. by rewrite lookup_delete_eq.
    + by rewrite lookup_delete_eq.
Qed.

End Release.

(** ** Well-formed sample states *)

Lemma loaded_booted f input :
  @pepdna_init (sample f) (unloaded_st f input) = Ret 0 (loaded f input) ->
  booted (loaded f input).
Proof.
  intros H. pose proof (@init_spec (sample f) (unloaded_st f input)) as Hi.
  rewrite H in Hi. destruct Hi as [[_ ?]|[? _]]; [by split|done|done].
Qed.

Lemma after_wf f a (s : @st (sample f)) :
  wf s -> @exec (sample f) 100 a s = Ret tt (after a s) -> wf (after a s).
Proof.
  intros Hs Hx. pose proof (@wf_exec (sample f) 100 a s Hs) as H. by rewrite Hx in H.
Qed.

Lemma loaded_tcp_wf input : wf (loaded tcp_build input).
Proof. apply booted_wf, loaded_booted. vm_compute. reflexivity. Qed.

Lemma syn1_wf input : wf (after (ASyn syn1) (loaded tcp_build input)).
Proof. apply after_wf; [apply loaded_tcp_wf|]. vm_compute. reflexivity. Qed.

Lemma tcp_pair_wf input : wf (tcp_pair input).
Proof.
  pose proof (@wfg_upd_con (sample tcp_build) None 0 6 both_sides ltac:(done) ltac:(done)
    (after (ASyn syn1) (loaded tcp_build input)) (syn1_wf input)) as H.
  unfold tcp_pair. destruct (upd_con 6 both_sides _) eqn:E; [exact H|..];
    exfalso; revert E; vm_compute; discriminate.
Qed.

(** ** The claims *)

Section Claims.
Context `{P : Platform}.

(** C8: from a module that was loaded successfully, whatever packets, frames,
    netlink messages, socket events, timers and queued works follow in any
    order, the connection table is well-formed: nine buckets, every connection
    listed once, in the bucket of its identifier, allocated and with a positive
    reference count, and the connection counter equal to the number of listed
    connections. *)
Theorem table_always_wf s0 s1 s2 :
  unloaded s0 -> pepdna_init s0 = Ret 0 s1 -> reachable s1 s2 -> wf s2.
Proof.
  intros Hu Hi Hr. pose proof (init_spec s0 Hu) as H. rewrite Hi in H.
  destruct H as [[_ H]|[H _]]; [|done]. eapply wf_reachable; [by apply booted_wf | done].
Qed.

(** C20: on a well-formed table the lookup neither faults nor changes anything,
    returns a listed connection with the identifier if there is one, and NULL
    only if there is none. *)
Theorem lookup_exact `{!HashMinLaw P} s v key :
  wf s -> st_srv s = SrvLive v ->
  exists r, pepdna_con_find key s = Ret r s /\
    match r with
    | Some c => has_id s v key c
    | None => forall c, ~ has_id s v key c
    end.
Proof. apply con_find_spec. Qed.

(** C18: when pepdna_con_alloc on a well-formed table returns a connection that is still
    allocated, every
    field of it is as [fresh_con] says (one reference, the works of the server's mode,
    its tuple, identifier and time stamp, the copy of the packet, the RINA port, the
    initial MINIP numbers, window, timeout and an own retransmission queue, and zero
    everywhere else), its connect work is queued, and the lookup of its identifier
    finds it.  When the work queue refused the connect work, the last thing that
    happened is that the connection was freed: it is not listed, and the returned
    pointer dangles. *)
Theorem alloc_then_found syn skb hash_id ts port_id v0 s c s' :
  wf s -> st_srv s = SrvLive v0 ->
  pepdna_con_alloc syn skb hash_id ts port_id s = Ret (Some c) s' ->
  match st_cons s' !! c with
  | Some k =>
      exists w, con_works cfg (srv_mode v0) = Some w /\
        con_fresh syn skb hash_id ts port_id w k /\ TcfaWork c ∈ st_pending s' /\
        pepdna_con_find (u32 hash_id) s' = Ret (Some c) s'
  | None => alloc_refused c s'
  end.
Proof. apply con_alloc_found. Qed.

(** C19: dropping the last reference of a listed connection succeeds, frees the
    connection and the sockets it owns, unlists it and decrements the counter,
    and leaves every other connection listed. *)
Theorem last_put_removes s v c k :
  wf s -> st_srv s = SrvLive v -> listed v c -> st_cons s !! c = Some k ->
  con_kref k = 1 -> owns_socks s k ->
  exists s' v', pepdna_con_put (Some c) s = Ret tt s' /\
    st_srv s' = SrvLive v' /\ st_cons s' = delete c (st_cons s) /\
    (forall d, listed v' d <-> listed v d /\ d <> c) /\ srv_conns v' = srv_conns v - 1 /\
    (forall a, con_lsock k = Some a \/ con_rsock k = Some a -> st_socks s' !! a = None).
Proof. apply con_put_last. Qed.

End Claims.

(** ** Witnesses *)

Lemma table_always_wf_witness :
  wf (after (ASyn syn1) (loaded tcp_build [])).
Proof.
  apply (@table_always_wf (sample tcp_build) (unloaded_st tcp_build []) (loaded tcp_build [])).
  - by split.
  - vm_compute. reflexivity.
  - eapply reach_step; [apply reach_refl|]. apply (step_exec _ (ASyn syn1) 100); [done|].
    vm_compute. reflexivity.
Defined.

Definition the_srv {f} (s : @st (sample f)) : server :=
  match st_srv s with SrvLive v => v | _ => zero_server end.

Lemma lookup_exact_witness :
  exists r, @pepdna_con_find (sample tcp_build) syn1_id
      (after (ASyn syn1) (loaded tcp_build []))
    = Ret r (after (ASyn syn1) (loaded tcp_build [])) /\
    match r with
    | Some c => has_id (after (ASyn syn1) (loaded tcp_build []))
        (the_srv (after (ASyn syn1) (loaded tcp_build []))) syn1_id c
    | None => forall c, ~ has_id (after (ASyn syn1) (loaded tcp_build []))
        (the_srv (after (ASyn syn1) (loaded tcp_build []))) syn1_id c
    end.
Proof.
  apply (@lookup_exact (sample tcp_build)); [apply _ | apply syn1_wf | vm_compute; reflexivity].
Defined.

Definition alloc1 : outcome (@st (sample tcp_build)) (option positive) :=
  @pepdna_con_alloc (sample tcp_build) syn1_tuple None syn1_id 5 0 (loaded tcp_build []).

Lemma alloc_then_found_witness :
  exists w k, con_works tcp_build 0 = Some w /\
    st_cons (state_of (loaded tcp_build []) alloc1) !! 6%positive = Some k /\
    @con_fresh (sample tcp_build) syn1_tuple None syn1_id 5 0 w k.
Proof.
  pose proof (@alloc_then_found (sample tcp_build) syn1_tuple None syn1_id 5 0
    (the_srv (loaded tcp_build [])) (loaded tcp_build []) 6%positive
    (state_of (loaded tcp_build []) alloc1) (loaded_tcp_wf [])
    ltac:(vm_compute; reflexivity) ltac:(vm_compute; reflexivity)) as H.
  destruct (st_cons (state_of (loaded tcp_build []) alloc1) !! 6%positive) as [k|] eqn:Hk.
  - destruct H as (w & H1 & H2 & _). exists w, k. split; [exact H1|]. split; [done|exact H2].
  - exfalso. revert Hk. vm_compute. discriminate.
Defined.

(** The sample platform, but no work queue takes a work. *)
Definition refusing_call (R : Type) (c : kE R) (e : list (list Z)) : R * list (list Z) :=
  match c in kE R return R * list (list Z) with
  | QueueWork _ _ => (false, e)
  | c' => sample_call _ c' e
  end.
Definition refusing (f : config) : Platform := {|
  E := list (list Z); kcall := refusing_call; hash_min := sample_hash_min; cfg := f
|}.
Definition refusing_loaded : @st (refusing tcp_build) :=
  let s := loaded tcp_build [] in
  @mkSt (refusing tcp_build) [] [] (st_srv s) (st_cons s) (st_socks s) (st_rtxqs s) (st_skbs s)
    (st_next s) (st_pending s) (st_nl_sock s) (st_nl_port_id s) (st_nl_mode s)
    (st_request_done s) (st_rmem s) (st_wmem s).

(** There the returned pointer is the one of a connection that was just freed. *)
Lemma refused_alloc_dangles :
  exists s', @pepdna_con_alloc (refusing tcp_build) syn1_tuple None syn1_id 5 0 refusing_loaded
      = Ret (Some 6%positive) s' /\ st_cons s' = ∅.
Proof. eexists. split; vm_compute; reflexivity. Qed.

Lemma last_put_removes_witness :
  exists s' v', @pepdna_con_put (sample tcp_build) (Some 6%positive) (tcp_pair []) = Ret tt s' /\
    st_srv s' = SrvLive v' /\ srv_conns v' = 0 /\ st_socks s' !! 101%positive = None.
Proof.
  destruct (@last_put_removes (sample tcp_build) (tcp_pair []) (the_srv (tcp_pair []))
    6%positive (default zero_con (st_cons (tcp_pair []) !! 6%positive)))
    as (s' & v' & H1 & H2 & _ & _ & H3 & H4).
  - apply tcp_pair_wf.
  - vm_compute. reflexivity.
  - apply elem_of_concat_lookup. exists 2%nat, [6%positive]. split; [vm_compute; reflexivity|].
    by left.
  - vm_compute. reflexivity.
  - vm_compute. reflexivity.
  - split_and!; vm_compute; intros a [= <-]; [eauto | eauto | discriminate].
  - exists s', v'. split; [exact H1|]. split; [exact H2|]. split.
    + rewrite H3. vm_compute. reflexivity.
    + apply H4. left. vm_compute. reflexivity.
Defined.
