(* ===== verification/HookClaims.v ===== *)
(** The netfilter hook: which packets it lets pass, which it steals and drops,
    and the identifier it computes. *)

From Stdlib Require Import ZArith Lia.
From stdpp Require Import base list gmap.
From S2P Require Import Prelude Ints Types Setters Kernel Hash TcpUtils Rtxq Connection Tcp.
From S2P Require Import Netlink Minip Rina Ccn TcpListen TcpConnect Server Core System.
From S2P Require Import Frame RtxqProps Table TableOps Alloc Invariant Sample SampleRun TableClaims.
Open Scope Z_scope.

(** The identifier of a packet's client. *)
Definition skb_id (skb : sk_buff) : Z := pepdna_hash32_rjenkins1_2 (skb_saddr skb) (skb_source skb).

Lemma skb_id_u32 skb : is_u32 (skb_id skb).
Proof. exact (hash32_u32 (skb_saddr skb) (skb_source skb)). Qed.

(** The packet is for the proxy: a first SYN, not one of the proxy's own sockets on
    the same host, and not for SSH. *)
Definition for_proxy (f : config) (skb : sk_buff) : Prop :=
  is_syn skb = true /\
  ((CONFIG_PEPDNA_LOCAL_SENDER f || CONFIG_PEPDNA_LOCAL_RECEIVER f)
     && (skb_mark skb =? PEPDNA_SOCK_MARK)) = false /\
  ntohs (skb_dest skb) <> SSH_PORT.

#[global] Instance for_proxy_dec f skb : Decision (for_proxy f skb).
Proof. unfold for_proxy. apply _. Defined.

Section Hook.
Context `{P : Platform}.

(** The hook on a packet for the proxy. *)
Lemma hook_eq skb s :
  for_proxy cfg skb ->
  pepdna_pre_hook (Some skb) s =
  (do con <- pepdna_con_find (skb_id skb);
   match con with
   | None => hook_new_con skb (skb_id skb)
   | Some c =>
       do k <- get_con c;
       if negb (skb_tstamp skb =? con_ts k) then ret NF_DROP else ret NF_ACCEPT
   end) s.
Proof.
  intros (H1 & H2 & H3). unfold pepdna_pre_hook, skb_id. rewrite H1, H2.
  rewrite (proj2 (Z.eqb_neq _ _) H3). reflexivity.
Qed.

Lemma hook_found skb s c k :
  for_proxy cfg skb -> pepdna_con_find (skb_id skb) s = Ret (Some c) s ->
  st_cons s !! c = Some k ->
  pepdna_pre_hook (Some skb) s =
    Ret (if skb_tstamp skb =? con_ts k then NF_ACCEPT else NF_DROP) s.
Proof.
  intros Hp Hf Hk. rewrite hook_eq by done. rewrite (bind_Ret _ _ _ _ _ Hf).
  rewrite (bind_Ret _ _ _ _ _ (get_con_run _ _ _ Hk)).
  by destruct (skb_tstamp skb =? con_ts k).
Qed.

(** What the hook does after the allocation: it frees the tuple, and the packet unless
    the sender is on the same host. *)
Definition hook_done : list event :=
  Ev Kfree tt :: if CONFIG_PEPDNA_LOCAL_SENDER cfg then [] else [Ev ConsumeSkb tt].

(** A new connection of the hook: its allocation and what is left to do. *)
Lemma hook_stolen skb s s' :
  hook_new_con skb (skb_id skb) s = Ret NF_STOLEN s' ->
  exists ts s1 c s2, same_state s s1 /\
    pepdna_con_alloc (mkSyn (skb_saddr skb) (skb_source skb) (skb_daddr skb) (skb_dest skb))
      (Some (set_skb_tstamp (u64 ts) skb)) (skb_id skb) (u64 ts) 0 s1 = Ret (Some c) s2 /\
    same_state s2 s' /\ grew s2 s' hook_done.
Proof.
  unfold hook_new_con, bind. call_out. destruct r; cbn [negb]; [|discriminate]. call_out.
  match goal with |- context [pepdna_con_alloc ?a ?b ?c ?d ?e ?x] =>
    destruct (pepdna_con_alloc a b c d e x) as [[c0|] s2| |] eqn:Hal end;
    [|call_out; discriminate|discriminate|discriminate].
  call_out. unfold when. intros Hrun. eexists _, _, c0, s2.
  refine (conj _ (conj Hal _)); [by split|]. unfold hook_done.
  destruct r0, (CONFIG_PEPDNA_LOCAL_SENDER cfg); cbn [negb] in Hrun.
  - injection Hrun as <-. split; [by split|]. done.
  - revert Hrun. call_out. destruct r0. intros [= <-]. split; [by split|].
    unfold grew. cbn. by rewrite <- app_assoc.
Qed.

Lemma wf_same s s' : same_state s s' -> wf s -> wf s'.
Proof.
  intros [(Hc & Hs & _ & _ & _ & Hn) _] Hw. unfold wf, wfg. by rewrite Hc, Hs, Hn.
Qed.

(** The lookup reads only the table. *)
Lemma con_find_same key s s' r :
  same_state s s' -> pepdna_con_find key s = Ret r s -> pepdna_con_find key s' = Ret r s'.
Proof.
  intros [(Hc & Hs & _) _]. unfold pepdna_con_find, bind, get_srv. rewrite Hs.
  destruct (st_srv s) as [|v|]; try done. destruct (srv_htable v !! pepdna_hash key) as [l|]; [|done].
  induction l as [|c l IH]; cbn; [by intros [= <-]|].
  unfold bind, get_con. rewrite Hc. destruct (st_cons s !! c) as [k|]; [|done].
  destruct (con_id k =? key); [by intros [= <-] | exact IH].
Qed.

End Hook.

Section Claims.
Context `{P : Platform}.

(** The hook is transparent to everything but first SYN packets of foreign
    connections: any other packet (not TCP, no SYN, a SYN-ACK, a reset, an SSH
    connection, a marked packet of the proxy's own sockets) passes and leaves the
    module's state as it is. *)
Theorem hook_passes_others skb s :
  ~ for_proxy cfg skb -> pepdna_pre_hook (Some skb) s = Ret NF_ACCEPT s.
Proof.
  intros Hn. unfold pepdna_pre_hook. destruct (is_syn skb) eqn:E1; [|done].
  destruct (_ && _) eqn:E2; [done|]. destruct (ntohs (skb_dest skb) =? SSH_PORT) eqn:E3; [done|].
  destruct Hn. split_and!; [done | done | lia].
Qed.

(** A SYN whose client has a connection: it passes if it carries the time
    stamp the connection was created with (the packet the proxy reinjects) and is
    dropped otherwise (a retransmission); nothing changes. *)
Theorem hook_known_client `{!HashMinLaw P} skb s v :
  wf s -> st_srv s = SrvLive v -> for_proxy cfg skb ->
  (exists c, has_id s v (skb_id skb) c) ->
  exists c k, has_id s v (skb_id skb) c /\ st_cons s !! c = Some k /\
    pepdna_pre_hook (Some skb) s =
      Ret (if skb_tstamp skb =? con_ts k then NF_ACCEPT else NF_DROP) s.
Proof.
  intros Hwf Hv Hp [c0 Hc0]. destruct (con_find_spec s v (skb_id skb) Hwf Hv) as (r & Hr & Hpost).
  destruct r as [c|]; [|exfalso; exact (Hpost c0 Hc0)]. destruct Hpost as [Hl (k & Hk & Hid)].
  exists c, k. split; [exact (conj Hl (ex_intro _ k (conj Hk Hid)))|].
  split; [exact Hk|]. exact (hook_found skb s c k Hp Hr Hk).
Qed.

(** C17: a SYN that the hook steals, on a well-formed table: the client had no connection, and one was
    allocated.  While it is allocated it has the packet's addresses and ports, its
    connect work is queued, and from then on a SYN from the same client address and
    port passes the hook if it has the time stamp stored in the connection, and is
    dropped with any other, whatever its destination is: the identifier does not
    depend on the destination.  When the work queue refused the connect work in this
    very run, the hook ends by freeing the connection, the tuple and the packet, and
    the connection is not listed. *)
Theorem hook_steals_new `{!HashMinLaw P} skb s v s' :
  wf s -> st_srv s = SrvLive v -> for_proxy cfg skb ->
  pepdna_pre_hook (Some skb) s = Ret NF_STOLEN s' ->
  (forall c, ~ has_id s v (skb_id skb) c) /\
  exists c, match st_cons s' !! c with
  | Some k =>
      con_tuple k = mkSyn (skb_saddr skb) (skb_source skb) (skb_daddr skb) (skb_dest skb) /\
      TcfaWork c ∈ st_pending s' /\
      forall skb2, for_proxy cfg skb2 -> skb_saddr skb2 = skb_saddr skb ->
        skb_source skb2 = skb_source skb ->
        pepdna_pre_hook (Some skb2) s' =
          Ret (if skb_tstamp skb2 =? con_ts k then NF_ACCEPT else NF_DROP) s'
  | None =>
      (exists q tr, st_trace s' =
         tr ++ [Ev (QueueWork q (TcfaWork c)) false; Ev Kfree tt] ++ hook_done) /\
      forall v', st_srv s' = SrvLive v' -> ~ listed v' c
  end.
Proof.
  intros Hwf Hv Hp Hrun. destruct (con_find_spec s v (skb_id skb) Hwf Hv) as (r & Hr & Hpost).
  rewrite hook_eq in Hrun by done. rewrite (bind_Ret _ _ _ _ _ Hr) in Hrun.
  destruct r as [c0|].
  { exfalso. destruct Hpost as [_ (k & Hk & _)].
    rewrite (bind_Ret _ _ _ _ _ (get_con_run _ _ _ Hk)) in Hrun. by destruct (negb _) in Hrun. }
  split; [done|].
  apply hook_stolen in Hrun as (ts & s1 & c & s2 & H1 & Hal & H2 & Hg). exists c.
  assert (st_srv s1 = SrvLive v) as Hv1 by (destruct H1 as [(_ & -> & _) _]; done).
  pose proof (con_alloc_found _ _ _ _ _ v _ _ _ (wf_same _ _ H1 Hwf) Hv1 Hal) as Hnew.
  pose proof H2 as [(Hc2 & Hs2 & _ & _ & Hp2 & _) _]. rewrite Hc2.
  destruct (st_cons s2 !! c) as [k|] eqn:Hk.
  - destruct Hnew as (w & _ & (copy & q & -> & _) & Hpend & Hfind).
    rewrite Hp2. split; [done|]. split; [done|].
    intros skb2 Hp2' Ha Hs. assert (skb_id skb2 = skb_id skb) as Eid.
    { unfold skb_id. by rewrite Ha, Hs. }
    rewrite (u32_small (skb_id skb) (skb_id_u32 skb)) in Hfind. rewrite <- Eid in Hfind.
    apply (hook_found _ s' c _ Hp2' (con_find_same _ _ _ _ H2 Hfind)). by rewrite Hc2.
  - destruct Hnew as [(q & tr & Htr) Hn]. rewrite Hs2. split; [|done].
    exists q, tr. by rewrite Hg, Htr, <- app_assoc.
Qed.

End Claims.

(** The mixing step of the hash loses nothing: from its three results the
    three 32-bit inputs can be computed back, so two different inputs never give
    the same three words. *)
Theorem hashmix_invertible a b c :
  is_u32 a -> is_u32 b -> is_u32 c ->
  (let '(a', b', c') := pepdna_hashmix a b c in hashunmix a' b' c') = (a, b, c).
Proof. apply hashmix_roundtrip. Qed.

(** ** Witnesses *)

(** The same packet to port 22. *)
Definition ssh1 : sk_buff :=
  mkSkb IPPROTO_TCP (htonl 0x0a000001) (htonl 0x0a000002) (htons 40000) (htons 22)
    true false false 0 0.

Lemma hook_passes_others_witness :
  @pepdna_pre_hook (sample tcp_build) (Some ssh1) (loaded tcp_build [])
    = Ret NF_ACCEPT (loaded tcp_build []).
Proof.
  apply (@hook_passes_others (sample tcp_build)). intros (_ & _ & H). apply H.
  vm_compute. reflexivity.
Defined.

Lemma syn1_for_proxy : for_proxy tcp_build syn1.
Proof. split_and!; vm_compute; [reflexivity | reflexivity | discriminate]. Qed.

Lemma hook_known_client_witness :
  exists c k, st_cons (after (ASyn syn1) (loaded tcp_build [])) !! c = Some k /\
    @pepdna_pre_hook (sample tcp_build) (Some syn1) (after (ASyn syn1) (loaded tcp_build []))
    = Ret (if skb_tstamp syn1 =? con_ts k then NF_ACCEPT else NF_DROP)
        (after (ASyn syn1) (loaded tcp_build [])).
Proof.
  destruct (@hook_known_client (sample tcp_build) _ syn1 (after (ASyn syn1) (loaded tcp_build []))
    (the_srv (after (ASyn syn1) (loaded tcp_build [])))) as (c & k & _ & H1 & H2).
  - apply syn1_wf.
  - vm_compute. reflexivity.
  - exact syn1_for_proxy.
  - exists 6%positive. split.
    + apply elem_of_concat_lookup. exists 2%nat, [6%positive].
      split; [vm_compute; reflexivity | by left].
    + eexists. split; vm_compute; reflexivity.
  - exists c, k. split; [exact H1 | exact H2].
Defined.

Definition steal1 : outcome (@st (sample tcp_build)) verdict :=
  @pepdna_pre_hook (sample tcp_build) (Some syn1) (loaded tcp_build []).

Definition stolen1 : @st (sample tcp_build) := state_of (loaded tcp_build []) steal1.

Lemma hook_steals_new_witness :
  exists c, match st_cons stolen1 !! c with
  | Some k => con_tuple k =
      mkSyn (skb_saddr syn1) (skb_source syn1) (skb_daddr syn1) (skb_dest syn1)
  | None => exists q tr, st_trace stolen1 = tr ++
      [Ev (QueueWork q (TcfaWork c)) false; Ev Kfree tt] ++ @hook_done (sample tcp_build)
  end.
Proof.
  destruct (@hook_steals_new (sample tcp_build) _ syn1 (loaded tcp_build [])
    (the_srv (loaded tcp_build [])) stolen1) as [_ [c H]].
  - apply loaded_tcp_wf.
  - vm_compute. reflexivity.
  - exact syn1_for_proxy.
  - vm_compute. reflexivity.
  - exists c. destruct (st_cons stolen1 !! c); exact (proj1 H).
Defined.

Lemma hashmix_invertible_witness :
  (let '(a', b', c') := pepdna_hashmix 1 2 3 in hashunmix a' b' c') = (1, 2, 3).
Proof. apply hashmix_invertible; vm_compute; by split. Defined.
