(* ===== verification/ServerClaims.v ===== *)
(** Starting and stopping: the work queues, and the frames and packets the
    handlers cannot place. *)

From Stdlib Require Import ZArith Lia.
From stdpp Require Import base list gmap.
From S2P Require Import Prelude Ints Types Setters Kernel Hash TcpUtils Rtxq Connection Tcp.
From S2P Require Import Netlink Minip Rina Ccn TcpListen TcpConnect Server Core System.
From S2P Require Import Frame RtxqProps Table TableOps Alloc Invariant Sample SampleRun TableClaims.
Open Scope Z_scope.

(** Work queues allocated less work queues destroyed. *)
Definition wq_count (e : event) : Z :=
  match e with
  | Ev c r =>
      match c in kE R return R -> Z with
      | AllocWorkqueue => fun b => if b then 1 else 0
      | DestroyWorkqueue _ => fun _ => - 1
      | _ => fun _ => 0
      end r
  end.
Definition wq_balance (evs : list event) : Z := foldr Z.add 0 (wq_count <$> evs).

Lemma wq_balance_app e1 e2 : wq_balance (e1 ++ e2) = wq_balance e1 + wq_balance e2.
Proof.
  unfold wq_balance. rewrite fmap_app. induction (wq_count <$> e1) as [|x l IH]; [done|].
  cbn. rewrite IH. lia.
Qed.

(** The number of work queues a server has. *)
Definition has_wq (q : option positive) : Z := match q with Some _ => 1 | None => 0 end.
Definition wq_number (v : server) : Z :=
  has_wq (srv_l2r_wq v) + has_wq (srv_r2l_wq v) + has_wq (srv_tcfa_wq v) + has_wq (srv_accept_wq v).

Section Wq.
Context `{P : Platform}.

(** [m] always returns, changes the work queues of the server by the balance of
    what it allocated and destroyed, and leaves the rest of it in relation [R]. *)
Definition wq_run {A} (m : KM A) (R : server -> A -> server -> Prop) : Prop :=
  forall s v, st_srv s = SrvLive v ->
    exists a s' v' evs, m s = Ret a s' /\ st_srv s' = SrvLive v' /\ grew s s' evs /\
      wq_number v' = wq_number v + wq_balance evs /\ R v a v'.

Lemma alloc_wq_run s :
  exists q s' evs, alloc_workqueue s = Ret q s' /\ st_srv s' = st_srv s /\ grew s s' evs /\
    wq_balance evs = has_wq q.
Proof.
  unfold alloc_workqueue, bind. call_out. destruct r.
  - eexists (Some _), _, _. split; [reflexivity|]. by split_and!.
  - eexists None, _, _. split; [reflexivity|]. by split_and!.
Qed.

Lemma stop_wq_run get set :
  (forall v, get (set None v) = None) ->
  (forall v, wq_number (set None v) = wq_number v - has_wq (get v)) ->
  wq_run (stop_wq get set) (fun v _ v' => v' = v /\ get v = None \/ v' = set None v).
Proof.
  intros Hget Hnum s v Hv. unfold stop_wq, bind. rewrite (get_srv_run _ _ Hv).
  specialize (Hnum v). destruct (get v) as [q|] eqn:E.
  - call_out. call_out. erewrite upd_srv_run by exact Hv.
    eexists tt, _, _, _. split; [reflexivity|]. split; [reflexivity|].
    split; [unfold grew; cbn; by rewrite <- app_assoc|]. split; [|by right].
    rewrite Hnum. cbn. lia.
  - exists tt, s, v, []. split; [done|]. split; [done|].
    split; [unfold grew; by rewrite app_nil_r|]. split; [cbn; lia | by left].
Qed.

Lemma wq_run_bind {A B} (m : KM A) (k : A -> KM B) R1 R2 :
  wq_run m R1 -> (forall a, wq_run (k a) (R2 a)) ->
  wq_run (bind m k) (fun v b v'' => exists a v', R1 v a v' /\ R2 a v' b v'').
Proof.
  intros Hm Hk s v Hv. destruct (Hm s v Hv) as (a & s1 & v1 & e1 & H1 & Hv1 & Hg1 & Hn1 & HR1).
  destruct (Hk a s1 v1 Hv1) as (b & s2 & v2 & e2 & H2 & Hv2 & Hg2 & Hn2 & HR2).
  exists b, s2, v2, (e1 ++ e2). rewrite (bind_Ret _ _ _ _ _ H1).
  split_and!; [done|done| | |eauto].
  - unfold grew in *. by rewrite Hg2, Hg1, app_assoc.
  - rewrite wq_balance_app. lia.
Qed.

Lemma wq_run_conseq {A} (m : KM A) (R R' : server -> A -> server -> Prop) :
  wq_run m R -> (forall v a v', R v a v' -> R' v a v') -> wq_run m R'.
Proof.
  intros Hm HR s v Hv. destruct (Hm s v Hv) as (a & s1 & v1 & e1 & ?). destruct_and!.
  exists a, s1, v1, e1. split_and!; auto.
Qed.

Definition no_wqs (v : server) : Prop :=
  srv_l2r_wq v = None /\ srv_r2l_wq v = None /\ srv_tcfa_wq v = None /\ srv_accept_wq v = None.

Lemma no_wqs_number v : no_wqs v -> wq_number v = 0.
Proof. intros (H1 & H2 & H3 & H4). unfold wq_number. by rewrite H1, H2, H3, H4. Qed.

Lemma work_stop_run : wq_run pepdna_work_stop (fun _ _ v' => no_wqs v').
Proof.
  unfold pepdna_work_stop. eapply wq_run_conseq.
  { apply wq_run_bind; [apply stop_wq_run|intros ?].
    3: apply wq_run_bind; [apply stop_wq_run|intros ?].
    5: apply wq_run_bind; [apply stop_wq_run|intros ?].
    7: apply stop_wq_run.
    all: intros v; try done; unfold wq_number; cbn; lia. }
  intros v a v' (? & v1 & H1 & ? & v2 & H2 & ? & v3 & H3 & H4). unfold no_wqs.
  destruct H1 as [[-> ?]| ->], H2 as [[-> ?]| ->], H3 as [[-> ?]| ->], H4 as [[-> ?]| ->]; by split_and!.
Qed.

(** The queues the server needs in its mode. *)
Definition all_wqs (v : server) : Prop :=
  is_Some (srv_l2r_wq v) /\ is_Some (srv_r2l_wq v) /\ is_Some (srv_accept_wq v) /\
  (srv_mode v < 6 -> is_Some (srv_tcfa_wq v)).

(** All of them or, after a failed allocation, none. *)
Definition init_result (rc : Z) (v' : server) : Prop :=
  (rc = 0 /\ all_wqs v') \/ (rc = - ENOMEM /\ no_wqs v').

(** Since [s0], [n] more queues were allocated than destroyed; the server is [v]. *)
Definition at_wq (s0 s : st) (v : server) (n : Z) : Prop :=
  st_srv s = SrvLive v /\ exists evs, grew s0 s evs /\ wq_balance evs = n.

Lemma at_wq_step s0 s s1 v v1 n evs :
  at_wq s0 s v n -> grew s s1 evs -> st_srv s1 = SrvLive v1 ->
  at_wq s0 s1 v1 (n + wq_balance evs).
Proof.
  intros (_ & e & He & <-) Hg Hv. split; [done|]. exists (e ++ evs).
  unfold grew in *. by rewrite Hg, He, app_assoc, wq_balance_app.
Qed.

Lemma at_wq_alloc {A} s0 s v n (k : option positive -> KM A) :
  at_wq s0 s v n ->
  (exists s1, bind alloc_workqueue k s = k None s1 /\ at_wq s0 s1 v n) \/
  (exists q s1, bind alloc_workqueue k s = k (Some q) s1 /\ at_wq s0 s1 v (n + 1)).
Proof.
  intros Ha. destruct (alloc_wq_run s) as (q & s1 & evs & H1 & H2 & H3 & H4).
  rewrite (bind_Ret _ _ _ _ _ H1). rewrite (proj1 Ha) in H2.
  pose proof (at_wq_step _ _ _ _ _ _ _ Ha H3 H2) as Hs. rewrite H4 in Hs.
  destruct q as [q|]; [right; eauto|left]. rewrite Z.add_0_r in Hs. eauto.
Qed.

Lemma at_wq_store {A} s0 s v n f (k : unit -> KM A) :
  at_wq s0 s v n -> exists s1, bind (upd_srv f) k s = k tt s1 /\ at_wq s0 s1 (f v) n.
Proof.
  intros Ha. pose proof Ha as [Hv _]. rewrite (bind_Ret _ _ _ _ _ (upd_srv_run f s v Hv)).
  eexists. split; [reflexivity|]. rewrite <- (Z.add_0_r n).
  apply (at_wq_step s0 s _ v (f v) n []); [done | unfold grew; by rewrite app_nil_r | done].
Qed.

(** Clearing a field and destroying its queue. *)
Lemma at_wq_unwind {A} s0 s v n get set q (k : unit -> KM A) :
  at_wq s0 s v n -> get v = Some q ->
  exists s1, bind (unwind_wq get set) k s = k tt s1 /\ at_wq s0 s1 (set None v) (n - 1).
Proof.
  intros Ha Hq. pose proof Ha as [Hv _]. unfold unwind_wq, bind. rewrite (get_srv_run _ _ Hv).
  rewrite (upd_srv_run _ _ _ Hv), Hq. unfold deref, ret. call_out. destruct r.
  eexists. split; [reflexivity|].
  apply (at_wq_step s0 s _ v _ n [Ev (DestroyWorkqueue q) tt]); [done | done | done].
Qed.

Lemma at_wq_end s0 s v n rc :
  at_wq s0 s v n -> n = wq_number v -> init_result rc v ->
  exists rc' s' v' evs, ret rc s = Ret rc' s' /\ st_srv s' = SrvLive v' /\
    grew s0 s' evs /\ wq_balance evs = wq_number v' /\ init_result rc' v'.
Proof. intros (Hv & evs & Hg & <-) Hn Hr. exists rc, s, v, evs. by split_and!. Qed.

(** The next step of the program under [at_wq]. *)
Ltac wq_step :=
  match goal with
  | Ha : at_wq ?s0 ?s ?v ?n |- context [bind (upd_srv ?f) ?k ?s] =>
      let s1 := fresh "s" in let H := fresh in let Hb := fresh "Ha" in
      destruct (at_wq_store s0 s v n f k Ha) as (s1 & H & Hb); rewrite H; clear H Ha
  | Ha : at_wq ?s0 ?s ?v ?n |- context [bind (unwind_wq ?g ?f) ?k ?s] =>
      let s1 := fresh "s" in let H := fresh in let Hb := fresh "Ha" in
      destruct (at_wq_unwind s0 s v n g f _ k Ha eq_refl) as (s1 & H & Hb); rewrite H; clear H Ha
  | Ha : at_wq ?s0 ?s ?v ?n |- context [bind get_srv ?k ?s] =>
      rewrite (bind_Ret _ _ _ _ _ (get_srv_run _ _ (proj1 Ha)))
  end.
Ltac wq_alloc :=
  match goal with
  | Ha : at_wq ?s0 ?s ?v ?n |- context [bind alloc_workqueue ?k ?s] =>
      let s1 := fresh "s" in let q := fresh "q" in let H := fresh in let Hb := fresh "Ha" in
      destruct (at_wq_alloc s0 s v n k Ha) as [(s1 & H & Hb)|(q & s1 & H & Hb)];
      rewrite H; clear H Ha; cbv beta iota; repeat wq_step
  end.
(** The end: the queues are counted and their fields inspected. *)
Ltac wq_end :=
  eapply at_wq_end; [eassumption | unfold wq_number; cbn | ].

Lemma work_init_run s v :
  st_srv s = SrvLive v -> no_wqs v ->
  exists rc s' v' evs, pepdna_work_init s = Ret rc s' /\ st_srv s' = SrvLive v' /\
    grew s s' evs /\ wq_balance evs = wq_number v' /\ init_result rc v'.
Proof.
  intros Hv (H1 & H2 & H3 & H4). assert (at_wq s s v 0) as Ha.
  { split; [done|]. exists []. split; [unfold grew; by rewrite app_nil_r | done]. }
  assert (forall s1 v1 n, at_wq s s1 v1 n -> n = 0 -> no_wqs v1 ->
    exists rc' s' v' evs, ret (- ENOMEM) s1 = Ret rc' s' /\ st_srv s' = SrvLive v' /\
    grew s s' evs /\ wq_balance evs = wq_number v' /\ init_result rc' v') as Hfail.
  { intros s1 v1 n Hat -> Hno. eapply at_wq_end; [done | by rewrite no_wqs_number | by right]. }
  unfold pepdna_work_init.
  wq_alloc; [by apply (Hfail _ _ _ Ha0)|].
  wq_alloc; [by eapply Hfail|].
  wq_alloc; [by eapply Hfail|].
  destruct (srv_mode _ <? 6) eqn:E.
  - wq_alloc; [by eapply Hfail|]. wq_end; [by rewrite H1, H2, H3, H4 || reflexivity|].
    left. split; [done|]. split_and!; cbn; eauto.
  - wq_end; [rewrite H3; reflexivity|]. left. split; [done|]. split_and!; cbn; eauto.
    intros Hlt. cbn in E. lia.
Qed.

End Wq.

Section Claims.
Context `{P : Platform}.

(** Pepdna_work_stop never faults, and afterwards the server has none of its
    four work queues left: each it had was destroyed exactly once. *)
Theorem work_stop_clean s v :
  st_srv s = SrvLive v ->
  exists s' v' evs, pepdna_work_stop s = Ret tt s' /\ st_srv s' = SrvLive v' /\
    grew s s' evs /\ wq_balance evs = - wq_number v /\
    srv_l2r_wq v' = None /\ srv_r2l_wq v' = None /\ srv_tcfa_wq v' = None /\
    srv_accept_wq v' = None.
Proof.
  intros Hv. destruct (work_stop_run s v Hv) as ([] & s' & v' & evs & H1 & H2 & H3 & H4 & H5).
  exists s', v', evs. rewrite (no_wqs_number v' H5) in H4. split_and!; try done; [lia|..]; apply H5.
Qed.

(** C30: pepdna_work_init on a server without work queues never faults and is all or
    nothing: it returns 0 and the server has the queues its mode needs, or it
    returns -ENOMEM, the server has none, and every queue that had been allocated
    was destroyed again. *)
Theorem work_init_all_or_nothing s v :
  st_srv s = SrvLive v -> no_wqs v ->
  exists rc s' v' evs, pepdna_work_init s = Ret rc s' /\ st_srv s' = SrvLive v' /\
    grew s s' evs /\ wq_balance evs = wq_number v' /\ init_result rc v'.
Proof. apply work_init_run. Qed.

(** The frame types that belong to an existing connection. *)
Definition of_connection (f : frame) : Prop :=
  exists t, pkt_of (h_pkt_type (f_hdr f)) = Some t /\ t <> MINIP_CONN_REQUEST.

(** C39: a MINIP frame of an unknown connection, of any known type but a request (a
    response, data, an ACK, a delete or a finished frame), is freed twice: the packet handler frees it, reports it as unplaced, and the receive
    function frees it again. *)
Theorem unknown_frame_freed_twice `{!HashMinLaw P} fuel f s v :
  wf s -> st_srv s = SrvLive v -> of_connection f ->
  (forall c, ~ has_id s v (ntohl (h_id (f_hdr f))) c) ->
  exists s', rx_frame fuel f s = Fault DoubleFree s'.
Proof.
  intros Hwf Hv (t & Ht & Hne) Hno. unfold rx_frame, bind at 1. unfold fresh_addr, modify.
  set (a := st_next s). unfold bind at 1. set (s1 := set_st_skbs _ _).
  unfold pepdna_minip_skb_recv, pepdna_minip_recv_packet.
  assert (get_skb a s1 = Ret f s1) as Hskb.
  { unfold get_skb. cbn. by rewrite lookup_insert_eq. }
  assert (wf s1) as Hwf1.
  { destruct Hwf as [Hfr Hw]. split; [|exact Hw]. intros c Hc. cbn in Hc. apply Hfr in Hc. cbn. lia. }
  assert (pepdna_con_find (ntohl (h_id (f_hdr f))) s1 = Ret None s1) as Hfind.
  { destruct (con_find_spec s1 v (ntohl (h_id (f_hdr f))) Hwf1 Hv) as ([c|] & Hr & Hpost);
      [by destruct (Hno c) | done]. }
  assert (exists s2, (do rc <- match pkt_of (h_pkt_type (f_hdr f)) with
           | Some MINIP_CONN_REQUEST => pepdna_minip_recv_request f
           | Some MINIP_CONN_RESPONSE => pepdna_minip_recv_response f
           | Some MINIP_CONN_DATA => pepdna_minip_recv_data fuel f
           | Some MINIP_CONN_ACK => pepdna_minip_recv_ack f
           | Some MINIP_CONN_DELETE => pepdna_minip_recv_delete f
           | Some MINIP_CONN_FINISHED => pepdna_minip_recv_finished f
           | None => ret 0
           end; do! kfree_rx_skb a; ret rc) s1 = Ret (- 1) s2 /\ st_skbs s2 !! a = None)
    as (s2 & Hrun & Hgone).
  { rewrite Ht. destruct t; [done|..];
      unfold pepdna_minip_recv_response, pepdna_minip_recv_data, pepdna_minip_recv_ack,
        pepdna_minip_recv_delete, pepdna_minip_recv_finished, bind at 1;
      rewrite (bind_Ret _ _ _ _ _ Hfind); unfold ret at 1, bind, kfree_rx_skb;
      cbn [st_skbs s1 set_st_skbs]; rewrite lookup_insert_eq; unfold bind; call_out;
      (eexists; split; [reflexivity|]); cbn; by rewrite lookup_delete_eq. }
  unfold bind at 1. unfold bind at 1. rewrite (bind_Ret _ _ _ _ _ Hskb), Hrun.
  change (truth (- 1)) with true. cbv iota. unfold bind, kfree_rx_skb. rewrite Hgone. eauto.
Qed.

End Claims.

(** Stopping the server closes the connections of the first bucket only: with a
    live connection in another one, pepdna_server_stop returns with the server gone
    and the connection untouched, its reference, flags and sockets included. *)
Theorem server_stop_first_bucket_only :
  exists s', @pepdna_server_stop (sample tcp_build) (tcp_pair []) = Ret tt s' /\
    st_srv s' = SrvNull /\ st_cons s' !! 6%positive = st_cons (tcp_pair []) !! 6%positive /\
    st_socks s' !! 101%positive = st_socks (tcp_pair []) !! 101%positive /\
    st_socks s' !! 102%positive = st_socks (tcp_pair []) !! 102%positive.
Proof. eexists. split_and!; vm_compute; reflexivity. Qed.

(** ** Witnesses *)

Lemma work_stop_clean_witness :
  exists s' v' evs, @pepdna_work_stop (sample tcp_build) (loaded tcp_build []) = Ret tt s' /\
    st_srv s' = SrvLive v' /\ grew (loaded tcp_build []) s' evs /\ wq_balance evs = - 4.
Proof.
  destruct (@work_stop_clean (sample tcp_build) (loaded tcp_build []) (the_srv (loaded tcp_build [])))
    as (s' & v' & evs & H1 & H2 & H3 & H4 & _).
  - vm_compute. reflexivity.
  - exists s', v', evs. split; [exact H1|]. split; [exact H2|]. split; [exact H3|].
    rewrite H4. vm_compute. reflexivity.
Defined.

Definition fresh_server : @st (sample tcp_build) :=
  @set_st_srv (sample tcp_build) (SrvLive zero_server) (unloaded_st tcp_build []).

Lemma work_init_all_or_nothing_witness :
  exists rc s' v' evs, @pepdna_work_init (sample tcp_build) fresh_server = Ret rc s' /\
    st_srv s' = SrvLive v' /\ grew fresh_server s' evs /\ wq_balance evs = wq_number v' /\
    init_result rc v'.
Proof.
  apply (@work_init_all_or_nothing (sample tcp_build) fresh_server zero_server).
  - reflexivity.
  - by split_and!.
Defined.

Definition stray_frame : frame :=
  mkFrame (mkHdr (pkt_val MINIP_CONN_FINISHED) 0 (htonl 5) 0 0 0) [].

Lemma unknown_frame_freed_twice_witness :
  exists s', @rx_frame (sample tcp_build) 10 stray_frame (loaded tcp_build []) = Fault DoubleFree s'.
Proof.
  apply (@unknown_frame_freed_twice (sample tcp_build) _ 10 stray_frame (loaded tcp_build [])
    (the_srv (loaded tcp_build []))).
  - apply loaded_tcp_wf.
  - vm_compute. reflexivity.
  - exists MINIP_CONN_FINISHED. by split.
  - intros c [_ (k & Hk & _)]. vm_compute in Hk. discriminate Hk.
Defined.
