(* ===== verification/AckClaims.v ===== *)
(** The dispatch of an incoming ACK to its three branches, and the handshake that
    brings a connection to the other node. *)

From Stdlib Require Import ZArith Lia.
From stdpp Require Import base list gmap.
From S2P Require Import Prelude Ints Types Setters Kernel Hash TcpUtils Rtxq Connection Tcp.
From S2P Require Import Minip Server Core System Sample SampleRun Frame Relay RelayClaims.
From S2P Require Import RtxqProps Sender Window Receiver MinipClaims.
Open Scope Z_scope.

(** The connection after the round trip sample of an ACK and the restart of its
    timer. *)
Definition sampled (k : con) (now ts : Z) : con :=
  let rtt := u32 (u32 now - ntohl ts) in
  let k := if truth ts && truth rtt then minip_update_rto k rtt else k in
  set_con_timer (Some (con_rto k)) k.

Lemma sampled_acked k now ts : con_last_acked (sampled k now ts) = con_last_acked k.
Proof. unfold sampled, minip_update_rto. by repeat case_match. Qed.

Section Dispatch.
Context `{P : Platform}.

(** The rest of pepdna_minip_recv_ack, after the sample and the timer. *)
Definition ack_branch (c : positive) (k : con) (ack : Z) : KM Z :=
  if u32 (con_last_acked k) <? ack then recv_good_ack c ack else recv_dup_ack c ack.

Lemma recv_ack_run skb c k s :
  pepdna_con_find (ntohl (h_id (f_hdr skb))) s = Ret (Some c) s ->
  st_cons s !! c = Some k ->
  let ack := ntohl (h_ack (f_hdr skb)) in
  (ack < u32 (con_last_acked k) -> pepdna_minip_recv_ack skb s = Ret 0 s) /\
  (u32 (con_last_acked k) <= ack -> exists now s1,
     con_becomes c (sampled k now (h_ts (f_hdr skb))) s s1 /\
     pepdna_minip_recv_ack skb s = ack_branch c k ack s1).
Proof.
  intros Hf Hk ack. unfold pepdna_minip_recv_ack. rewrite (bind_Ret _ _ _ _ _ Hf).
  rewrite (bind_Ret _ _ _ _ _ (get_con_run _ _ _ Hk)). fold ack. split.
  { intros Hlt. by rewrite (proj2 (Z.ltb_lt _ _) Hlt). }
  intros Hle. rewrite (proj2 (Z.ltb_ge _ _) Hle). unfold bind at 1. call_out. rename r into now.
  set (s0 := set_st_trace _ _). assert (st_cons s0 !! c = Some k) as Hk0 by exact Hk.
  set (rtt := u32 (u32 now - ntohl (h_ts (f_hdr skb)))).
  destruct (when_becomes c k (minip_update_rto k rtt) (truth (h_ts (f_hdr skb)) && truth rtt)
    (upd_con c (fun k => minip_update_rto k rtt)) s0 Hk0) as (s1 & H1 & Hb1).
  { by apply (upd_con_becomes c (fun k => minip_update_rto k rtt)). }
  rewrite (bind_Ret _ _ _ _ _ H1). set (k1 := if _ && _ then _ else k) in *.
  rewrite (bind_Ret _ _ _ _ _ (get_con_run _ _ _ (con_becomes_lookup _ _ _ _ Hb1))).
  unfold mod_timer. unfold bind at 1. unfold bind at 1.
  rewrite (upd_con_run _ _ _ _ (con_becomes_lookup _ _ _ _ Hb1)). call_out.
  assert (con_last_acked k1 = con_last_acked k) as ->.
  { unfold k1, minip_update_rto. by repeat case_match. }
  replace (if u32 (con_last_acked k) <? ack then recv_good_ack c ack
    else if u32 (con_last_acked k) =? ack then recv_dup_ack c ack else ret 0)
    with (ack_branch c k ack); cycle 1.
  { unfold ack_branch. destruct (u32 (con_last_acked k) <? ack) eqn:E; [done|].
    by replace (u32 (con_last_acked k) =? ack) with true by lia. }
  exists now. match goal with |- context [ack_branch c k ack ?x] => exists x end.
  split; [|done]. eapply (con_becomes_trans _ _ _ s s1); [exact Hb1|]. by split_and!.
Qed.

(** last_acked after a good ACK. *)
Lemma ack_con_last_acked ack q k :
  con_last_acked (ack_con ack q k) = s32 (ack - 1).
Proof.
  unfold ack_con. destruct (_ <? _); [rewrite update_cwnd_rest|]; cbn;
    by destruct (con_state k =? RECOVERY).
Qed.

(** ** What the callback of the left socket leaves alone *)

Lemma field_is_put {A} (field : con -> A) c x d :
  (forall v k, field (set_con_kref v k) = field k) ->
  (forall v k, field (set_con_lsock v k) = field k) ->
  (forall v k, field (set_con_rsock v k) = field k) ->
  preserves (stable (field_is field c x)) (pepdna_con_put d).
Proof.
  intros H1 H2 H3.
  unfold pepdna_con_put, pepdna_con_kref_release, release_side, hlist_del. pres.
  all: try (by apply field_is_upd; intros ?; rewrite ?H1, ?H2, ?H3).
  all: try (apply stable_upd_srv; intros; assumption).
  apply pres_modify. intros s HI k. cbn. intros Hk.
  apply HI. by apply lookup_delete_Some in Hk as [_ ?].
Qed.

Lemma data_ready_last_acked c x l :
  preserves (stable (field_is con_last_acked c x)) (sk_data_ready_call l).
Proof.
  unfold sk_data_ready_call, pepdna_tcp_listen_data_ready, ready_call,
    pepdna_l2r_conn_data_ready, pepdna_r2l_conn_data_ready, pepdna_udp_data_ready,
    lconnected, rconnected, queue_work, user_con, pepdna_con_get. pres.
  all: try (by apply field_is_upd).
  all: try (by apply field_is_put).
  all: try (apply pres_modify; intros ? HI; exact HI).
Qed.

(** A good ACK leaves its number minus one as last_acked, if the connection survives
    the callback. *)
Lemma good_ack_last_acked skb c k a q s r s1 :
  let ack := ntohl (h_ack (f_hdr skb)) in
  pepdna_con_find (ntohl (h_id (f_hdr skb))) s = Ret (Some c) s ->
  sending_con c k a q s -> u32 (con_last_acked k) < ack ->
  pepdna_minip_recv_ack skb s = Ret r s1 ->
  field_is con_last_acked c (s32 (ack - 1)) s1.
Proof.
  intros ack Hf (Hv & Hk & Ha & Hq) Hlt Hrun.
  destruct (recv_ack_run skb c k s Hf Hk) as [_ Hrest]. fold ack in Hrest.
  destruct Hrest as (now & s0 & Hb & Heq); [lia|]. rewrite Heq in Hrun.
  unfold ack_branch in Hrun. rewrite (proj2 (Z.ltb_lt _ _) Hlt) in Hrun.
  pose proof (con_becomes_lookup _ _ _ _ Hb) as Hk0. destruct Hb as (Hc0 & Hs0 & Hr0 & _).
  set (k0 := sampled k now (h_ts (f_hdr skb))) in *.
  destruct (good_ack_run c k0 a q ack s0) as (sA & (_ & HcA & _) & Hgood).
  { split; [by rewrite Hs0|]. split; [done|]. split; [|by rewrite Hr0].
    unfold k0, sampled, minip_update_rto. by repeat case_match. }
  rewrite Hgood in Hrun. destruct (con_lsock k0) as [l|]; [|done].
  eapply (stable_run _ (do! sk_data_ready_call l; ret 0)); [| |exact Hrun].
  - pres. apply data_ready_last_acked.
  - intros k'. rewrite HcA, lookup_insert_eq. intros [= <-]. apply ack_con_last_acked.
Qed.

End Dispatch.

Section Claims.
Context `{P : Platform}.

(** C24: an ACK of a known connection: below last_acked it is ignored and nothing
    changes; otherwise the round trip sample and the timer are updated, touching
    nothing but the timeout fields of this connection, and the ACK is handled as a
    good one if it is above last_acked and as a duplicate if it is equal. *)
Theorem recv_ack_dispatch skb c k s :
  pepdna_con_find (ntohl (h_id (f_hdr skb))) s = Ret (Some c) s ->
  st_cons s !! c = Some k ->
  let ack := ntohl (h_ack (f_hdr skb)) in
  (ack < u32 (con_last_acked k) -> pepdna_minip_recv_ack skb s = Ret 0 s) /\
  (u32 (con_last_acked k) <= ack -> exists now s1,
     con_becomes c (sampled k now (h_ts (f_hdr skb))) s s1 /\
     pepdna_minip_recv_ack skb s = ack_branch c k ack s1).
Proof. apply recv_ack_run. Qed.

(** C40: a repeated ACK is not recognised as a duplicate.  An ACK above last_acked, of a
    number from 1 to 2^31 - 1, was handled on a connection with its queue, and the connection is still there: its last_acked is the ACK's number
    minus one.  Then, in any state in which last_acked still has that value, a frame
    with the same ACK number is handled as a good ACK again, after the sample and the
    timer; the fast retransmission of the duplicate branch is not reached. *)
Theorem repeated_ack_is_good skb c k a q s r s1 k1 :
  let ack := ntohl (h_ack (f_hdr skb)) in
  pepdna_con_find (ntohl (h_id (f_hdr skb))) s = Ret (Some c) s ->
  sending_con c k a q s -> u32 (con_last_acked k) < ack -> 0 < ack < 2 ^ 31 ->
  pepdna_minip_recv_ack skb s = Ret r s1 -> st_cons s1 !! c = Some k1 ->
  con_last_acked k1 = ack - 1 /\
  forall skb' k2 s2, h_ack (f_hdr skb') = h_ack (f_hdr skb) ->
    pepdna_con_find (ntohl (h_id (f_hdr skb'))) s2 = Ret (Some c) s2 ->
    st_cons s2 !! c = Some k2 -> con_last_acked k2 = con_last_acked k1 ->
    exists now s3, con_becomes c (sampled k2 now (h_ts (f_hdr skb'))) s2 s3 /\
      pepdna_minip_recv_ack skb' s2 = recv_good_ack c ack s3.
Proof.
  intros ack Hf Hc Hlt Ha Hrun Hk1.
  pose proof (good_ack_last_acked skb c k a q s r s1 Hf Hc Hlt Hrun k1 Hk1) as Hl.
  fold ack in Hl. rewrite s32_small in Hl by lia. split; [done|].
  intros skb' k2 s2 Hack Hf2 Hk2 Hl2.
  destruct (recv_ack_run skb' c k2 s2 Hf2 Hk2) as [_ Hrest]. rewrite Hack in Hrest. fold ack in Hrest.
  assert (u32 (con_last_acked k2) = ack - 1) as Hu.
  { rewrite Hl2, Hl. apply u32_small. unfold is_u32. lia. }
  destruct Hrest as (now & s3 & Hb & Heq); [lia|]. exists now, s3. split; [done|].
  rewrite Heq. unfold ack_branch. by rewrite (proj2 (Z.ltb_lt _ _)) by lia.
Qed.

End Claims.

(** A sender with its first frame in flight, and after a timeout. *)
Definition first_sent : @st SND :=
  state_of (minip_sender []) (@pepdna_minip_conn_snd_data SND 6 [1; 2] 2 (minip_sender [])).
Definition timed_out : @st SND := state_of first_sent (@minip_sender_timeout SND 6 first_sent).

(** The first data frame is not retransmitted by the timer: right after the
    handshake last_acked equals the number of the first frame, and the timeout
    retransmits from last_acked plus one; with only that frame in flight a timeout
    transmits nothing, keeps the frame queued and stops the sender. *)
Theorem timeout_skips_first_frame :
  @minip_sender_timeout SND 6 first_sent = Ret tt timed_out /\
  wire (drop (length (st_trace first_sent)) (st_trace timed_out)) = [] /\
  can_send (con_of timed_out 6) = false /\ @rtxq_size SND 6 timed_out = Ret 1 timed_out.
Proof. split_and!; vm_compute; reflexivity. Qed.

(** ** Witnesses *)

(** An ACK of the first two of three frames. *)
Definition ack12 : frame :=
  mkFrame (mkHdr (pkt_val MINIP_CONN_ACK) 0 (htonl syn1_id) 0 (htonl 12) (htonl 900)) [].

Lemma recv_ack_dispatch_witness :
  exists now s1, con_becomes 6 (sampled (con_of small_sender 6) now (htonl 900)) small_sender s1 /\
    @pepdna_minip_recv_ack SND ack12 small_sender = ack_branch 6 (con_of small_sender 6) 12 s1.
Proof.
  destruct (@recv_ack_dispatch SND ack12 6 (con_of small_sender 6) small_sender) as [_ H].
  - vm_compute. reflexivity.
  - vm_compute. reflexivity.
  - apply H. vm_compute. discriminate.
Defined.

(** The state after that ACK, in which it arrives again. *)
Definition acked12 : @st SND := state_of small_sender (@pepdna_minip_recv_ack SND ack12 small_sender).

Lemma repeated_ack_is_good_witness :
  exists now s3, con_becomes 6 (sampled (con_of acked12 6) now (htonl 900)) acked12 s3 /\
    @pepdna_minip_recv_ack SND ack12 acked12 = @recv_good_ack SND 6 12 s3.
Proof.
  destruct (@repeated_ack_is_good SND ack12 6 (con_of small_sender 6) 7 small_queue small_sender 0
    acked12 (con_of acked12 6)) as [_ H].
  - vm_compute. reflexivity.
  - split; [eexists; vm_compute; reflexivity|]. split_and!; vm_compute; reflexivity.
  - vm_compute. reflexivity.
  - by vm_compute.
  - vm_compute. reflexivity.
  - vm_compute. reflexivity.
  - apply (H ack12 (con_of acked12 6) acked12); [done|vm_compute; reflexivity..|done].
Defined.

(** ** The bound is attained *)

Definition ack_of (n : Z) : frame :=
  mkFrame (mkHdr (pkt_val MINIP_CONN_ACK) 0 (htonl syn1_id) 0 (htonl n) 0) [].

(** Thirty one-byte messages wait at the left socket; it becomes readable, the
    node sends until its window is used up, an ACK of seven frames arrives six
    times, and the node sends again. *)
Definition burst : @st SND :=
  let work := AWork (L2rWork 6) in
  let ack s := after (AFrame (ack_of 17)) s in
  let s := after work (after (AReady 101) (minip_sender (replicate 30 [5]))) in
  after work (ack (ack (ack (ack (ack (ack s)))))).

(** The bound of 17 frames in flight is attained, five more than WINDOW_SIZE: an
    ACK that arrives again while less than half a window is queued raises the window
    each time. *)
Theorem flight_bound_attained :
  @rtxq_size SND 6 burst = Ret max_flight burst /\ WINDOW_SIZE < max_flight.
Proof. split; vm_compute; reflexivity. Qed.

(** ** A handshake without a link *)

(** The sample platform with a device that takes no frames. *)
Definition no_link_call (R : Type) (c : kE R) (e : list (list Z)) : R * list (list Z) :=
  match c in kE R return R * list (list Z) with
  | DevQueueXmit _ => (- 100, e)
  | c' => sample_call _ c' e
  end.
Definition no_link : Platform := {|
  E := list (list Z); kcall := no_link_call; hash_min := sample_hash_min;
  cfg := minip_build TCP2MINIP
|}.
Definition no_link_unloaded : @st no_link :=
  @mkSt no_link [] [] SrvNull ∅ ∅ ∅ ∅ 1 [] None (- 1) 0 false [] [].

(** Loaded, and after a SYN. *)
Definition no_link_syn : @st no_link :=
  let s := state_of no_link_unloaded (@pepdna_init no_link no_link_unloaded) in
  state_of s (@exec no_link 10 (ASyn syn1) s).

(** A connection request that cannot be transmitted frees the connection, and
    the handshake goes on to write its state and number into the freed object. *)
Theorem failed_handshake_uses_freed_con :
  TcfaWork 6 ∈ st_pending no_link_syn /\
  exists s', @exec no_link 10 (AWork (TcfaWork 6)) no_link_syn = Fault UseAfterFree s' /\
    st_cons s' !! 6%positive = None.
Proof.
  split; [vm_compute; by left|]. eexists. split; vm_compute; reflexivity.
Qed.
