(* ===== verification/NetClaims.v ===== *)
(** What crosses the borders of the module: netlink messages, printed addresses,
    the tuple in a MINIP connection request, and the data units written to a RINA
    flow. *)

From Stdlib Require Import ZArith Lia.
From stdpp Require Import base list gmap.
From S2P Require Import Prelude Ints Types Setters Kernel Hash TcpUtils Rtxq Connection Tcp.
From S2P Require Import Netlink Minip Rina Sample SampleRun Frame RtxqProps Sender.
Open Scope Z_scope.

(** ** Netlink messages *)

Definition nl_msg_ok (m : nl_msg) : Prop :=
  is_u32 (nl_saddr m) /\ is_u16 (nl_source m) /\ is_u32 (nl_daddr m) /\ is_u16 (nl_dest m) /\
  is_u32 (nl_id m) /\ - 2 ^ 31 <= nl_port_id m < 2 ^ 31.

Lemma nl_bytes_roundtrip m : nl_msg_ok m -> nl_msg_of_bytes (nl_msg_bytes m) = m.
Proof.
  intros (H1 & H2 & H3 & H4 & H5 & H6). destruct m as [sa so da de id pid al].
  cbn [nl_saddr nl_source nl_daddr nl_dest nl_id nl_port_id] in *.
  change (nl_msg_of_bytes _) with
    (mkNlMsg (le_val (le_bytes 4 sa)) (le_val (le_bytes 2 so)) (le_val (le_bytes 4 da))
       (le_val (le_bytes 2 de)) (le_val (le_bytes 4 id)) (s32 (le_val (le_bytes 4 (u32 pid))))
       (truth (if al then 1 else 0))).
  rewrite !le_val_bytes_small; try done; [|apply u32_range].
  rewrite s32_u32, s32_small by done. by destruct al.
Qed.

(** The data of the netlink messages sent, with their destination. *)
Definition unicast (e : event) : list (list Z * Z) :=
  match e with
  | Ev c _ => match c with NetlinkUnicast b pid => [(b, pid)] | _ => [] end
  end.
Definition unicasts (evs : list event) : list (list Z * Z) := concat (unicast <$> evs).

Lemma unicasts_app e1 e2 : unicasts (e1 ++ e2) = unicasts e1 ++ unicasts e2.
Proof. unfold unicasts. by rewrite fmap_app, concat_app. Qed.

Section Nl.
Context `{P : Platform}.

(** What is known after an attempt. *)
Definition nl_sent (n : nat) (m : nl_msg) (s : st) (rc : Z) (s' : st) : Prop :=
  same_state s s' /\ st_nl_port_id s' = st_nl_port_id s /\
  exists evs k, grew s s' evs /\
    unicasts evs = replicate k (nl_msg_bytes m, st_nl_port_id s) /\ (k <= S n)%nat /\
    (rc = - ECONNREFUSED -> k = S n).

(** An attempt without a netlink socket: it fails before the send, or faults there. *)
Definition nl_unsent (s : st) (o : outcome st Z) : Prop :=
  (exists rc s' evs, o = Ret rc s' /\ (rc = - ENOMEM \/ rc = - 1) /\ same_state s s' /\
     grew s s' evs /\ unicasts evs = []) \/
  (exists s', o = Fault NullDeref s').

(** One attempt: a failure before the send, or one send and its answer. *)
Lemma nl_attempt_run nl n m attempts s :
  st_nl_sock s = Some nl ->
  (exists rc s', nl_sendmsg_loop n m attempts s = Ret rc s' /\ nl_sent n m s rc s') \/
  (exists s1 evs, same_state s s1 /\ st_nl_sock s1 = Some nl /\
     st_nl_port_id s1 = st_nl_port_id s /\ grew s s1 evs /\ unicasts evs = [(nl_msg_bytes m, st_nl_port_id s)] /\ attempts < NL_SEND_RETRIES /\
     nl_sendmsg_loop n m attempts s =
       match n with O => NoFuel | S n' => nl_sendmsg_loop n' m (attempts + 1) s1 end) \/
  (exists s1 evs, same_state s s1 /\ st_nl_sock s1 = Some nl /\
     st_nl_port_id s1 = st_nl_port_id s /\ grew s s1 evs /\ unicasts evs = [(nl_msg_bytes m, st_nl_port_id s)] /\ NL_SEND_RETRIES <= attempts /\
     nl_sendmsg_loop n m attempts s = Ret (- ECONNREFUSED) s1).
Proof.
  intros Hnl. assert (forall n, nl_sendmsg_loop n m attempts s =
    (do ok <- call NlAllocSkb;
     if negb ok then ret (- ENOMEM)
     else
       do h <- call NlmsgPut;
       if negb h then do! call KfreeSkb; ret (- 1)
       else
         do nl <- gets st_nl_sock;
         do _sock <- deref nl;
         do pid <- gets st_nl_port_id;
         do rc <- call (NetlinkUnicast (nl_msg_bytes m) pid);
         if (rc =? - ECONNREFUSED) && (attempts <? NL_SEND_RETRIES) then
           match n with O => out_of_fuel | S n' => nl_sendmsg_loop n' m (attempts + 1) end
         else ret rc) s) as Heq by by intros [].
  rewrite Heq. unfold bind, gets, ret. call_out. destruct r; cbn [negb]; cycle 1.
  { left. eexists _, _. split; [reflexivity|]. split; [by split|]. split; [done|].
    eexists _, 0%nat. by split_and!; [| |lia|]. }
  call_out. destruct r; cbn [negb]; cycle 1.
  { call_out. left. eexists _, _. split; [reflexivity|]. split; [by split|]. split; [done|].
    eexists _, 0%nat. split; [unfold grew; cbn; by rewrite <- !app_assoc|].
    by split_and!; [|lia|]. }
  cbn [st_nl_sock set_st_trace set_st_env]. rewrite Hnl. unfold deref, ret. cbv iota beta.
  call_out. destruct (r =? - ECONNREFUSED) eqn:E1; cbn [andb]; cycle 1.
  { left. eexists _, _. split; [reflexivity|]. split; [by split|]. split; [done|].
    eexists _, 1%nat. split; [unfold grew; cbn; by rewrite <- !app_assoc|].
    split_and!; [done|lia|lia]. }
  right. match goal with |- context [(if _ <? _ then _ else _) ?x] => set (s1 := x) end.
  assert (same_state s s1 /\ st_nl_sock s1 = Some nl /\ st_nl_port_id s1 = st_nl_port_id s)
    as (Hs & Hk & Hp) by by split.
  assert (exists evs, grew s s1 evs /\
    unicasts evs = [(nl_msg_bytes m, st_nl_port_id s)]) as (evs & Hg & Hu).
  { eexists. split; [unfold grew; cbn; by rewrite <- !app_assoc | done]. }
  destruct (attempts <? NL_SEND_RETRIES) eqn:E2; [left|right]; exists s1, evs;
    split_and!; try done; try lia; [by destruct n|]. f_equal. lia.
Qed.

(** The first attempt and at most [n] retries. *)
Lemma nl_loop_run nl n m attempts s :
  st_nl_sock s = Some nl -> NL_SEND_RETRIES - attempts = Z.of_nat n ->
  exists rc s', nl_sendmsg_loop n m attempts s = Ret rc s' /\ nl_sent n m s rc s'.
Proof.
  revert attempts s. induction n as [|n IH]; intros attempts s Hnl Hn.
  - destruct (nl_attempt_run nl 0 m attempts s Hnl) as
      [H|[(s1 & evs & Hs & Hsk & Hp & Hg & Hu & Hlt & Heq)|(s1 & evs & Hs & Hk & Hp & Hg & Hu & Hge & Heq)]];
      [exact H | lia |].
    exists (- ECONNREFUSED), s1. split; [done|]. split_and!; try done.
    exists evs, 1%nat. by split_and!.
  - destruct (nl_attempt_run nl (S n) m attempts s Hnl) as
      [H|[(s1 & evs & Hs & Hsk & Hp & Hg & Hu & Hlt & Heq)|(s1 & evs & Hs & Hk & Hp & Hg & Hu & Hge & Heq)]];
      [exact H | | lia].
    rewrite Heq. destruct (IH (attempts + 1) s1 Hsk ltac:(lia))
      as (rc & s2 & H2 & Hs2 & Hp2 & evs2 & k & Hg2 & Hu2 & Hk & Hrc).
    exists rc, s2. split; [done|]. split; [by etrans|]. split; [by rewrite Hp2|].
    exists (evs ++ evs2), (S k). rewrite unicasts_app, Hu, Hu2, Hp. split_and!; [|done|lia|lia].
    unfold grew in *. by rewrite Hg2, Hg, app_assoc.
Qed.

Lemma nl_loop_unsent n m attempts s :
  st_nl_sock s = None -> nl_unsent s (nl_sendmsg_loop n m attempts s).
Proof.
  intros Hnl. unfold nl_unsent.
  destruct n as [|n]; cbn [nl_sendmsg_loop]; unfold bind, gets, ret;
    (call_out; destruct r; cbn [negb];
       [|left; eexists _, _, _; split_and!; [reflexivity|by left|by split|reflexivity|done]]);
    (call_out; destruct r; cbn [negb];
       [|call_out; left; eexists _, _, _; split_and!; [reflexivity|by right|by split| |];
         [unfold grew; cbn; by rewrite <- !app_assoc|done]]);
    cbn [st_nl_sock set_st_trace set_st_env]; rewrite Hnl; right; by eexists.
Qed.

End Nl.

(** ** Addresses as strings *)

(** A number and how it is printed and scanned. *)
Definition scan_ok (z : Z) : Prop :=
  (forall rest, scan_d (print_d z ++ ch_dot :: rest) = Some (z, ch_dot :: rest)) /\
  scan_d (print_d z) = Some (z, []) /\ (length (print_d z) <= 3)%nat.

Lemma scan_print z : 0 <= z < 256 -> scan_ok z.
Proof.
  intros Hz. assert (z ∈ seqZ 0 256) as Hin by (apply elem_of_seqZ; lia).
  assert (Forall scan_ok (seqZ 0 256)) as Hall.
  { let l := eval vm_compute in (seqZ 0 256) in change (seqZ 0 256) with l.
    repeat (apply Forall_cons; split;
      [split; [intros; reflexivity | split; [reflexivity | cbn; lia]]|]). constructor. }
  by apply (proj1 (Forall_forall _ _) Hall).
Qed.

Lemma octet_range ip i : 0 <= octet ip i < 256.
Proof. unfold octet. change 255 with (Z.ones 8). rewrite Z.land_ones by lia. apply Z.mod_pos_bound. lia. Qed.

Lemma octets_le_val ip :
  is_u32 ip -> le_val [octet ip 0; octet ip 1; octet ip 2; octet ip 3] = ip.
Proof.
  intros Hip. unfold octet. change 255 with (Z.ones 8).
  rewrite !Z.land_ones, !Z.shiftr_div_pow2 by lia. cbn [le_val].
  unfold is_u32 in Hip. change (2 ^ (8 * 0)) with 1. change (2 ^ (8 * 1)) with 256.
  change (2 ^ (8 * 2)) with 65536. change (2 ^ (8 * 3)) with 16777216. change (2 ^ 8) with 256.
  rewrite Z.div_1_r. Z.to_euclidean_division_equations. lia.
Qed.

Lemma inet_roundtrip ip :
  is_u32 ip -> inet_addr (inet_ntoa ip) = Some ip /\ (length (inet_ntoa ip) <= 15)%nat.
Proof.
  intros Hip. pose proof (scan_print _ (octet_range ip 0)) as (H0 & _ & L0).
  pose proof (scan_print _ (octet_range ip 1)) as (H1 & _ & L1).
  pose proof (scan_print _ (octet_range ip 2)) as (H2 & _ & L2).
  pose proof (scan_print _ (octet_range ip 3)) as (_ & H3 & L3). split.
  - unfold inet_addr, inet_ntoa. cbn [app]. rewrite H0. cbn [mbind option_bind scan_ch].
    change (ch_dot =? ch_dot) with true. cbv iota beta. cbn [mbind option_bind].
    rewrite H1. cbn [mbind option_bind scan_ch].
    change (ch_dot =? ch_dot) with true. cbv iota beta. cbn [mbind option_bind].
    rewrite H2. cbn [mbind option_bind scan_ch].
    change (ch_dot =? ch_dot) with true. cbv iota beta. cbn [mbind option_bind].
    rewrite H3. cbn [mbind option_bind]. f_equal.
    pose proof (octet_range ip 0). pose proof (octet_range ip 1).
    pose proof (octet_range ip 2). pose proof (octet_range ip 3).
    rewrite !u8_small by (unfold is_u8; lia). by apply octets_le_val.
  - unfold inet_ntoa. rewrite !length_app. cbn [length]. lia.
Qed.

(** ** The tuple in a connection request *)

Definition syn_ok (t : syn_tuple) : Prop :=
  is_u32 (syn_saddr t) /\ is_u16 (syn_source t) /\ is_u32 (syn_daddr t) /\ is_u16 (syn_dest t).

Lemma syn_bytes_roundtrip old t : syn_ok t -> syn_of_bytes (syn_bytes old t) = t.
Proof.
  intros (H1 & H2 & H3 & H4). destruct t as [sa so da de].
  change (syn_of_bytes _) with (mkSyn (le_val (le_bytes 4 sa)) (le_val (le_bytes 2 so))
    (le_val (le_bytes 4 da)) (le_val (le_bytes 2 de))).
  by rewrite !le_val_bytes_small.
Qed.

(** The frame of a connection request. *)
Definition request_of (id : Z) (t : syn_tuple) (f : frame) : Prop :=
  h_pkt_type (f_hdr f) = pkt_val MINIP_CONN_REQUEST /\ h_id (f_hdr f) = htonl id /\
  h_sdu_len (f_hdr f) = sizeof_syn_tuple /\ exists old, f_data f = syn_bytes old t.

Section Request.
Context `{P : Platform}.

Lemma conn_request_run saddr source daddr dest id mac s rc s' :
  pepdna_minip_conn_request saddr source daddr dest id mac s = Ret rc s' ->
  same_state s s' /\ exists evs, grew s s' evs /\
    (wire evs = [] /\ rc < 0 \/
     exists f, wire evs = [f] /\ request_of id (mkSyn saddr source daddr dest) f).
Proof.
  unfold pepdna_minip_conn_request, minip_xmit, bind, deref, ret, throw. call_out.
  destruct r as [dev|]; [|done]. call_out. destruct r as [old|]; cycle 1.
  { intros [= <- <-]. split; [by split|]. eexists. split; [unfold grew; cbn; by rewrite <- app_assoc|].
    left. by split. }
  call_out. destruct (r <? 0).
  { call_out. intros [= <- <-]. split; [by split|].
    eexists. split; [unfold grew; cbn; by rewrite <- !app_assoc|]. left. by split. }
  call_out. call_out. intros [= <- <-]. split; [by split|].
  eexists. split; [unfold grew; cbn; by rewrite <- !app_assoc|].
  right. eexists. split; [reflexivity|]. split_and!; try done. by eexists.
Qed.

(** What the receiver of a request does with it. *)
Lemma recv_request_run id t f s :
  syn_ok t -> request_of id t f ->
  pepdna_minip_recv_request f s =
  (do con <- pepdna_con_alloc t None
      (pepdna_hash32_rjenkins1_2 (syn_saddr t) (syn_source t)) 0 0;
   match con with None => ret (- 1) | Some _ => ret 0 end) s.
Proof.
  intros Ht (_ & _ & _ & old & Hd). unfold pepdna_minip_recv_request. rewrite Hd.
  change (Z.of_nat (length (syn_bytes old t)) <? sizeof_syn_tuple) with false. cbv iota zeta.
  by rewrite (syn_bytes_roundtrip old t Ht).
Qed.

End Request.

(** ** Data units of a flow *)

(** The data units the flow accepted. *)
Definition du_written (e : event) : list (list Z) :=
  match e with
  | Ev c r =>
      match c in kE R return R -> list (list Z) with
      | DuWrite _ _ b => fun rc => if rc =? 0 then [b] else []
      | _ => fun _ => []
      end r
  end.
Definition dus (evs : list event) : list (list Z) := concat (du_written <$> evs).

Lemma dus_app e1 e2 : dus (e1 ++ e2) = dus e1 ++ dus e2.
Proof. unfold dus. by rewrite fmap_app, concat_app. Qed.

(** A flow takes data units of some size. *)
Class SduLaw (P : Platform) : Prop := max_sdu_pos : forall f e, 0 < fst (kcall (MaxSduSize f) e).

Section Flow.
Context `{P : Platform}.

Definition flow_result (max : Z) (buf : list Z) (sent0 : Z) (s : st) (sent rc : Z) (s' : st) : Prop :=
  same_state s s' /\ exists evs, grew s s' evs /\
    Forall (fun b => 0 < Z.of_nat (length b) <= max) (dus evs) /\
    sent = sent0 + Z.of_nat (length (concat (dus evs))) /\
    concat (dus evs) `prefix_of` drop (Z.to_nat sent0) buf /\
    (sent < Z.of_nat (length buf) -> rc < 0) /\ rc <= 0.

Lemma flow_write_loop f pid max buf : 0 < max -> forall n togo sent s,
  0 <= togo -> 0 <= sent -> togo + sent = Z.of_nat (length buf) -> (Z.to_nat togo < n)%nat ->
  exists sent' rc s', iter n (flow_write_body f pid max buf) (togo, sent) s = Ret (sent', rc) s' /\
    flow_result max buf sent s sent' rc s'.
Proof.
  intros Hmax n. induction n as [|n IH]; intros togo sent s Ht Hs Hlen Hn; [lia|].
  cbn [iter]. unfold flow_write_body at 1. destruct (decide (togo = 0)) as [->|Hne].
  { change (truth 0) with false. cbn [negb]. unfold bind, ret.
    exists sent, 0, s. split; [done|]. split; [done|]. exists []. cbn.
    split_and!; [unfold grew; by rewrite app_nil_r|constructor|lia|apply prefix_nil|lia|lia]. }
  assert (truth togo = true) as -> by (unfold truth; destruct (togo =? 0) eqn:E; [lia | done]).
  cbn [negb]. set (b := take _ (drop (Z.to_nat sent) buf)).
  assert (Z.of_nat (length b) = Z.min togo max) as Hb.
  { unfold b. rewrite length_take, length_drop. lia. }
  unfold bind at 1. unfold bind at 1. call_out. destruct r; cbn [negb]; cycle 1.
  { unfold ret. eexists _, _, _. split; [reflexivity|]. split; [by split|]. eexists.
    split; [reflexivity|]. cbn. split_and!; [constructor|lia|apply prefix_nil|done|done]. }
  unfold bind at 1. call_out. destruct (truth r) eqn:Er.
  { unfold ret. eexists _, _, _. split; [reflexivity|]. split; [by split|]. eexists.
    split; [unfold grew; cbn; by rewrite <- app_assoc|].
    assert ((r =? 0) = false) as E0 by (unfold truth in Er; by destruct (r =? 0)).
    unfold dus. cbn. rewrite E0. cbn.
    split_and!; [constructor|lia|apply prefix_nil|done|done]. }
  match goal with |- context [ret (inl ?l) ?x] => set (s1 := x) end. unfold ret at 1.
  destruct (IH (togo - Z.min togo max) (sent + Z.min togo max) s1)
    as (sent' & rc & s2 & H2 & Hss & evs & Hg & Hf & Hsent & Hp & Hrc & Hrc0); [lia..|].
  eexists _, _, _. split; [exact H2|]. split; [etrans; [by split|exact Hss]|].
  assert (r = 0) as -> by (unfold truth in Er; destruct (r =? 0) eqn:E; [lia | done]).
  exists ([Ev (DuCreate (Z.min togo max)) true; Ev (DuWrite f pid b) 0] ++ evs).
  rewrite dus_app. change (dus [_; _]) with [b]. cbn [app concat].
  split; [unfold grew in *; rewrite Hg; cbn; by rewrite <- !app_assoc|].
  split; [constructor; [lia|done]|]. split; [rewrite length_app; lia|].
  split; [|done]. destruct Hp as [x Hx]. exists x.
  rewrite <- app_assoc, <- Hx. replace (Z.to_nat (sent + Z.min togo max))
    with (Z.to_nat sent + Z.to_nat (Z.min togo max))%nat by lia.
  rewrite <- drop_drop. unfold b. by rewrite take_drop.
Qed.

Lemma flow_write_run `{!SduLaw P} f pid buf s :
  Z.of_nat (length buf) < 2 ^ 31 ->
  exists max r s' evs, pepdna_flow_write (Some f) pid buf (Z.of_nat (length buf)) s = Ret r s' /\
    same_state s s' /\ grew s s' evs /\ Ev (MaxSduSize f) max ∈ evs /\
    Forall (fun b => 0 < Z.of_nat (length b) <= max) (dus evs) /\
    concat (dus evs) `prefix_of` buf /\
    (0 < r -> r = Z.of_nat (length (concat (dus evs)))) /\ (r <= 0 -> dus evs = []) /\
    (r = 0 -> buf = []).
Proof.
  intros Hsz. unfold pepdna_flow_write, bind at 1. call_out.
  rewrite (proj2 (Z.ltb_ge _ _)) by apply u32_ge0.
  unfold bind at 1. call_law (Z.lt 0) (max_sdu_pos f). rename r0 into max.
  match goal with |- context [bind _ _ ?x] => set (s1 := x) end.
  destruct (flow_write_loop f pid max buf HQ (S (Z.to_nat (Z.of_nat (length buf))))
    (Z.of_nat (length buf)) 0 s1) as (sent & rc & s2 & H2 & Hss & evs & Hg & Hf & Hsent & Hp & Hrc & Hrc0);
    [lia..|].
  rewrite (bind_Ret _ _ _ _ _ H2). unfold ret. rewrite drop_0 in Hp.
  pose proof (prefix_length _ _ Hp) as Hpl. rewrite Z.add_0_l in Hsent.
  exists max. eexists _, s2, ([Ev (FlowState f) r; Ev (MaxSduSize f) max] ++ evs).
  split; [reflexivity|]. split; [etrans; [by split|exact Hss]|].
  split; [unfold grew in *; rewrite Hg; cbn; by rewrite <- !app_assoc|].
  rewrite dus_app. change (dus [_; _]) with (@nil (list Z)). cbn [app].
  split; [right; left|]. split; [done|]. split; [done|].
  unfold truth. destruct (sent =? 0) eqn:E; cbn [negb].
  - assert (concat (dus evs) = []) as Hnil by (apply nil_length_inv; lia).
    split_and!; [lia| |].
    + intros _. destruct (dus evs) as [|b l]; [done|]. apply Forall_cons in Hf as [Hb _].
      cbn in Hnil. apply app_nil in Hnil as [-> _]. cbn in Hb. lia.
    + intros ->. destruct buf; [done|]. cbn in Hrc. lia.
  - rewrite s32_small by lia. split_and!; [done|lia|lia].
Qed.

End Flow.

(** ** Claims *)

(** A netlink message survives its transport: the 21 bytes it is copied into
    give back the message, and their number is NETLINK_MSS. *)
Theorem nl_msg_roundtrip m :
  nl_msg_ok m ->
  nl_msg_of_bytes (nl_msg_bytes m) = m /\ Z.of_nat (length (nl_msg_bytes m)) = NETLINK_MSS.
Proof. intros Hm. split; [by apply nl_bytes_roundtrip | done]. Qed.

(** An IPv4 address printed by inet_ntoa is read back by inet_addr, and the
    string has at most 15 characters, so with its NUL it fits the buffers of 16. *)
Theorem inet_ntoa_addr ip :
  is_u32 ip -> inet_addr (inet_ntoa ip) = Some ip /\ (length (inet_ntoa ip) <= 15)%nat.
Proof. apply inet_roundtrip. Qed.

Section Claims.
Context `{P : Platform}.

(** C33: pepdna_nl_sendmsg always returns, after at most four attempts, each with the
    same 21 bytes (addresses and ports in host byte order) to the allocator's port;
    it reports a refused connection only after the fourth.  Without a netlink socket
    (before the module created it, or after the module released it) it sends nothing:
    it reports a failed allocation or dereferences NULL. *)
Theorem nl_sendmsg_bounded saddr source daddr dest id port_id alloc s :
  match st_nl_sock s with
  | Some _ =>
      exists rc s', pepdna_nl_sendmsg saddr source daddr dest id port_id alloc s = Ret rc s' /\
        nl_sent 3 (mkNlMsg (ntohl saddr) (ntohs source) (ntohl daddr) (ntohs dest) id port_id
          alloc) s rc s'
  | None => nl_unsent s (pepdna_nl_sendmsg saddr source daddr dest id port_id alloc s)
  end.
Proof.
  destruct (st_nl_sock s) as [nl|] eqn:Hnl.
  - by apply (nl_loop_run nl).
  - by apply nl_loop_unsent.
Qed.

(** C26: writing a buffer to a RINA flow always returns, and the data units the flow
    accepted are non-empty pieces of at most the size the flow allows, whose
    concatenation is a prefix of the buffer; a positive result is the number of
    bytes accepted, and otherwise none was. *)
Theorem flow_write_segments `{!SduLaw P} f pid buf s :
  Z.of_nat (length buf) < 2 ^ 31 ->
  exists max r s' evs, pepdna_flow_write (Some f) pid buf (Z.of_nat (length buf)) s = Ret r s' /\
    same_state s s' /\ grew s s' evs /\ Ev (MaxSduSize f) max ∈ evs /\
    Forall (fun b => 0 < Z.of_nat (length b) <= max) (dus evs) /\
    concat (dus evs) `prefix_of` buf /\
    (0 < r -> r = Z.of_nat (length (concat (dus evs)))) /\ (r <= 0 -> dus evs = []) /\
    (r = 0 -> buf = []).
Proof. apply flow_write_run. Qed.

End Claims.

(** C25: the handshake hands the connection over: whatever request frame a node puts
    on the wire for a tuple, the node that receives it allocates a connection with
    the same tuple and with the identifier computed from the same client address and
    port. *)
Theorem request_hands_over (PA PB : Platform) t id mac (s : @st PA) rc s' evs f (r : @st PB) :
  syn_ok t ->
  pepdna_minip_conn_request (syn_saddr t) (syn_source t) (syn_daddr t) (syn_dest t) id mac s
    = Ret rc s' ->
  grew s s' evs -> f ∈ wire evs ->
  @pepdna_minip_recv_request PB f r =
  (do con <- @pepdna_con_alloc PB t None
      (pepdna_hash32_rjenkins1_2 (syn_saddr t) (syn_source t)) 0 0;
   match con with None => ret (- 1) | Some _ => ret 0 end) r.
Proof.
  intros Ht Hrun Hg Hf. apply conn_request_run in Hrun as (_ & evs' & Hg' & Hw).
  unfold grew in *. rewrite Hg in Hg'. apply app_inv_head in Hg' as <-.
  destruct Hw as [[Hw _]|(f' & Hw & Hreq)]; rewrite Hw in Hf; [by apply elem_of_nil in Hf|].
  apply list_elem_of_singleton in Hf as ->. destruct t. by apply (recv_request_run id).
Qed.

(** ** Witnesses *)

Lemma nl_msg_roundtrip_witness :
  nl_msg_of_bytes (nl_msg_bytes (mkNlMsg 167772161 40000 167772162 80 7 (- 3) true))
    = mkNlMsg 167772161 40000 167772162 80 7 (- 3) true.
Proof.
  destruct (nl_msg_roundtrip (mkNlMsg 167772161 40000 167772162 80 7 (- 3) true)) as [H _].
  - by vm_compute; repeat split.
  - exact H.
Defined.

Lemma inet_ntoa_addr_witness : inet_addr (inet_ntoa (htonl 0xC0A80001)) = Some (htonl 0xC0A80001).
Proof.
  destruct (inet_ntoa_addr (htonl 0xC0A80001)) as [H _]; [by vm_compute; split | exact H].
Defined.

#[global] Instance sample_sdu f : SduLaw (sample f).
Proof. intros x e. cbn. lia. Qed.

Lemma flow_write_segments_witness :
  exists max r s' evs, @pepdna_flow_write (sample tcp_build) (Some 1%positive) 4 (replicate 1500 9)
      (Z.of_nat (length (replicate 1500 9))) (loaded tcp_build []) = Ret r s' /\
    Ev (MaxSduSize 1) max ∈ evs /\ concat (dus evs) `prefix_of` replicate 1500 9.
Proof.
  destruct (@flow_write_segments (sample tcp_build) _ 1 4 (replicate 1500 9) (loaded tcp_build []))
    as (max & r & s' & evs & H1 & _ & _ & H2 & _ & H3 & _).
  - rewrite length_replicate. lia.
  - exists max, r, s', evs. split; [exact H1|]. split; [exact H2 | exact H3].
Defined.

Definition request1 : outcome (@st (sample (minip_build TCP2MINIP))) Z :=
  @pepdna_minip_conn_request (sample (minip_build TCP2MINIP)) (syn_saddr syn1_tuple)
    (syn_source syn1_tuple) (syn_daddr syn1_tuple) (syn_dest syn1_tuple) syn1_id
    [0; 0; 0; 0; 0; 0] (loaded (minip_build TCP2MINIP) []).
Definition request1_frame : frame :=
  mkFrame (mkHdr 1 16 (htonl syn1_id) (htonl 9) (htonl 9) (htonl 1000)) (syn_bytes [] syn1_tuple).

Lemma request_hands_over_witness :
  @pepdna_minip_recv_request (sample (minip_build MINIP2TCP)) request1_frame
    (loaded (minip_build MINIP2TCP) []) =
  (do con <- @pepdna_con_alloc (sample (minip_build MINIP2TCP)) syn1_tuple None
      (pepdna_hash32_rjenkins1_2 (syn_saddr syn1_tuple) (syn_source syn1_tuple)) 0 0;
   match con with None => ret (- 1) | Some _ => ret 0 end) (loaded (minip_build MINIP2TCP) []).
Proof.
  apply (@request_hands_over (sample (minip_build TCP2MINIP)) (sample (minip_build MINIP2TCP))
    syn1_tuple syn1_id [0; 0; 0; 0; 0; 0] (loaded (minip_build TCP2MINIP) []) 0
    (state_of (loaded (minip_build TCP2MINIP) []) request1)
    (drop (length (st_trace (loaded (minip_build TCP2MINIP) [])))
       (st_trace (state_of (loaded (minip_build TCP2MINIP) []) request1)))).
  - by vm_compute; repeat split.
  - vm_compute. reflexivity.
  - vm_compute. reflexivity.
  - match goal with |- _ ∈ ?l => assert (l = [request1_frame]) as -> by (vm_compute; reflexivity) end.
    by left.
Defined.
