(* ===== verification/LifeClaims.v ===== *)
(** The life of the module and of a connection: loading, closing, and the error
    path of accepting. *)

From Stdlib Require Import ZArith Lia.
From stdpp Require Import base list gmap.
From S2P Require Import Prelude Ints Types Setters Kernel Hash TcpUtils Rtxq Connection Tcp.
From S2P Require Import Netlink Minip Rina Ccn TcpListen TcpConnect Server Core System.
From S2P Require Import Frame RtxqProps Window Table TableOps Alloc Invariant Sample SampleRun TableClaims.
Open Scope Z_scope.

(** ** Closing a TCP connection *)

(** The sockets shut down by a run. *)
Definition shut (e : event) : list positive :=
  match e with Ev c _ => match c with KernelSockShutdown a => [a] | _ => [] end end.
Definition shutdowns (evs : list event) : list positive := concat (shut <$> evs).

Lemma shutdowns_app e1 e2 : shutdowns (e1 ++ e2) = shutdowns e1 ++ shutdowns e2.
Proof. unfold shutdowns. by rewrite fmap_app, concat_app. Qed.

(** The sockets after the callbacks of [a] were detached. *)
Definition detach (b : bool) (a : positive) (m : gmap positive sock) : gmap positive sock :=
  if b then alter (set_sk_user_data UD_null) a m else m.

Section Close.
Context `{P : Platform}.

Lemma close_side_run a b s :
  is_Some (st_socks s !! a) ->
  exists s' evs, close_side a b s = Ret tt s' /\ grew s s' evs /\
    shutdowns evs = (if b then [a] else []) /\
    st_socks s' = detach b a (st_socks s) /\ st_cons s' = st_cons s /\ st_srv s' = st_srv s.
Proof.
  intros [k Hk]. unfold close_side. rewrite (bind_Ret _ _ _ _ _ (get_sock_run _ _ _ Hk)).
  destruct b; cbn [when detach].
  - unfold bind. rewrite (upd_sock_run _ _ _ _ Hk). call_out. destruct r.
    eexists _, _. split; [reflexivity|]. split_and!; try done.
    cbn. apply map_eq. intros i. destruct (decide (i = a)) as [->|Hne].
    + by rewrite lookup_insert_eq, lookup_alter_eq, Hk.
    + by rewrite lookup_insert_ne, lookup_alter_ne by done.
  - exists s, []. split; [done|]. by split_and!; [unfold grew; rewrite app_nil_r|..].
Qed.

(** Closing a connection with both sockets, up to the release of a reference. *)
Lemma con_close_tcp_run c k a b v s :
  st_srv s = SrvLive v -> srv_mode v = mode_val TCP2TCP -> st_cons s !! c = Some k ->
  con_lsock k = Some a -> con_rsock k = Some b ->
  is_Some (st_socks s !! a) -> is_Some (st_socks s !! b) ->
  exists s1 evs, pepdna_con_close (Some c) s = pepdna_con_put (Some c) s1 /\ grew s s1 evs /\
    shutdowns evs = (if truth (con_lflag k) then [a] else []) ++ (if truth (con_rflag k) then [b] else []) /\
    st_cons s1 = <[c := set_con_rflag 0 (set_con_lflag 0 k)]> (st_cons s) /\
    st_socks s1 = detach (truth (con_rflag k)) b (detach (truth (con_lflag k)) a (st_socks s)) /\
    st_srv s1 = st_srv s.
Proof.
  intros Hv Hm Hk Ha Hb Hsa Hsb. unfold pepdna_con_close.
  rewrite (bind_Ret _ _ _ _ _ (get_con_run _ _ _ Hk)), Ha.
  rewrite (bind_Ret _ _ _ _ _ (upd_con_run _ _ _ _ Hk)). set (s0 := set_st_cons _ s).
  destruct (close_side_run a (truth (con_lflag k)) s0 Hsa) as (s1 & e1 & H1 & Hg1 & Hd1 & Hs1 & Hc1 & Hv1).
  rewrite (bind_Ret _ _ _ _ _ H1).
  assert (st_srv s1 = SrvLive v) as Hv1' by (rewrite Hv1; exact Hv).
  rewrite (bind_Ret _ _ _ _ _ (get_srv_run _ _ Hv1')). unfold is_mode. rewrite Hm, Z.eqb_refl, Hb.
  assert (st_cons s1 !! c = Some (set_con_lflag 0 k)) as Hk1.
  { rewrite Hc1. cbn. by rewrite lookup_insert_eq. }
  rewrite (bind_Ret _ _ _ _ _ (upd_con_run _ _ _ _ Hk1)). set (s2 := set_st_cons _ s1).
  assert (is_Some (st_socks s2 !! b)) as Hsb2.
  { change (st_socks s2) with (st_socks s1). rewrite Hs1. unfold detach.
    destruct (truth (con_lflag k)); [by apply lookup_alter_is_Some | done]. }
  destruct (close_side_run b (truth (con_rflag k)) s2 Hsb2) as (s3 & e3 & H3 & Hg3 & Hd3 & Hs3 & Hc3 & Hv3).
  rewrite (bind_Ret _ _ _ _ _ H3). exists s3, (e1 ++ e3). split; [done|].
  split; [unfold grew in *; rewrite Hg3; cbn; by rewrite Hg1, app_assoc|].
  split; [by rewrite shutdowns_app, Hd1, Hd3|]. split.
  - rewrite Hc3. cbn. rewrite Hc1. cbn. by rewrite insert_insert_eq.
  - split; [by rewrite Hs3; cbn; rewrite Hs1 | by rewrite Hv3; cbn; rewrite Hv1].
Qed.

End Close.

Section Claims.
Context `{P : Platform}.

(** C31: loading either succeeds and leaves a server without connections and an empty
    table, or fails with a non-zero code and leaves no live server. *)
Theorem init_outcome s rc s' :
  unloaded s -> pepdna_init s = Ret rc s' ->
  (rc = 0 /\ booted s') \/ (rc <> 0 /\ not_started s').
Proof. intros Hu Hrun. pose proof (init_spec s Hu) as H. by rewrite Hrun in H. Qed.

(** C32: closing a TCP2TCP connection never faults before it drops its reference: both
    flags are cleared, exactly the connected sides are shut down, left before right,
    and detached from their callbacks, and then one reference is dropped. *)
Theorem con_close_tcp c k a b v s :
  st_srv s = SrvLive v -> srv_mode v = mode_val TCP2TCP -> st_cons s !! c = Some k ->
  con_lsock k = Some a -> con_rsock k = Some b ->
  is_Some (st_socks s !! a) -> is_Some (st_socks s !! b) ->
  exists s1 evs, pepdna_con_close (Some c) s = pepdna_con_put (Some c) s1 /\ grew s s1 evs /\
    shutdowns evs = (if truth (con_lflag k) then [a] else []) ++ (if truth (con_rflag k) then [b] else []) /\
    st_cons s1 = <[c := set_con_rflag 0 (set_con_lflag 0 k)]> (st_cons s) /\
    st_socks s1 = detach (truth (con_rflag k)) b (detach (truth (con_lflag k)) a (st_socks s)) /\
    st_srv s1 = st_srv s.
Proof. apply con_close_tcp_run. Qed.

End Claims.

(** ** An accepted client without a name *)

(** The sample platform, but the acceptor gets a socket whose peer cannot be named. *)
Definition nameless_call (R : Type) (c : kE R) (e : list (list Z)) : R * list (list Z) :=
  match c in kE R return R * list (list Z) with
  | KernelAccept _ => ((0, no_sock), e)
  | GetPeerName _ => ((- 107, (0, 0)), e)
  | c' => sample_call _ c' e
  end.
Definition nameless (f : config) : Platform := {|
  E := list (list Z); kcall := nameless_call; hash_min := sample_hash_min; cfg := f
|}.
Definition nameless_unloaded : @st (nameless tcp_build) :=
  @mkSt (nameless tcp_build) [] [] SrvNull ∅ ∅ ∅ ∅ 1 [] None (- 1) 0 false [] [].
Definition nameless_loaded : @st (nameless tcp_build) :=
  state_of nameless_unloaded (@pepdna_init (nameless tcp_build) nameless_unloaded).

(** An accepted socket whose peer name cannot be read is released twice:
    identify_client releases it and returns the error as an identifier, and the
    acceptor, finding no connection with it, releases it again. *)
Theorem accept_without_name_releases_twice :
  exists s', @pepdna_tcp_accept (nameless tcp_build) 3 nameless_loaded = Fault DoubleFree s'.
Proof. eexists. vm_compute. reflexivity. Qed.

(** ** Witnesses *)

Lemma init_outcome_witness : booted (loaded tcp_build []).
Proof.
  destruct (@init_outcome (sample tcp_build) (unloaded_st tcp_build []) 0 (loaded tcp_build []))
    as [[_ H]|[H _]].
  - by split.
  - vm_compute. reflexivity.
  - exact H.
  - by destruct H.
Defined.

Lemma con_close_tcp_witness :
  exists s1 evs, @pepdna_con_close (sample tcp_build) (Some 6%positive) (tcp_pair [])
      = @pepdna_con_put (sample tcp_build) (Some 6%positive) s1 /\
    grew (tcp_pair []) s1 evs /\ shutdowns evs = [101; 102]%positive.
Proof.
  destruct (@con_close_tcp (sample tcp_build) 6
    (default zero_con (st_cons (tcp_pair []) !! 6%positive)) 101 102 (the_srv (tcp_pair [])) (tcp_pair []))
    as (s1 & evs & H1 & H2 & H3 & _).
  - vm_compute. reflexivity.
  - vm_compute. reflexivity.
  - vm_compute. reflexivity.
  - vm_compute. reflexivity.
  - vm_compute. reflexivity.
  - vm_compute. eauto.
  - vm_compute. eauto.
  - exists s1, evs. split; [exact H1|]. split; [exact H2|]. rewrite H3. vm_compute. reflexivity.
Defined.
