(* ===== verification/NdnEnc.v ===== *)
(** The encodings of the NDN packet format as byte strings, and the contracts of the
    functions that compose them: each one writes exactly the encoding at the end of
    the free space, or answers -1 when the space is too small. *)

From Stdlib Require Import ZArith Lia.
From stdpp Require Import base list.
From S2P Require Import Prelude Ints ByteMem NdnTlv.
Open Scope Z_scope.

(** ** The format *)

Definition be_bytes (n : nat) (v : Z) : list Z := reverse (le_bytes n v).

(** A type or a length. *)
Definition tl_bytes (v : Z) : list Z :=
  if v <? 253 then [v]
  else if v <=? 0xffff then 253 :: be_bytes 2 v
  else if v <=? 0xffffffff then 254 :: be_bytes 4 v
  else 255 :: be_bytes 8 v.

(** A nonNegativeInteger: one, two, four or eight bytes. *)
Definition nni_width (v : Z) : nat :=
  if v <? 2 ^ 8 then 1 else if v <? 2 ^ 16 then 2 else if v <? 2 ^ 32 then 4 else 8.
Definition nni_bytes (v : Z) : list Z := be_bytes (nni_width v) v.

(** An element, and a sequence of elements. *)
Definition tlv (e : Z * list Z) : list Z :=
  tl_bytes (fst e) ++ tl_bytes (zlen (snd e)) ++ snd e.
Definition tlvs (es : list (Z * list Z)) : list Z := concat (tlv <$> es).

(** The elements of a name, the chunk number as its last component. *)
Definition chunk_bytes (n : Z) : list Z := NDN_Marker_SegmentNumber :: nni_bytes n.
Definition name_comps (p : prefix) : list (list Z) :=
  pfx_comps p ++ match pfx_chunknum p with Some n => [chunk_bytes n] | None => [] end.
Definition name_elems (p : prefix) : list (Z * list Z) :=
  pair NDN_TLV_NameComponent <$> name_comps p.
Definition name_elem (p : prefix) : Z * list Z := (NDN_TLV_Name, tlvs (name_elems p)).

Definition opt_elem (b : bool) (e : Z * list Z) : list (Z * list Z) := if b then [e] else [].

Definition interest_elems (p : prefix) (scope : Z) (o : interest_opts) : list (Z * list Z) :=
  [name_elem p]
  ++ opt_elem (truth (io_mustbefresh o)) (NDN_TLV_Selectors, tlv (NDN_TLV_MustBeFresh, []))
  ++ [(NDN_TLV_Nonce, le_bytes 4 (io_nonce o))]
  ++ opt_elem (truth (io_interestlifetime o))
       (NDN_TLV_InterestLifetime, nni_bytes (io_interestlifetime o))
  ++ opt_elem (0 <=? scope) (NDN_TLV_Scope, nni_bytes scope).

Definition interest_bytes p scope o : list Z := tlv (NDN_TLV_Interest, tlvs (interest_elems p scope o)).

Definition meta_elems (opts : option data_opts) : list (Z * list Z) :=
  match opts with
  | None => []
  | Some o =>
      opt_elem (truth (do_freshnessperiod o))
        (NDN_TLV_FreshnessPeriod, nni_bytes (do_freshnessperiod o))
      ++ opt_elem (negb (do_finalblockid o =? UINT32_MAX))
           (NDN_TLV_FinalBlockId, tlv (NDN_TLV_NameComponent, chunk_bytes (do_finalblockid o)))
  end.

Definition sig_elems : list (Z * list Z) :=
  [(NDN_TLV_SignatureInfo, tlv (NDN_TLV_SignatureType, [NDN_VAL_SIGTYPE_DIGESTSHA256]));
   (NDN_TLV_SignatureValue, [])].

Definition content_elems (p : prefix) (payload : list Z) (o : option data_opts)
    : list (Z * list Z) :=
  [name_elem p; (NDN_TLV_MetaInfo, tlvs (meta_elems o)); (NDN_TLV_Content, payload)]
  ++ sig_elems.

Definition content_bytes p payload o : list Z := tlv (NDN_TLV_Data, tlvs (content_elems p payload o)).

(** ** Lemmas on the format *)

Lemma be_bytes_S n v : be_bytes (S n) v = be_bytes n (v / 256) ++ [v mod 256].
Proof. unfold be_bytes. cbn [le_bytes]. by rewrite reverse_cons. Qed.

Lemma length_be_bytes n v : length (be_bytes n v) = n.
Proof. unfold be_bytes. by rewrite length_reverse, length_le_bytes. Qed.

Lemma zlen_be_bytes n v : zlen (be_bytes n v) = Z.of_nat n.
Proof. unfold zlen. by rewrite length_be_bytes. Qed.

Lemma be_bytes_le n k v :
  (n <= k)%nat -> 0 <= v < 2 ^ (8 * Z.of_nat n) ->
  be_bytes k v = replicate (k - n) 0 ++ be_bytes n v.
Proof.
  revert n v. induction k as [|k IH]; intros n v Hk Hv.
  - by replace n with 0%nat by lia.
  - rewrite be_bytes_S. destruct n as [|n].
    + change (2 ^ (8 * Z.of_nat 0)) with 1 in Hv. assert (v = 0) as -> by lia.
      change (0 / 256) with 0. rewrite (IH 0%nat 0) by (cbn; lia). rewrite Nat.sub_0_r, Nat.sub_0_r.
      rewrite <- app_assoc. change (be_bytes 0 0) with (@nil Z).
      rewrite app_nil_l, app_nil_r. by rewrite <- replicate_cons_app.
    + rewrite (IH n), be_bytes_S, app_assoc; [done|lia|].
      replace (8 * Z.of_nat (S n)) with (8 * Z.of_nat n + 8) in Hv by lia.
      rewrite Z.pow_add_r in Hv by lia. change (2 ^ 8) with 256 in Hv.
      split; [apply Z.div_pos; lia | apply Z.div_lt_upper_bound; lia].
Qed.

Lemma tlvs_app a b : tlvs (a ++ b) = tlvs a ++ tlvs b.
Proof. unfold tlvs. by rewrite fmap_app, concat_app. Qed.

Lemma tlvs_cons e es : tlvs (e :: es) = tlv e ++ tlvs es.
Proof. done. Qed.

Lemma tlvs_one e : tlvs [e] = tlv e.
Proof. unfold tlvs. cbn. apply app_nil_r. Qed.

Lemma zlen_tl_bytes v :
  0 <= v -> zlen (tl_bytes v) =
    if v <? 253 then 1 else if v <=? 0xffff then 3 else if v <=? 0xffffffff then 5 else 9.
Proof.
  intros Hv. unfold tl_bytes.
  repeat case_match; rewrite ?zlen_cons, ?zlen_be_bytes, ?zlen_nil; done.
Qed.

Lemma zlen_tl_pos v : 1 <= zlen (tl_bytes v).
Proof.
  unfold tl_bytes. repeat case_match; rewrite zlen_cons; 
    match goal with |- _ <= 1 + zlen ?l => pose proof (zlen_ge0 l) end; lia.
Qed.

Lemma zlen_tlv e :
  zlen (tlv e) = zlen (tl_bytes (fst e)) + zlen (tl_bytes (zlen (snd e))) + zlen (snd e).
Proof. unfold tlv. rewrite !zlen_app. lia. Qed.

(** ** Contracts of the composing functions *)

Lemma or_fail_assoc f g k off m :
  or_fail f (or_fail g k) off m = or_fail (or_fail f g) k off m.
Proof.
  unfold or_fail, bind. destruct (f off m) as [[rc off'] m'| |]; try done.
  by destruct (rc <? 0).
Qed.

(** ... where the second part knows the offset at which the first one started. *)
Lemma or_fail_assoc_at f (g : Z -> Z -> BM (Z * Z)) k off m :
  or_fail (fun off => or_fail f (g off) off) k off m = or_fail f (or_fail (g off) k) off m.
Proof. symmetry. apply or_fail_assoc. Qed.

Lemma or_fail_ext f g k h off m :
  (forall off m, f off m = g off m) -> (forall off m, k off m = h off m) ->
  or_fail f k off m = or_fail g h off m.
Proof.
  intros H1 H2. unfold or_fail, bind. rewrite H1. destruct (g off m) as [[rc off'] m'| |]; try done.
  destruct (rc <? 0); [done | apply H2].
Qed.

Lemma prepends_ext b f g :
  (forall off m, f off m = g off m) -> prepends b g -> prepends b f.
Proof. intros He H m off Ho Hm. rewrite He. by apply H. Qed.

Lemma prepends_app b c f k : prepends b f -> prepends c k -> prepends (c ++ b) (or_fail f k).
Proof.
  intros Hf Hk. apply (prepends_seq b c f (fun _ => k)); [done|].
  intros old Ho m Hl Hm. by apply Hk.
Qed.

Lemma land_255 v : Z.land v 0xff = v mod 256.
Proof. exact (Z.land_ones v 8 ltac:(lia)). Qed.

Lemma shiftr_8 v : Z.shiftr v 8 = v / 256.
Proof. exact (Z.shiftr_div_pow2 v 8 ltac:(lia)). Qed.

Lemma tlval_bytes_run n v off m :
  Z.of_nat n <= off <= zlen m -> zlen m < 2 ^ 64 ->
  tlval_bytes n v off m = Ret (off - Z.of_nat n) (put_at (off - Z.of_nat n) (be_bytes n v) m).
Proof.
  revert v off m. induction n as [|n IH]; intros v off m Ho Hm; cbn [tlval_bytes].
  - rewrite Z.sub_0_r, put_at_nil by lia. done.
  - rewrite u64_small by lia. unfold bind. rewrite wr_run by lia.
    rewrite land_255, shiftr_8.
    pose proof (zlen_put_at (off - 1) [v mod 256] m ltac:(lia)) as Hl.
    rewrite zlen_cons, zlen_nil in Hl. specialize (Hl ltac:(lia)).
    rewrite IH by lia. rewrite be_bytes_S.
    replace (off - Z.of_nat (S n)) with (off - 1 - Z.of_nat n) by lia. f_equal.
    rewrite <- (zlen_be_bytes n (v / 256)).
    apply put_at_app; rewrite ?zlen_be_bytes, ?zlen_cons, ?zlen_nil; lia.
Qed.

Lemma prepends_TLval v : 0 <= v -> prepends (tl_bytes v) (ccnl_ndntlv_prependTLval v).
Proof.
  intros Hv m off Ho Hm. unfold ccnl_ndntlv_prependTLval.
  assert (exists len t, (if v <? 253 then (0%nat, u8 v)
    else if v <=? 0xffff then (2%nat, 253)
    else if v <=? 0xffffffff then (4%nat, 254) else (8%nat, 255)) = (len, t) /\
    tl_bytes v = t :: be_bytes len v) as (len & t & -> & ->).
  { unfold tl_bytes. destruct (v <? 253) eqn:E; [|repeat case_match; eauto].
    exists 0%nat, (u8 v). split; [done|]. by rewrite u8_small by (unfold is_u8; lia). }
  unfold prepended. rewrite zlen_cons, zlen_be_bytes.
  destruct (off <? Z.of_nat len + 1) eqn:E.
  - destruct (1 + Z.of_nat len <=? off) eqn:E2; [lia|]. by exists off, m.
  - destruct (1 + Z.of_nat len <=? off) eqn:E2; [|lia].
    unfold bind. rewrite tlval_bytes_run by lia. rewrite u64_small by lia.
    rewrite wr_run by (rewrite zlen_put_at; rewrite ?zlen_be_bytes; lia).
    replace (off - (1 + Z.of_nat len)) with (off - Z.of_nat len - zlen [t])
      by (rewrite zlen_cons, zlen_nil; lia).
    change (t :: be_bytes len v) with ([t] ++ be_bytes len v).
    rewrite <- put_at_app; [done | change (zlen [t]) with 1; lia | rewrite zlen_be_bytes; lia].
Qed.

Lemma prepends_TL t l :
  0 <= t -> 0 <= l -> prepends (tl_bytes t ++ tl_bytes l) (ccnl_ndntlv_prependTL t l).
Proof. intros. by apply prepends_app; apply prepends_TLval. Qed.

(** An element without a value. *)
Lemma prepends_empty t : 0 <= t -> prepends (tlv (t, [])) (ccnl_ndntlv_prependTL t 0).
Proof.
  intros Ht. unfold tlv. cbn [fst snd]. rewrite zlen_nil, app_nil_r. by apply prepends_TL.
Qed.

(** A head around what was composed since the offset [old]. *)
Lemma prepends_wrap t b f :
  0 <= t -> prepends b f ->
  prepends (tlv (t, b))
    (fun off => or_fail f (fun off' => ccnl_ndntlv_prependTL t (u64 (off - off')) off') off).
Proof.
  intros Ht Hf. unfold tlv. cbn [fst snd]. rewrite app_assoc.
  apply (prepends_seq b _ f (fun old off' => ccnl_ndntlv_prependTL t (u64 (old - off')) off'));
    [done|].
  intros old Ho m Hl Hm. replace (old - (old - zlen b)) with (zlen b) by lia.
  pose proof (zlen_ge0 b). rewrite u64_small by lia. by apply prepends_TL.
Qed.

(** ... and around several parts. *)
Lemma prepends_wrap2 t b c f g :
  0 <= t -> prepends b f -> prepends c g ->
  prepends (tlv (t, c ++ b))
    (fun off => or_fail f (or_fail g
       (fun off' => ccnl_ndntlv_prependTL t (u64 (off - off')) off')) off).
Proof.
  intros Ht Hf Hg. eapply prepends_ext; [intros; apply or_fail_assoc|].
  by apply prepends_wrap, prepends_app.
Qed.

(** The bytes of a value without leading zeros. *)
Fixpoint min_bytes (n : nat) (v : Z) : list Z :=
  match n with
  | O => []
  | S n' => if v =? 0 then [] else min_bytes n' (v / 256) ++ [v mod 256]
  end.

Lemma pow_256 k : 2 ^ (8 * Z.of_nat (S k)) = 256 * 2 ^ (8 * Z.of_nat k).
Proof.
  replace (8 * Z.of_nat (S k)) with (8 + 8 * Z.of_nat k) by lia. by rewrite Z.pow_add_r by lia.
Qed.

Lemma div_256_range n v :
  0 <= v < 2 ^ (8 * Z.of_nat (S n)) -> 0 <= v / 256 < 2 ^ (8 * Z.of_nat n).
Proof.
  rewrite pow_256. intros H. split; [apply Z.div_pos | apply Z.div_lt_upper_bound]; lia.
Qed.

Lemma min_bytes_spec n v :
  0 <= v < 2 ^ (8 * Z.of_nat n) ->
  exists k, (k <= n)%nat /\ min_bytes n v = be_bytes k v /\ v < 2 ^ (8 * Z.of_nat k) /\
    (forall j, k = S j -> 2 ^ (8 * Z.of_nat j) <= v).
Proof.
  revert v. induction n as [|n IH]; intros v Hv; cbn [min_bytes].
  - exists 0%nat. split_and!; [done|done|lia|done].
  - destruct (v =? 0) eqn:E0.
    { exists 0%nat. split_and!; [lia|done|cbn; lia|done]. }
    destruct (IH (v / 256) (div_256_range n v Hv)) as (k & Hk & -> & Hk2 & Hk3).
    exists (S k). split_and!; [lia | by rewrite be_bytes_S | rewrite pow_256; div_mod_lia |].
    intros j [= <-]. destruct k as [|j]; [cbn; lia|].
    specialize (Hk3 j eq_refl). rewrite pow_256. div_mod_lia.
Qed.

Lemma nonneg_bytes_run n v off len m :
  0 <= v < 2 ^ (8 * Z.of_nat n) -> 0 <= off <= zlen m ->
  let b := min_bytes n v in
  if zlen b <=? off then
    nonneg_bytes n v off len m
    = Ret (0, off - zlen b, (len + length b)%nat) (put_at (off - zlen b) b m)
  else exists off' len' m', nonneg_bytes n v off len m = Ret (- 1, off', len') m' /\
    zlen m' = zlen m /\ drop (Z.to_nat off) m' = drop (Z.to_nat off) m.
Proof.
  revert v off len m. induction n as [|n IH]; intros v off len m Hv Ho; cbn [min_bytes].
  - change (2 ^ (8 * Z.of_nat 0)) with 1 in Hv. assert (v = 0) as -> by lia. cbn zeta.
    rewrite zlen_nil. destruct (0 <=? off) eqn:E; [|lia].
    cbn. rewrite Nat.add_0_r, Z.sub_0_r, put_at_nil by lia. done.
  - cbn [nonneg_bytes]. unfold truth. destruct (v =? 0) eqn:E0; cbn [negb].
    { cbn zeta. rewrite zlen_nil. destruct (0 <=? off) eqn:E; [|lia].
      cbn. rewrite Nat.add_0_r, Z.sub_0_r, put_at_nil by lia. done. }
    cbn zeta. rewrite zlen_app, length_app, zlen_cons, zlen_nil. cbn [length].
    pose proof (zlen_ge0 (min_bytes n (v / 256))).
    destruct (off <? 1) eqn:Eo.
    { destruct (zlen _ + _ <=? off) eqn:E; [lia|]. by exists (u64 (off - 1)), len, m. }
    unfold bind. rewrite wr_run by lia. rewrite land_255, shiftr_8.
    pose proof (zlen_put_at (off - 1) [v mod 256] m ltac:(lia)) as Hpl.
    rewrite zlen_cons, zlen_nil in Hpl. specialize (Hpl ltac:(lia)).
    specialize (IH (v / 256) (off - 1) (S len) (put_at (off - 1) [v mod 256] m)
      (div_256_range n v Hv) ltac:(lia)). cbn zeta in IH.
    destruct (zlen _ <=? off - 1) eqn:Ek in IH.
    + destruct (zlen _ + _ <=? off) eqn:E; [|lia]. rewrite IH.
      rewrite put_at_app by (rewrite ?zlen_cons, ?zlen_nil; lia).
      replace (off - (zlen (min_bytes n (v / 256)) + (1 + 0)))
        with (off - 1 - zlen (min_bytes n (v / 256))) by lia.
      by replace (S len + length (min_bytes n (v / 256)))%nat
        with (len + (length (min_bytes n (v / 256)) + 1))%nat by lia.
    + destruct (zlen _ + _ <=? off) eqn:E; [lia|].
      destruct IH as (o' & l' & m' & Hr & Hl & Hd). exists o', l', m'. split_and!; [done|lia|].
      rewrite <- (drop_put_at_after (off - 1) [v mod 256] m off)
        by (rewrite ?zlen_cons, ?zlen_nil; lia).
      replace (Z.to_nat off) with (Z.to_nat (off - 1) + 1)%nat by lia.
      by rewrite <- !drop_drop, Hd.
Qed.

Lemma prepends_marker b : prepends [b] (prepend_marker b).
Proof.
  intros m off Ho Hm. unfold prepended, prepend_marker. rewrite zlen_cons, zlen_nil.
  destruct (off <? 1) eqn:E; destruct (1 + 0 <=? off) eqn:E2; try lia.
  - by exists (u64 (off - 1)), m.
  - unfold bind. rewrite wr_run by lia. done.
Qed.

Lemma prepends_zeros n : prepends (replicate n 0) (zero_bytes n).
Proof.
  induction n as [|n IH]; [apply prepends_nil|].
  apply (prepends_ext _ _ (or_fail (prepend_marker 0) (zero_bytes n))).
  { intros off m. unfold or_fail, prepend_marker. cbn [zero_bytes].
    destruct (off <? 1) eqn:E; [done|]. unfold bind. by destruct (wr (off - 1) 0 m). }
  rewrite replicate_S_end. by apply prepends_app; [apply prepends_marker|].
Qed.

(** The table of paddings is right. *)
Lemma fill_spec v :
  0 <= v < 2 ^ 64 ->
  exists n, fill !! length (min_bytes 8 v) = Some n /\
    nni_bytes v = replicate n 0 ++ min_bytes 8 v.
Proof.
  intros Hv. destruct (min_bytes_spec 8 v Hv) as (k & Hk & -> & Hk2 & Hk3).
  rewrite length_be_bytes. unfold nni_bytes.
  assert (exists n, fill !! k = Some n /\ nni_width v = (n + k)%nat) as (n & Hn & ->).
  { unfold nni_width.
    do 9 (destruct k as [|k]; [eexists; split; [reflexivity|];
      try (specialize (Hk3 _ eq_refl)); cbn in Hk2, Hk3 |- *; repeat case_match; lia|]). lia. }
  exists n. split; [done|]. rewrite (be_bytes_le k) by lia.
  by replace (n + k - k)%nat with n by lia.
Qed.

Lemma prepends_NonNegIntVal v :
  0 <= v < 2 ^ 64 -> prepends (nni_bytes v) (ccnl_ndntlv_prependNonNegIntVal v).
Proof.
  intros Hv m off Ho Hm. destruct (fill_spec v Hv) as (n & Hn & ->).
  set (f := fun off => do r <- nonneg_bytes 8 v off 0; let '(rc, off, _) := r in ret (rc, off)).
  pose proof (nonneg_bytes_run 8 v off 0 m Hv Ho) as Hr. cbn zeta in Hr.
  assert (ccnl_ndntlv_prependNonNegIntVal v off m = or_fail f (zero_bytes n) off m) as ->.
  { unfold ccnl_ndntlv_prependNonNegIntVal, or_fail, f, bind.
    destruct (zlen _ <=? off) eqn:E in Hr.
    - rewrite Hr. cbn -[fill min_bytes]. by rewrite Hn.
    - by destruct Hr as (o & l & m' & -> & _). }
  apply prepended_seq; [done | |].
  - unfold prepended, f, bind. destruct (zlen _ <=? off) eqn:E; [by rewrite Hr|].
    destruct Hr as (o & l & m' & -> & Hr). by exists o, m'.
  - intros Hl. apply prepends_zeros; rewrite zlen_put_at; pose proof (zlen_ge0 (min_bytes 8 v)); lia.
Qed.

Lemma prepends_NonNegInt t v :
  0 <= t -> 0 <= v < 2 ^ 64 -> prepends (tlv (t, nni_bytes v)) (ccnl_ndntlv_prependNonNegInt t v).
Proof. intros Ht Hv. apply prepends_wrap; [done|]. by apply prepends_NonNegIntVal. Qed.

Lemma prepends_Included t v b :
  0 <= t -> 0 <= v < 2 ^ 64 ->
  prepends (tlv (t, b :: nni_bytes v)) (ccnl_ndntlv_prependIncludedNonNegInt t v b).
Proof.
  intros Ht Hv. apply (prepends_wrap2 t (nni_bytes v) [b]); [done| |apply prepends_marker].
  by apply prepends_NonNegIntVal.
Qed.

Lemma prepends_bytes b : prepends b (prepend_bytes b).
Proof.
  intros m off Ho Hm. unfold prepended, prepend_bytes, wr_bytes, bind.
  destruct (off <? zlen b) eqn:E; destruct (zlen b <=? off) eqn:E2; try lia.
  - by exists off, m.
  - destruct (0 <=? off - zlen b) eqn:E3; [|lia].
    by destruct (off - zlen b + zlen b <=? zlen m) eqn:E4; [|lia].
Qed.

Lemma prepends_Blob t b : 0 <= t -> prepends (tlv (t, b)) (ccnl_ndntlv_prependBlob t b).
Proof.
  intros Ht. unfold tlv. cbn [fst snd]. rewrite app_assoc.
  apply prepends_app; [apply prepends_bytes | apply prepends_TL; [done|apply zlen_ge0]].
Qed.

(** A part that is there or not. *)
Lemma prepends_opt (b : bool) e f :
  (b = true -> prepends (tlv e) f) ->
  prepends (tlvs (opt_elem b e)) (if b then f else fun off => ret (0, off)).
Proof. intros H. destruct b; cbn [opt_elem]; [rewrite tlvs_one; auto | apply prepends_nil]. Qed.

Lemma prepends_comps cs :
  prepends (tlvs (pair NDN_TLV_NameComponent <$> reverse cs)) (prepend_comps cs).
Proof.
  induction cs as [|c cs IH]; [apply prepends_nil|].
  rewrite reverse_cons, fmap_app, tlvs_app, list_fmap_singleton, tlvs_one.
  apply prepends_app; [by apply prepends_Blob | done].
Qed.

(** What the C types of a name promise. *)
Definition chunk_ok (p : prefix) : Prop :=
  match pfx_chunknum p with Some n => is_u32 n | None => True end.

Lemma prepends_Name p : chunk_ok p -> prepends (tlv (name_elem p)) (ccnl_ndntlv_prependName p).
Proof.
  intros Hc. unfold name_elem, name_elems, name_comps. rewrite fmap_app, tlvs_app.
  apply prepends_wrap2; [done | |].
  - unfold chunk_ok in Hc. destruct (pfx_chunknum p) as [n|]; [|apply prepends_nil].
    rewrite list_fmap_singleton, tlvs_one. unfold is_u32 in Hc.
    apply (prepends_Included NDN_TLV_NameComponent n NDN_Marker_SegmentNumber); [done|lia].
  - rewrite <- (reverse_involutive (pfx_comps p)) at 1. apply prepends_comps.
Qed.

Definition opts_ok (o : interest_opts) : Prop := is_u32 (io_interestlifetime o).

Lemma prepends_Interest p scope o :
  chunk_ok p -> opts_ok o -> scope <= 2 ->
  prepends (interest_bytes p scope o) (ccnl_ndntlv_prependInterest p scope o).
Proof.
  intros Hc Ho Hs. unfold opts_ok, is_u32 in Ho.
  assert ((0 <=? scope) && (2 <? scope) = false) as Hsc
    by (destruct (0 <=? scope) eqn:?, (2 <? scope) eqn:?; lia || done).
  unfold ccnl_ndntlv_prependInterest. rewrite Hsc. unfold interest_bytes, interest_elems.
  do 4 (eapply prepends_ext; [intros; apply or_fail_assoc|]).
  apply prepends_wrap; [done|]. rewrite !tlvs_app, !tlvs_one.
  apply prepends_app; [|by apply prepends_Name].
  apply prepends_app;
    [|apply prepends_opt; intros _; apply prepends_wrap; [done|]; by apply prepends_empty].
  apply prepends_app; [|by apply prepends_Blob].
  apply prepends_app; apply prepends_opt; intros Hb; apply prepends_NonNegInt; done || lia.
Qed.

(** ** Contents

    The composition of a content has the same contract; a failure is answered with
    -1 or, behind the signature type, with 1. *)

Lemma prepends_sigtype :
  prepends (tlv (NDN_TLV_SignatureType, [NDN_VAL_SIGTYPE_DIGESTSHA256])) prepend_sigtype.
Proof. by apply prepends_Blob. Qed.

Definition data_opts_ok (o : option data_opts) : Prop :=
  match o with
  | Some o => is_u32 (do_freshnessperiod o) /\ is_u32 (do_finalblockid o)
  | None => True
  end.

Lemma prepends_final v :
  is_u32 v ->
  prepends (tlv (NDN_TLV_FinalBlockId, tlv (NDN_TLV_NameComponent, chunk_bytes v)))
    (fun off => or_fail
       (ccnl_ndntlv_prependIncludedNonNegInt NDN_TLV_NameComponent v NDN_Marker_SegmentNumber)
       (fun off' => ccnl_ndntlv_prependTL NDN_TLV_FinalBlockId (u64 (off - off')) off') off).
Proof.
  unfold is_u32. intros Hv. apply prepends_wrap; [done|]. apply prepends_Included; [done|lia].
Qed.

(** The meta information with its head, starting at [oldoffset2]. *)
Lemma prepends_meta o :
  data_opts_ok o ->
  prepends (tlv (NDN_TLV_MetaInfo, tlvs (meta_elems o)))
    (fun off => or_fail (prepend_meta o off)
       (fun off' => ccnl_ndntlv_prependTL NDN_TLV_MetaInfo (u64 (off - off')) off') off).
Proof.
  intros Ho. destruct o as [o|]; cycle 1.
  { apply prepends_wrap; [done | apply prepends_nil]. }
  destruct Ho as [Hf Hb]. unfold is_u32 in *. cbn [meta_elems prepend_meta].
  rewrite tlvs_app.
  set (fresh := if truth (do_freshnessperiod o) then _ else _).
  assert (prepends (tlvs (opt_elem (truth (do_freshnessperiod o))
    (NDN_TLV_FreshnessPeriod, nni_bytes (do_freshnessperiod o)))) fresh) as Hfr.
  { apply prepends_opt. intros _. by apply prepends_NonNegInt; [|lia]. }
  destruct (do_finalblockid o =? UINT32_MAX) eqn:E; cbn [negb opt_elem].
  - apply prepends_wrap; [done|]. apply prepends_app; [apply prepends_nil | done].
  - rewrite tlvs_one.
    apply (prepends_wrap NDN_TLV_MetaInfo _
      (fun off => or_fail (fun off => or_fail
         (ccnl_ndntlv_prependIncludedNonNegInt NDN_TLV_NameComponent (do_finalblockid o)
            NDN_Marker_SegmentNumber)
         (fun off' => ccnl_ndntlv_prependTL NDN_TLV_FinalBlockId (u64 (off - off')) off') off)
         fresh off)); [done|].
    apply prepends_app; [by apply prepends_final | done].
Qed.

(** Everything in front of the signature type. *)
Definition content_front (p : prefix) (payload : list Z) (o : option data_opts)
    (oldoffset oldoffset2 : Z) : Z -> BM (Z * Z) :=
  or_fail (fun off => ccnl_ndntlv_prependTL NDN_TLV_SignatureInfo (u64 (oldoffset2 - off)) off)
    (or_fail (ccnl_ndntlv_prependBlob NDN_TLV_Content payload)
      (fun off =>
        let oldoffset2 := off in
        or_fail (prepend_meta o oldoffset2)
          (or_fail
            (fun off => ccnl_ndntlv_prependTL NDN_TLV_MetaInfo (u64 (oldoffset2 - off)) off)
            (or_fail (ccnl_ndntlv_prependName p)
              (fun off => ccnl_ndntlv_prependTL NDN_TLV_Data (u64 (oldoffset - off)) off)))
          off)).

(** The content without its result position, and with -1 for every failure. *)
Definition content_seq (p : prefix) (payload : list Z) (o : option data_opts) (off : Z)
    : BM (Z * Z) :=
  let oldoffset := off in
  or_fail (ccnl_ndntlv_prependTL NDN_TLV_SignatureValue 0)
    (fun off2 => or_fail prepend_sigtype (content_front p payload o oldoffset off2) off2) off.

Lemma prependContent_front p payload o off :
  ccnl_ndntlv_prependContent p payload o off =
  let pos := u64 (off - zlen payload) in
  do r <- ccnl_ndntlv_prependTL NDN_TLV_SignatureValue 0 off;
  let '(rc, off1) := r in
  if rc <? 0 then ret (- 1, off1, pos)
  else
    do r <- prepend_sigtype off1;
    let '(rc, off2) := r in
    if rc <? 0 then ret (1, off2, pos)
    else
      do r <- content_front p payload o off off1 off2;
      let '(rc, off3) := r in
      if rc <? 0 then ret (- 1, off3, pos) else ret (0, off3, u64 (pos - off3)).
Proof. reflexivity. Qed.

Lemma prependContent_seq p payload o off m off' m' :
  (content_seq p payload o off m = Ret (0, off') m' ->
   ccnl_ndntlv_prependContent p payload o off m
   = Ret (0, off', u64 (u64 (off - zlen payload) - off')) m') /\
  (content_seq p payload o off m = Ret (- 1, off') m' ->
   exists rc, truth rc = true /\ ccnl_ndntlv_prependContent p payload o off m
     = Ret (rc, off', u64 (off - zlen payload)) m').
Proof.
  rewrite prependContent_front. unfold content_seq. cbn zeta.
  generalize (content_front p payload o off). intros front. unfold or_fail, bind.
  destruct (ccnl_ndntlv_prependTL _ _ off m) as [[r1 o1] m1| |]; [|split; discriminate..].
  destruct (r1 <? 0); [split; [discriminate|]; intros [= <- <-]; by exists (- 1)|].
  destruct (prepend_sigtype o1 m1) as [[r2 o2] m2| |]; [|split; discriminate..].
  destruct (r2 <? 0); [split; [discriminate|]; intros [= <- <-]; by exists 1|].
  split; intros ->; [done|]. by exists (- 1).
Qed.

Lemma prepends_content p payload o :
  chunk_ok p -> data_opts_ok o ->
  prepends (content_bytes p payload o) (content_seq p payload o).
Proof.
  intros Hp Ho. unfold content_bytes, content_elems, sig_elems.
  apply (prepends_ext _ _ (fun off => or_fail (or_fail (or_fail (or_fail (or_fail 
    (ccnl_ndntlv_prependTL NDN_TLV_SignatureValue 0)
    (fun off => or_fail prepend_sigtype (fun off' =>
       ccnl_ndntlv_prependTL NDN_TLV_SignatureInfo (u64 (off - off')) off') off))
    (ccnl_ndntlv_prependBlob NDN_TLV_Content payload))
    (fun off => or_fail (prepend_meta o off) (fun off' =>
       ccnl_ndntlv_prependTL NDN_TLV_MetaInfo (u64 (off - off')) off') off))
    (ccnl_ndntlv_prependName p))
    (fun off' => ccnl_ndntlv_prependTL NDN_TLV_Data (u64 (off - off')) off') off)).
  { intros off m. rewrite <- !or_fail_assoc. unfold content_seq, content_front.
    apply or_fail_ext; [done|]. intros off2 m2. symmetry.
    rewrite (or_fail_assoc_at prepend_sigtype (fun old off' =>
       ccnl_ndntlv_prependTL NDN_TLV_SignatureInfo (u64 (old - off')) off')).
    apply or_fail_ext; [done|]. intros off3 m3. apply or_fail_ext; [done|]. intros off4 m4.
    apply or_fail_ext; [done|]. intros off5 m5. unfold or_fail at 1, bind at 1.
    symmetry. apply or_fail_assoc. }
  apply prepends_wrap; [done|].
  cbn [app]. rewrite !tlvs_cons. change (tlvs []) with (@nil Z). rewrite app_nil_r.
  apply prepends_app; [|by apply prepends_Name].
  apply prepends_app; [|by apply prepends_meta].
  apply prepends_app; [|by apply prepends_Blob].
  apply prepends_app; [by apply prepends_empty|].
  apply prepends_wrap; [done | apply prepends_sigtype].
Qed.
