(* ===== verification/NdnDec.v ===== *)
(** Decoding of NDN packets: what the decoder makes of encoded elements, numbers and
    names, and where it goes on behind a component that claims too many bytes. *)

From Stdlib Require Import ZArith Lia.
From stdpp Require Import base list.
From S2P Require Import Prelude Ints ByteMem NdnTlv NdnEnc.
Open Scope Z_scope.

(** ** Numbers *)

Lemma lor_add a b k : 0 <= k -> a mod 2 ^ k = 0 -> 0 <= b < 2 ^ k -> Z.lor a b = a + b.
Proof.
  intros Hk Ha Hb. assert (Z.land a b = 0) as Hl.
  { apply Z.bits_inj'. intros n Hn. rewrite Z.land_spec, Z.bits_0.
    destruct (Z_lt_le_dec n k) as [H|H].
    - rewrite <- (Z.mod_pow2_bits_low a k n), Ha, Z.bits_0 by lia. done.
    - rewrite <- (Z.mod_small b (2 ^ k)), Z.mod_pow2_bits_high by lia. apply andb_false_r. }
  rewrite Z.add_nocarry_lxor by done. by rewrite Z.lxor_lor.
Qed.

Lemma lor_shiftl8 a b : 0 <= b < 256 -> Z.lor (Z.shiftl a 8) b = a * 256 + b.
Proof.
  intros Hb. rewrite Z.shiftl_mul_pow2 by lia. change (2 ^ 8) with 256.
  apply (lor_add _ _ 8); [lia | apply Z.mod_mul; lia | lia].
Qed.

Lemma lor_bytes4 a b c d :
  0 <= a < 256 -> 0 <= b < 256 -> 0 <= c < 256 -> 0 <= d < 256 ->
  Z.lor (Z.lor (Z.lor (Z.shiftl a 24) (Z.shiftl b 16)) (Z.shiftl c 8)) d
  = a * 2 ^ 24 + b * 2 ^ 16 + c * 2 ^ 8 + d.
Proof.
  intros Ha Hb Hc Hd. rewrite !Z.shiftl_mul_pow2 by lia.
  rewrite (lor_add (a * 2 ^ 24) (b * 2 ^ 16) 24) by div_mod_lia.
  rewrite (lor_add _ (c * 2 ^ 8) 16) by div_mod_lia.
  rewrite (lor_add _ d 8) by div_mod_lia. done.
Qed.

Definition be_val (acc : Z) (l : list Z) : Z := foldl (fun a b => a * 256 + b) acc l.

Lemma be_val_bytes n v acc :
  0 <= v < 2 ^ (8 * Z.of_nat n) -> be_val acc (be_bytes n v) = acc * 2 ^ (8 * Z.of_nat n) + v.
Proof.
  revert v. induction n as [|n IH]; intros v Hv.
  - change (2 ^ (8 * Z.of_nat 0)) with 1 in *. cbn. lia.
  - rewrite be_bytes_S. unfold be_val in *. rewrite foldl_app.
    rewrite IH by (by apply div_256_range). cbn [foldl].
    rewrite pow_256. div_mod_lia.
Qed.

Definition bytes_ok (l : list Z) : Prop := Forall is_u8 l.

Lemma le_bytes_ok n v : bytes_ok (le_bytes n v).
Proof.
  revert v. induction n as [|n IH]; intros v; cbn [le_bytes]; constructor; [|apply IH].
  unfold is_u8. change (2 ^ 8) with 256. apply Z.mod_pos_bound. lia.
Qed.

Lemma be_bytes_ok n v : bytes_ok (be_bytes n v).
Proof. apply Forall_reverse, le_bytes_ok. Qed.

Lemma be_val_le acc l : 0 <= acc -> bytes_ok l -> acc <= be_val acc l.
Proof.
  intros Ha Hl. revert acc Ha. induction Hl as [|b l Hb Hl IH]; intros acc Ha; [done|].
  cbn. unfold is_u8 in Hb. change (2 ^ 8) with 256 in Hb. 
  specialize (IH (acc * 256 + b) ltac:(lia)). unfold be_val in *. lia.
Qed.

Lemma nonneg_from_run l r acc :
  bytes_ok l -> 0 <= acc -> be_val acc l < 2 ^ 64 ->
  nonneg_from (l ++ r) (zlen l) acc = Some (be_val acc l).
Proof.
  intros Hl. revert acc. induction Hl as [|b l Hb Hl IH]; intros acc Ha Hv.
  - by destruct r.
  - cbn [app nonneg_from]. rewrite zlen_cons. pose proof (zlen_ge0 l).
    destruct (1 + zlen l =? 0) eqn:E; [lia|].
    replace (1 + zlen l - 1) with (zlen l) by lia.
    unfold is_u8 in Hb. change (2 ^ 8) with 256 in Hb.
    rewrite lor_shiftl8 by lia. cbn in Hv.
    pose proof (be_val_le (acc * 256 + b) l ltac:(lia) Hl) as H2. unfold be_val in *.
    rewrite u64_small by lia. by rewrite IH by lia.
Qed.

Lemma nonNegInt_run n v pos m r :
  0 <= v < 2 ^ (8 * Z.of_nat n) -> v < 2 ^ 64 ->
  drop (Z.to_nat pos) m = be_bytes n v ++ r ->
  ccnl_ndntlv_nonNegInt pos (Z.of_nat n) m = Ret v m.
Proof.
  intros Hv Hv2 Hd. unfold ccnl_ndntlv_nonNegInt. rewrite Hd, <- (zlen_be_bytes n v).
  pose proof (be_val_bytes n v 0 Hv) as Hb.
  rewrite nonneg_from_run; [|apply be_bytes_ok|lia|lia]. by rewrite Hb.
Qed.

Lemma nni_width_ok v : 0 <= v < 2 ^ 64 -> 0 <= v < 2 ^ (8 * Z.of_nat (nni_width v)).
Proof. intros Hv. unfold nni_width. repeat case_match; cbn; lia. Qed.

(** A nonNegativeInteger is read back. *)
Lemma nni_run v pos m r :
  0 <= v < 2 ^ 64 -> drop (Z.to_nat pos) m = nni_bytes v ++ r ->
  ccnl_ndntlv_nonNegInt pos (zlen (nni_bytes v)) m = Ret v m.
Proof.
  intros Hv Hd. unfold nni_bytes in *. rewrite zlen_be_bytes.
  eapply nonNegInt_run; [by apply nni_width_ok | lia | exact Hd].
Qed.

(** ** Heads *)

Lemma rd_drop pos i (m x : list Z) r :
  0 <= pos -> 0 <= i -> drop (Z.to_nat pos) m = x -> x !! Z.to_nat i = Some r ->
  rd (pos + i) m = Ret r m.
Proof.
  intros Hp Hi <- Hx. rewrite lookup_drop in Hx. apply rd_run; [lia|].
  rewrite <- Hx. f_equal. lia.
Qed.

Lemma drop_next pos (m a b : list Z) :
  0 <= pos -> drop (Z.to_nat pos) m = a ++ b -> drop (Z.to_nat (pos + zlen a)) m = b.
Proof.
  intros Hp Hd. unfold zlen. rewrite Z2Nat.inj_add, Nat2Z.id by lia.
  by rewrite <- drop_drop, Hd, drop_app_length.
Qed.

Lemma varlenint_run v pos len m r :
  0 <= pos -> 0 <= v < 2 ^ 32 -> zlen (tl_bytes v) <= len ->
  drop (Z.to_nat pos) m = tl_bytes v ++ r ->
  ccnl_ndntlv_varlenint pos len m
  = Ret (Some (pos + zlen (tl_bytes v), len - zlen (tl_bytes v), v)) m.
Proof.
  intros Hp Hv Hl Hd. unfold ccnl_ndntlv_varlenint.
  assert (forall i b, 0 <= i -> (tl_bytes v ++ r) !! Z.to_nat i = Some b ->
    rd (pos + i) m = Ret b m) as Hrd by (intros i b Hi; exact (rd_drop pos i m _ b Hp Hi Hd)).
  rewrite zlen_tl_bytes in * by lia. unfold tl_bytes in *.
  unfold bind at 1. rewrite <- (Z.add_0_r pos) at 1.
  destruct (v <? 253) eqn:E1; [|destruct (v <=? 0xffff) eqn:E2; [|destruct (v <=? 0xffffffff) eqn:E3; [|lia]]].
  - rewrite (Hrd 0 v) by done. rewrite E1. by destruct (1 <=? len) eqn:E; [|lia].
  - rewrite (Hrd 0 253) by done. cbn [Z.ltb Z.compare Pos.compare Pos.compare_cont andb Z.eqb].
    destruct (3 <=? len) eqn:E; [|lia]. cbn [andb Z.eqb Pos.eqb].
    rewrite be_bytes_S in Hrd. unfold bind.
    rewrite (Hrd 1 (v / 256 mod 256)), (Hrd 2 (v mod 256)) by done.
    rewrite lor_shiftl8 by (apply Z.mod_pos_bound; lia). do 3 f_equal. div_mod_lia.
  - rewrite (Hrd 0 254) by done. cbn [Z.ltb Z.compare Pos.compare Pos.compare_cont andb Z.eqb].
    destruct (5 <=? len) eqn:E; [|lia]. cbn [andb Z.eqb Pos.eqb]. unfold bind.
    rewrite (Hrd 1 (v / 256 / 256 / 256 mod 256)), (Hrd 2 (v / 256 / 256 mod 256)),
      (Hrd 3 (v / 256 mod 256)), (Hrd 4 (v mod 256)) by done.
    rewrite lor_bytes4 by (apply Z.mod_pos_bound; lia). do 3 f_equal. div_mod_lia.
Qed.

(** A head that is there: type and length are accepted exactly when the length is at
    most what was left before the head, which counts the head itself as payload. *)
Lemma dehead_exact t l pos len m r :
  0 <= pos -> 0 <= t < 2 ^ 32 -> 0 <= l < 2 ^ 32 ->
  zlen (tl_bytes t) + zlen (tl_bytes l) <= len ->
  drop (Z.to_nat pos) m = tl_bytes t ++ tl_bytes l ++ r ->
  ccnl_ndntlv_dehead pos len m
  = Ret (pos + zlen (tl_bytes t) + zlen (tl_bytes l),
         len - zlen (tl_bytes t) - zlen (tl_bytes l), if l <=? len then Some (t, l) else None) m.
Proof.
  intros Hp Ht Hl Hlen Hd. unfold ccnl_ndntlv_dehead, bind.
  pose proof (zlen_tl_pos t). pose proof (zlen_tl_pos l).
  rewrite (varlenint_run t pos len m _ Hp Ht ltac:(lia) Hd).
  apply drop_next in Hd; [|done].
  rewrite (varlenint_run l (pos + zlen (tl_bytes t)) (len - zlen (tl_bytes t)) m r)
    by (done || lia).
  destruct (SIZE_MAX <? l) eqn:E; [unfold SIZE_MAX in E; lia|].
  by destruct (len <? l) eqn:E2, (l <=? len) eqn:E3; try lia.
Qed.

Lemma dehead_run t l pos len m r :
  0 <= pos -> 0 <= t < 2 ^ 32 -> 0 <= l < 2 ^ 32 ->
  zlen (tl_bytes t) + zlen (tl_bytes l) + l <= len ->
  drop (Z.to_nat pos) m = tl_bytes t ++ tl_bytes l ++ r ->
  ccnl_ndntlv_dehead pos len m
  = Ret (pos + zlen (tl_bytes t) + zlen (tl_bytes l),
         len - zlen (tl_bytes t) - zlen (tl_bytes l), Some (t, l)) m.
Proof.
  intros Hp Ht Hl Hlen Hd. pose proof (zlen_ge0 (tl_bytes t)). pose proof (zlen_ge0 (tl_bytes l)).
  rewrite (dehead_exact t l pos len m r) by (done || lia). by destruct (l <=? len) eqn:E; [|lia].
Qed.

Definition head_len (e : Z * list Z) : Z :=
  zlen (tl_bytes (fst e)) + zlen (tl_bytes (zlen (snd e))).

(** An element whose type and length the decoder can read. *)
Definition elem_ok (e : Z * list Z) : Prop := 0 < fst e < 253 /\ zlen (snd e) < 2 ^ 32.

Lemma elem_dehead e pos len m r :
  elem_ok e -> 0 <= pos -> zlen (tlv e) <= len -> drop (Z.to_nat pos) m = tlv e ++ r ->
  ccnl_ndntlv_dehead pos len m
    = Ret (pos + head_len e, len - head_len e, Some (fst e, zlen (snd e))) m /\
  drop (Z.to_nat (pos + head_len e)) m = snd e ++ r.
Proof.
  intros [He1 He2] Hp Hl Hd. pose proof (zlen_ge0 (snd e)). rewrite zlen_tlv in Hl.
  unfold tlv in Hd. rewrite <- !app_assoc in Hd. unfold head_len. split.
  - rewrite (dehead_run (fst e) (zlen (snd e)) pos len m (snd e ++ r)) by (done || lia).
    by rewrite Z.add_assoc, Z.sub_add_distr.
  - rewrite app_assoc in Hd. apply drop_next in Hd; [|done]. by rewrite zlen_app in Hd.
Qed.

Lemma head_len_pos e : 2 <= head_len e.
Proof.
  unfold head_len. pose proof (zlen_tl_pos (fst e)). pose proof (zlen_tl_pos (zlen (snd e))). lia.
Qed.

Lemma zlen_tlv_head e : zlen (tlv e) = head_len e + zlen (snd e).
Proof. apply zlen_tlv. Qed.

(** The first byte of an element is not zero, and there is one. *)
Lemma tlv_head e : elem_ok e -> exists t l, tlv e = t :: l /\ 0 < t.
Proof.
  intros [[H1 H2] _]. unfold tlv, tl_bytes. destruct (fst e <? 253) eqn:E; [|lia].
  cbn [app]. by eexists _, _.
Qed.

(** ** Loops over elements

    [fold_elems step pos es a]: the elements [es], the first one at [pos], are taken
    into account one after the other; [step] is given the position of the value. *)
Fixpoint fold_elems {A} (step : Z -> Z * list Z -> A -> A) (pos : Z)
    (es : list (Z * list Z)) (a : A) : A :=
  match es with
  | [] => a
  | e :: es' => fold_elems step (pos + zlen (tlv e)) es' (step (pos + head_len e) e a)
  end.

(** [body] does the work of [step] for an element [e], with the bytes [r] behind it,
    and leaves the loop at the next element. *)
Definition round_is {A} (body : Z -> Z -> Z -> Z -> A -> BM (sub_round A))
    (m : list Z) (e : Z * list Z) (r : list Z) (cp : Z) (a a' : A) : Prop :=
  forall len2, zlen (snd e) <= len2 < 2 ^ 64 -> drop (Z.to_nat cp) m = snd e ++ r ->
  exists cp' len2' i', body (fst e) cp len2 (zlen (snd e)) a m = Ret (SNext cp' len2' i' a') m /\
    cp' + i' = cp + zlen (snd e) /\ len2' - i' = len2 - zlen (snd e).

(** The loop goes through the elements [es], with [rest] more bytes to come. *)
Lemma sub_loop_app {A} body (step : Z -> Z * list Z -> A -> A) (I : A -> Prop) m r rest :
  0 <= rest ->
  forall es,
  (forall es1 e es2 cp a, es = es1 ++ e :: es2 -> 0 <= cp -> I a ->
     round_is body m e (tlvs es2 ++ r) cp a (step cp e a) /\ I (step cp e a)) ->
  Forall elem_ok es -> zlen (tlvs es) + rest < 2 ^ 64 ->
  forall fuel pos a, I a -> 0 <= pos ->
  drop (Z.to_nat pos) m = tlvs es ++ r ->
  sub_loop (length es + fuel) body pos (zlen (tlvs es) + rest) a m
  = sub_loop fuel body (pos + zlen (tlvs es)) rest (fold_elems step pos es a) m.
Proof.
  intros Hrest. induction es as [|e es IH]; intros Hb Hok Hl fuel pos a Ha Hp Hd.
  { cbn [length Nat.add fold_elems]. change (zlen (tlvs [])) with 0.
    by rewrite Z.add_0_l, Z.add_0_r. }
  cbn [length Nat.add sub_loop fold_elems].
  apply Forall_cons in Hok as [He Hok]. rewrite tlvs_cons, zlen_app in *.
  pose proof (zlen_ge0 (tlvs es)). pose proof (head_len_pos e). pose proof (zlen_ge0 (snd e)).
  pose proof (zlen_tlv_head e) as Hz. rewrite <- app_assoc in Hd.
  destruct (_ <=? 0) eqn:E; [lia|]. unfold bind at 1.
  destruct (elem_dehead e pos (zlen (tlv e) + zlen (tlvs es) + rest) m _ He Hp ltac:(lia) Hd)
    as [-> Hd2].
  destruct (Hb [] e es (pos + head_len e) a eq_refl ltac:(lia) Ha) as [Hr HI].
  destruct (Hr (zlen (tlv e) + zlen (tlvs es) + rest - head_len e) ltac:(lia) Hd2)
    as (cp' & l' & i' & Hrun & Hcp & Hli).
  unfold bind. rewrite Hrun. rewrite Hcp.
  replace (l' - i') with (zlen (tlvs es) + rest) by lia. rewrite u64_small by lia.
  replace (pos + head_len e + zlen (snd e)) with (pos + zlen (tlv e)) by lia.
  rewrite IH; [by rewrite Z.add_assoc|..|done|lia|exact HI|lia|by apply drop_next in Hd].
  intros es1 e' es2 cp a' -> Hcp' Ha'. by apply (Hb (e :: es1)).
Qed.

Lemma sub_loop_run {A} body (step : Z -> Z * list Z -> A -> A) (I : A -> Prop) m r :
  forall es,
  (forall es1 e es2 cp a, es = es1 ++ e :: es2 -> 0 <= cp -> I a ->
     round_is body m e (tlvs es2 ++ r) cp a (step cp e a) /\ I (step cp e a)) ->
  Forall elem_ok es -> zlen (tlvs es) < 2 ^ 64 ->
  forall fuel pos a, I a -> 0 <= pos -> (length es < fuel)%nat ->
  drop (Z.to_nat pos) m = tlvs es ++ r ->
  sub_loop fuel body pos (zlen (tlvs es)) a m = Ret (Some (fold_elems step pos es a)) m.
Proof.
  intros es Hb Hok Hl fuel pos a Ha Hp Hf Hd.
  replace fuel with (length es + S (fuel - S (length es)))%nat by lia.
  rewrite <- (Z.add_0_r (zlen (tlvs es))).
  by rewrite (sub_loop_app body step I m r 0) by (done || lia).
Qed.

(** ** Names *)

(** Where the values of the elements are, the first element at [pos]. *)
Fixpoint spans (pos : Z) (es : list (Z * list Z)) : list (Z * Z) :=
  match es with
  | [] => []
  | e :: es' => (pos + head_len e, zlen (snd e)) :: spans (pos + zlen (tlv e)) es'
  end.

Lemma slices_spans start pos es buf r :
  0 <= start <= pos -> drop (Z.to_nat (pos - start)) buf = tlvs es ++ r ->
  slice buf <$> ((fun x : Z * Z => (fst x - start, snd x)) <$> spans pos es) = snd <$> es.
Proof.
  revert pos. induction es as [|e es IH]; intros pos Hp Hd; [done|].
  cbn [spans fmap list_fmap]. f_equal.
  - unfold slice. cbn [fst snd]. rewrite tlvs_cons in Hd. unfold tlv in Hd.
    rewrite <- !app_assoc, app_assoc in Hd. apply drop_next in Hd; [|lia].
    rewrite zlen_app in Hd.
    replace (pos + head_len e - start) with (pos - start + head_len e) by lia.
    unfold head_len. rewrite Hd. unfold zlen. rewrite Nat2Z.id. apply take_app_length.
  - pose proof (zlen_ge0 (tlv e)). apply IH; [lia|]. rewrite tlvs_cons, <- app_assoc in Hd.
    apply drop_next in Hd; [|lia]. rewrite <- Hd. do 2 f_equal. lia.
Qed.

(** What a component does to the chunk number. *)
Definition chunk_of (v : list Z) (old : option Z) : option Z :=
  match v with 0 :: l => Some (be_val 0 l) | _ => old end.

Definition step_name (cp : Z) (e : Z * list Z) (n : dname) : dname :=
  if (fst e =? NDN_TLV_NameComponent) && (zlen (dn_comps n) <? CCNL_MAX_NAME_COMP)
  then mkDname (dn_comps n ++ [(cp, zlen (snd e))]) (chunk_of (snd e) (dn_chunknum n))
         (dn_nameptr n) (dn_namelen n)
  else n.

(** A component that is not a number, and the number component. *)
Definition plain_comp (c : list Z) : Prop := head c <> Some 0.
Definition comp_ok (c : list Z) : Prop :=
  plain_comp c \/ exists n, is_u32 n /\ c = chunk_bytes n.

Lemma chunk_of_plain c old : plain_comp c -> chunk_of c old = old.
Proof. unfold plain_comp, chunk_of. destruct c as [|[| |] c]; cbn; congruence. Qed.

Lemma chunk_of_bytes n old : is_u32 n -> chunk_of (chunk_bytes n) old = Some n.
Proof.
  unfold is_u32. intros Hn. cbn. unfold nni_bytes.
  rewrite be_val_bytes by (apply nni_width_ok; lia). do 2 f_equal. 
Qed.

Section Decoding.
Context (malloc_ok : asite -> bool) (Hmalloc : forall s, malloc_ok s = true).

Lemma name_round_run m c es2 r cp n :
  comp_ok c -> Forall elem_ok es2 -> (exists b r', r = b :: r' /\ 0 < b) -> 0 <= cp ->
  round_is (name_round malloc_ok) m (NDN_TLV_NameComponent, c) (tlvs es2 ++ r) cp n
    (step_name cp (NDN_TLV_NameComponent, c) n).
Proof.
  intros Hc Hes (b0 & r0 & -> & Hb0) Hp len2 Hl Hd. cbn [fst snd] in *.
  exists cp, len2, (zlen c). split; [|done]. unfold name_round, step_name. cbn [fst snd].
  rewrite Z.eqb_refl. cbn [andb]. destruct (zlen (dn_comps n) <? CCNL_MAX_NAME_COMP); [|done].
  assert (forall b l, c ++ tlvs es2 ++ b0 :: r0 = b :: l -> rd cp m = Ret b m) as Hrd.
  { intros b l Hb. rewrite <- (Z.add_0_r cp). apply (rd_drop cp 0 m _ b Hp ltac:(lia) Hd).
    by rewrite Hb. }
  destruct Hc as [Hc|(k & Hk & ->)].
  - assert (exists b l, c ++ tlvs es2 ++ b0 :: r0 = b :: l /\ b <> 0) as (b & l & Hb & Hn).
    { unfold plain_comp in Hc. destruct c as [|b c];
        [|exists b, (c ++ tlvs es2 ++ b0 :: r0); split; [done|cbn in Hc; congruence]].
      cbn [app].
      destruct Hes as [|e es2 He Hes]; [eexists _, _; split; [done|lia]|].
      destruct (tlv_head e He) as (t & l & Ht & Ht0). rewrite tlvs_cons, Ht. cbn.
      eexists _, _. split; [done|lia]. }
    unfold bind at 1. rewrite (Hrd b l Hb). unfold NDN_Marker_SegmentNumber.
    destruct (b =? 0) eqn:E; [lia|]. by rewrite chunk_of_plain.
  - unfold bind at 1. rewrite (Hrd 0 _ eq_refl). cbn [Z.eqb NDN_Marker_SegmentNumber].
    unfold is_u32 in Hk. change (chunk_bytes k) with ([0] ++ nni_bytes k) in Hd.
    rewrite <- app_assoc in Hd. apply drop_next in Hd; [|done].
    unfold chunk_bytes at 1. rewrite zlen_cons.
    replace (1 + zlen (nni_bytes k) - 1) with (zlen (nni_bytes k)) by lia.
    rewrite u64_small; cycle 1.
    { split; [apply zlen_ge0|]. unfold nni_bytes. rewrite zlen_be_bytes.
      unfold nni_width. repeat case_match; done. }
    unfold bind. rewrite (nni_run k (cp + 1) m _ ltac:(lia) Hd).
    destruct (UINT32_MAX <? k) eqn:E; [unfold UINT32_MAX in E; lia|].
    rewrite Hmalloc. cbn [negb]. by rewrite chunk_of_bytes.
Qed.

Lemma fold_step_name vs pos n :
  zlen (dn_comps n) + zlen vs <= CCNL_MAX_NAME_COMP ->
  fold_elems step_name pos (pair NDN_TLV_NameComponent <$> vs) n
  = mkDname (dn_comps n ++ spans pos (pair NDN_TLV_NameComponent <$> vs))
      (foldl (fun old v => chunk_of v old) (dn_chunknum n) vs) (dn_nameptr n) (dn_namelen n).
Proof.
  revert pos n. induction vs as [|v vs IH]; intros pos n Hl.
  - cbn. rewrite app_nil_r. by destruct n.
  - rewrite zlen_cons in Hl. pose proof (zlen_ge0 vs).
    cbn [fmap list_fmap fold_elems spans foldl]. unfold step_name at 1 2. cbn [fst snd].
    rewrite Z.eqb_refl. cbn [andb].
    destruct (zlen (dn_comps n) <? CCNL_MAX_NAME_COMP) eqn:E; [|lia].
    rewrite IH; cbn [dn_comps dn_chunknum dn_nameptr dn_namelen]; 
      [|rewrite zlen_app, zlen_cons, zlen_nil; lia].
    by rewrite <- app_assoc.
Qed.

Lemma length_tlvs es : (length es <= length (tlvs es))%nat.
Proof.
  induction es as [|e es IH]; [done|]. rewrite tlvs_cons, length_app.
  pose proof (zlen_tlv_head e). pose proof (head_len_pos e). pose proof (zlen_ge0 (snd e)).
  unfold zlen in *. cbn. lia.
Qed.

(** The number of elements is below the fuel of the loops. *)
Lemma elems_fuel pos m es r :
  drop pos m = tlvs es ++ r -> (length es < S (length m))%nat.
Proof.
  intros Hd. pose proof (length_tlvs es). apply (f_equal length) in Hd.
  rewrite length_drop, length_app in Hd. lia.
Qed.

Definition set_name (p : pkt) (n : dname) : pkt :=
  mkPkt (p_buf p) (Some n) (p_content p) (p_contlen p) (p_type p) (- 1) (p_flags p) (p_suite p)
    (p_minsuffix p) (p_maxsuffix p) (p_scope p) (p_mbf p) (p_nonce p) (p_interestlifetime p)
    (p_freshnessperiod p) (p_hmac p).

(** What the C types and the limits of the decoder ask of a name. *)
Definition name_ok (p : prefix) : Prop :=
  chunk_ok p /\ Forall plain_comp (pfx_comps p) /\ zlen (name_comps p) <= CCNL_MAX_NAME_COMP /\
  zlen (tlvs (name_elems p)) < 2 ^ 32.

Lemma name_comps_ok p : name_ok p -> Forall comp_ok (name_comps p).
Proof.
  intros (Hc & Hp & _). unfold name_comps, chunk_ok in *. apply Forall_app. split.
  - eapply Forall_impl; [exact Hp|]. by left.
  - destruct (pfx_chunknum p) as [n|]; [|constructor].
    constructor; [|constructor]. right. by exists n.
Qed.

Lemma elem_le_tlvs e es : e ∈ es -> zlen (snd e) <= zlen (tlvs es).
Proof.
  intros (es1 & es2 & ->)%list_elem_of_split. rewrite tlvs_app, tlvs_cons, !zlen_app, zlen_tlv_head.
  pose proof (head_len_pos e). pose proof (zlen_ge0 (tlvs es1)). pose proof (zlen_ge0 (tlvs es2)).
  lia.
Qed.

Lemma name_elems_ok p : name_ok p -> Forall elem_ok (name_elems p).
Proof.
  intros (_ & _ & _ & Hl). apply Forall_forall. intros e He.
  pose proof (elem_le_tlvs e _ He). unfold name_elems in He.
  apply list_elem_of_fmap in He as (c & -> & _). split; [done | lia].
Qed.

Lemma name_chunk p :
  name_ok p -> foldl (fun old v => chunk_of v old) None (name_comps p) = pfx_chunknum p.
Proof.
  intros (Hc & Hp & _). unfold name_comps, chunk_ok in *. rewrite foldl_app.
  assert (foldl (fun old v => chunk_of v old) None (pfx_comps p) = None) as ->.
  { clear Hc. induction Hp as [|c cs H _ IH]; [done|]. cbn. by rewrite chunk_of_plain. }
  destruct (pfx_chunknum p) as [n|]; [|done]. by rewrite <- (chunk_of_bytes n None).
Qed.

Lemma element_name start oldpos data p h m name r :
  name_ok name -> p_pfx p = None -> 0 <= data -> (exists b r', r = b :: r' /\ 0 < b) ->
  drop (Z.to_nat data) m = tlvs (name_elems name) ++ r ->
  element malloc_ok start oldpos NDN_TLV_Name data (zlen (tlvs (name_elems name))) p h m
  = Ret (Some (set_name p (mkDname (spans data (name_elems name)) (pfx_chunknum name)
      (start + oldpos) (data - (start + oldpos))), h)) m.
Proof.
  intros Hn Hp Hd0 Hr Hd. unfold element, gets, bind at 1. rewrite Z.eqb_refl, Hp, Hmalloc.
  cbn [negb]. unfold bind at 1. pose proof (name_elems_ok name Hn) as Hok.
  pose proof (name_comps_ok name Hn) as Hc. pose proof Hn as (_ & _ & H64 & H32).
  rewrite (sub_loop_run (name_round malloc_ok) step_name (fun _ => True) m r); [..|done|done| |done].
  - assert (fold_elems step_name data (name_elems name) (mkDname [] None (start + oldpos) 0)
      = mkDname (spans data (name_elems name)) (pfx_chunknum name) (start + oldpos) 0) as ->; [|done].
    unfold name_elems at 1. rewrite fold_step_name by exact H64. cbn [dn_chunknum].
    by rewrite name_chunk.
  - intros es1 e es2 cp a He Hcp _. split; [|done].
    assert (exists c, e = (NDN_TLV_NameComponent, c) /\ comp_ok c) as (c & -> & Hcok).
    { assert (e ∈ name_elems name) as Hin by (rewrite He; apply elem_of_app; right; constructor).
      unfold name_elems in Hin. apply list_elem_of_fmap in Hin as (c & -> & Hin).
      exists c. split; [done|]. rewrite Forall_forall in Hc. by apply Hc. }
    apply name_round_run; [done| |done|done].
    rewrite He in Hok. apply Forall_app in Hok as [_ Hok]. by apply Forall_cons in Hok as [_ Hok].
  - done.
  - lia.
  - by eapply elems_fuel.
Qed.

(** ** The other elements *)

Definition set_mbf (p : pkt) : pkt :=
  mkPkt (p_buf p) (p_pfx p) (p_content p) (p_contlen p) (p_type p) (p_val p) (p_flags p)
    (p_suite p) (p_minsuffix p) (p_maxsuffix p) (p_scope p) 1 (p_nonce p) (p_interestlifetime p)
    (p_freshnessperiod p) (p_hmac p).

Lemma element_mbf start oldpos data p h m r :
  0 <= data -> drop (Z.to_nat data) m = tlv (NDN_TLV_MustBeFresh, []) ++ r ->
  element malloc_ok start oldpos NDN_TLV_Selectors data
    (zlen (tlv (NDN_TLV_MustBeFresh, []))) p h m = Ret (Some (set_mbf p, h)) m.
Proof.
  intros Hp Hd. unfold element, gets, bind at 1. cbn [Z.eqb Pos.eqb NDN_TLV_Selectors NDN_TLV_Name].
  unfold bind at 1. rewrite <- tlvs_one in *.
  rewrite (sub_loop_run selector_round (fun _ _ s => (fst (fst s), snd (fst s), 1))
    (fun _ => True) m r); [done|..|done|done|by eapply elems_fuel|done].
  - intros es1 e es2 cp [[mi ma] mb] He _ _. split; [|done].
    destruct es1 as [|? es1]; [|by destruct es1]. injection He as <- <-.
    intros len2 Hl _. by exists cp, len2, 0.
  - repeat constructor; done.
  - done.
Qed.

Definition set_nonce (p : pkt) (b : list Z) : pkt :=
  mkPkt (p_buf p) (p_pfx p) (p_content p) (p_contlen p) (p_type p) (p_val p) (p_flags p)
    (p_suite p) (p_minsuffix p) (p_maxsuffix p) (p_scope p) (p_mbf p) (Some b)
    (p_interestlifetime p) (p_freshnessperiod p) (p_hmac p).

Lemma buf_new_run pos m b r :
  0 <= pos -> drop (Z.to_nat pos) m = b ++ r -> b <> [] ->
  ccnl_buf_new pos (zlen b) true m = Ret (Some b) m.
Proof.
  intros Hp Hd Hb. unfold ccnl_buf_new. cbn [negb].
  pose proof (f_equal length Hd) as Hl. rewrite length_drop, length_app in Hl.
  assert (0 < zlen b) by (destruct b; [done|]; rewrite zlen_cons; pose proof (zlen_ge0 b); lia).
  rewrite Hd. unfold zlen in *. rewrite Nat2Z.id, take_app_length.
  destruct (0 <=? pos) eqn:E1; [|lia]. by destruct (_ <=? Z.of_nat (length m)) eqn:E2; [|lia].
Qed.

Lemma element_nonce start oldpos data p h m b r :
  0 <= data -> drop (Z.to_nat data) m = b ++ r -> b <> [] ->
  element malloc_ok start oldpos NDN_TLV_Nonce data (zlen b) p h m
  = Ret (Some (set_nonce p b, h)) m.
Proof.
  intros Hp Hd Hb. unfold element, gets, bind at 1.
  cbn [Z.eqb Pos.eqb NDN_TLV_Nonce NDN_TLV_Selectors NDN_TLV_Name].
  unfold bind. rewrite Hmalloc, (buf_new_run data m b r) by done. done.
Qed.

Definition set_lifetime (p : pkt) (v : Z) : pkt :=
  mkPkt (p_buf p) (p_pfx p) (p_content p) (p_contlen p) (p_type p) (p_val p) (p_flags p)
    (p_suite p) (p_minsuffix p) (p_maxsuffix p) (p_scope p) (p_mbf p) (p_nonce p) v
    (p_freshnessperiod p) (p_hmac p).

Definition set_scope (p : pkt) (v : Z) : pkt :=
  mkPkt (p_buf p) (p_pfx p) (p_content p) (p_contlen p) (p_type p) (p_val p) (p_flags p)
    (p_suite p) (p_minsuffix p) (p_maxsuffix p) v (p_mbf p) (p_nonce p) (p_interestlifetime p)
    (p_freshnessperiod p) (p_hmac p).

Lemma element_number start oldpos data p h m v r :
  0 <= v < 2 ^ 64 -> drop (Z.to_nat data) m = nni_bytes v ++ r ->
  element malloc_ok start oldpos NDN_TLV_InterestLifetime data (zlen (nni_bytes v)) p h m
    = Ret (Some (set_lifetime p v, h)) m /\
  element malloc_ok start oldpos NDN_TLV_Scope data (zlen (nni_bytes v)) p h m
    = Ret (Some (set_scope p v, h)) m.
Proof.
  intros Hv Hd. split; unfold element, gets, bind at 1;
    cbn [Z.eqb Pos.eqb orb NDN_TLV_InterestLifetime NDN_TLV_Scope NDN_TLV_Nonce NDN_TLV_Selectors
      NDN_TLV_Name NDN_TLV_Content NDN_TLV_NdnlpFragment NDN_TLV_MetaInfo];
    unfold bind; by rewrite (nni_run v data m r Hv Hd).
Qed.

(** ** Packets *)

(** One element of a packet. *)
Lemma elements_step e fuel start pos len p h p' h' m r :
  elem_ok e -> 0 <= pos -> zlen (tlv e) <= len < 2 ^ 64 ->
  drop (Z.to_nat pos) m = tlv e ++ r ->
  element malloc_ok start (pos - start) (fst e) (pos + head_len e) (zlen (snd e)) p h m
    = Ret (Some (p', h')) m ->
  elements malloc_ok (S fuel) start pos len p h m
  = elements malloc_ok fuel start (pos + zlen (tlv e)) (len - zlen (tlv e)) p' h' m.
Proof.
  intros He Hp Hl Hd Hel. cbn [elements]. unfold bind at 1.
  destruct (elem_dehead e pos len m r He Hp ltac:(lia) Hd) as [-> _].
  unfold bind. rewrite Hel. rewrite zlen_tlv_head in *. pose proof (head_len_pos e).
  pose proof (zlen_ge0 (snd e)). rewrite u64_small by lia.
  by rewrite Z.add_assoc, Z.sub_add_distr.
Qed.

(** The end of a packet: the byte behind it is looked at. *)
Lemma elements_end fuel start pos p h m b r :
  0 <= pos -> drop (Z.to_nat pos) m = b :: r ->
  elements malloc_ok (S fuel) start pos 0 p h m = Ret (Some (pos, 0, p)) m.
Proof.
  intros Hp Hd. cbn [elements].
  assert (rd pos m = Ret b m) as Hrd.
  { rewrite <- (Z.add_0_r pos). apply (rd_drop pos 0 m _ b Hp ltac:(lia) Hd). done. }
  unfold bind at 1, ccnl_ndntlv_dehead, bind at 1, ccnl_ndntlv_varlenint, bind at 1.
  rewrite Hrd. cbn [Z.leb Z.compare]. rewrite !andb_false_r. done.
Qed.

(** [reads pos es s s']: the decoder goes from the packet [s] to [s'] over the elements
    [es] at [pos], with the bytes [z] behind them. *)
Inductive reads (start : Z) (m z : list Z) : Z -> list (Z * list Z) -> pkt * bool -> pkt * bool -> Prop :=
| reads_nil pos s : reads start m z pos [] s s
| reads_cons pos e es s s1 s2 :
    elem_ok e ->
    (0 <= pos + head_len e -> drop (Z.to_nat (pos + head_len e)) m = snd e ++ tlvs es ++ z ->
     element malloc_ok start (pos - start) (fst e) (pos + head_len e) (zlen (snd e))
       (fst s) (snd s) m = Ret (Some s1) m) ->
    reads start m z (pos + zlen (tlv e)) es s1 s2 ->
    reads start m z pos (e :: es) s s2.

(** An element that may be missing. *)
Lemma reads_opt start m z (b : bool) pos e es s s1 s2 :
  elem_ok e ->
  (b = true -> 0 <= pos + head_len e ->
   drop (Z.to_nat (pos + head_len e)) m = snd e ++ tlvs es ++ z ->
   element malloc_ok start (pos - start) (fst e) (pos + head_len e) (zlen (snd e))
     (fst s) (snd s) m = Ret (Some s1) m) ->
  (forall pos, reads start m z pos es (if b then s1 else s) s2) ->
  reads start m z pos (opt_elem b e ++ es) s s2.
Proof. intros He Hel Hr. destruct b; [|apply Hr]. by eapply reads_cons; [|apply Hel|]. Qed.

Lemma elements_run start m b r pos es s s' fuel :
  reads start m (b :: r) pos es s s' ->
  0 <= pos -> zlen (tlvs es) < 2 ^ 64 -> drop (Z.to_nat pos) m = tlvs es ++ b :: r ->
  elements malloc_ok (S (length es) + fuel) start pos (zlen (tlvs es)) (fst s) (snd s) m
  = Ret (Some (pos + zlen (tlvs es), 0, fst s')) m.
Proof.
  intros H. induction H as [pos s|pos e es s [p1 h1] s2 He Hel _ IH]; intros Hp Hl Hd.
  - change (zlen (tlvs [])) with 0. rewrite Z.add_0_r.
    exact (elements_end _ start pos _ _ m b r Hp Hd).
  - rewrite tlvs_cons, zlen_app in *. rewrite <- app_assoc in Hd.
    pose proof (zlen_ge0 (tlvs es)). pose proof (zlen_ge0 (tlv e)). pose proof (head_len_pos e).
    destruct (elem_dehead e pos (zlen (tlv e)) m _ He Hp ltac:(lia) Hd) as [_ Hd2].
    cbn [length Nat.add].
    rewrite (elements_step e _ start pos _ (fst s) (snd s) p1 h1 m (tlvs es ++ b :: r));
      [|done|done|lia|done|apply Hel; [lia|done]].
    replace (zlen (tlv e) + zlen (tlvs es) - zlen (tlv e)) with (zlen (tlvs es)) by lia.
    cbn [length Nat.add fst snd] in IH. rewrite IH; [|lia|lia|by apply drop_next in Hd].
    by rewrite Z.add_assoc.
Qed.

Definition decoded_name (name : prefix) (start data : Z) : dname :=
  mkDname (spans (data + head_len (name_elem name)) (name_elems name)) (pfx_chunknum name)
    data (head_len (name_elem name)).

(** The packet an interest decodes to, before its pointers are moved to the copy. *)
Definition interest_pkt (name : prefix) (scope : Z) (o : interest_opts) (start data : Z) : pkt :=
  let p := set_name (new_pkt NDN_TLV_Interest CCNL_PKT_REQUEST) (decoded_name name start data) in
  let p := if truth (io_mustbefresh o) then set_mbf p else p in
  let p := set_nonce p (le_bytes 4 (io_nonce o)) in
  let p := if truth (io_interestlifetime o) then set_lifetime p (io_interestlifetime o) else p in
  if 0 <=? scope then set_scope p scope else p.

Lemma tlvs_first e es r :
  elem_ok e -> exists b r', tlvs (e :: es) ++ r = b :: r' /\ 0 < b.
Proof.
  intros He. destruct (tlv_head e He) as (t & l & Ht & Ht0). rewrite tlvs_cons, Ht. cbn.
  eauto.
Qed.

Lemma zlen_nni v : 0 <= zlen (nni_bytes v) <= 8.
Proof. unfold nni_bytes. rewrite zlen_be_bytes. unfold nni_width. repeat case_match; lia. Qed.

Lemma tlvs_in_memory pos (m : list Z) es r :
  drop pos m = tlvs es ++ r -> zlen (tlvs es) <= zlen m.
Proof.
  intros H. apply (f_equal length) in H. rewrite length_drop, length_app in H. unfold zlen. lia.
Qed.

Lemma opt_elem_ok (b : bool) e : elem_ok e -> Forall elem_ok (opt_elem b e).
Proof. intros He. destruct b; repeat constructor; apply He. Qed.

(** The name, in front of an element. *)
Lemma reads_name name start pos m z es s s2 :
  name_ok name -> p_pfx (fst s) = None -> es <> [] -> Forall elem_ok es ->
  reads start m z (pos + zlen (tlv (name_elem name))) es
    (set_name (fst s) (decoded_name name start pos), snd s) s2 ->
  reads start m z pos (name_elem name :: es) s s2.
Proof.
  intros Hn Hs Hne Hes Hr. pose proof Hn as (_ & _ & _ & H32).
  eapply reads_cons; [done| |exact Hr]. intros Hp Hd. cbn [name_elem fst snd] in *.
  rewrite (element_name _ _ _ _ _ _ name (tlvs es ++ z)); try done.
  - unfold decoded_name, name_elem. repeat f_equal; lia.
  - destruct Hes as [|e es He _]; [done | by apply tlvs_first].
Qed.

Lemma reads_interest name scope o start pos m z :
  name_ok name -> opts_ok o -> scope <= 2 ->
  reads start m z pos (interest_elems name scope o)
    (new_pkt NDN_TLV_Interest CCNL_PKT_REQUEST, false) (interest_pkt name scope o start pos, false).
Proof.
  intros Hn Ho Hs. unfold opts_ok, is_u32 in Ho.
  unfold interest_elems, interest_pkt. cbn zeta.
  set (sel := (NDN_TLV_Selectors, _)). set (nonce := (NDN_TLV_Nonce, _)).
  set (life := (NDN_TLV_InterestLifetime, _)). set (sc := (NDN_TLV_Scope, _)).
  rewrite <- (app_nil_r (opt_elem (0 <=? scope) sc)).
  assert (elem_ok sel /\ elem_ok nonce) as [Hsel Hno] by done.
  assert (elem_ok life /\ elem_ok sc) as [Hli Hsc].
  { pose proof (zlen_nni (io_interestlifetime o)). pose proof (zlen_nni scope).
    split; (split; [done|]); cbn [snd life sc]; lia. }
  apply reads_name; [done|done| | |].
  { by destruct (truth (io_mustbefresh o)). }
  { repeat (apply Forall_app; split); try (by apply opt_elem_ok); by repeat constructor. }
  generalize (pos + zlen (tlv (name_elem name))). intros pos'.
  set (p1 := set_name _ _).
  apply (reads_opt _ _ _ _ _ _ _ _ (set_mbf p1, false)); [done| |clear pos'; intros pos'].
  { intros _ Hp Hd. by apply (element_mbf _ _ _ _ _ _ _ Hp Hd). }
  set (p2 := if truth (io_mustbefresh o) then _ else p1).
  replace (if truth (io_mustbefresh o) then _ else _) with (p2, false)
    by (unfold p2; by destruct (truth _)).
  apply (reads_opt _ _ _ true _ _ _ _ (set_nonce p2 (le_bytes 4 (io_nonce o)), false));
    [done| |clear pos'; intros pos'].
  { intros _ Hp Hd. by apply (element_nonce _ _ _ _ _ _ _ _ Hp Hd). }
  set (p3 := set_nonce p2 _).
  apply (reads_opt _ _ _ _ _ _ _ _ (set_lifetime p3 (io_interestlifetime o), false));
    [done| |clear pos'; intros pos'].
  { intros _ Hp Hd. eapply element_number; [|exact Hd]. lia. }
  set (p4 := if truth (io_interestlifetime o) then _ else p3).
  replace (if truth (io_interestlifetime o) then _ else _) with (p4, false)
    by (unfold p4; by destruct (truth (io_interestlifetime o))).
  apply (reads_opt _ _ _ _ _ _ _ _ (set_scope p4 scope, false)); [done| |clear pos'; intros pos'].
  { intros Hb Hp Hd. eapply element_number; [|exact Hd]. lia. }
  destruct (0 <=? scope); apply reads_nil.
Qed.

(** A whole packet: [es] between its head and a byte behind it. *)
Lemma forwarder_run t es fl start m b r s' :
  0 < t < 253 -> 0 <= start -> zlen (tlvs es) < 2 ^ 32 ->
  drop (Z.to_nat start) m = tlv (t, tlvs es) ++ b :: r ->
  (t = NDN_TLV_Interest /\ fl = CCNL_PKT_REQUEST \/ t = NDN_TLV_Data /\ fl = CCNL_PKT_REPLY) ->
  reads start m (b :: r) (start + head_len (t, tlvs es)) es (new_pkt t fl, false) s' ->
  ndntlv_forwarder_pkt malloc_ok start (zlen (tlv (t, tlvs es))) m
  = Ret (Some (rebase start (tlv (t, tlvs es)) (fst s'))) m.
Proof.
  intros Ht Hs Hl Hd Hfl Hr. unfold ndntlv_forwarder_pkt, bind at 1.
  assert (elem_ok (t, tlvs es)) as He by done.
  pose proof (zlen_tlv_head (t, tlvs es)) as Hz. pose proof (head_len_pos (t, tlvs es)).
  pose proof (zlen_ge0 (tlvs es)). cbn [snd] in Hz.
  destruct (elem_dehead _ start _ m _ He Hs (Z.le_refl _) Hd) as [-> Hd2]. cbn [fst snd] in *.
  replace (zlen (tlv (t, tlvs es)) - head_len (t, tlvs es)) with (zlen (tlvs es)) by lia.
  destruct (_ <? zlen (tlvs es)) eqn:E; [lia|].
  unfold ccnl_ndntlv_bytes2pkt. rewrite Hmalloc. cbn [negb].
  replace (if t =? NDN_TLV_Interest then _ else _) with (Some fl)
    by (destruct Hfl as [[-> ->] | [-> ->]]; done).
  unfold gets, bind at 1 2. pose proof (elems_fuel _ _ _ _ Hd2) as Hf.
  replace (S (length m)) with (S (length es) + (length m - length es))%nat by lia.
  rewrite (elements_run _ _ _ _ _ _ _ _ _ Hr) by (done || lia). cbn [Z.ltb Z.compare].
  unfold bind. rewrite Hmalloc.
  replace (start + head_len (t, tlvs es) + zlen (tlvs es) - start)
    with (zlen (tlv (t, tlvs es))) by lia.
  rewrite (buf_new_run start m _ _ Hs Hd); [done|]. intros Hn. rewrite Hn, zlen_nil in Hz. lia.
Qed.

(** ** A component that is longer than its packet *)

(** The head of a component that claims [l] bytes. *)
Definition claim (l : Z) : list Z := tl_bytes NDN_TLV_NameComponent ++ tl_bytes l.

(** A datagram with an interest whose name has the components [cs] and then one with the
    bytes [v] that claims [k] bytes more. *)
Definition claim_name (cs : list (list Z)) (v : list Z) (k : Z) : list Z :=
  tlvs (pair NDN_TLV_NameComponent <$> cs) ++ claim (zlen v + k) ++ v.
Definition claim_packet (cs : list (list Z)) (v : list Z) (k : Z) : list Z :=
  tlv (NDN_TLV_Interest, tlv (NDN_TLV_Name, claim_name cs v k)).

Lemma rd_end i m : zlen m <= i -> rd i m = Fault OutOfBounds m.
Proof.
  intros Hi. unfold rd. pose proof (zlen_ge0 m). destruct (0 <=? i) eqn:E; [|lia].
  rewrite lookup_ge_None_2; [done|]. unfold zlen in *. lia.
Qed.

Lemma dehead_end pos len m : zlen m <= pos -> ccnl_ndntlv_dehead pos len m = Fault OutOfBounds m.
Proof.
  intros Hp. unfold ccnl_ndntlv_dehead, bind at 1, ccnl_ndntlv_varlenint.
  by rewrite (bind_Fault _ _ _ _ _ (rd_end _ _ Hp)).
Qed.

(** The loop at that component. *)
Lemma overread_round f pos v k a m tail :
  0 <= pos -> 0 < k -> zlen v + k < 2 ^ 32 -> head (v ++ tail) <> Some 0 -> zlen tail <= k ->
  drop (Z.to_nat pos) m = claim (zlen v + k) ++ v ++ tail ->
  sub_loop (S (S f)) (name_round malloc_ok) pos (zlen (claim (zlen v + k)) + zlen v) a m
  = if k <=? zlen (claim (zlen v + k)) then Fault OutOfBounds m else Ret None m.
Proof.
  intros Hp Hk Hsz Hv Ht Hd. set (h := zlen (claim (zlen v + k))).
  pose proof (zlen_ge0 v). pose proof (zlen_ge0 tail).
  assert (h = zlen (tl_bytes NDN_TLV_NameComponent) + zlen (tl_bytes (zlen v + k))) as Hh
    by apply zlen_app.
  pose proof (zlen_tl_pos NDN_TLV_NameComponent). pose proof (zlen_tl_pos (zlen v + k)).
  assert (h <= 10) as H10.
  { rewrite Hh, (zlen_tl_bytes (zlen v + k)) by lia. change (zlen (tl_bytes NDN_TLV_NameComponent)) with 1.
    repeat case_match; lia. }
  assert (zlen m = pos + h + zlen v + zlen tail) as Hm.
  { apply (f_equal zlen) in Hd. rewrite !zlen_app in Hd. fold h in Hd. unfold zlen in *.
    rewrite length_drop in Hd. lia. }
  cbn [sub_loop]. destruct (h + zlen v <=? 0) eqn:E0; [lia|]. unfold bind at 1.
  unfold claim in Hd. rewrite <- app_assoc in Hd.
  rewrite (dehead_exact NDN_TLV_NameComponent (zlen v + k) pos (h + zlen v) m (v ++ tail))
    by (done || lia).
  replace (zlen v + k <=? h + zlen v) with (k <=? h) by lia.
  destruct (k <=? h) eqn:Ek; [|done]. rewrite <- Z.add_assoc, <- Hh.
  replace (h + zlen v - _ - _) with (zlen v) by lia.
  assert (name_round malloc_ok NDN_TLV_NameComponent (pos + h) (zlen v) (zlen v + k) a m
      = Fault OutOfBounds m \/
    exists a', name_round malloc_ok NDN_TLV_NameComponent (pos + h) (zlen v) (zlen v + k) a m
      = Ret (SNext (pos + h) (zlen v) (zlen v + k) a') m) as Hround.
  { unfold name_round. rewrite Z.eqb_refl. cbn [andb].
    destruct (zlen (dn_comps a) <? CCNL_MAX_NAME_COMP); [|right; by eexists].
    rewrite app_assoc in Hd. apply drop_next in Hd; [|done]. rewrite zlen_app, <- Hh in Hd.
    destruct (v ++ tail) as [|b l] eqn:Hvt.
    { left. apply (f_equal zlen) in Hvt. rewrite zlen_app, zlen_nil in Hvt.
      by rewrite (bind_Fault _ _ _ _ _ (rd_end (pos + h) m ltac:(lia))). }
    right. assert (rd (pos + h) m = Ret b m) as Hrd.
    { rewrite <- (Z.add_0_r (pos + h)). by apply (rd_drop (pos + h) 0 m (b :: l)); [lia|..]. }
    rewrite (bind_Ret _ _ _ _ _ Hrd). unfold NDN_Marker_SegmentNumber.
    destruct (b =? 0) eqn:Eb; [|by eexists]. destruct Hv. cbn. f_equal. lia. }
  destruct Hround as [Hr|[a' Hr]]; [by rewrite (bind_Fault _ _ _ _ _ Hr)|].
  rewrite (bind_Ret _ _ _ _ _ Hr). replace (zlen v - (zlen v + k)) with (- k) by lia.
  assert (u64 (- k) = 2 ^ 64 - k) as ->.
  { symmetry. apply (Z.mod_unique _ _ (- 1)); lia. }
  cbn [sub_loop]. destruct (2 ^ 64 - k <=? 0) eqn:E1; [lia|].
  by rewrite (bind_Fault _ _ _ _ _ (dehead_end (pos + h + (zlen v + k)) _ m ltac:(lia))).
Qed.

(** The decoder on that datagram, which lies at the end of its memory but for [tail]. *)
Lemma overread_name oldpos start data cs v k m tail h p :
  Forall comp_ok cs -> 0 < k -> head (v ++ tail) <> Some 0 -> zlen tail <= k ->
  zlen (claim_name cs v k) + k < 2 ^ 32 -> 0 <= data -> p_pfx p = None ->
  drop (Z.to_nat data) m = claim_name cs v k ++ tail ->
  element malloc_ok start oldpos NDN_TLV_Name data (zlen (claim_name cs v k)) p h m
  = if k <=? zlen (claim (zlen v + k)) then Fault OutOfBounds m else Ret None m.
Proof.
  intros Hcs Hk Hv Ht Hsz Hd0 Hp Hd. unfold element, gets, bind at 1.
  rewrite Z.eqb_refl, Hp, Hmalloc. cbn [negb]. unfold claim_name in *.
  set (es := pair NDN_TLV_NameComponent <$> cs) in *. rewrite !zlen_app in *.
  pose proof (zlen_ge0 (tlvs es)). pose proof (zlen_ge0 v).
  pose proof (zlen_ge0 (claim (zlen v + k))). rewrite <- !app_assoc in Hd.
  assert (Forall elem_ok es) as Hok.
  { apply Forall_forall. intros e He. pose proof (elem_le_tlvs e _ He).
    unfold es in He. apply list_elem_of_fmap in He as (c & -> & _). split; [done|lia]. }
  assert (exists f, S (length m) = (length es + S (S f))%nat) as [f ->].
  { exists (length m - length es - 1)%nat. pose proof (length_tlvs es).
    apply (f_equal length) in Hd. rewrite length_drop, !length_app in Hd.
    assert (2 <= length (claim (zlen v + k)))%nat; [|lia].
    unfold claim. rewrite length_app. pose proof (zlen_tl_pos NDN_TLV_NameComponent).
    pose proof (zlen_tl_pos (zlen v + k)). unfold zlen in *. lia. }
  unfold bind at 1.
  rewrite (sub_loop_app (name_round malloc_ok) step_name (fun _ => True) m
    (claim (zlen v + k) ++ v ++ tail)); [|lia| |done|lia|done|done|exact Hd].
  - rewrite (overread_round f (data + zlen (tlvs es)) v k _ m tail);
      [by destruct (k <=? _)|lia..|done|done|by apply drop_next in Hd].
  - intros es1 e es2 cp a He Hcp _. split; [|done].
    assert (exists c, e = (NDN_TLV_NameComponent, c) /\ comp_ok c) as (c & -> & Hcok).
    { assert (e ∈ es) as Hin by (rewrite He; apply elem_of_app; right; constructor).
      apply list_elem_of_fmap in Hin as (c & -> & Hin). exists c. split; [done|].
      rewrite Forall_forall in Hcs. by apply Hcs. }
    apply name_round_run; [done| | |done].
    + rewrite He in Hok. apply Forall_app in Hok as [_ Hok]. by apply Forall_cons in Hok as [_ Hok].
    + by eexists _, _.
Qed.

Lemma overread_run pre cs v k tail :
  Forall comp_ok cs -> 0 < k -> head (v ++ tail) <> Some 0 -> zlen tail <= k ->
  zlen (claim_packet cs v k) + k < 2 ^ 32 ->
  let m := pre ++ claim_packet cs v k ++ tail in
  ndntlv_forwarder_pkt malloc_ok (zlen pre) (zlen (claim_packet cs v k)) m
  = if k <=? zlen (claim (zlen v + k)) then Fault OutOfBounds m else Ret None m.
Proof.
  intros Hcs Hk Hv Ht Hsz m. pose proof (zlen_ge0 pre). unfold claim_packet in *.
  set (name := (NDN_TLV_Name, claim_name cs v k)) in *.
  set (int := (NDN_TLV_Interest, tlv name)) in *.
  pose proof (zlen_tlv_head int) as Hi. pose proof (zlen_tlv_head name) as Hn. cbn [snd] in *.
  pose proof (head_len_pos int). pose proof (head_len_pos name).
  pose proof (zlen_ge0 (claim_name cs v k)).
  assert (drop (Z.to_nat (zlen pre)) m = tlv int ++ tail) as Hd.
  { unfold zlen. rewrite Nat2Z.id. unfold m. by rewrite drop_app_length. }
  unfold ndntlv_forwarder_pkt, bind at 1.
  destruct (elem_dehead int (zlen pre) (zlen (tlv int)) m tail) as [-> Hd2];
    [split; cbn [fst snd int] in *; [done|lia]|lia|lia|done|].
  cbn [fst snd int name] in *. fold name in Hd2. replace (zlen (tlv int) - head_len int) with (zlen (tlv name)) by lia.
  destruct (zlen (tlv name) <? zlen (tlv name)) eqn:E; [lia|].
  unfold ccnl_ndntlv_bytes2pkt. rewrite Hmalloc. cbn [negb]. rewrite Z.eqb_refl.
  unfold gets, bind at 1 2. cbn [elements]. unfold bind at 1.
  destruct (elem_dehead name (zlen pre + head_len int) (zlen (tlv name)) m tail) as [-> Hd3];
    [split; cbn [fst snd name] in *; [done|lia]|lia|lia|done|]. cbn [fst snd name].
  unfold bind at 1.
  rewrite (overread_name _ _ _ cs v k m tail) by (done || lia).
  by destruct (k <=? _).
Qed.

End Decoding.
