(* ===== verification/NdnContent.v ===== *)
(** Decoding of encoded contents, and termination of the decoder on every input. *)

From Stdlib Require Import ZArith Lia.
From stdpp Require Import base list.
From S2P Require Import Prelude Ints ByteMem NdnTlv NdnEnc NdnDec.
Open Scope Z_scope.

(** ** Contents *)

Definition set_meta (p : pkt) (fresh val : Z) : pkt :=
  mkPkt (p_buf p) (p_pfx p) (p_content p) (p_contlen p) (p_type p) val (p_flags p)
    (p_suite p) (p_minsuffix p) (p_maxsuffix p) (p_scope p) (p_mbf p) (p_nonce p)
    (p_interestlifetime p) fresh (p_hmac p).

Definition set_content (p : pkt) (data len : Z) : pkt :=
  mkPkt (p_buf p) (p_pfx p) (Some data) len (p_type p) (p_val p) (p_flags p)
    (p_suite p) (p_minsuffix p) (p_maxsuffix p) (p_scope p) (p_mbf p) (p_nonce p)
    (p_interestlifetime p) (p_freshnessperiod p) (p_hmac p).

(** The freshness period and the final block that options stand for. *)
Definition fresh_of (o : option data_opts) : Z :=
  match o with Some o => do_freshnessperiod o | None => 0 end.
Definition final_of (o : option data_opts) : Z :=
  match o with
  | Some o => if do_finalblockid o =? UINT32_MAX then - 1 else do_finalblockid o
  | None => - 1
  end.

Lemma zlen_chunk v : 2 <= zlen (chunk_bytes v) <= 9.
Proof.
  unfold chunk_bytes, nni_bytes. rewrite zlen_cons, zlen_be_bytes. unfold nni_width.
  repeat case_match; lia.
Qed.

Lemma chunk_elem_ok v : elem_ok (NDN_TLV_NameComponent, chunk_bytes v).
Proof. pose proof (zlen_chunk v). split; [done | cbn [snd]; lia]. Qed.

Lemma final_elem_ok v :
  elem_ok (NDN_TLV_FinalBlockId, tlv (NDN_TLV_NameComponent, chunk_bytes v)).
Proof.
  pose proof (zlen_chunk v) as H. split; [done|]. cbn [snd]. rewrite zlen_tlv. cbn [fst snd].
  rewrite !zlen_tl_bytes by (done || lia). repeat case_match; lia.
Qed.

Lemma fresh_elem_ok v : elem_ok (NDN_TLV_FreshnessPeriod, nni_bytes v).
Proof. pose proof (zlen_nni v). split; [done | cbn [snd]; lia]. Qed.

Lemma meta_elems_ok o : Forall elem_ok (meta_elems o).
Proof.
  destruct o as [o|]; [|constructor]. cbn [meta_elems]. apply Forall_app.
  split; apply opt_elem_ok; [apply fresh_elem_ok | apply final_elem_ok].
Qed.

Lemma round_fresh m v z cp fresh val :
  is_u32 v ->
  round_is meta_round m (NDN_TLV_FreshnessPeriod, nni_bytes v) z cp (fresh, val) (v, val).
Proof.
  unfold is_u32. intros Hv len2 Hl Hd. cbn [fst snd] in *. exists cp, len2, (zlen (nni_bytes v)).
  split; [|done]. unfold meta_round. rewrite Z.eqb_refl. unfold bind.
  by rewrite (nni_run v cp m z ltac:(lia) Hd).
Qed.

Lemma round_final m v z cp fresh val :
  is_u32 v -> 0 <= cp ->
  round_is meta_round m
    (NDN_TLV_FinalBlockId, tlv (NDN_TLV_NameComponent, chunk_bytes v)) z cp (fresh, val) (fresh, v).
Proof.
  unfold is_u32. intros Hv Hp len2 Hl Hd. cbn [fst snd] in *.
  destruct (elem_dehead _ cp len2 m z (chunk_elem_ok v) Hp ltac:(lia) Hd) as [He Hd2].
  set (c := (NDN_TLV_NameComponent, chunk_bytes v)) in *.
  exists (cp + head_len c), (len2 - head_len c), (zlen (chunk_bytes v)). rewrite zlen_tlv_head. split; [|split; cbn [snd c]; lia].
  unfold meta_round. cbn [Z.eqb Pos.eqb NDN_TLV_FinalBlockId NDN_TLV_FreshnessPeriod].
  unfold bind at 1, ret at 1. unfold bind at 1. rewrite He. cbn [fst snd c] in *. rewrite Z.eqb_refl.
  change (chunk_bytes v) with ([0] ++ nni_bytes v) in Hd2. rewrite <- app_assoc in Hd2.
  pose proof (head_len_pos c).
  apply drop_next in Hd2; [|lia]. change (zlen [0]) with 1 in Hd2.
  replace (zlen (chunk_bytes v) - 1) with (zlen (nni_bytes v))
    by (unfold chunk_bytes; rewrite zlen_cons; lia).
  pose proof (zlen_nni v). rewrite u64_small by lia. unfold bind.
  rewrite (nni_run v _ m z ltac:(lia) Hd2). rewrite s64_small by lia.
  by destruct (v <? 0) eqn:E; [lia|].
Qed.

Definition step_meta (o : option data_opts) (_ : Z) (e : Z * list Z) (s : Z * Z) : Z * Z :=
  if fst e =? NDN_TLV_FreshnessPeriod then (fresh_of o, snd s) else (fst s, final_of o).

Lemma fold_step_meta o pos :
  fold_elems (step_meta o) pos (meta_elems o) (0, - 1) = (fresh_of o, final_of o).
Proof.
  destruct o as [o|]; [|done]. cbn [meta_elems]. unfold final_of, fresh_of, truth.
  destruct (do_freshnessperiod o =? 0) eqn:E1, (do_finalblockid o =? UINT32_MAX) eqn:E2;
    cbn [negb opt_elem app fold_elems step_meta fst snd Z.eqb Pos.eqb NDN_TLV_FreshnessPeriod
      NDN_TLV_FinalBlockId fresh_of final_of]; rewrite ?E2; try done; f_equal; lia.
Qed.

Lemma meta_round_run o m e z cp s :
  data_opts_ok o -> e ∈ meta_elems o -> 0 <= cp ->
  round_is meta_round m e z cp s (step_meta o cp e s).
Proof.
  intros Ho He Hp. destruct o as [o|]; [|by inversion He]. destruct Ho as [Hf Hb].
  destruct s as [fresh val]. cbn [meta_elems] in He. apply elem_of_app in He as [He|He].
  - destruct (truth _); [|by inversion He].
    apply list_elem_of_singleton in He as ->. unfold step_meta, fresh_of. cbn [fst snd].
    rewrite Z.eqb_refl. by apply round_fresh.
  - destruct (do_finalblockid o =? UINT32_MAX) eqn:E; [by inversion He|].
    apply list_elem_of_singleton in He as ->. unfold step_meta, final_of. cbn [fst snd].
    rewrite E. by apply round_final.
Qed.

Section Contents.
Context (malloc_ok : asite -> bool) (Hmalloc : forall s, malloc_ok s = true).

Lemma element_meta o start oldpos data p h m z :
  data_opts_ok o -> 0 <= data -> p_freshnessperiod p = 0 -> p_val p = - 1 ->
  drop (Z.to_nat data) m = tlvs (meta_elems o) ++ z -> zlen (tlvs (meta_elems o)) < 2 ^ 32 ->
  element malloc_ok start oldpos NDN_TLV_MetaInfo data (zlen (tlvs (meta_elems o))) p h m
  = Ret (Some (set_meta p (fresh_of o) (final_of o), h)) m.
Proof.
  intros Ho Hp Hf Hv Hd Hl. unfold element, gets, bind at 1.
  cbn [Z.eqb Pos.eqb orb NDN_TLV_Scope NDN_TLV_Nonce NDN_TLV_Selectors
      NDN_TLV_Name NDN_TLV_Content NDN_TLV_NdnlpFragment NDN_TLV_MetaInfo].
  unfold bind at 1. rewrite Hf, Hv.
  rewrite (sub_loop_run meta_round (step_meta o) (fun _ => True) m z);
    [| |apply meta_elems_ok|lia|done|done|by eapply elems_fuel|done].
  - by rewrite fold_step_meta.
  - intros es1 e es2 cp a He Hcp _. split; [|done]. apply meta_round_run; [done| |done].
    rewrite He. apply elem_of_app. right. constructor.
Qed.

Lemma element_content start oldpos data len p h m :
  element malloc_ok start oldpos NDN_TLV_Content data len p h m
  = Ret (Some (set_content p data len, h)) m.
Proof. reflexivity. Qed.

(** The signature of a composed content is no HMAC. *)
Lemma element_siginfo start oldpos data p m z :
  0 <= data ->
  drop (Z.to_nat data) m = tlv (NDN_TLV_SignatureType, [NDN_VAL_SIGTYPE_DIGESTSHA256]) ++ z ->
  element malloc_ok start oldpos NDN_TLV_SignatureInfo data
    (zlen (tlv (NDN_TLV_SignatureType, [NDN_VAL_SIGTYPE_DIGESTSHA256]))) p false m
  = Ret (Some (p, false)) m.
Proof.
  intros Hp Hd. unfold element, gets, bind at 1.
  cbn [Z.eqb Pos.eqb orb NDN_TLV_Scope NDN_TLV_Nonce NDN_TLV_Selectors NDN_TLV_InterestLifetime
      NDN_TLV_Frag_BeginEndFields NDN_TLV_SignatureInfo
      NDN_TLV_Name NDN_TLV_Content NDN_TLV_NdnlpFragment NDN_TLV_MetaInfo].
  unfold bind at 1. rewrite <- tlvs_one in *.
  rewrite (sub_loop_run siginfo_round (fun _ _ s => s) (fun s => s = false) m z);
    [done|..|done|done|by eapply elems_fuel|done].
  - intros es1 e es2 cp a He Hcp ->. split; [|done].
    destruct es1 as [|? es1]; [|by destruct es1]. injection He as <- <-.
    intros len2 Hl Hd2. exists cp, len2, 1. split; [|done]. unfold siginfo_round. cbn [fst snd] in *.
    rewrite Z.eqb_refl. change (zlen [NDN_VAL_SIGTYPE_DIGESTSHA256] =? 1) with true. cbn [andb].
    unfold bind. rewrite <- (Z.add_0_r cp) at 1.
    rewrite (rd_drop cp 0 m _ NDN_VAL_SIGTYPE_DIGESTSHA256 Hcp ltac:(lia) Hd2 eq_refl). done.
  - repeat constructor; done.
  - done.
Qed.

Definition content_pkt (name : prefix) (payload : list Z) (o : option data_opts)
    (start pos : Z) : pkt :=
  let p := set_name (new_pkt NDN_TLV_Data CCNL_PKT_REPLY) (decoded_name name start pos) in
  let p := set_meta p (fresh_of o) (final_of o) in
  set_content p (pos + zlen (tlv (name_elem name))
                 + zlen (tlv (NDN_TLV_MetaInfo, tlvs (meta_elems o)))
                 + head_len (NDN_TLV_Content, payload)) (zlen payload).

Lemma zlen_meta o : zlen (tlvs (meta_elems o)) < 2 ^ 32.
Proof.
  destruct o as [o|]; [|done]. cbn [meta_elems]. rewrite tlvs_app, zlen_app.
  assert (forall b e, zlen (snd e) < 253 -> 0 < fst e < 253 -> zlen (tlvs (opt_elem b e)) <= 255) as H.
  { intros b e Hl Ht. destruct b; cbn [opt_elem]; [|done]. rewrite tlvs_one, zlen_tlv.
    pose proof (zlen_ge0 (snd e)). rewrite !zlen_tl_bytes by lia.
    destruct (fst e <? 253) eqn:?, (zlen (snd e) <? 253) eqn:?; lia. }
  pose proof (zlen_nni (do_freshnessperiod o)). pose proof (zlen_chunk (do_finalblockid o)).
  pose proof (H (truth (do_freshnessperiod o)) (NDN_TLV_FreshnessPeriod, nni_bytes (do_freshnessperiod o))
    ltac:(cbn [snd]; lia) ltac:(done)).
  assert (zlen (tlv (NDN_TLV_NameComponent, chunk_bytes (do_finalblockid o))) < 253) as H3.
  { rewrite zlen_tlv. cbn [fst snd]. rewrite !zlen_tl_bytes by (done || lia).
    cbn [Z.ltb Z.compare Pos.compare Pos.compare_cont NDN_TLV_NameComponent]. case_match; lia. }
  pose proof (H (negb (do_finalblockid o =? UINT32_MAX)) (NDN_TLV_FinalBlockId, _) H3 ltac:(done)).
  lia.
Qed.

Lemma reads_content name payload o start pos m z :
  name_ok name -> data_opts_ok o -> zlen payload < 2 ^ 32 ->
  reads malloc_ok start m z pos (content_elems name payload o)
    (new_pkt NDN_TLV_Data CCNL_PKT_REPLY, false) (content_pkt name payload o start pos, false).
Proof.
  intros Hn Ho Hl. pose proof (zlen_meta o) as Hm.
  assert (elem_ok (NDN_TLV_MetaInfo, tlvs (meta_elems o))) as Hme by done.
  assert (elem_ok (NDN_TLV_Content, payload)) as Hce by done.
  assert (Forall elem_ok sig_elems) as Hse by (repeat constructor; done).
  unfold content_elems. cbn [app]. apply reads_name; [done|done|done|done|by repeat constructor|].
  eapply reads_cons; [done| |].
  { intros Hp Hd. by apply (element_meta o _ _ _ _ _ _ (tlvs ((NDN_TLV_Content, payload) :: sig_elems) ++ z)). }
  eapply reads_cons; [done|intros; apply element_content|].
  apply Forall_cons in Hse as [Hs1 [Hs2 _]%Forall_cons].
  eapply reads_cons; [done|intros Hp Hd; by apply (element_siginfo _ _ _ _ _ _ Hp Hd)|].
  eapply reads_cons; [done|intros; reflexivity|]. apply reads_nil.
Qed.

End Contents.

(** ** Termination

    Every round of a loop reads a head at the pointer and moves the pointer beyond
    it, so that there are not more rounds than bytes in memory, whatever they are and
    whatever length the caller states. *)

(** [ends Q m o]: an outcome that leaves the memory alone, with a result in [Q] if
    there is one. *)
Definition ends {A} (Q : A -> Prop) (m : list Z) (o : outcome (list Z) A) : Prop :=
  match o with
  | Ret a m' => m' = m /\ Q a
  | Fault _ _ => True
  | NoFuel => False
  end.

Lemma ends_bind {A B} (P : A -> Prop) (Q : B -> Prop) (f : BM A) (k : A -> BM B) m :
  ends P m (f m) -> (forall a, P a -> ends Q m (k a m)) -> ends Q m (bind f k m).
Proof. unfold ends, bind. intros Hf Hk. destruct (f m); try done. destruct Hf as [-> Ha]. by apply Hk. Qed.

Lemma ends_ret {A} (Q : A -> Prop) a m : Q a -> ends Q m (ret a m).
Proof. done. Qed.

Lemma ends_rd i m : bytes_ok m -> ends (fun b => 0 <= b /\ 0 <= i < zlen m) m (rd i m).
Proof.
  intros Hm. unfold rd. destruct (0 <=? i) eqn:E; [|done].
  destruct (m !! Z.to_nat i) as [b|] eqn:Hb; [|done]. split; [done|].
  pose proof (lookup_lt_Some _ _ _ Hb). apply (Forall_lookup_1 _ _ _ _ Hm) in Hb.
  unfold is_u8, zlen in *. lia.
Qed.

Lemma ends_nonNegInt cp len m : ends (fun _ => True) m (ccnl_ndntlv_nonNegInt cp len m).
Proof. unfold ccnl_ndntlv_nonNegInt. by destruct (nonneg_from _ _ _). Qed.

Definition moved (pos : Z) (m : list Z) (r : option (Z * Z * Z)) : Prop :=
  match r with
  | Some (pos', _, v) => 0 <= pos < zlen m /\ pos < pos' /\ 0 <= v
  | None => True
  end.

Lemma ends_varlenint pos len m :
  bytes_ok m -> ends (moved pos m) m (ccnl_ndntlv_varlenint pos len m).
Proof.
  intros Hm. eapply ends_bind; [by apply ends_rd|]. intros b [Hb Hp].
  repeat case_match; repeat (eapply ends_bind; [by apply ends_rd | intros ? [? _]]);
    apply ends_ret; cbn; rewrite ?Z.lor_nonneg, ?Z.shiftl_nonneg; lia.
Qed.

Lemma ends_dehead pos len m :
  bytes_ok m ->
  ends (fun r => match r with
                 | (pos', _, Some (_, v)) => 0 <= pos < zlen m /\ pos < pos' /\ 0 <= v
                 | _ => True
                 end) m (ccnl_ndntlv_dehead pos len m).
Proof.
  intros Hm. eapply ends_bind; [by apply ends_varlenint|].
  intros [[[p1 l1] t]|] Hr; [|done]. cbn in Hr.
  eapply ends_bind; [by apply ends_varlenint|].
  intros [[[p2 l2] v]|] Hr2; [|done]. cbn in Hr2. repeat case_match; try done. apply ends_ret. lia.
Qed.

(** What a round does to the pointer. *)
Definition forward {A} (cp : Z) (r : sub_round A) : Prop :=
  match r with SNext cp' _ i _ => cp <= cp' + i | _ => True end.

Lemma ends_sub_loop {A} body m :
  bytes_ok m ->
  (forall typ cp len2 i (a : A), 0 <= i -> ends (forward cp) m (body typ cp len2 i a m)) ->
  forall fuel cp len2 a, 0 < Z.of_nat fuel -> zlen m - cp < Z.of_nat fuel ->
  ends (fun _ => True) m (sub_loop fuel body cp len2 a m).
Proof.
  intros Hm Hb. induction fuel as [|fuel IH]; intros cp len2 a H0 Hf; [lia|].
  cbn [sub_loop]. destruct (len2 <=? 0); [done|].
  eapply ends_bind; [by apply ends_dehead|]. intros [[cp1 l1] [[t v]|]] Hr; [|done].
  eapply ends_bind; [apply Hb; lia|]. intros [cp2 l2 i2 a2|a2|] Hx; [|done|done].
  cbn in Hx. apply IH; lia.
Qed.

Section Ends.
Context (malloc_ok : asite -> bool) (m : list Z) (Hm : bytes_ok m).

Ltac ends_num := eapply ends_bind; [apply ends_nonNegInt | intros ? _].

Lemma ends_name_round typ cp len2 i n :
  0 <= i -> ends (forward cp) m (name_round malloc_ok typ cp len2 i n m).
Proof.
  intros Hi. unfold name_round. case_match; [|apply ends_ret; cbn; lia].
  eapply ends_bind; [by apply ends_rd|]. intros b _. case_match; [|apply ends_ret; cbn; lia].
  ends_num. repeat case_match; try done; apply ends_ret; cbn; lia.
Qed.

Lemma ends_selector_round typ cp len2 i s :
  0 <= i -> ends (forward cp) m (selector_round typ cp len2 i s m).
Proof.
  intros Hi. unfold selector_round. destruct s as [[mi ma] mb].
  repeat case_match; try ends_num; apply ends_ret; cbn; lia.
Qed.

Lemma ends_meta_round typ cp len2 i s :
  0 <= i -> ends (forward cp) m (meta_round typ cp len2 i s m).
Proof.
  intros Hi. unfold meta_round. destruct s as [fresh val].
  eapply (ends_bind (fun _ => True)); [case_match; [apply ends_nonNegInt | done]|]. intros f _.
  case_match; [|apply ends_ret; cbn; lia]. eapply ends_bind; [by apply ends_dehead|].
  intros [[cp1 l1] [[t v]|]] Hr; [|done]. case_match; [|apply ends_ret; cbn; lia].
  ends_num. case_match; [done | apply ends_ret; cbn; lia].
Qed.

Lemma ends_siginfo_round typ cp len2 i s :
  0 <= i -> ends (forward cp) m (siginfo_round typ cp len2 i s m).
Proof.
  intros Hi. unfold siginfo_round. case_match; [|apply ends_ret; cbn; lia].
  eapply ends_bind; [by apply ends_rd|]. intros b _. case_match; apply ends_ret; cbn; lia || done.
Qed.

Lemma ends_buf_new pos len ok : ends (fun _ => True) m (ccnl_buf_new pos len ok m).
Proof. unfold ccnl_buf_new. by repeat case_match. Qed.

Lemma ends_element start oldpos typ data len p h :
  0 <= data -> ends (fun _ => True) m (element malloc_ok start oldpos typ data len p h m).
Proof.
  intros Hd. unfold element, gets, bind at 1.
  assert (0 < Z.of_nat (S (length m)) /\ zlen m - data < Z.of_nat (S (length m))) as [H1 H2]
    by (unfold zlen; lia).
  repeat (case_match; try done);
    match goal with
    | |- ends _ _ (bind (ccnl_ndntlv_nonNegInt _ _) _ _) => ends_num
    | |- ends _ _ (bind (ccnl_buf_new _ _ _) _ _) =>
        eapply ends_bind; [apply ends_buf_new | intros ? _]
    | |- _ => eapply ends_bind; [eapply ends_sub_loop; try done; intros|intros ? _]
    end; try done; auto using ends_name_round, ends_selector_round, ends_meta_round, ends_siginfo_round.
  all: by repeat case_match.
Qed.

Lemma ends_elements fuel start data datalen p h :
  0 < Z.of_nat fuel -> zlen m - data < Z.of_nat fuel ->
  ends (fun _ => True) m (elements malloc_ok fuel start data datalen p h m).
Proof.
  revert data datalen p h. induction fuel as [|fuel IH]; intros data datalen p h H0 Hf; [lia|].
  cbn [elements]. eapply ends_bind; [by apply ends_dehead|].
  intros [[cp1 l1] [[t v]|]] Hr; [|done].
  eapply ends_bind; [apply ends_element; lia|]. intros [[p1 h1]|] _; [|done].
  apply IH; lia.
Qed.

Lemma ends_bytes2pkt pkttype start data datalen :
  0 <= data -> ends (fun _ => True) m (ccnl_ndntlv_bytes2pkt malloc_ok pkttype start data datalen m).
Proof.
  intros Hd. unfold ccnl_ndntlv_bytes2pkt. case_match; [done|]. case_match; [|done].
  unfold gets, bind at 1. eapply ends_bind; [apply ends_elements; unfold zlen; lia|].
  intros [[[d l] p]|] _; [|done]. destruct (0 <? l); [done|].
  eapply ends_bind; [apply ends_buf_new|]. intros [b|] _; done.
Qed.

Lemma ends_forwarder data datalen :
  ends (fun _ => True) m (ndntlv_forwarder_pkt malloc_ok data datalen m).
Proof.
  unfold ndntlv_forwarder_pkt. eapply ends_bind; [by apply ends_dehead|].
  intros [[cp1 l1] [[t v]|]] Hr; [|done]. case_match; [done|]. apply ends_bytes2pkt. lia.
Qed.

End Ends.
