(* ===== verification/NdnClaims.v ===== *)
(** What the NDN packet code guarantees: packets are composed exactly, decoded to what
    they were composed of, and every datagram is dealt with in bounded time; and
    where it goes wrong. *)

From Stdlib Require Import ZArith Lia.
From stdpp Require Import base list.
From S2P Require Import Prelude Ints ByteMem NdnTlv NdnEnc NdnDec NdnContent.
Open Scope Z_scope.

(** ** Shared lemmas *)

(** A packet at the end of the free space of a buffer, with a byte behind it. *)
Lemma put_at_behind b m off :
  zlen b <= off < zlen m ->
  exists x r, drop (Z.to_nat (off - zlen b)) (put_at (off - zlen b) b m) = b ++ x :: r.
Proof.
  intros H. pose proof (zlen_ge0 b). rewrite drop_put_at by lia.
  replace (off - zlen b + zlen b) with off by lia.
  destruct (drop (Z.to_nat off) m) as [|x r] eqn:E; [|by exists x, r].
  apply (f_equal length) in E. rewrite length_drop in E. cbn in E. unfold zlen in *. lia.
Qed.

Lemma prepends_ret b f m off :
  prepends b f -> zlen b <= off <= zlen m -> zlen m < 2 ^ 64 ->
  f off m = Ret (0, off - zlen b) (put_at (off - zlen b) b m).
Proof.
  intros H Hl Hm. pose proof (zlen_ge0 b). specialize (H m off ltac:(lia) Hm). unfold prepended in H.
  by destruct (zlen b <=? off) eqn:E; [|lia].
Qed.

(** The value behind the head of an element. *)
Lemma drop_head pos (m : list Z) e r :
  0 <= pos -> drop (Z.to_nat pos) m = tlv e ++ r ->
  drop (Z.to_nat (pos + head_len e)) m = snd e ++ r.
Proof.
  intros Hp Hd. unfold tlv in Hd. rewrite <- !app_assoc, app_assoc in Hd.
  apply drop_next in Hd; [|done]. by rewrite zlen_app in Hd.
Qed.

(** The name of a decoded packet, whose first element is the name. *)
Lemma decoded_name_slices name start t es :
  0 <= start ->
  let e := (t, tlvs (name_elem name :: es)) in
  slice (tlv e) <$> ((fun x : Z * Z => (fst x - start, snd x)) <$>
    dn_comps (decoded_name name start (start + head_len e))) = name_comps name.
Proof.
  intros Hs e. cbn [decoded_name dn_comps].
  pose proof (head_len_pos e). pose proof (head_len_pos (name_elem name)).
  rewrite (slices_spans start _ _ (tlv e) (tlvs es)).
  - unfold name_elems. rewrite <- list_fmap_compose. apply list_fmap_id.
  - lia.
  - replace (start + head_len e + head_len (name_elem name) - start)
      with (0 + head_len e + head_len (name_elem name)) by lia.
    apply (drop_head _ _ (name_elem name)); [lia|].
    rewrite <- tlvs_cons. change (tlvs (name_elem name :: es)) with (snd e).
    rewrite <- (app_nil_r (snd e)). apply drop_head; [done|]. by rewrite app_nil_r.
Qed.

(** The number of bytes of an interest's other elements is small. *)
Lemma tlv_small e : elem_ok e -> zlen (tlv e) <= 6 + zlen (snd e).
Proof.
  intros [H1 H2]. rewrite zlen_tlv. pose proof (zlen_ge0 (snd e)).
  rewrite !zlen_tl_bytes by lia. repeat case_match; lia.
Qed.

(** What the relay knows of an interest. *)
Definition is_interest (name : prefix) (scope : Z) (o : interest_opts) (b : list Z) (k : pkt)
    : Prop :=
  p_type k = NDN_TLV_Interest /\ p_flags k = CCNL_PKT_REQUEST /\ p_buf k = b /\
  pkt_name k = Some (mkPrefix (name_comps name) (pfx_chunknum name) CCNL_SUITE_NDNTLV) /\
  p_nonce k = Some (le_bytes 4 (io_nonce o)) /\
  p_mbf k = (if truth (io_mustbefresh o) then 1 else 0) /\
  p_interestlifetime k = (if truth (io_interestlifetime o) then io_interestlifetime o
                          else CCNL_INTEREST_TIMEOUT * 1000) /\
  p_scope k = (if 0 <=? scope then scope else 3).

Lemma interest_decodes malloc_ok name scope o m start x r :
  (forall s, malloc_ok s = true) -> name_ok name -> opts_ok o -> scope <= 2 -> 0 <= start ->
  zlen (tlvs (interest_elems name scope o)) < 2 ^ 32 ->
  drop (Z.to_nat start) m = interest_bytes name scope o ++ x :: r ->
  exists k, ndntlv_forwarder_pkt malloc_ok start (zlen (interest_bytes name scope o)) m
      = Ret (Some k) m /\ is_interest name scope o (interest_bytes name scope o) k.
Proof.
  intros Hok Hn Ho Hs Hst Hl Hd. eexists. split.
  - unfold interest_bytes in *.
    apply (forwarder_run malloc_ok Hok NDN_TLV_Interest (interest_elems name scope o)
      CCNL_PKT_REQUEST start m x r); [done..|by left | by apply reads_interest].
  - cbn [fst]. unfold is_interest, rebase, pkt_name, interest_pkt.
    destruct (truth (io_mustbefresh o)), (truth (io_interestlifetime o)), (0 <=? scope);
      cbn -[interest_bytes decoded_name le_bytes]; split_and!; try done.
    all: do 2 f_equal; apply (decoded_name_slices name start NDN_TLV_Interest _ Hst).
Qed.

(** What the relay knows of a content. *)
Definition is_content (name : prefix) (payload : list Z) (o : option data_opts) (b : list Z)
    (k : pkt) : Prop :=
  p_type k = NDN_TLV_Data /\ p_flags k = CCNL_PKT_REPLY /\ p_buf k = b /\
  pkt_name k = Some (mkPrefix (name_comps name) (pfx_chunknum name) CCNL_SUITE_NDNTLV) /\
  pkt_payload k = Some payload /\ p_freshnessperiod k = fresh_of o /\ p_val k = final_of o /\
  p_hmac k = None.

Lemma payload_slice name payload o t :
  let e := (t, tlvs (content_elems name payload o)) in
  slice (tlv e) (head_len e + zlen (tlv (name_elem name))
    + zlen (tlv (NDN_TLV_MetaInfo, tlvs (meta_elems o)))
    + head_len (NDN_TLV_Content, payload), zlen payload) = payload.
Proof.
  intros e. assert (drop (Z.to_nat (0 + head_len e)) (tlv e) = snd e ++ []) as Hd
    by (apply drop_head; [done | by rewrite app_nil_r]).
  pose proof (head_len_pos e). pose proof (zlen_ge0 (tlv (name_elem name))).
  pose proof (zlen_ge0 (tlv (NDN_TLV_MetaInfo, tlvs (meta_elems o)))).
  rewrite app_nil_r, Z.add_0_l in Hd. cbn [e snd content_elems app] in Hd. rewrite !tlvs_cons in Hd.
  apply drop_next in Hd; [|lia]. apply drop_next in Hd; [|lia].
  apply drop_head in Hd; [|lia]. unfold slice. cbn [fst snd] in *.
  rewrite Hd. unfold zlen. rewrite Nat2Z.id. apply take_app_length.
Qed.

Lemma content_decodes malloc_ok name payload o m start x r :
  (forall s, malloc_ok s = true) -> name_ok name -> data_opts_ok o -> 0 <= start ->
  zlen (tlvs (content_elems name payload o)) < 2 ^ 32 ->
  drop (Z.to_nat start) m = content_bytes name payload o ++ x :: r ->
  exists k, ndntlv_forwarder_pkt malloc_ok start (zlen (content_bytes name payload o)) m
      = Ret (Some k) m /\ is_content name payload o (content_bytes name payload o) k.
Proof.
  intros Hok Hn Ho Hst Hl Hd.
  assert (zlen payload < 2 ^ 32) as Hp.
  { pose proof (elem_le_tlvs (NDN_TLV_Content, payload) (content_elems name payload o)) as H.
    unfold content_elems in H at 1. specialize (H ltac:(by right; right; left)). cbn [snd] in H. lia. }
  eexists. split.
  - unfold content_bytes in *.
    apply (forwarder_run malloc_ok Hok NDN_TLV_Data (content_elems name payload o)
      CCNL_PKT_REPLY start m x r); [done..|by right | by apply reads_content].
  - cbn [fst]. unfold is_content, rebase, pkt_name, pkt_payload, content_pkt.
    cbn -[content_bytes decoded_name tlv tlvs fresh_of final_of head_len]. split_and!; try done.
    + do 2 f_equal. apply (decoded_name_slices name start NDN_TLV_Data _ Hst).
    + f_equal. etrans; [|exact (payload_slice name payload o NDN_TLV_Data)].
      f_equal. f_equal. unfold content_elems. cbn [app]. lia.
Qed.

(** What the callers of the composing functions have to see to. *)
Definition name_wf (p : prefix) : Prop :=
  chunk_ok p /\ Forall plain_comp (pfx_comps p) /\ zlen (name_comps p) <= CCNL_MAX_NAME_COMP.

Lemma wrapped_le t e es : e ∈ es -> zlen (snd e) <= zlen (tlv (t, tlvs es)).
Proof.
  intros He. pose proof (elem_le_tlvs e es He). rewrite zlen_tlv_head. cbn [snd].
  pose proof (head_len_pos (t, tlvs es)). lia.
Qed.

Lemma name_wf_ok name t es :
  name_wf name -> name_elem name ∈ es -> zlen (tlv (t, tlvs es)) < 2 ^ 32 -> name_ok name.
Proof.
  intros (H1 & H2 & H3) He Hl. apply (wrapped_le t) in He. cbn [name_elem snd] in He.
  split_and!; [done|done|done|lia].
Qed.

Lemma tlvs_le_tlv t es : zlen (tlvs es) <= zlen (tlv (t, tlvs es)).
Proof. rewrite zlen_tlv_head. cbn [snd]. pose proof (head_len_pos (t, tlvs es)). lia. Qed.

(** ** Theorems *)

(** C11: ccnl_ndntlv_prependInterest agrees with the reference encoding
    [interest_bytes] for every name, scope and options: when the packet fits into the
    free space in front of the offset, exactly the packet is written at its end and
    nothing else of the buffer changes; when it does not fit, -1 is answered and
    nothing at or behind the offset has changed.  It never writes out of bounds.
    A scope above 2 is refused. *)
Theorem interest_exact name scope o m off :
  chunk_ok name -> opts_ok o -> 0 <= off <= zlen m -> zlen m < 2 ^ 64 ->
  let b := interest_bytes name scope o in
  if 2 <? scope then ccnl_ndntlv_prependInterest name scope o off m = Ret (- 1, off) m
  else if zlen b <=? off then
    ccnl_ndntlv_prependInterest name scope o off m
    = Ret (0, off - zlen b) (take (Z.to_nat (off - zlen b)) m ++ b ++ drop (Z.to_nat off) m)
  else exists off' m', ccnl_ndntlv_prependInterest name scope o off m = Ret (- 1, off') m' /\
    zlen m' = zlen m /\ drop (Z.to_nat off) m' = drop (Z.to_nat off) m.
Proof.
  intros Hc Ho Hoff Hm b. destruct (2 <? scope) eqn:E.
  - unfold ccnl_ndntlv_prependInterest. rewrite E. by destruct (0 <=? scope) eqn:E2; [|lia].
  - pose proof (prepends_Interest name scope o Hc Ho ltac:(lia) m off Hoff Hm) as H.
    unfold prepended in H. fold b in H. destruct (zlen b <=? off) eqn:E2; [|exact H].
    rewrite H. unfold put_at. by replace (off - zlen b + zlen b) with off by lia.
Qed.

(** C13: an interest that was composed in a buffer in which it fits, with at least a byte
    behind it, is taken for the same interest by the relay that receives it and whose
    allocations succeed, when its name has at most 64 components (with the one of the
    chunk number) none of which starts with a zero byte, and its scope is at most 2:
    same name, chunk number (which is also the last
    component then), nonce, MustBeFresh, lifetime and scope, with the defaults for
    what was not set. *)
Theorem interest_roundtrip malloc_ok name scope o m off :
  (forall s, malloc_ok s = true) -> name_wf name -> opts_ok o -> scope <= 2 ->
  zlen (interest_bytes name scope o) <= off < zlen m -> zlen m < 2 ^ 32 ->
  exists off' m' k,
    ccnl_ndntlv_prependInterest name scope o off m = Ret (0, off') m' /\
    ndntlv_forwarder_pkt malloc_ok off' (off - off') m' = Ret (Some k) m' /\
    is_interest name scope o (interest_bytes name scope o) k.
Proof.
  intros Hok Hn Ho Hs Hl Hm. set (b := interest_bytes name scope o) in *.
  assert (name_ok name) as Hnok.
  { apply (name_wf_ok name NDN_TLV_Interest (interest_elems name scope o)); [done|by left|].
    fold (interest_bytes name scope o). fold b. lia. }
  pose proof (tlvs_le_tlv NDN_TLV_Interest (interest_elems name scope o)) as Hle.
  fold (interest_bytes name scope o) b in Hle.
  destruct (put_at_behind b m off ltac:(lia)) as (x & r & Hd).
  destruct (interest_decodes malloc_ok name scope o _ (off - zlen b) x r Hok Hnok Ho Hs
    ltac:(lia) ltac:(lia) Hd) as (k & Hk & Hi).
  exists (off - zlen b), (put_at (off - zlen b) b m), k. split_and!; [| |done].
  - apply prepends_ret; [apply prepends_Interest; [apply Hn|done|done]|lia|lia].
  - by replace (off - (off - zlen b)) with (zlen b) by lia.
Qed.

(** C12: a content that was composed in a buffer in which it fits, with at least a byte
    behind it, is taken for the same content by a relay whose allocations succeed, when
    its name has at most 64 components (with the one of the chunk number) none of which
    starts with a zero byte: same name and chunk number (which is also the last
    component then), payload, freshness period and final block, and no HMAC. *)
Theorem content_roundtrip malloc_ok name payload o m off :
  (forall s, malloc_ok s = true) -> name_wf name -> data_opts_ok o ->
  zlen (content_bytes name payload o) <= off < zlen m -> zlen m < 2 ^ 32 ->
  exists off' pos m' k,
    ccnl_ndntlv_prependContent name payload o off m = Ret (0, off', pos) m' /\
    ndntlv_forwarder_pkt malloc_ok off' (off - off') m' = Ret (Some k) m' /\
    is_content name payload o (content_bytes name payload o) k.
Proof.
  intros Hok Hn Ho Hl Hm. set (b := content_bytes name payload o) in *.
  assert (name_ok name) as Hnok.
  { apply (name_wf_ok name NDN_TLV_Data (content_elems name payload o)); [done|by left|].
    fold (content_bytes name payload o). fold b. lia. }
  pose proof (tlvs_le_tlv NDN_TLV_Data (content_elems name payload o)) as Hle.
  fold (content_bytes name payload o) b in Hle.
  destruct (put_at_behind b m off ltac:(lia)) as (x & r & Hd).
  destruct (content_decodes malloc_ok name payload o _ (off - zlen b) x r Hok Hnok Ho
    ltac:(lia) ltac:(lia) Hd) as (k & Hk & Hi).
  eexists (off - zlen b), _, (put_at (off - zlen b) b m), k. split_and!; [| |done].
  - apply prependContent_seq, prepends_ret; [apply prepends_content; [apply Hn|done]|lia|lia].
  - by replace (off - (off - zlen b)) with (zlen b) by lia.
Qed.

(** The position of the payload that ccnl_ndntlv_prependContent reports is wrong
    for every content: the packet is some bytes, the payload and the seven bytes of
    the signature, and the position is seven beyond the start of the payload. *)
Theorem content_position_wrong name payload o m off :
  chunk_ok name -> data_opts_ok o ->
  zlen (content_bytes name payload o) <= off <= zlen m -> zlen m < 2 ^ 64 ->
  exists off' pos m' front,
    ccnl_ndntlv_prependContent name payload o off m = Ret (0, off', pos) m' /\
    content_bytes name payload o = front ++ payload ++ tlvs sig_elems /\
    pos = zlen front + 7.
Proof.
  intros Hn Ho Hl Hm. set (b := content_bytes name payload o) in *.
  assert (exists front, b = front ++ payload ++ tlvs sig_elems) as [front Hf].
  { exists (tl_bytes NDN_TLV_Data ++ tl_bytes (zlen (tlvs (content_elems name payload o)))
      ++ tlv (name_elem name) ++ tlv (NDN_TLV_MetaInfo, tlvs (meta_elems o))
      ++ tl_bytes NDN_TLV_Content ++ tl_bytes (zlen payload)).
    rewrite <- !app_assoc. unfold b, content_bytes. unfold tlv at 1. cbn [fst snd]. do 2 f_equal.
    unfold content_elems. cbn [app]. rewrite !tlvs_cons. do 2 f_equal. unfold tlv at 1.
    cbn [fst snd]. by rewrite <- !app_assoc. }
  eexists _, _, (put_at (off - zlen b) b m), front. split_and!; [|done|].
  - apply prependContent_seq, prepends_ret; [by apply prepends_content|lia|lia].
  - assert (zlen b = zlen front + zlen payload + 7) as Hz
      by (rewrite Hf, !zlen_app; change (zlen (tlvs sig_elems)) with 7; lia).
    pose proof (zlen_ge0 front). pose proof (zlen_ge0 payload). fold b.
    rewrite (u64_small (off - zlen payload)) by lia. rewrite u64_small by lia. lia.
Qed.

(** C21: a relay deals with every datagram in bounded time: whatever the bytes in its
    memory, the length it is told, and the allocations that fail, decoding returns or
    runs into a fault and never uses up the number of rounds given to its loops, one
    more than there are bytes; and it does not change the memory. *)
Theorem decode_terminates malloc_ok m data datalen :
  bytes_ok m ->
  match ndntlv_forwarder_pkt malloc_ok data datalen m with
  | Ret _ m' => m' = m
  | Fault _ _ => True
  | NoFuel => False
  end.
Proof.
  intros Hm. pose proof (ends_forwarder malloc_ok m Hm data datalen) as H. unfold ends in H.
  by destruct (ndntlv_forwarder_pkt malloc_ok data datalen m) as [? ? | |]; [destruct H| |].
Qed.

(** C38: a name component that claims bytes that are not there.  An interest consists
    of a name with any readable components [cs] and, at its end, a component with the
    bytes [v] whose length field says [k] bytes more; it does not start with the zero
    byte of a chunk number, and allocations succeed.  ccnl_ndntlv_dehead compares that
    length with what was left before the component's head: when [k] is at most the
    size of the head, the component is accepted, the remaining length wraps around and
    the relay reads on [k] bytes behind the datagram, beyond its memory when this ends
    there; only a larger [k] is rejected. *)
Theorem decode_overread malloc_ok pre cs v k tail :
  (forall s, malloc_ok s = true) ->
  Forall comp_ok cs -> 0 < k -> head (v ++ tail) <> Some 0 -> zlen tail <= k ->
  zlen (claim_packet cs v k) + k < 2 ^ 32 ->
  let m := pre ++ claim_packet cs v k ++ tail in
  ndntlv_forwarder_pkt malloc_ok (zlen pre) (zlen (claim_packet cs v k)) m
  = if k <=? zlen (claim (zlen v + k)) then Fault OutOfBounds m else Ret None m.
Proof. intros Hm. by apply overread_run. Qed.

(** ** Instances *)

(** "/ndn/a" with the chunk number 300, and options with every element. *)
Definition sample_name : prefix :=
  mkPrefix [[110; 100; 110]; [97]] (Some 300) CCNL_SUITE_NDNTLV.
Definition sample_iopts : interest_opts := mkIOpts 0x01020304 1 4000.
Definition sample_dopts : option data_opts := Some (mkDOpts 5 70000).
Definition sample_buf (n : nat) : list Z := replicate n 0.

Lemma sample_name_wf : name_wf sample_name.
Proof. split_and!; [done | repeat constructor; discriminate | by vm_compute]. Qed.

Lemma interest_exact_witness :
  ccnl_ndntlv_prependInterest sample_name 2 sample_iopts 37 (sample_buf 40)
  = Ret (0, 3) ([0; 0; 0; 5; 32; 7; 13; 8; 3; 110; 100; 110; 8; 1; 97; 8; 3; 0; 1; 44;
      9; 2; 18; 0; 10; 4; 4; 3; 2; 1; 12; 2; 15; 160; 11; 1; 2] ++ [0; 0; 0]) /\
  exists off' m', ccnl_ndntlv_prependInterest sample_name 2 sample_iopts 33 (sample_buf 40)
    = Ret (- 1, off') m'.
Proof.
  split.
  - apply (interest_exact sample_name 2 sample_iopts (sample_buf 40) 37); by vm_compute.
  - destruct (interest_exact sample_name 2 sample_iopts (sample_buf 40) 33) as (o & m & H & _);
      [by vm_compute..|]. by exists o, m.
Defined.

Lemma interest_roundtrip_witness :
  exists off' m' k,
    ccnl_ndntlv_prependInterest sample_name 2 sample_iopts 37 (sample_buf 40) = Ret (0, off') m' /\
    ndntlv_forwarder_pkt (fun _ => true) off' (37 - off') m' = Ret (Some k) m' /\
    is_interest sample_name 2 sample_iopts (interest_bytes sample_name 2 sample_iopts) k.
Proof.
  apply (interest_roundtrip (fun _ => true) sample_name 2 sample_iopts (sample_buf 40) 37);
    [done | exact sample_name_wf | by vm_compute..].
Defined.

Lemma content_roundtrip_witness :
  exists off' pos m' k,
    ccnl_ndntlv_prependContent sample_name [1; 2; 3] sample_dopts 60 (sample_buf 61)
      = Ret (0, off', pos) m' /\
    ndntlv_forwarder_pkt (fun _ => true) off' (60 - off') m' = Ret (Some k) m' /\
    is_content sample_name [1; 2; 3] sample_dopts
      (content_bytes sample_name [1; 2; 3] sample_dopts) k.
Proof.
  apply (content_roundtrip (fun _ => true) sample_name [1; 2; 3] sample_dopts (sample_buf 61) 60);
    [done | exact sample_name_wf | by vm_compute..].
Defined.

Lemma content_position_wrong_witness :
  exists off' pos m' front,
    ccnl_ndntlv_prependContent sample_name [1; 2; 3] sample_dopts 60 (sample_buf 61)
      = Ret (0, off', pos) m' /\
    content_bytes sample_name [1; 2; 3] sample_dopts
      = front ++ [1; 2; 3] ++ [22; 3; 27; 1; 0; 23; 0] /\
    pos = zlen front + 7.
Proof.
  apply (content_position_wrong sample_name [1; 2; 3] sample_dopts (sample_buf 61) 60);
    by vm_compute.
Defined.

Lemma decode_terminates_witness :
  ndntlv_forwarder_pkt (fun _ => true) 1 5 [0; 5; 255; 3] <> NoFuel.
Proof.
  pose proof (decode_terminates (fun _ => true) [0; 5; 255; 3] 1 5) as H.
  assert (bytes_ok [0; 5; 255; 3]) as Hb by (repeat constructor; by vm_compute).
  specialize (H Hb). destruct (ndntlv_forwarder_pkt _ _ _ _); [discriminate|discriminate|done].
Defined.


(** Six bytes, of which the last component claims two more, with one byte behind them. *)
Lemma decode_overread_witness :
  claim_packet [] [] 2 = [5; 4; 7; 2; 8; 2] /\
  ndntlv_forwarder_pkt (fun _ => true) 0 6 [5; 4; 7; 2; 8; 2; 65]
  = Fault OutOfBounds [5; 4; 7; 2; 8; 2; 65].
Proof.
  split; [vm_compute; reflexivity|].
  apply (decode_overread (fun _ => true) [] [] [] 2 [65]).
  - done.
  - constructor.
  - done.
  - discriminate.
  - vm_compute. discriminate.
  - vm_compute. reflexivity.
Defined.

(** "/a" and a component of two bytes that claims two or three more: rejected is only
    the second. *)
Lemma overread_examples :
  ndntlv_forwarder_pkt (fun _ => true) 0 11 [5; 9; 7; 7; 8; 1; 97; 8; 4; 98; 99]
  = Fault OutOfBounds [5; 9; 7; 7; 8; 1; 97; 8; 4; 98; 99] /\
  ndntlv_forwarder_pkt (fun _ => true) 0 11 [5; 9; 7; 7; 8; 1; 97; 8; 5; 98; 99]
  = Ret None [5; 9; 7; 7; 8; 1; 97; 8; 5; 98; 99].
Proof. by vm_compute. Qed.
