(* ===== verification/CcnClaims.v ===== *)
(** CCN names, and the proxy's way of asking for content: comparison of names, names as
    URIs, and the interest that reaches the relay for an HTTP request. *)

From Stdlib Require Import ZArith Lia.
From stdpp Require Import base list gmap.
From S2P Require Import Prelude Ints Types Setters Kernel ByteMem NdnTlv CcnPrefix CcnLib.
From S2P Require Import NdnEnc NdnDec NdnContent NdnClaims.
From S2P Require Import Hash TcpUtils Connection Tcp Ccn Request Sample Frame Sender.
Open Scope Z_scope.

(** ** Comparison of names *)

Lemma cmp_comps_spec pcs ncs i :
  exists n, snd (cmp_comps pcs ncs i) = i + Z.of_nat n /\
    (n <= length pcs)%nat /\ (n <= length ncs)%nat /\ take n pcs = take n ncs /\
    if fst (cmp_comps pcs ncs i) then (n = length pcs \/ n = length ncs)%nat
    else exists c d, pcs !! n = Some c /\ ncs !! n = Some d /\ c <> d.
Proof.
  revert ncs i. induction pcs as [|c pcs IH]; intros ncs i.
  { exists 0%nat. cbn. split_and!; [lia|lia|lia|done|by left]. }
  destruct ncs as [|d ncs]; cbn [cmp_comps].
  { exists 0%nat. cbn. split_and!; [lia|lia|lia|done|by right]. }
  destruct (decide (c = d)) as [->|Hne].
  - destruct (IH ncs (i + 1)) as (n & Hn & H1 & H2 & Ht & Hc). exists (S n).
    split_and!; [lia|cbn; lia|cbn; lia|cbn; by rewrite Ht|].
    destruct (fst _); [cbn; lia|exact Hc].
  - exists 0%nat. split_and!; [cbn; lia|cbn; lia|cbn; lia|done|]. by exists c, d.
Qed.

(** C29: ccnl_prefix_cmp on a name and a digest of 32 bytes or none: an exact
    comparison answers 0 for names with the same components (the digest as a last one
    of the first name) and the same chunk number, and -1 for all others; the other
    modes never answer -1 but the length of the longest common prefix of the two
    names, which is 0 in CMP_LONGEST too when no component is common. *)
Theorem prefix_cmp_spec pfx md nam mode :
  (forall d, md = Some d -> length d = SHA256_DIGEST_LEN) ->
  let pcs := pfx_comps pfx ++ match md with Some d => [d] | None => [] end in
  let r := ccnl_prefix_cmp pfx md nam mode in
  if mode =? CMP_EXACT then
    (r = 0 \/ r = - 1) /\
    (r = 0 <-> pcs = pfx_comps nam /\ pfx_chunknum pfx = pfx_chunknum nam)
  else
    exists n, r = Z.of_nat n /\ take n pcs = take n (pfx_comps nam) /\
      (n <= length pcs)%nat /\ (n <= length (pfx_comps nam))%nat /\
      (n = length pcs \/ n = length (pfx_comps nam) \/ pcs !! n <> pfx_comps nam !! n).
Proof.
  intros Hmd pcs r. unfold r, ccnl_prefix_cmp.
  assert (cmp_side pfx md = pcs) as ->.
  { unfold cmp_side, pcs. destruct md as [d|]; [|done]. by rewrite take_ge by (rewrite (Hmd d); done). }
  destruct (cmp_comps_spec pcs (pfx_comps nam) 0) as (n & Hn & H1 & H2 & Ht & Hc).
  destruct (cmp_comps pcs (pfx_comps nam) 0) as [same i]. cbn [fst snd] in *.
  destruct (mode =? CMP_EXACT) eqn:Em; cbn [andb]; cycle 1.
  { exists n. split_and!; [by destruct same|done|done|done|].
    destruct same; [tauto|]. destruct Hc as (c & d & -> & -> & Hcd). right. right. congruence. }
  destruct (zlen pcs =? zlen (pfx_comps nam)) eqn:El; cbn [negb]; cycle 1.
  { split; [by right|]. split; [done|]. intros [Heq _]. rewrite Heq in El. lia. }
  case_bool_decide as Hch; cbn [negb]; cycle 1.
  { split; [by right|]. split; [done|]. by intros [_ ?]. }
  unfold zlen in El. destruct same.
  - split; [by left|]. split; [|done]. intros _. split; [|done].
    rewrite !take_ge in Ht by lia. done.
  - split; [by right|]. split; [done|]. intros [Heq _]. destruct Hc as (c & d & Hp & Hd & Hcd).
    rewrite Heq, Hd in Hp. by injection Hp.
Qed.

(** ** Names as URIs *)

Definition comp_str (esc : bool) (c : list Z) : list Z := concat (print_char esc <$> c).
Definition uri_of (esc : bool) (cs : list (list Z)) : list Z :=
  concat ((fun c => SLASH :: comp_str esc c) <$> cs).

Lemma print_add_ok buflen out s :
  zlen out + zlen s < buflen -> print_add buflen out s = Some (out ++ s).
Proof. intros H. unfold print_add. by destruct (zlen s <? buflen - zlen out) eqn:E; [|lia]. Qed.

Lemma print_comp_ok esc buflen comp out :
  zlen out + zlen (comp_str esc comp) < buflen ->
  zlen out + zlen (comp_str esc comp) <= CCNL_MAX_PREFIX_SIZE ->
  print_comp esc buflen comp out = Some (out ++ comp_str esc comp).
Proof.
  revert out. induction comp as [|c comp IH]; intros out H1 H2; cbn [print_comp].
  { unfold comp_str. cbn. by rewrite app_nil_r. }
  unfold comp_str in *. cbn [fmap list_fmap concat] in *. rewrite zlen_app in *.
  pose proof (zlen_ge0 (concat (print_char esc <$> comp))).
  rewrite print_add_ok by lia.
  destruct (CCNL_MAX_PREFIX_SIZE <? _) eqn:E; [rewrite zlen_app in E; lia|].
  rewrite IH by (rewrite zlen_app; lia). by rewrite <- app_assoc.
Qed.

Lemma print_comps_ok esc buflen cs out :
  zlen out + zlen (uri_of esc cs) < buflen ->
  zlen out + zlen (uri_of esc cs) <= CCNL_MAX_PREFIX_SIZE ->
  print_comps esc 0 buflen cs out = Some (out ++ uri_of esc cs).
Proof.
  revert out. induction cs as [|c cs IH]; intros out H1 H2; cbn [print_comps].
  { unfold uri_of. cbn. by rewrite app_nil_r. }
  unfold uri_of in *. cbn [fmap list_fmap concat app] in *. rewrite zlen_cons, zlen_app in *.
  pose proof (zlen_ge0 (concat ((fun c => SLASH :: comp_str esc c) <$> cs))).
  pose proof (zlen_ge0 (comp_str esc c)).
  rewrite print_add_ok by (rewrite zlen_cons, zlen_nil; lia). rewrite drop_0.
  rewrite print_comp_ok by (rewrite zlen_app, zlen_cons, zlen_nil; lia).
  rewrite IH by (rewrite !zlen_app, zlen_cons, zlen_nil; lia).
  by rewrite <- !app_assoc.
Qed.

(** Characters that survive printing and reading: no byte above 127, no percent sign,
    and no slash unless it is escaped. *)
Definition uri_char (esc : bool) (c : Z) : Prop :=
  0 <= c < 128 /\ c <> PERCENT /\ (esc = false -> c <> SLASH).

Lemma escaped_char c :
  0 <= c < 128 ->
  exists h l, print_escaped c = [PERCENT; h; l] /\ hex2int h * 16 + hex2int l = c /\
    h <> SLASH /\ l <> SLASH.
Proof.
  intros Hc. unfold print_escaped. destruct (128 <=? c) eqn:E; [lia|].
  exists (hex_digit (c / 16)), (hex_digit (c mod 16)). split; [done|].
  assert (forall v, 0 <= v < 16 -> hex2int (hex_digit v) = v /\ hex_digit v <> SLASH) as H.
  { intros v Hv. unfold hex2int, hex_digit, SLASH. repeat case_match; lia. }
  destruct (H (c / 16)) as [-> ?]; [div_mod_lia|]. destruct (H (c mod 16)) as [-> ?]; [div_mod_lia|].
  split_and!; [div_mod_lia|done|done].
Qed.

Lemma print_char_cases esc c :
  uri_char esc c ->
  (print_char esc c = [c] /\ c <> SLASH /\ c <> PERCENT) \/
  exists h l, print_char esc c = [PERCENT; h; l] /\ hex2int h * 16 + hex2int l = c /\
    h <> SLASH /\ l <> SLASH.
Proof.
  intros (Hc & Hp & Hs). unfold print_char.
  destruct ((128 <=? c) || (c <? 0x20) || (c =? 0x7f) || (esc && (c =? SLASH))) eqn:E.
  - right. by apply escaped_char.
  - left. split_and!; [done| |done]. intros ->. destruct esc; [|by apply Hs].
    by vm_compute in E.
Qed.

Lemma unescape_other c rest :
  c <> PERCENT -> unescape_component (c :: rest) = c :: unescape_component rest.
Proof.
  intros Hc. cbn. destruct rest as [|h [|l rest]]; try done.
  by destruct (c =? PERCENT) eqn:E; [lia|].
Qed.

Lemma unescape_str esc c : Forall (uri_char esc) c -> unescape_component (comp_str esc c) = c.
Proof.
  induction 1 as [|b c Hb _ IH]; [done|]. unfold comp_str. cbn [fmap list_fmap concat].
  fold (comp_str esc c).
  destruct (print_char_cases esc b Hb) as [(-> & _ & Hp)|(h & l & -> & Hv & _)]; cbn [app].
  - by rewrite unescape_other, IH.
  - cbn [unescape_component]. rewrite Z.eqb_refl. by rewrite Hv, IH.
Qed.

Lemma str_no_slash esc c : Forall (uri_char esc) c -> Forall (fun b => b <> SLASH) (comp_str esc c).
Proof.
  induction 1 as [|b c Hb _ IH]; [constructor|]. unfold comp_str. cbn [fmap list_fmap concat].
  apply Forall_app. split; [|done].
  destruct (print_char_cases esc b Hb) as [(-> & ? & _)|(h & l & -> & _ & ? & ?)];
    repeat constructor; done.
Qed.

Lemma span_slash_str w rest :
  Forall (fun b => b <> SLASH) w -> (rest = [] \/ exists r, rest = SLASH :: r) ->
  span_slash (w ++ rest) = (w, rest).
Proof.
  intros Hw Hr. induction Hw as [|b w Hb _ IH]; cbn [app span_slash].
  - destruct Hr as [-> |[r ->]]; [done|]. done.
  - destruct (b =? SLASH) eqn:E; [lia|]. by rewrite IH.
Qed.

Lemma uri_of_head esc cs : uri_of esc cs = [] \/ exists r, uri_of esc cs = SLASH :: r.
Proof. destruct cs; [by left|]. right. by eexists. Qed.

(** The components of a URI without its first slash. *)
Lemma uri_components_of esc n c cs :
  Forall (Forall (uri_char esc)) (c :: cs) -> last (c :: cs) <> Some [] ->
  (length (c :: cs) <= n)%nat ->
  uri_components n (comp_str esc c ++ uri_of esc cs) = c :: cs.
Proof.
  revert n c. induction cs as [|d cs IH]; intros n c Hc Hl Hn;
    (destruct n as [|n]; [cbn in Hn; lia|]);
    apply Forall_cons in Hc as [Hc Hcs]; cbn [uri_components];
    rewrite span_slash_str by (apply str_no_slash, Hc || apply uri_of_head);
    rewrite unescape_str by done.
  - assert (c <> []) as Hne by (intros ->; by apply Hl).
    destruct (comp_str esc c ++ uri_of esc []) eqn:E.
    { apply app_nil in E as [E _]. apply (f_equal unescape_component) in E.
      rewrite unescape_str in E by done. done. }
    cbn. by destruct n.
  - change (uri_of esc (d :: cs)) with (SLASH :: comp_str esc d ++ uri_of esc cs). cbn [tail].
    destruct (comp_str esc c ++ _) eqn:E; [by apply app_nil in E as [_ ?]|].
    rewrite IH; [done|done|exact Hl|cbn in *; lia].
Qed.

(** C28: printing a name and splitting the string again gives the components back, for
    names of at most 63 components of characters below 128 other than the percent
    sign, and other than the slash unless components are escaped, whose last component
    is not empty, when the string is shorter than the buffer and than 2048 bytes. *)
Theorem uri_roundtrip esc pr buflen :
  pfx_suite pr = CCNL_SUITE_NDNTLV ->
  Forall (Forall (uri_char esc)) (pfx_comps pr) -> last (pfx_comps pr) <> Some [] ->
  zlen (pfx_comps pr) < CCNL_MAX_NAME_COMP ->
  zlen (uri_of esc (pfx_comps pr)) < Z.min buflen CCNL_MAX_PREFIX_SIZE ->
  exists s, ccnl_prefix_to_str_detailed pr true esc buflen = Some s /\
    ccnl_URItoComponents s = pfx_comps pr.
Proof.
  intros Hs Hc Hl Hn Hb. unfold ccnl_prefix_to_str_detailed. rewrite Hs. cbn [andb].
  exists (uri_of esc (pfx_comps pr)). split; [apply print_comps_ok; rewrite zlen_nil; lia|].
  unfold ccnl_URItoComponents. destruct (pfx_comps pr) as [|c cs]; [done|].
  cbn [uri_of fmap list_fmap concat app]. rewrite Z.eqb_refl. fold (uri_of esc cs).
  apply uri_components_of; [done|done|]. unfold zlen, CCNL_MAX_NAME_COMP in *. lia.
Qed.

(** ** The request of a client as an interest at the relay *)

(** Memory is there when it is asked for. *)
Class AllocLaw (P : Platform) : Prop := alloc_ok : forall o e, fst (kcall (Kzalloc o) e) = true.

Definition no_send (e : event) : Prop :=
  match e with Ev c _ => match c with KernelSendmsg _ _ => False | _ => True end end.

(** Runs that return, send nothing and leave the state alone. *)
Definition calm `{P : Platform} (s s' : st) : Prop :=
  both (emits no_send) (both (keeps st_socks) (keeps st_request_done)) s s'.

Definition quietly `{P : Platform} {A} (Q : A -> Prop) (m : KM A) : Prop :=
  forall s, exists a s', m s = Ret a s' /\ Q a /\ calm s s'.

Section Quiet.
Context `{P : Platform}.

Lemma quietly_ret {A} (Q : A -> Prop) a : Q a -> quietly Q (ret a).
Proof. intros H s. exists a, s. by split_and!. Qed.

Lemma quietly_bind {A B} (Q : A -> Prop) (T : B -> Prop) (m : KM A) k :
  quietly Q m -> (forall a, Q a -> quietly T (k a)) -> quietly T (bind m k).
Proof.
  intros Hm Hk s. destruct (Hm s) as (a & s1 & Hr & Ha & Hc).
  destruct (Hk a Ha s1) as (b & s2 & Hr2 & Hb & Hc2). exists b, s2.
  unfold bind. rewrite Hr. split_and!; [done|done|]. unfold calm in *. by etrans.
Qed.

Lemma quietly_call {R} (c : kE R) (Q : R -> Prop) :
  (forall r, no_send (Ev c r)) -> (forall e, Q (fst (kcall c e))) -> quietly Q (call c).
Proof.
  intros Hn HQ s. specialize (HQ (st_env s)). unfold call.
  destruct (kcall c (st_env s)) as [r e]. eexists r, _. split_and!; [done|done|].
  split; [|by split]. exists [Ev c r]. split; [done|]. by constructor.
Qed.

Lemma quietly_any {R} (c : kE R) : (forall r, no_send (Ev c r)) -> quietly (fun _ => True) (call c).
Proof. intros Hn. by apply quietly_call. Qed.

Lemma quietly_on_buffer {A} m (f : BM A) a m' (Q : A * list Z -> Prop) :
  f m = Ret a m' -> Q (a, m') -> quietly Q (on_buffer m f).
Proof. intros Hf HQ s. unfold on_buffer. rewrite Hf. by exists (a, m'), s. Qed.

Context `{!AllocLaw P}.

Lemma quietly_alloc o : quietly (fun b : bool => b = true) (call (Kzalloc o)).
Proof. apply quietly_call; [done|]. apply alloc_ok. Qed.

Ltac q_alloc := eapply quietly_bind; [apply quietly_alloc | intros ? ->; cbn [negb orb]].
Ltac q_any := eapply quietly_bind; [by apply quietly_any | intros ? _].

Lemma quietly_prefix_new n : quietly (fun b : bool => b = true) (ccnl_prefix_newK n).
Proof. unfold ccnl_prefix_newK. do 3 q_alloc. by apply quietly_ret. Qed.

Lemma quietly_uri uri suite :
  uri <> [] ->
  quietly (fun p => p = Some (mkPrefix (ccnl_URItoComponents uri) None suite))
    (ccnl_URItoPrefixK uri suite None).
Proof.
  intros Hu. unfold ccnl_URItoPrefixK. destruct uri as [|c uri]; [done|].
  eapply quietly_bind; [apply quietly_prefix_new|]. intros ? ->. cbn [negb].
  q_alloc. by apply quietly_ret.
Qed.

Lemma quietly_interest name opts :
  chunk_ok name -> opts_ok opts -> pfx_suite name = CCNL_SUITE_NDNTLV ->
  (forall n, zlen (interest_bytes name (- 1) (mkIOpts n (io_mustbefresh opts)
     (io_interestlifetime opts))) <= CCNL_MAX_PACKET_SIZE) ->
  quietly (fun r => exists n, r = Some (interest_bytes name (- 1)
      (mkIOpts n (io_mustbefresh opts) (io_interestlifetime opts))))
    (ccnl_mkSimpleInterestK (Some name) opts).
Proof.
  intros Hc Ho Hs Hfit. unfold ccnl_mkSimpleInterestK. q_alloc.
  eapply quietly_bind; [by apply (quietly_ret (fun p => p = name))|]. intros ? ->.
  set (tmp := replicate _ 0).
  eapply (quietly_bind (fun r => exists n, let b := interest_bytes name (- 1)
      (mkIOpts n (io_mustbefresh opts) (io_interestlifetime opts)) in
    r = (0, zlen b, CCNL_MAX_PACKET_SIZE - zlen b,
         put_at (CCNL_MAX_PACKET_SIZE - zlen b) b tmp))).
  - unfold ccnl_mkInterestK. rewrite Hs, Z.eqb_refl.
    eapply (quietly_bind (fun _ => True)); [destruct (truth _)|intros n _].
    { by apply quietly_ret. }
    { q_any. by apply quietly_ret. }
    set (b := interest_bytes name (- 1) (mkIOpts n (io_mustbefresh opts) (io_interestlifetime opts))).
    pose proof (Hfit n) as Hb. fold b in Hb. pose proof (zlen_ge0 b).
    assert (zlen tmp = CCNL_MAX_PACKET_SIZE) as Htmp by (unfold zlen, tmp; by rewrite length_replicate).
    unfold CCNL_MAX_PACKET_SIZE in *.
    eapply quietly_bind.
    { eapply (quietly_on_buffer _ _ _ _ (fun r => r = ((0, 8096 - zlen b), put_at (8096 - zlen b) b tmp)));
        [|done].
      apply prepends_ret; [by apply prepends_Interest|lia|lia]. }
    intros ? ->. cbn [truth Z.eqb negb]. apply quietly_ret. exists n. fold b.
    rewrite u64_small by lia. do 3 f_equal. lia.
  - intros r [n ->]. set (b := interest_bytes _ _ _). cbn [truth Z.eqb negb].
    pose proof (Hfit n) as Hb. fold b in Hb.
    assert (0 < zlen b) as Hpos.
    { unfold b, interest_bytes. rewrite zlen_tlv_head. pose proof (head_len_pos
        (NDN_TLV_Interest, tlvs (interest_elems name (-1)
          (mkIOpts n (io_mustbefresh opts) (io_interestlifetime opts))))).
      cbn [snd]. match goal with |- _ < _ + zlen ?l => pose proof (zlen_ge0 l) end. lia. }
    destruct (0 <? zlen b) eqn:E; [|lia]. q_alloc. q_any. apply quietly_ret. exists n.
    assert (zlen tmp = CCNL_MAX_PACKET_SIZE) as Htmp by (unfold zlen, tmp; by rewrite length_replicate).
    rewrite drop_put_at by lia. unfold zlen at 1. rewrite Nat2Z.id. by rewrite take_app_length.
Qed.

End Quiet.

(** *** Sizes *)

Lemma unescape_length_le n c : (length c <= n)%nat -> (length (unescape_component c) <= length c)%nat.
Proof.
  revert c. induction n as [|n IH]; intros c Hn; (destruct c as [|x c]; [done|]); [cbn in Hn; lia|].
  cbn in Hn. destruct c as [|h [|l c]]; [done| |].
  - cbn. lia.
  - change (unescape_component (x :: h :: l :: c)) with
      (if x =? PERCENT then (hex2int h * 16 + hex2int l) :: unescape_component c
       else x :: unescape_component (h :: l :: c)).
    pose proof (IH c ltac:(cbn in *; lia)). pose proof (IH (h :: l :: c) ltac:(cbn in *; lia)).
    destruct (x =? PERCENT); cbn [length] in *; lia.
Qed.

Lemma unescape_zlen c : zlen (unescape_component c) <= zlen c.
Proof. pose proof (unescape_length_le _ c (Nat.le_refl _)). unfold zlen. lia. Qed.

Lemma span_slash_app uri : let '(w, r) := span_slash uri in uri = w ++ r.
Proof.
  induction uri as [|c uri IH]; [done|]. cbn [span_slash]. destruct (c =? SLASH); [done|].
  destruct (span_slash uri) as [w r]. by rewrite IH.
Qed.

Lemma length_uri_components n uri : zlen (uri_components n uri) <= Z.of_nat n.
Proof.
  revert uri. induction n as [|n IH]; intros uri; [done|].
  destruct uri as [|c uri]; [done|]. cbn [uri_components].
  destruct (span_slash (c :: uri)) as [w r]. rewrite zlen_cons. specialize (IH (tail r)). lia.
Qed.

Lemma uri_components_size n uri :
  zlen uri < 250 ->
  zlen (tlvs (pair NDN_TLV_NameComponent <$> uri_components n uri)) <= 3 * zlen uri.
Proof.
  revert uri. induction n as [|n IH]; intros uri Hl; [pose proof (zlen_ge0 uri); change (zlen (tlvs (pair NDN_TLV_NameComponent <$> uri_components 0 uri))) with 0; lia|].
  destruct uri as [|c uri]; [done|]. cbn [uri_components].
  pose proof (span_slash_app (c :: uri)) as Hs. destruct (span_slash (c :: uri)) as [w r].
  pose proof (zlen_ge0 (c :: uri)). pose proof (zlen_ge0 w). pose proof (zlen_ge0 r).
  pose proof (unescape_zlen w). pose proof (zlen_ge0 (unescape_component w)).
  assert (zlen (c :: uri) = zlen w + zlen r) as Hz by (rewrite Hs; apply zlen_app).
  rewrite fmap_cons, tlvs_cons, zlen_app, zlen_tlv. cbn [fst snd].
  rewrite (zlen_tl_bytes (zlen _)) by lia. destruct (zlen (unescape_component w) <? 253) eqn:E; [|lia].
  change (zlen (tl_bytes NDN_TLV_NameComponent)) with 1.
  destruct r as [|x r]; cbn [tail].
  - specialize (IH [] ltac:(done)). rewrite zlen_nil in *. rewrite zlen_cons in Hz.
    pose proof (zlen_ge0 uri). rewrite zlen_cons. lia.
  - rewrite (zlen_cons x) in Hz. pose proof (zlen_ge0 r). specialize (IH r ltac:(lia)). lia.
Qed.

Lemma zlen_opt_elem (b : bool) e n :
  elem_ok e -> zlen (snd e) <= n -> zlen (tlvs (opt_elem b e)) <= 6 + n.
Proof.
  intros He Hn. pose proof (tlv_small e He). pose proof (zlen_ge0 (snd e)).
  destruct b; cbn [opt_elem]; [rewrite tlvs_one; lia | change (zlen (tlvs [])) with 0; lia].
Qed.

Lemma interest_small cs n mbf life :
  zlen (tlvs (pair NDN_TLV_NameComponent <$> cs)) <= 1000 ->
  let p := mkPrefix cs None CCNL_SUITE_NDNTLV in
  zlen (interest_bytes p (- 1) (mkIOpts n mbf life)) <= 1100.
Proof.
  intros Hl p. unfold interest_bytes.
  assert (tlvs (name_elems p) = tlvs (pair NDN_TLV_NameComponent <$> cs)) as Hn
    by (unfold name_elems, name_comps, p; cbn; by rewrite app_nil_r).
  assert (zlen (tlvs (interest_elems p (- 1) (mkIOpts n mbf life))) <= 1060) as H.
  { unfold interest_elems. rewrite !tlvs_app, !zlen_app, !tlvs_one.
    pose proof (tlv_small (name_elem p)) as H1. unfold name_elem in *. rewrite Hn in *.
    specialize (H1 ltac:(split; cbn [fst snd]; [done|lia])). cbn [snd] in H1.
    pose proof (zlen_nni life). cbn [io_mustbefresh io_interestlifetime io_nonce].
    pose proof (zlen_opt_elem (truth mbf) (NDN_TLV_Selectors, tlv (NDN_TLV_MustBeFresh, [])) 2
      ltac:(done) ltac:(done)).
    pose proof (zlen_opt_elem (truth life) (NDN_TLV_InterestLifetime, nni_bytes life) 8
      ltac:(split; cbn [fst snd]; [done|lia]) ltac:(cbn [snd]; lia)).
    change (zlen (tlvs (opt_elem (0 <=? -1) _))) with 0.
    change (zlen (tlv (NDN_TLV_Nonce, le_bytes 4 n))) with 6. lia. }
  pose proof (tlv_small (NDN_TLV_Interest, tlvs (interest_elems p (- 1) (mkIOpts n mbf life)))) as H1.
  specialize (H1 ltac:(split; cbn [fst snd]; [done|lia])). cbn [snd] in H1. lia.
Qed.

(** *** The request *)

Section Request.
Context `{P : Platform, !AllocLaw P}.

(** The name the proxy asks for: "ndn", "test" and the components of the word behind
    GET. *)
Definition request_comps (w : list Z) : list (list Z) :=
  [[110; 100; 110]; [116; 101; 115; 116]] ++ uri_components 61 w.

Lemma request_url w : ccnl_URItoComponents (url_prefix ++ w) = request_comps w.
Proof. reflexivity. Qed.

Lemma request_name_ok w :
  zlen w < 22 -> Forall plain_comp (uri_components 61 w) ->
  name_ok (mkPrefix (request_comps w) None CCNL_SUITE_NDNTLV) /\
  zlen (tlvs (pair NDN_TLV_NameComponent <$> request_comps w)) <= 1000.
Proof.
  intros Hw Hp.
  assert (zlen (tlvs (pair NDN_TLV_NameComponent <$> request_comps w)) <= 1000) as Hl.
  { unfold request_comps. rewrite fmap_app, tlvs_app, zlen_app.
    pose proof (uri_components_size 61 w ltac:(lia)).
    change (zlen (tlvs (pair NDN_TLV_NameComponent <$> [[110; 100; 110]; [116; 101; 115; 116]])))
      with 11. lia. }
  split; [|done]. split_and!.
  - done.
  - cbn [pfx_comps request_comps app]. repeat (constructor; [discriminate|]). done.
  - unfold name_comps. cbn [pfx_comps pfx_chunknum]. rewrite app_nil_r. unfold request_comps.
    rewrite zlen_app. pose proof (length_uri_components 61 w).
    change (zlen [[110; 100; 110]; [116; 101; 115; 116]]) with 2. unfold CCNL_MAX_NAME_COMP. lia.
  - unfold name_elems, name_comps. cbn [pfx_comps pfx_chunknum]. rewrite app_nil_r. lia.
Qed.

(** The interest is built and given to the socket of the relay. *)
Lemma send_to_relay b kb w s :
  st_socks s !! b = Some kb -> zlen w < 22 -> Forall plain_comp (uri_components 61 w) ->
  exists n mbf life r s1 e s',
    let pkt := interest_bytes (mkPrefix (request_comps w) None CCNL_SUITE_NDNTLV) (- 1)
                 (mkIOpts n mbf life) in
    is_u32 life /\ calm s s1 /\
    pepdna_send_to_ccn_relay (Some b) (url_prefix ++ w) s = Ret r s' /\
    s' = set_st_trace (st_trace s1 ++ [Ev (KernelSendmsg b pkt) r]) (set_st_env e s1).
Proof.
  intros Hb Hw Hp. destruct (request_name_ok w Hw Hp) as [Hok Hsize].
  set (p := mkPrefix (request_comps w) None CCNL_SUITE_NDNTLV) in *.
  set (build := do prefix <- ccnl_URItoPrefixK (url_prefix ++ w) CCNL_SUITE_NDNTLV None;
    do nonce <- call PrandomU32; do junk <- call StackOpts;
    ccnl_mkSimpleInterestK prefix (mkIOpts (s32 nonce) (u8 (fst junk)) (u32 (snd junk)))).
  assert (quietly (fun r => exists n mbf life, is_u32 life /\
    r = Some (interest_bytes p (- 1) (mkIOpts n mbf life))) build) as Hq.
  { eapply quietly_bind; [by apply quietly_uri|]. intros ? ->. rewrite request_url. fold p.
    eapply quietly_bind; [by apply quietly_any|]. intros nonce _.
    eapply quietly_bind; [by apply quietly_any|]. intros junk _. intros s0.
    set (o := mkIOpts _ _ _).
    destruct (quietly_interest p o ltac:(done) (u32_range _) eq_refl) with (s := s0)
      as (r & s1 & Hr & (n & ->) & Hc).
    { intros n. pose proof (interest_small (request_comps w) n (io_mustbefresh o)
        (io_interestlifetime o) Hsize). unfold CCNL_MAX_PACKET_SIZE. cbn zeta in *. fold p in H. lia. }
    eexists _, s1. split_and!; [exact Hr| |done]. eexists _, _, _. split; [|done]. apply u32_range. }
  destruct (Hq s) as (? & s1 & Hrun & (n & mbf & life & Hlife & ->) & Hc).
  destruct (call_total (KernelSendmsg b (interest_bytes p (- 1) (mkIOpts n mbf life))) s1)
    as (r & e & Hcall).
  eexists n, mbf, life, r, s1, e, _. cbn zeta. split_and!; [done|done| |done].
  assert (pepdna_send_to_ccn_relay (Some b) (url_prefix ++ w) s
    = bind build (fun buf => match buf with None => ret (- 1) | Some x => kernel_sendmsg (Some b) x end) s)
    as ->.
  { unfold pepdna_send_to_ccn_relay, build. unfold bind.
    by repeat match goal with |- context [match ?x with _ => _ end] =>
      match x with context [match _ with _ => _ end] => fail 1 | _ => destruct x end end. }
  unfold bind. rewrite Hrun. unfold kernel_sendmsg, bind, deref, ret, get_sock.
  destruct Hc as [_ [Hsk _]]. unfold keeps in Hsk. rewrite Hsk, Hb. exact Hcall.
Qed.

(** C4: the request of a client reaches the relay.  Let the allocations succeed and let
    the read of the live client socket return fewer bytes than the buffer has.  When the
    bytes read ask for a word of less than 22 characters, none of whose components
    starts with a zero byte once its escapes are resolved, pepdna_fwd_request returns
    and hands exactly one datagram to the live socket of the relay, which the relay,
    wherever it lies in its memory with a byte behind it, takes for an interest in the name ndn, test and
    the components of the word.  (A longer word overruns the parser's arrays, see
    [Request.parse_request_bound].) *)
Theorem request_reaches_relay malloc_ok a b ka kb s rc buffer e2 w :
  (forall x, malloc_ok x = true) ->
  st_socks s !! a = Some ka -> st_socks s !! b = Some kb ->
  kcall (KernelRecvmsg a MAX_BUF_SIZE) (snd (kcall (Kzalloc (ObjBuf MAX_BUF_SIZE)) (st_env s)))
    = ((rc, buffer), e2) ->
  0 < rc < MAX_BUF_SIZE ->
  asks (c_str (take (Z.to_nat rc) buffer ++ [0])) w ->
  zlen w < 22 -> Forall plain_comp (uri_components 61 w) ->
  exists pkt r s' evs1 evs2,
    pepdna_fwd_request (Some a) (Some b) s = Ret r s' /\ st_request_done s' = true /\
    st_trace s' = st_trace s ++ evs1 ++ [Ev (KernelSendmsg b pkt) r] ++ evs2 /\
    Forall no_send evs1 /\ Forall no_send evs2 /\
    forall m start x tl, 0 <= start -> drop (Z.to_nat start) m = pkt ++ x :: tl ->
    exists k, ndntlv_forwarder_pkt malloc_ok start (zlen pkt) m = Ret (Some k) m /\
      p_type k = NDN_TLV_Interest /\
      pkt_name k = Some (mkPrefix (request_comps w) None CCNL_SUITE_NDNTLV).
Proof.
  intros Hm Ha Hb Hrecv Hrc Hasks Hw Hp. destruct (request_name_ok w Hw Hp) as [Hok Hsize].
  unfold pepdna_fwd_request. unfold bind at 1.
  pose proof (alloc_ok (ObjBuf MAX_BUF_SIZE) (st_env s)) as Hal.
  destruct (kcall (Kzalloc (ObjBuf MAX_BUF_SIZE)) (st_env s)) as [ok e1] eqn:Hk1.
  cbn [fst snd] in *. subst ok. rewrite (call_run _ _ _ _ Hk1). cbn [negb].
  set (s1 := set_st_trace _ _). unfold kernel_recvmsg, bind, deref, ret, get_sock.
  change (st_socks s1) with (st_socks s). rewrite Ha. rewrite (call_run _ s1 _ _ Hrecv).
  set (s2 := set_st_trace _ _). destruct (0 <? rc) eqn:E1; [|lia].
  destruct (MAX_BUF_SIZE <=? rc) eqn:E2; [lia|].
  pose proof (parse_request_run _ w s2 Hasks) as Hparse. destruct (zlen w <? 22) eqn:E3; [|lia].
  destruct Hparse as (content & url & -> & _ & Hurl). rewrite Hurl.
  destruct (send_to_relay b kb w s2 Hb Hw Hp) as (n & mbf & life & r & s3 & e & s4 & Hl & Hc & -> & ->).
  destruct (call_total Kfree (set_st_request_done true
    (set_st_trace (st_trace s3 ++ [Ev (KernelSendmsg b (interest_bytes
      (mkPrefix (request_comps w) None CCNL_SUITE_NDNTLV) (- 1) (mkIOpts n mbf life))) r])
      (set_st_env e s3)))) as (rf & ef & Hfree).
  unfold modify. rewrite Hfree. destruct Hc as [(evs & Htr & Hno) _].
  eexists _, r, _, ([Ev (Kzalloc (ObjBuf MAX_BUF_SIZE)) true]
    ++ [Ev (KernelRecvmsg a MAX_BUF_SIZE) (rc, buffer)] ++ evs), [Ev Kfree rf].
  split_and!; [reflexivity|reflexivity| | | |].
  - cbn [st_trace set_st_trace set_st_env set_st_request_done]. rewrite Htr.
    cbn [st_trace s2 s1 set_st_trace set_st_env]. by rewrite <- !app_assoc.
  - by repeat constructor.
  - by repeat constructor.
  - intros m start x tl Hst Hd.
    destruct (interest_decodes malloc_ok _ (- 1) (mkIOpts n mbf life) m start x tl Hm Hok Hl
      ltac:(lia) Hst) as (k & Hk & Hi); [|exact Hd|].
    + pose proof (interest_small (request_comps w) n mbf life Hsize) as Hi. cbn zeta in Hi.
      unfold interest_bytes in Hi.
      pose proof (tlvs_le_tlv NDN_TLV_Interest (interest_elems (mkPrefix (request_comps w) None
        CCNL_SUITE_NDNTLV) (- 1) (mkIOpts n mbf life))). lia.
    + exists k. destruct Hi as (H1 & _ & _ & H4 & _). split_and!; [done|done|].
      rewrite H4. unfold name_comps. cbn [pfx_comps pfx_chunknum]. by rewrite app_nil_r.
Qed.

End Request.

(** ** Instances *)

(** The content "/a" with its digest matches an interest that names the digest, and no
    shorter digest; two names without a common component have the common length 0. *)
Lemma prefix_cmp_spec_witness :
  let digest := replicate 32 7 in
  ccnl_prefix_cmp (mkPrefix [[97]] None CCNL_SUITE_NDNTLV) (Some digest)
    (mkPrefix [[97]; digest] None CCNL_SUITE_NDNTLV) CMP_EXACT = 0.
Proof.
  intros digest.
  destruct (prefix_cmp_spec (mkPrefix [[97]] None CCNL_SUITE_NDNTLV) (Some digest)
    (mkPrefix [[97]; digest] None CCNL_SUITE_NDNTLV) CMP_EXACT) as [_ H].
  - intros d [= <-]. reflexivity.
  - apply H. split; reflexivity.
Defined.

Lemma prefix_cmp_examples :
  ccnl_prefix_cmp (mkPrefix [[97]] None CCNL_SUITE_NDNTLV) (Some (replicate 32 7))
    (mkPrefix [[97]; [7]] None CCNL_SUITE_NDNTLV) CMP_EXACT = - 1 /\
  ccnl_prefix_cmp (mkPrefix [[97]; [98]] None CCNL_SUITE_NDNTLV) None
    (mkPrefix [[97]; [99]; [98]] None CCNL_SUITE_NDNTLV) CMP_LONGEST = 1 /\
  ccnl_prefix_cmp (mkPrefix [[97]; [98]] None CCNL_SUITE_NDNTLV) None
    (mkPrefix [[99]] None CCNL_SUITE_NDNTLV) CMP_LONGEST = 0.
Proof. by vm_compute. Qed.

(** "/a%2f%01//b", which is read back as the three components. *)
Lemma uri_roundtrip_witness :
  exists s, ccnl_prefix_to_str_detailed
      (mkPrefix [[97; 47; 1]; []; [98]] None CCNL_SUITE_NDNTLV) true true 12 = Some s /\
    ccnl_URItoComponents s = [[97; 47; 1]; []; [98]].
Proof.
  apply (uri_roundtrip true (mkPrefix [[97; 47; 1]; []; [98]] None CCNL_SUITE_NDNTLV) 12).
  - done.
  - repeat constructor; done.
  - done.
  - done.
  - by vm_compute.
Defined.

#[global] Instance sample_alloc f : AllocLaw (sample f).
Proof. by intros o e. Qed.

(** A client has sent "GET /a HTTP/1.1". *)
Definition get_request : list Z :=
  [71; 69; 84; 32; 47; 97; 32; 72; 84; 84; 80; 47; 49; 46; 49; 13; 10].
Definition ccn_build : config :=
  mkConfig false false true false false false true 9999 (mode_val TCP2CCN) None.
Definition ccn_pair : @st (sample ccn_build) :=
  @set_st_socks (sample ccn_build) {[ 1%positive := no_sock; 2%positive := no_sock ]}
    (unloaded_st ccn_build [get_request]).

Lemma request_reaches_relay_witness :
  exists pkt r s',
    @pepdna_fwd_request (sample ccn_build) (Some 1%positive) (Some 2%positive) ccn_pair = Ret r s' /\
    exists k, ndntlv_forwarder_pkt (fun _ => true) 0 (zlen pkt) (pkt ++ [0]) = Ret (Some k) (pkt ++ [0]) /\
      p_type k = NDN_TLV_Interest /\
      pkt_name k = Some (mkPrefix [[110; 100; 110]; [116; 101; 115; 116]; []; [97]] None
                           CCNL_SUITE_NDNTLV).
Proof.
  destruct (@request_reaches_relay (sample ccn_build) _ (fun _ => true) 1%positive 2%positive
    no_sock no_sock ccn_pair 17 get_request [] [47; 97])
    as (pkt & r & s' & evs1 & evs2 & Hr & _ & _ & _ & _ & Hk).
  - done.
  - done.
  - done.
  - vm_compute. reflexivity.
  - by vm_compute.
  - exact (found_asks (c_str (take 17 get_request ++ [0]))).
  - by vm_compute.
  - repeat constructor; discriminate.
  - exists pkt, r, s'. split; [exact Hr|].
    exact (Hk (pkt ++ [0]) 0 0 [] (Z.le_refl 0) eq_refl).
Defined.
