(* ===== verification/KfaInv.v ===== *)
(** The invariant of the RINA flow allocator and the threads inside it: who uses a flow
    is counted, a flow lives as long as somebody uses it or its port is bound, and
    nobody else owns the data units in the FIFOs. *)

From Stdlib Require Import ZArith Lia.
From stdpp Require Import base list gmap.
From S2P Require Import Prelude Ints Types ByteMem Rds Kfa.
Open Scope Z_scope.

(** ** Threads *)

Definition thr_id (t : thread) : Z :=
  match t with
  | TDuWrite id _ _ | TDuRead id _ _ => id
  | TUbCopy u | TUbWait u _ | TUbWrite u => ub_id u
  end.

Definition thr_flow (t : thread) : positive :=
  match t with
  | TDuWrite _ f _ | TDuRead _ f _ => f
  | TUbCopy u | TUbWait u _ | TUbWrite u => ub_flow u
  end.

Definition thr_reads (t : thread) : bool := match t with TDuRead _ _ _ => true | _ => false end.

(** The data unit a thread holds on to. *)
Definition thr_du (t : thread) : list positive :=
  match t with TUbWait _ a => [a] | _ => [] end.

Definition thread_dus (ts : list thread) : list positive := concat (thr_du <$> ts).

(** Readers ([r] true) and writers of the flow [f] among [ts]. *)
Fixpoint cnt (r : bool) (f : positive) (ts : list thread) : Z :=
  match ts with
  | [] => 0
  | t :: ts' =>
      (if Bool.eqb (thr_reads t) r && Pos.eqb (thr_flow t) f then 1 else 0) + cnt r f ts'
  end.

(** ** The invariant *)

Definition fifo_dus (fl : ipcp_flow) : list positive :=
  match fl_sdu_ready fl with Some q => q_head q | None => [] end.

Definition dus_of (m : gmap positive ipcp_flow) : list positive :=
  concat ((fun x => fifo_dus (snd x)) <$> map_to_list m).

Definition fifo_ok (fl : ipcp_flow) : Prop :=
  match fl_sdu_ready fl with
  | Some q => q_length q = zlen (q_head q) /\ zlen (q_head q) < 2 ^ 64
  | None => fl_state fl = PORT_STATE_PENDING \/
            fl_state fl = PORT_STATE_DEALLOCATED /\ fl_readers fl = 0
  end.

(** A flow [f] with the threads [ts] inside; [x] is a flow that is just being taken down. *)
Record flow_inv (x : option positive) (ts : list thread) (f : positive) (fl : ipcp_flow)
    : Prop := mkFI {
  fi_readers : fl_readers fl = cnt true f ts;
  fi_writers : fl_writers fl = cnt false f ts;
  fi_posters : fl_posters fl = 0;
  fi_fifo : fifo_ok fl;
  fi_ipcp : is_Some (fl_ipc_process fl);
  fi_used : fl_state fl = PORT_STATE_DEALLOCATED -> x = Some f \/
    0 < fl_readers fl + fl_writers fl
}.

Definition pidm_ok (p : pidm) : Prop :=
  NoDup (allocated_ports p) /\ Forall (fun id => 1 <= id <= MAX_PORT_ID) (allocated_ports p) /\
  0 <= last_allocated p <= MAX_PORT_ID.

(** Addresses that are not in use yet. *)
Definition heap_ok (k : kfa) : Prop :=
  forall a, (k_next k <= a)%positive -> k_flow k !! a = None /\ k_du k !! a = None.

Record kinv (lk : bool) (x : option positive) (ts : list thread) (k : kfa) : Prop := mkKI {
  ki_lock : kfa_lock k = lk;
  ki_pidm : pidm_ok (kfa_pidm k);
  ki_keys : NoDup (fst <$> kfa_flows k);
  ki_addrs : NoDup (snd <$> kfa_flows k);
  ki_ids : forall id f, (id, f) ∈ kfa_flows k -> id ∈ allocated_ports (kfa_pidm k);
  ki_live : forall id f, (id, f) ∈ kfa_flows k -> is_Some (k_flow k !! f);
  ki_listed : forall f fl, k_flow k !! f = Some fl -> exists id, (id, f) ∈ kfa_flows k;
  ki_flow : forall f fl, k_flow k !! f = Some fl -> flow_inv x ts f fl;
  ki_thr : Forall (fun t => (thr_id t, thr_flow t) ∈ kfa_flows k) ts;
  ki_dus : NoDup (thread_dus ts ++ dus_of (k_flow k));
  ki_du : Forall (fun a => is_Some (k_du k !! a)) (thread_dus ts ++ dus_of (k_flow k));
  ki_heap : heap_ok k
}.

(** ** Lemmas on lists and maps *)

Lemma cnt_ge0 r f ts : 0 <= cnt r f ts.
Proof. induction ts as [|t ts IH]; cbn; [lia|]. case_match; lia. Qed.

Lemma cnt_app r f ts us : cnt r f (ts ++ us) = cnt r f ts + cnt r f us.
Proof. induction ts as [|t ts IH]; cbn; lia. Qed.

Lemma cnt_none r f ts : Forall (fun t => thr_flow t <> f) ts -> cnt r f ts = 0.
Proof.
  induction 1 as [|t ts Ht _ IH]; [done|]. cbn.
  destruct (Pos.eqb (thr_flow t) f) eqn:E; [by apply Pos.eqb_eq in E|]. rewrite andb_false_r. lia.
Qed.

(** A flow without users has no threads. *)
Lemma cnt_zero f ts :
  cnt true f ts = 0 -> cnt false f ts = 0 -> Forall (fun t => thr_flow t <> f) ts.
Proof.
  induction ts as [|t ts IH]; intros H1 H2; [done|]. cbn in H1, H2.
  pose proof (cnt_ge0 true f ts). pose proof (cnt_ge0 false f ts).
  destruct (Pos.eqb (thr_flow t) f) eqn:E.
  - destruct (thr_reads t); cbn in H1, H2; lia.
  - rewrite andb_false_r in H1, H2. constructor; [by apply Pos.eqb_neq|]. apply IH; lia.
Qed.

Lemma dus_of_insert f fl m : dus_of (<[f := fl]> m) ≡ₚ fifo_dus fl ++ dus_of (delete f m).
Proof.
  unfold dus_of. rewrite <- insert_delete_eq. rewrite map_to_list_insert by apply lookup_delete_eq.
  by rewrite fmap_cons.
Qed.

Lemma dus_of_lookup f fl m : m !! f = Some fl -> dus_of m ≡ₚ fifo_dus fl ++ dus_of (delete f m).
Proof. intros H. rewrite <- (insert_id m f fl H) at 1. apply dus_of_insert. Qed.

Lemma pmap_find_in map id f : kfa_pmap_find map id = Some f -> (id, f) ∈ map.
Proof.
  unfold kfa_pmap_find, pmap_entry_find. induction map as [|[i g] map IH]; [done|]. cbn.
  destruct (i =? id) eqn:E.
  - intros [= <-]. assert (i = id) as -> by lia. constructor.
  - intros H. right. by apply IH.
Qed.

Lemma pmap_in_find map id f :
  NoDup (fst <$> map) -> (id, f) ∈ map -> kfa_pmap_find map id = Some f.
Proof.
  unfold kfa_pmap_find, pmap_entry_find. induction map as [|[i g] map IH]; cbn; intros Hn Hin;
    [by inversion Hin|].
  apply NoDup_cons in Hn as [Hni Hn]. apply elem_of_cons in Hin as [[= -> ->]|Hin].
  - by rewrite Z.eqb_refl.
  - destruct (i =? id) eqn:E; [|by apply IH]. assert (i = id) as -> by lia. destruct Hni.
    apply list_elem_of_fmap. by exists (id, f).
Qed.

Lemma pmap_not_found map id f : kfa_pmap_find map id = None -> (id, f) ∉ map.
Proof.
  unfold kfa_pmap_find, pmap_entry_find. induction map as [|[i g] map IH]; cbn; [intros _ H; by inversion H|].
  destruct (i =? id) eqn:E; [done|]. intros H [[= -> ->]|Hin]%elem_of_cons; [lia|]. by apply IH.
Qed.

(** Deletion of an entry, in a map without duplicates. *)
Lemma pmap_delete_in map id j g :
  NoDup (fst <$> map) -> (j, g) ∈ pmap_delete id map <-> (j, g) ∈ map /\ j <> id.
Proof.
  induction map as [|[i h] map IH]; cbn; intros Hn.
  { split; [intros H; by inversion H | intros [H _]; by inversion H]. }
  apply NoDup_cons in Hn as [Hni Hn]. rewrite elem_of_cons.
  destruct (i =? id) eqn:E.
  - assert (i = id) as -> by lia. split.
    + intros H. split; [by right|]. intros ->. apply Hni, list_elem_of_fmap. by exists (id, g).
    + by intros [[[= -> ->]|H] Hne].
  - rewrite elem_of_cons, IH by done. split.
    + intros [[= -> ->]|[H Hne]]; [split; [by left|lia] | split; [by right|done]].
    + intros [[[= -> ->]|H] Hne]; [by left | by right].
Qed.

Lemma pmap_delete_sub {B} (h : Z * positive -> B) id map : sublist (h <$> pmap_delete id map) (h <$> map).
Proof.
  induction map as [|e map IH]; cbn; [done|].
  destruct (fst e =? id); [by apply sublist_cons | by apply sublist_skip].
Qed.

Lemma NoDup_sub {A} (l k : list A) : sublist l k -> NoDup k -> NoDup l.
Proof. intros H Hn. eapply sublist_NoDup; eauto. Qed.

Lemma NoDup_fmap_eq {A B} (h : A -> B) (l : list A) x y :
  NoDup (h <$> l) -> x ∈ l -> y ∈ l -> h x = h y -> x = y.
Proof.
  induction l as [|a l IH]; intros Hn Hx Hy He; [by inversion Hx|].
  cbn in Hn. apply NoDup_cons in Hn as [Ha Hn].
  apply elem_of_cons in Hx as [-> |Hx]; apply elem_of_cons in Hy as [-> |Hy]; try done.
  - destruct Ha. rewrite He. by apply list_elem_of_fmap_2.
  - destruct Ha. rewrite <- He. by apply list_elem_of_fmap_2.
  - by apply IH.
Qed.

Lemma remove_first_in id l j : NoDup l -> j ∈ remove_first id l <-> j ∈ l /\ j <> id.
Proof.
  induction l as [|x l IH]; cbn; intros Hn.
  { split; [intros H; by inversion H | intros [H _]; by inversion H]. }
  apply NoDup_cons in Hn as [Hx Hn]. rewrite elem_of_cons. destruct (x =? id) eqn:E.
  - assert (x = id) as -> by lia. split; [intros H; split; [by right|by intros ->]|].
    by intros [[-> |H] Hne].
  - rewrite elem_of_cons, IH by done. split.
    + intros [-> |[H Hne]]; [split; [by left|lia] | split; [by right|done]].
    + intros [[-> |H] Hne]; [by left | by right].
Qed.

Lemma remove_first_sub id l : sublist (remove_first id l) l.
Proof. induction l as [|x l IH]; cbn; [done|]. destruct (x =? id); [by apply sublist_cons | by apply sublist_skip]. Qed.

(** ** Runs of the primitives *)

Lemma lock_run k : kfa_lock k = false -> lock k = Ret tt (set_lock true k).
Proof. unfold lock. by intros ->. Qed.

Lemma unlock_run k : kfa_lock k = true -> unlock k = Ret tt (set_lock false k).
Proof. unfold unlock. by intros ->. Qed.

Lemma get_flow_run k f fl : k_flow k !! f = Some fl -> get_flow f k = Ret fl k.
Proof. unfold get_flow. by intros ->. Qed.

Lemma upd_flow_run k f fl g :
  k_flow k !! f = Some fl ->
  upd_flow f g k = Ret tt (set_k_flow (<[f := g fl]> (k_flow k)) k).
Proof. intros H. unfold upd_flow, bind. by rewrite (get_flow_run _ _ _ H). Qed.

Lemma du_destroy_run k a b :
  k_du k !! a = Some b -> du_destroy (Some a) k = Ret tt (set_k_du (delete a (k_du k)) k).
Proof. intros H. unfold du_destroy, bind, deref_ptr, ret. by rewrite H. Qed.

Lemma du_data_run k a b : k_du k !! a = Some b -> du_data (Some a) k = Ret b k.
Proof. intros H. unfold du_data, bind, deref_ptr, ret. by rewrite H. Qed.

(** ** Changes that keep the invariant *)

(** Taking and giving back the lock. *)
Lemma kinv_lock lk lk' x ts k : kinv lk x ts k -> kinv lk' x ts (set_lock lk' k).
Proof. intros []. by constructor. Qed.

(** One flow and the threads inside it. *)
Lemma kinv_flow lk x x' ts ts' k f fl fl' :
  kinv lk x ts k -> k_flow k !! f = Some fl ->
  flow_inv x' ts' f fl' ->
  (forall r g, g <> f -> cnt r g ts' = cnt r g ts) ->
  (forall g, g <> f -> x = Some g -> x' = Some g) ->
  Forall (fun t => (thr_id t, thr_flow t) ∈ kfa_flows k) ts' ->
  NoDup (thread_dus ts' ++ fifo_dus fl' ++ dus_of (delete f (k_flow k))) ->
  Forall (fun a => is_Some (k_du k !! a))
    (thread_dus ts' ++ fifo_dus fl' ++ dus_of (delete f (k_flow k))) ->
  kinv lk x' ts' (set_k_flow (<[f := fl']> (k_flow k)) k).
Proof.
  intros [] Hf Hfi Hcnt Hx Hthr Hnd Hdu. constructor; cbn; try done.
  - intros id g Hg. destruct (decide (g = f)) as [-> |Hne]; [rewrite lookup_insert_eq; by eexists|].
    rewrite lookup_insert_ne by done. by eapply ki_live0.
  - intros g gl. destruct (decide (g = f)) as [-> |Hne]; [intros _; by eapply ki_listed0|].
    rewrite lookup_insert_ne by done. apply ki_listed0.
  - intros g gl. destruct (decide (g = f)) as [-> |Hne].
    + rewrite lookup_insert_eq. by intros [= <-].
    + rewrite lookup_insert_ne by done. intros Hg. destruct (ki_flow0 _ _ Hg).
      constructor; rewrite ?Hcnt by done; try done.
      intros Hd. destruct (fi_used0 Hd) as [He|He]; [left; by apply Hx | by right].
  - by rewrite dus_of_insert.
  - by rewrite dus_of_insert.
  - intros a Ha. destruct (ki_heap0 a Ha) as [H1 H2]. split; [|done]. cbn in *.
    rewrite lookup_insert_ne; [done|]. intros ->. by rewrite Hf in H1.
Qed.

(** ... when no data unit changes its owner. *)
Lemma kinv_flow_same lk x x' ts ts' k f fl fl' :
  kinv lk x ts k -> k_flow k !! f = Some fl ->
  flow_inv x' ts' f fl' ->
  (forall r g, g <> f -> cnt r g ts' = cnt r g ts) ->
  (forall g, g <> f -> x = Some g -> x' = Some g) ->
  Forall (fun t => (thr_id t, thr_flow t) ∈ kfa_flows k) ts' ->
  thread_dus ts' ++ fifo_dus fl' ≡ₚ thread_dus ts ++ fifo_dus fl ->
  kinv lk x' ts' (set_k_flow (<[f := fl']> (k_flow k)) k).
Proof.
  intros Hk Hf Hfi Hcnt Hx Hthr Hp.
  assert (thread_dus ts' ++ fifo_dus fl' ++ dus_of (delete f (k_flow k))
    ≡ₚ thread_dus ts ++ dus_of (k_flow k)) as Hperm
    by (rewrite (dus_of_lookup f fl _ Hf), !app_assoc; by rewrite Hp).
  eapply kinv_flow; [done..| |]; rewrite Hperm; apply Hk.
Qed.

(** The flow of an entry. *)
Lemma kinv_find lk x ts k id f :
  kinv lk x ts k -> kfa_pmap_find (kfa_flows k) id = Some f ->
  (id, f) ∈ kfa_flows k /\ exists fl, k_flow k !! f = Some fl /\ flow_inv x ts f fl.
Proof.
  intros Hk Hf. apply pmap_find_in in Hf. split; [done|].
  destruct (ki_live _ _ _ _ Hk _ _ Hf) as [fl Hfl]. exists fl. split; [done|]. by apply Hk.
Qed.

(** The flow being taken down is in order after all. *)
Lemma kinv_unexempt lk ts k f fl :
  kinv lk (Some f) ts k -> k_flow k !! f = Some fl ->
  (fl_state fl = PORT_STATE_DEALLOCATED -> 0 < fl_readers fl + fl_writers fl) ->
  kinv lk None ts k.
Proof.
  intros [] Hf Hd. constructor; try done. intros g gl Hg. destruct (ki_flow0 _ _ Hg).
  constructor; try done. intros Hs. right. destruct (decide (g = f)) as [-> |Hne].
  - rewrite Hf in Hg. injection Hg as <-. by apply Hd.
  - destruct (fi_used0 Hs) as [[= ->]|H]; done.
Qed.

(** ** Destruction *)

Lemma flush_run l k :
  NoDup l -> Forall (fun a => is_Some (k_du k !! a)) l ->
  exists m, rqueue_flush l k = Ret tt (set_k_du m k) /\
    (forall a, a ∉ l -> m !! a = k_du k !! a) /\ (forall a, k_du k !! a = None -> m !! a = None).
Proof.
  revert k. induction l as [|a l IH]; intros k Hn Hd.
  { exists (k_du k). split; [by destruct k|]. done. }
  apply NoDup_cons in Hn as [Ha Hn]. apply Forall_cons in Hd as [[b Hb] Hd].
  cbn. unfold bind at 1. rewrite (du_destroy_run _ _ _ Hb).
  destruct (IH (set_k_du (delete a (k_du k)) k) Hn) as (m & Hr & Hm & Hm2).
  { cbn. apply Forall_forall. intros c Hc. rewrite Forall_forall in Hd. specialize (Hd c Hc).
    rewrite lookup_delete_ne; [done|]. by intros ->. }
  exists m. rewrite Hr. cbn in Hm, Hm2. split_and!.
  - by destruct k.
  - intros c Hc. apply not_elem_of_cons in Hc as [Hc1 Hc2]. rewrite Hm by done.
    by rewrite lookup_delete_ne.
  - intros c Hc. apply Hm2. destruct (decide (c = a)) as [-> |]; [apply lookup_delete_eq|].
    by rewrite lookup_delete_ne.
Qed.

Lemma rfifo_destroy_run q k :
  q_length q = zlen (q_head q) -> zlen (q_head q) < 2 ^ 64 ->
  NoDup (q_head q) -> Forall (fun a => is_Some (k_du k !! a)) (q_head q) ->
  exists m, rfifo_destroy q k = Ret 0 (set_k_du m k) /\
    (forall a, a ∉ q_head q -> m !! a = k_du k !! a) /\
    (forall a, k_du k !! a = None -> m !! a = None).
Proof.
  intros Hl Hb Hn Hd. destruct (flush_run _ _ Hn Hd) as (m & Hr & Hm & Hm2). exists m.
  split; [|done]. unfold rfifo_destroy, bind. rewrite Hr, Hl, Z.sub_diag. done.
Qed.

(** The part of kfa_flow_destroy that deals with the FIFO. *)
Lemma destroy_fifo_run fl k :
  fifo_ok fl -> NoDup (fifo_dus fl) -> Forall (fun a => is_Some (k_du k !! a)) (fifo_dus fl) ->
  exists m, (match fl_sdu_ready fl with
             | None => ret 0
             | Some q => do r <- rfifo_destroy q; ret (if truth r then - 1 else 0)
             end) k = Ret 0 (set_k_du m k) /\
    (forall a, a ∉ fifo_dus fl -> m !! a = k_du k !! a) /\
    (forall a, k_du k !! a = None -> m !! a = None).
Proof.
  unfold fifo_ok, fifo_dus. destruct (fl_sdu_ready fl) as [q|].
  - intros [H1 H2] Hn Hd. destruct (rfifo_destroy_run q k H1 H2 Hn Hd) as (m & Hr & Hm).
    exists m. split; [|done]. unfold bind. by rewrite Hr.
  - intros _ _ _. exists (k_du k). split; [by destruct k|]. done.
Qed.

Lemma pmap_remove_run map id f :
  NoDup (fst <$> map) -> (id, f) ∈ map -> kfa_pmap_remove id map = Ret 0 (pmap_delete id map).
Proof.
  intros Hn Hin. unfold kfa_pmap_remove, bind, gets. apply pmap_in_find in Hin; [|done].
  unfold kfa_pmap_find in Hin. by destruct (pmap_entry_find map id).
Qed.

Lemma pidm_release_ok p id :
  pidm_ok p -> pidm_ok (mkPidm (remove_first id (allocated_ports p)) (last_allocated p)).
Proof.
  intros (H1 & H2 & H3). pose proof (remove_first_sub id (allocated_ports p)) as Hs.
  split; [|split]; cbn; [by eapply NoDup_sub| |exact H3].
  apply Forall_forall. intros j Hj. rewrite Forall_forall in H2. apply H2.
  by apply (remove_first_in id (allocated_ports p)) in Hj as [Hj _].
Qed.

Lemma flow_destroy_ok lk ts k id f fl x :
  kinv lk x ts k -> x = None \/ x = Some f -> (id, f) ∈ kfa_flows k ->
  k_flow k !! f = Some fl -> fl_readers fl = 0 -> fl_writers fl = 0 ->
  exists k', kfa_flow_destroy f id k = Ret 0 k' /\ kinv lk None ts k' /\
    kfa_flows k' = pmap_delete id (kfa_flows k) /\
    allocated_ports (kfa_pidm k') = remove_first id (allocated_ports (kfa_pidm k)) /\
    k_flow k' = delete f (k_flow k).
Proof.
  intros Hk Hx Hin Hf Hr0 Hw0. pose proof Hk as []. destruct (ki_flow0 _ _ Hf).
  assert (Forall (fun t => thr_flow t <> f) ts) as Hno by (apply cnt_zero; congruence).
  rewrite (dus_of_lookup f fl _ Hf) in ki_dus0, ki_du0.
  apply NoDup_app in ki_dus0 as (Hn1 & Hdisj & Hn2). apply NoDup_app in Hn2 as (Hn2 & Hdisj2 & Hn3).
  apply Forall_app in ki_du0 as [Hd1 [Hd2 Hd3]%Forall_app].
  destruct (destroy_fifo_run fl k fi_fifo0 Hn2 Hd2) as (m & Hfi & Hm & Hm2).
  assert (1 <= id) as Hid.
  { destruct ki_pidm0 as (_ & Hall & _). rewrite Forall_forall in Hall. apply (Hall id). by eapply ki_ids0. }
  eexists. split; [|split].
  - unfold kfa_flow_destroy. unfold bind at 1. rewrite (get_flow_run _ _ _ Hf).
    unfold bind at 1. rewrite Hfi. unfold bind at 1, on_pmap, on_part. cbn [kfa_flows set_k_du].
    rewrite (pmap_remove_run _ _ f) by done. cbn [truth Z.eqb negb].
    unfold bind at 1, on_pidm, on_part, pidm_release, is_port_id_ok.
    destruct (0 <=? id) eqn:E; [|lia]. cbn [negb]. unfold bind at 1, modify, ret. cbn [truth Z.eqb negb].
    unfold bind, free_flow. cbn [k_flow set_pidm set_flows set_k_du]. rewrite Hf. reflexivity.
  - constructor; cbn; try done.
    + by apply pidm_release_ok.
    + eapply NoDup_sub; [apply pmap_delete_sub|done].
    + eapply NoDup_sub; [apply pmap_delete_sub|done].
    + intros j g [Hj Hne]%pmap_delete_in; [|done]. apply remove_first_in; [apply ki_pidm0|].
      split; [by eapply ki_ids0|done].
    + intros j g [Hj Hne]%pmap_delete_in; [|done]. rewrite lookup_delete_ne; [by eapply ki_live0|].
      intros ->. apply Hne.
      by injection (NoDup_fmap_eq snd _ _ _ ki_addrs0 Hj Hin eq_refl).
    + intros g gl. destruct (decide (g = f)) as [-> |Hne]; [by rewrite lookup_delete_eq|].
      rewrite lookup_delete_ne by done. intros Hg. destruct (ki_listed0 _ _ Hg) as [j Hj].
      exists j. apply pmap_delete_in; [done|]. split; [done|]. intros ->.
      by injection (NoDup_fmap_eq fst _ _ _ ki_keys0 Hj Hin eq_refl).
    + intros g gl. destruct (decide (g = f)) as [-> |Hne]; [by rewrite lookup_delete_eq|].
      rewrite lookup_delete_ne by done. intros Hg. destruct (ki_flow0 _ _ Hg).
      constructor; try done. intros Hs. right. destruct (fi_used1 Hs) as [Hxg|]; [|done].
      destruct Hx as [-> | ->]; [done|]. by injection Hxg as ->.
    + apply Forall_forall. intros t Ht. rewrite Forall_forall in ki_thr0, Hno.
      apply pmap_delete_in; [done|]. split; [by apply ki_thr0|]. intros He.
      specialize (ki_thr0 t Ht). apply (Hno t Ht). rewrite He in ki_thr0.
      by injection (NoDup_fmap_eq fst _ _ _ ki_keys0 ki_thr0 Hin eq_refl).
    + apply NoDup_app. split_and!; [done| |done]. intros a Ha Ha2. apply (Hdisj a Ha).
      apply elem_of_app. by right.
    + apply Forall_app. split; apply Forall_forall; intros a Ha.
      * rewrite Forall_forall in Hd1. rewrite Hm; [by apply Hd1|]. intros Ha2.
        apply (Hdisj a Ha). apply elem_of_app. by left.
      * rewrite Forall_forall in Hd3. rewrite Hm; [by apply Hd3|]. intros Ha2. by apply (Hdisj2 a).
    + intros a Ha. destruct (ki_heap0 a Ha) as [H1 H2]. cbn in *. split; [|by apply Hm2].
      destruct (decide (a = f)) as [-> |]; [apply lookup_delete_eq|]. by rewrite lookup_delete_ne.
  - done.
Qed.
