(* ===== verification/KfaPidm.v ===== *)
(** The manager of port identifiers: the search for a free identifier ends while there is
    one, and the identifier it answers is free. *)

From Stdlib Require Import ZArith Lia.
From Stdlib Require List.
From stdpp Require Import base list gmap.
From S2P Require Import Prelude Ints Types ByteMem Rds Kfa KfaInv.
Open Scope Z_scope.

(** The [n]-th identifier the search looks at. *)
Fixpoint nth_pid (n : nat) (pid : Z) : Z :=
  match n with O => pid | S n' => nth_pid n' (next_pid pid) end.

Lemma nth_pid_eq n pid :
  1 <= pid <= MAX_PORT_ID -> nth_pid n pid = (pid - 1 + Z.of_nat n) mod MAX_PORT_ID + 1.
Proof.
  revert pid. induction n as [|n IH]; intros pid Hp; cbn [nth_pid].
  - rewrite Z.mod_small by (cbn; lia). lia.
  - unfold next_pid. destruct (pid =? MAX_PORT_ID) eqn:E.
    + rewrite IH by (cbn; lia). assert (pid = MAX_PORT_ID) as -> by lia.
      replace (MAX_PORT_ID - 1 + Z.of_nat (S n)) with (1 - 1 + Z.of_nat n + 1 * MAX_PORT_ID) by lia.
      by rewrite Z.mod_add by done.
    + rewrite IH by lia. do 2 f_equal. lia.
Qed.

Lemma nth_pid_range n pid : 1 <= pid <= MAX_PORT_ID -> 1 <= nth_pid n pid <= MAX_PORT_ID.
Proof.
  intros Hp. rewrite nth_pid_eq by done.
  pose proof (Z.mod_pos_bound (pid - 1 + Z.of_nat n) MAX_PORT_ID ltac:(done)). lia.
Qed.

(** The identifiers do not repeat within a turn. *)
Lemma nth_pid_inj n m pid :
  1 <= pid <= MAX_PORT_ID -> Z.of_nat n < MAX_PORT_ID -> Z.of_nat m < MAX_PORT_ID ->
  nth_pid n pid = nth_pid m pid -> n = m.
Proof.
  intros Hp Hn Hm. rewrite !nth_pid_eq by done. intros H.
  assert ((pid - 1 + Z.of_nat n) mod MAX_PORT_ID = (pid - 1 + Z.of_nat m) mod MAX_PORT_ID) as H2 by lia.
  unfold MAX_PORT_ID in *. change (Z.shiftl 64 8 * 4 - 1) with 65535 in *. div_mod_lia.
Qed.

Lemma pidm_allocated_in p id : pidm_allocated p id = true <-> id ∈ allocated_ports p.
Proof.
  unfold pidm_allocated. rewrite List.existsb_exists. split.
  - intros (x & Hx & He). assert (id = x) as -> by lia. by apply list_elem_of_In.
  - intros H. exists id. split; [by apply list_elem_of_In | apply Z.eqb_refl].
Qed.

(** A search that runs out of rounds has seen only identifiers in use. *)
Lemma pidm_search_run fuel p pid k :
  match pidm_search fuel p pid k with
  | Ret r k' => k' = k /\ (r ∉ allocated_ports p) /\ exists n, (n <= fuel)%nat /\ r = nth_pid n pid
  | Fault _ _ => False
  | NoFuel => forall n, (n <= fuel)%nat -> nth_pid n pid ∈ allocated_ports p
  end.
Proof.
  revert pid. induction fuel as [|fuel IH]; intros pid; cbn [pidm_search].
  - destruct (pidm_allocated p pid) eqn:E; cbn.
    + intros n Hn. assert (n = 0%nat) as -> by lia. by apply pidm_allocated_in.
    + split_and!; [done| |by exists 0%nat]. intros H%pidm_allocated_in. congruence.
  - destruct (pidm_allocated p pid) eqn:E; cbn [ret].
    + specialize (IH (next_pid pid)). destruct (pidm_search fuel p (next_pid pid) k); [|done|].
      * destruct IH as (H1 & H2 & n & Hn & H3). split_and!; [done|done|]. exists (S n). split; [lia|done].
      * intros [|n] Hn; [by apply pidm_allocated_in|]. apply IH. lia.
    + split_and!; [done| |exists 0%nat; split; [lia|done]]. intros H%pidm_allocated_in. congruence.
Qed.

(** With a free identifier the search ends. *)
Lemma pidm_search_ends p pid k :
  1 <= pid <= MAX_PORT_ID -> zlen (allocated_ports p) < MAX_PORT_ID ->
  exists r, pidm_search (length (allocated_ports p)) p pid k = Ret r k /\
    (r ∉ allocated_ports p) /\ 1 <= r <= MAX_PORT_ID.
Proof.
  intros Hp Hl. pose proof (pidm_search_run (length (allocated_ports p)) p pid k) as H.
  destruct (pidm_search _ p pid k) as [r k'| |]; [|done|].
  - destruct H as (-> & H2 & n & _ & ->). exists (nth_pid n pid). split_and!; [done|done|..]; by apply nth_pid_range.
  - exfalso. set (N := length (allocated_ports p)) in *.
    assert (List.incl (List.map (fun n => nth_pid n pid) (List.seq 0 (S N))) (allocated_ports p)) as Hi.
    { intros x (n & <- & Hn)%List.in_map_iff. apply List.in_seq in Hn. apply list_elem_of_In, H. lia. }
    apply List.NoDup_incl_length in Hi; [rewrite List.length_map, List.length_seq in Hi; lia|].
    apply List.NoDup_map_NoDup_ForallPairs; [|apply List.seq_NoDup].
    intros a b Ha Hb. apply List.in_seq in Ha, Hb. unfold zlen in Hl. apply nth_pid_inj; [done|lia|lia].
Qed.

Lemma next_pid_range p : pidm_ok p -> 1 <= next_pid (last_allocated p) <= MAX_PORT_ID.
Proof. intros (_ & _ & H). unfold next_pid. case_match; [done|lia]. Qed.

Lemma pidm_allocate_ok ok p :
  pidm_ok p -> zlen (allocated_ports p) < MAX_PORT_ID ->
  if ok : bool then
    exists pid, pidm_allocate ok p = Ret pid (mkPidm (pid :: allocated_ports p) pid) /\
      (pid ∉ allocated_ports p) /\ 1 <= pid <= MAX_PORT_ID /\
      pidm_ok (mkPidm (pid :: allocated_ports p) pid)
  else pidm_allocate ok p = Ret port_id_bad p.
Proof.
  intros Hp Hl.
  destruct (pidm_search_ends p _ p (next_pid_range p Hp) Hl) as (r & Hr & Hni & Hb).
  unfold pidm_allocate, bind, gets. rewrite Hr. destruct ok; [|done].
  exists r. split_and!; try done; try lia. destruct Hp as (H1 & H2 & H3).
  split; [by constructor|]. split; [constructor; [lia|done] | cbn; lia].
Qed.
