(* ===== verification/KfaOps.v ===== *)
(** Every function of the RINA flow allocator, and every part of one after a sleep or a
    call of an IPC process, runs without a fault and keeps the invariant. *)

From Stdlib Require Import ZArith Lia.
From stdpp Require Import base list gmap.
From S2P Require Import Prelude Ints Types ByteMem Rds Kfa KfaInv KfaPidm.
Open Scope Z_scope.

(** A run that ends well: the function is done, or its thread is parked. *)
Definition good (ts : list thread) (o : outcome kfa opres) : Prop :=
  match o with
  | Ret (Done _ _) k' => kinv false None ts k'
  | Ret (Park t) k' => kinv false None (t :: ts) k'
  | _ => False
  end.

Definition good_rc {A} (ts : list thread) (o : outcome kfa A) : Prop :=
  match o with Ret _ k' => kinv false None ts k' | _ => False end.

(** Steps over a primitive whose run is known. *)
Ltac kstep H := unfold bind at 1; rewrite H; cbv beta iota.

Lemma unlock_ok ts k : kinv true None ts k -> exists k', unlock k = Ret tt k' /\ kinv false None ts k'.
Proof.
  intros Hk. exists (set_lock false k). split; [apply unlock_run, Hk | by eapply kinv_lock].
Qed.

Lemma lock_ok ts k : kinv false None ts k -> lock k = Ret tt (set_lock true k) /\ kinv true None ts (set_lock true k).
Proof. intros Hk. split; [apply lock_run, Hk | by eapply kinv_lock]. Qed.

(** ** Leaving a function *)

Section Finish.

(** A thread leaves the flow. *)
Lemma leave_flow x ts t k fl :
  kinv true x (t :: ts) k -> x = None \/ x = Some (thr_flow t) -> thr_du t = [] ->
  k_flow k !! thr_flow t = Some fl ->
  let fl' := if thr_reads t then set_fl_readers (fl_readers fl - 1) fl
             else set_fl_writers (fl_writers fl - 1) fl in
  kinv true (Some (thr_flow t)) ts (set_k_flow (<[thr_flow t := fl']> (k_flow k)) k).
Proof.
  intros Hk Hx Hdu Hf fl'. destruct (ki_flow _ _ _ _ Hk _ _ Hf) as [fi_readers0 fi_writers0 fi_posters0 fi_fifo0 fi_ipcp0 fi_used0].
  cbn in fi_readers0, fi_writers0. rewrite Pos.eqb_refl, andb_true_r in fi_readers0, fi_writers0.
  eapply (kinv_flow_same _ _ _ _ _ _ _ fl).
  - exact Hk.
  - done.
  - pose proof (cnt_ge0 true (thr_flow t) ts).
    unfold fl'. destruct (thr_reads t); cbn in fi_readers0, fi_writers0;
      (constructor; cbn; [lia|lia|done| |done|by left]); unfold fifo_ok in *; cbn;
      destruct (fl_sdu_ready fl); try done; destruct fi_fifo0 as [|[? ?]]; [by left|lia].
  - intros r g Hne. cbn. destruct (Pos.eqb (thr_flow t) g) eqn:E; [by apply Pos.eqb_eq in E|].
    rewrite andb_false_r. lia.
  - intros g Hne ->. destruct Hx as [?|[= ->]]; done.
  - by apply ki_thr in Hk as [_ ?]%Forall_cons.
  - unfold thread_dus. cbn [fmap list_fmap concat]. rewrite Hdu. cbn [app].
    by replace (fifo_dus fl') with (fifo_dus fl) by (unfold fl'; by destruct (thr_reads t)).
Qed.

(** The last one to leave a deallocated flow destroys it. *)
Lemma maybe_destroy ts k id f fl (b : bool) :
  kinv true (Some f) ts k -> (id, f) ∈ kfa_flows k -> k_flow k !! f = Some fl ->
  b = (unused fl && (fl_state fl =? PORT_STATE_DEALLOCATED)) ->
  exists k', when b (do _r <- kfa_flow_destroy f id; ret tt) k = Ret tt k' /\ kinv true None ts k'.
Proof.
  intros Hk Hin Hf Hb. destruct (ki_flow _ _ _ _ Hk _ _ Hf) as [fi_readers0 fi_writers0 fi_posters0 fi_fifo0 fi_ipcp0 fi_used0].
  pose proof (cnt_ge0 true f ts). pose proof (cnt_ge0 false f ts).
  unfold unused in Hb. destruct b; cbn [when].
  - symmetry in Hb. apply andb_true_iff in Hb as [Hb Hs].
    apply andb_true_iff in Hb as [Hb Hp]. apply andb_true_iff in Hb as [Hr Hw].
    destruct (flow_destroy_ok true ts k id f fl (Some f) Hk ltac:(by right) Hin Hf ltac:(lia) ltac:(lia))
      as (k' & Hd & Hk' & _).
    exists k'. unfold bind. by rewrite Hd.
  - exists k. split; [done|]. eapply kinv_unexempt; [done|done|]. intros Hs.
    rewrite Hs, Z.eqb_refl, andb_true_r in Hb. destruct (fl_readers fl =? 0) eqn:E1; [|lia].
    destruct (fl_writers fl =? 0) eqn:E2; [|lia]. rewrite fi_posters0 in Hb. by cbn in Hb.
Qed.

Lemma finish_write_ok ts t k rc :
  kinv true None (t :: ts) k -> thr_reads t = false -> thr_du t = [] ->
  good ts (finish_write (thr_flow t) (thr_id t) rc k).
Proof.
  intros Hk Hr Hdu. pose proof (ki_thr _ _ _ _ Hk) as [Hin _]%Forall_cons.
  destruct (ki_live _ _ _ _ Hk _ _ Hin) as [fl Hf].
  pose proof (leave_flow None ts t k fl Hk ltac:(by left) Hdu Hf) as Hk1. rewrite Hr in Hk1. cbn zeta in Hk1.
  unfold finish_write. kstep (upd_flow_run _ _ _ (fun fl => set_fl_writers (fl_writers fl - 1) fl) Hf).
  set (fl' := set_fl_writers _ _) in *. set (k1 := set_k_flow _ _) in *.
  assert (k_flow k1 !! thr_flow t = Some fl') as Hf1 by (cbn; apply lookup_insert_eq).
  kstep (get_flow_run _ _ _ Hf1).
  destruct (maybe_destroy ts k1 (thr_id t) (thr_flow t) fl' ((fl_writers fl' =? 0) && (fl_readers fl' =? 0)
    && (fl_posters fl' =? 0) && (fl_state fl' =? PORT_STATE_DEALLOCATED)) Hk1 Hin Hf1) as (k2 & Hd & Hk2).
  { unfold unused. by rewrite (andb_comm (fl_writers fl' =? 0)). }
  kstep Hd. destruct (unlock_ok _ _ Hk2) as (k3 & Hu & Hk3). kstep Hu. exact Hk3.
Qed.

Lemma finish_read_ok ts t k rc du :
  kinv true None (t :: ts) k -> thr_reads t = true ->
  good ts (finish_read (thr_flow t) (thr_id t) rc du k).
Proof.
  intros Hk Hr. assert (thr_du t = []) as Hdu by (by destruct t).
  pose proof (ki_thr _ _ _ _ Hk) as [Hin _]%Forall_cons.
  destruct (ki_live _ _ _ _ Hk _ _ Hin) as [fl Hf].
  pose proof (leave_flow None ts t k fl Hk ltac:(by left) Hdu Hf) as Hk1. rewrite Hr in Hk1. cbn zeta in Hk1.
  unfold finish_read. kstep (upd_flow_run _ _ _ (fun fl => set_fl_readers (fl_readers fl - 1) fl) Hf).
  set (fl' := set_fl_readers _ _) in *. set (k1 := set_k_flow _ _) in *.
  assert (k_flow k1 !! thr_flow t = Some fl') as Hf1 by (cbn; apply lookup_insert_eq).
  kstep (get_flow_run _ _ _ Hf1).
  destruct (maybe_destroy ts k1 (thr_id t) (thr_flow t) fl' ((fl_readers fl' =? 0) && (fl_writers fl' =? 0)
    && (fl_posters fl' =? 0) && (fl_state fl' =? PORT_STATE_DEALLOCATED)) Hk1 Hin Hf1 eq_refl) as (k2 & Hd & Hk2).
  kstep Hd. destruct (unlock_ok _ _ Hk2) as (k3 & Hu & Hk3). kstep Hu. exact Hk3.
Qed.

(** A thread enters the flow. *)
Lemma enter_flow ts t k fl :
  kinv true None ts k -> thr_du t = [] -> (thr_id t, thr_flow t) ∈ kfa_flows k ->
  k_flow k !! thr_flow t = Some fl -> fl_state fl <> PORT_STATE_DEALLOCATED ->
  let fl' := if thr_reads t then set_fl_readers (fl_readers fl + 1) fl
             else set_fl_writers (fl_writers fl + 1) fl in
  kinv true None (t :: ts) (set_k_flow (<[thr_flow t := fl']> (k_flow k)) k).
Proof.
  intros Hk Hdu Hin Hf Hs fl'. destruct (ki_flow _ _ _ _ Hk _ _ Hf) as [fi_readers0 fi_writers0 fi_posters0 fi_fifo0 fi_ipcp0 fi_used0].
  eapply (kinv_flow_same _ _ _ _ _ _ _ fl).
  - exact Hk.
  - done.
  - assert (fifo_ok fl') as Hq.
    { unfold fl', fifo_ok in *. destruct (thr_reads t); cbn; destruct (fl_sdu_ready fl); try done;
        destruct fi_fifo0 as [|[? ?]]; by left. }
    unfold fl' in *. destruct (thr_reads t) eqn:E; constructor; cbn; rewrite ?Pos.eqb_refl, ?E; cbn;
      try lia; done.
  - intros r g Hne. cbn. destruct (Pos.eqb (thr_flow t) g) eqn:E; [by apply Pos.eqb_eq in E|].
    rewrite andb_false_r. lia.
  - done.
  - constructor; [done | apply Hk].
  - unfold thread_dus. cbn [fmap list_fmap concat]. rewrite Hdu. cbn [app].
    by replace (fifo_dus fl') with (fifo_dus fl) by (unfold fl'; by destruct (thr_reads t)).
Qed.

(** What a thread is doing may change. *)
Lemma kinv_thread lk x ts t t' k :
  kinv lk x (t :: ts) k -> thr_id t' = thr_id t -> thr_flow t' = thr_flow t ->
  thr_reads t' = thr_reads t -> thr_du t' = thr_du t -> kinv lk x (t' :: ts) k.
Proof.
  intros Hk H1 H2 H3 H4. destruct Hk as [? ? ? ? ? ? ? ki_flow0 ki_thr0 ki_dus0 ki_du0 ?].
  constructor; try done.
  - intros f fl Hf. destruct (ki_flow0 _ _ Hf). constructor; try done; cbn; rewrite H2, H3; done.
  - apply Forall_cons in ki_thr0 as [Ht Hts]. constructor; [by rewrite H1, H2|done].
  - unfold thread_dus in *. cbn in *. by rewrite H4.
  - unfold thread_dus in *. cbn in *. by rewrite H4.
Qed.

End Finish.

(** ** Changes of a single flow *)

Lemma kinv_set lk x ts k f fl fl' :
  kinv lk x ts k -> k_flow k !! f = Some fl -> flow_inv x ts f fl' ->
  fl_sdu_ready fl' = fl_sdu_ready fl ->
  kinv lk x ts (set_k_flow (<[f := fl']> (k_flow k)) k).
Proof.
  intros Hk Hf Hfi Hs. eapply (kinv_flow_same _ _ _ _ _ _ _ fl); try done.
  - apply Hk.
  - unfold fifo_dus. by rewrite Hs.
Qed.

(** ** Data units that come and go *)

Lemma kinv_new_du lk x ts k b :
  kinv lk x ts k ->
  exists k', du_create true b k = Ret (Some (k_next k)) k' /\ kinv lk x ts k' /\
    k_du k' !! k_next k = Some b /\ (k_next k ∉ thread_dus ts ++ dus_of (k_flow k')) /\
    kfa_flows k' = kfa_flows k /\ k_flow k' = k_flow k /\ k_sent k' = k_sent k.
Proof.
  intros Hk. destruct Hk as [H1 H2 H3 H4 H5 H6 H7 H8 H9 Hnd Hdu Hheap].
  destruct (Hheap (k_next k) (Pos.le_refl _)) as [Hf Hd].
  assert (k_next k ∉ thread_dus ts ++ dus_of (k_flow k)) as Hni.
  { intros Hin. rewrite Forall_forall in Hdu. destruct (Hdu _ Hin) as [? He]. congruence. }
  eexists. split; [reflexivity|]. split_and!; try done; [|by cbn; rewrite lookup_insert_eq].
  constructor; cbn; try done.
  - eapply Forall_impl; [exact Hdu|]. intros a [c Hc]. destruct (decide (a = k_next k)) as [-> |Hne].
    + rewrite lookup_insert_eq. by eexists.
    + rewrite lookup_insert_ne by done. by eexists.
  - intros a Ha. cbn in *. destruct (Hheap a ltac:(lia)) as [? ?]. split; [done|].
    rewrite lookup_insert_ne; [done|]. lia.
Qed.

Lemma kinv_del_du lk x ts k a :
  kinv lk x ts k -> a ∉ thread_dus ts ++ dus_of (k_flow k) ->
  kinv lk x ts (set_k_du (delete a (k_du k)) k).
Proof.
  intros Hk Ha. destruct Hk as [H1 H2 H3 H4 H5 H6 H7 H8 H9 Hnd Hdu Hheap].
  constructor; cbn; try done.
  - apply Forall_forall. intros c Hc. rewrite Forall_forall in Hdu.
    rewrite lookup_delete_ne; [by apply Hdu|]. by intros ->.
  - intros c Hc. destruct (Hheap c Hc) as [? ?]. split; [done|]. cbn.
    destruct (decide (c = a)) as [-> |]; [apply lookup_delete_eq | by rewrite lookup_delete_ne].
Qed.

Lemma du_destroy_ok lk x ts k a :
  kinv lk x ts k -> is_Some (k_du k !! a) -> a ∉ thread_dus ts ++ dus_of (k_flow k) ->
  exists k', du_destroy (Some a) k = Ret tt k' /\ kinv lk x ts k'.
Proof.
  intros Hk [b Hb] Ha. eexists. split; [by eapply du_destroy_run | by apply kinv_del_du].
Qed.

Lemma kinv_sent lk x ts k l : kinv lk x ts k -> kinv lk x ts (set_k_sent l k).
Proof. intros []. by constructor. Qed.

Lemma give_du_ok lk x ts k id a :
  kinv lk x ts k -> is_Some (k_du k !! a) -> a ∉ thread_dus ts ++ dus_of (k_flow k) ->
  exists k', give_du id (Some a) k = Ret tt k' /\ kinv lk x ts k'.
Proof.
  intros Hk [b Hb] Ha. unfold give_du. kstep (du_data_run _ _ _ Hb).
  kstep (du_destroy_run _ _ _ Hb). eexists. split; [reflexivity|].
  apply kinv_sent. by apply kinv_del_du.
Qed.

(** ** The functions that change only one flow, or none *)

(** Enters, looks the port up and leaves when there is no flow. *)
Ltac k_enter Hk :=
  let Hl := fresh "Hl" in let Hk1 := fresh "Hk1" in
  destruct (lock_ok _ _ Hk) as [Hl Hk1]; kstep Hl; unfold gets; unfold bind at 1; cbv beta iota;
  cbn [kfa_flows set_lock].
Ltac k_leave Hk :=
  let k' := fresh "k" in let Hu := fresh "Hu" in
  destruct (unlock_ok _ _ Hk) as (k' & Hu & ?); kstep Hu; try done.

Section Ops.
Context (mem : ksite -> bool) (max_sdu_size : Z -> Z).

Lemma reserve_ok ts k :
  kinv false None ts k -> zlen (allocated_ports (kfa_pidm k)) < MAX_PORT_ID ->
  good_rc ts (kfa_port_id_reserve mem k).
Proof.
  intros Hk Hl. unfold kfa_port_id_reserve. destruct (lock_ok _ _ Hk) as [Hlk Hk1]. kstep Hlk.
  pose proof (pidm_allocate_ok (mem SPid) (kfa_pidm k) (ki_pidm _ _ _ _ Hk) Hl) as Ha.
  unfold bind at 1, on_pidm, on_part. cbn [kfa_pidm set_lock].
  destruct (mem SPid).
  - destruct Ha as (pid & -> & Hni & Hr & Hok). unfold is_port_id_ok.
    destruct (0 <=? pid) eqn:E; [|lia]. cbn [negb]. unfold bind, unlock. cbn.
    destruct Hk. constructor; cbn; try done. intros id f Hin. right. by eapply ki_ids.
  - rewrite Ha. cbn. unfold bind, unlock. cbn. by destruct Hk.
Qed.

Lemma release_ok ts k id : kinv false None ts k -> good_rc ts (kfa_port_id_release id k).
Proof.
  intros Hk. unfold kfa_port_id_release. destruct (is_port_id_ok id) eqn:Eid; cbn [negb]; [|done].
  k_enter Hk. destruct (kfa_pmap_find (kfa_flows k) id) as [f|] eqn:Ef; [k_leave Hk1|].
  unfold bind at 1, on_pidm, on_part, pidm_release. rewrite Eid. cbn [negb].
  unfold bind at 1, modify, ret. cbn. unfold bind, unlock. cbn.
  destruct Hk. constructor; cbn; try done.
  - by apply pidm_release_ok.
  - intros j f Hin. apply remove_first_in; [apply ki_pidm|]. split; [by eapply ki_ids|].
    intros ->. by eapply pmap_not_found.
Qed.

Lemma set_state_ok ts k f fl s :
  kinv true None ts k -> k_flow k !! f = Some fl -> fl_state fl <> PORT_STATE_DEALLOCATED ->
  fl_state fl <> PORT_STATE_PENDING -> s <> PORT_STATE_DEALLOCATED ->
  kinv true None ts (set_k_flow (<[f := set_fl_state s fl]> (k_flow k)) k).
Proof.
  intros Hk Hf Hs Hp Hn. destruct (ki_flow _ _ _ _ Hk _ _ Hf) as [? ? ? Hq ? ?].
  eapply kinv_set; [done|done| |done]. constructor; try done.
  unfold fifo_ok in *. cbn. destruct (fl_sdu_ready fl); [done|]. by destruct Hq as [|[? ?]].
Qed.

(** The IPC process turns writing off and on for flows that are bound to it. *)
Definition bound (id : Z) (k : kfa) : Prop :=
  forall f fl, kfa_pmap_find (kfa_flows k) id = Some f -> k_flow k !! f = Some fl ->
    fl_state fl <> PORT_STATE_PENDING.

Lemma disable_ok ts k id : kinv false None ts k -> bound id k -> good_rc ts (disable_write id k).
Proof.
  intros Hk Hb. unfold disable_write. destruct (is_port_id_ok id); cbn [negb]; [|done].
  k_enter Hk. destruct (kfa_pmap_find (kfa_flows k) id) as [f|] eqn:Ef; [|k_leave Hk1].
  destruct (kinv_find _ _ _ _ _ _ Hk Ef) as (_ & fl & Hf & _). specialize (Hb _ _ Ef Hf).
  kstep (get_flow_run (set_lock true k) _ _ Hf).
  destruct (fl_state fl =? PORT_STATE_DEALLOCATED) eqn:Es; [k_leave Hk1|].
  kstep (upd_flow_run (set_lock true k) _ _ (set_fl_state PORT_STATE_DISABLED) Hf).
  pose proof (set_state_ok _ _ _ _ PORT_STATE_DISABLED Hk1 Hf ltac:(lia) Hb ltac:(done)) as Hk2. k_leave Hk2.
Qed.

Lemma enable_ok ts k id : kinv false None ts k -> bound id k -> good_rc ts (enable_write id k).
Proof.
  intros Hk Hb. unfold enable_write. destruct (is_port_id_ok id); cbn [negb]; [|done].
  k_enter Hk. destruct (kfa_pmap_find (kfa_flows k) id) as [f|] eqn:Ef; [|k_leave Hk1].
  destruct (kinv_find _ _ _ _ _ _ Hk Ef) as (_ & fl & Hf & _). specialize (Hb _ _ Ef Hf).
  kstep (get_flow_run (set_lock true k) _ _ Hf).
  destruct (fl_state fl =? PORT_STATE_DEALLOCATED) eqn:Es; [k_leave Hk1|].
  destruct (fl_state fl =? PORT_STATE_DISABLED) eqn:Ed; cbn [when].
  - kstep (upd_flow_run (set_lock true k) _ _ (set_fl_state PORT_STATE_ALLOCATED) Hf).
    pose proof (set_state_ok _ _ _ _ PORT_STATE_ALLOCATED Hk1 Hf ltac:(lia) Hb ltac:(done)) as Hk2. k_leave Hk2.
  - unfold bind at 1, ret at 1. k_leave Hk1.
Qed.

Lemma set_wqs_ok ts k id b : kinv false None ts k -> good_rc ts (kfa_flow_set_iowqs b id k).
Proof.
  intros Hk. unfold kfa_flow_set_iowqs. destruct (is_port_id_ok id); cbn [negb]; [|done].
  k_enter Hk. destruct (kfa_pmap_find (kfa_flows k) id) as [f|] eqn:Ef; [|k_leave Hk1].
  destruct (kinv_find _ _ _ _ _ _ Hk Ef) as (_ & fl & Hf & []).
  kstep (upd_flow_run (set_lock true k) _ _ (set_fl_wqs b) Hf).
  assert (kinv true None ts (set_k_flow (<[f := set_fl_wqs b fl]> (k_flow (set_lock true k)))
    (set_lock true k))) as Hk2 by (by eapply kinv_set). k_leave Hk2.
Qed.

Lemma cancel_wqs_ok ts k id : kinv false None ts k -> good_rc ts (kfa_flow_cancel_iowqs id k).
Proof.
  intros Hk. unfold kfa_flow_cancel_iowqs. destruct (is_port_id_ok id); cbn [negb]; [|done].
  k_enter Hk. destruct (kfa_pmap_find (kfa_flows k) id) as [f|] eqn:Ef; [|k_leave Hk1].
  destruct (kinv_find _ _ _ _ _ _ Hk Ef) as (_ & fl & Hf & []).
  kstep (get_flow_run (set_lock true k) _ _ Hf).
  kstep (upd_flow_run (set_lock true k) _ _ (set_fl_wqs false) Hf).
  assert (kinv true None ts (set_k_flow (<[f := set_fl_wqs false fl]> (k_flow (set_lock true k)))
    (set_lock true k))) as Hk2 by (by eapply kinv_set). k_leave Hk2.
Qed.

(** ** Creation and binding *)

Lemma dus_of_new f fl m : m !! f = None -> fifo_dus fl = [] -> dus_of (<[f := fl]> m) ≡ₚ dus_of m.
Proof.
  intros Hf Hd. rewrite dus_of_insert, Hd. cbn. by rewrite (delete_id m f Hf).
Qed.

(** A new flow for a port that is reserved and has none. *)
Lemma kinv_new_flow lk ts k id fl :
  kinv lk None ts k -> id ∈ allocated_ports (kfa_pidm k) ->
  kfa_pmap_find (kfa_flows k) id = None ->
  fl_readers fl = 0 -> fl_writers fl = 0 -> fl_posters fl = 0 -> fl_sdu_ready fl = None ->
  fl_state fl = PORT_STATE_PENDING -> is_Some (fl_ipc_process fl) ->
  kinv lk None ts (set_flows ((id, k_next k) :: kfa_flows k)
    (set_k_flow (<[k_next k := fl]> (k_flow k)) (set_k_next (Pos.succ (k_next k)) k))).
Proof.
  intros Hk Hid Hno Hr Hw Hp Hq Hs Hi. destruct Hk as [H1 H2 H3 H4 H5 H6 H7 H8 Ht Hnd Hdu Hheap].
  destruct (Hheap (k_next k) (Pos.le_refl _)) as [Hnf Hnd0].
  assert (forall j, (j, k_next k) ∉ kfa_flows k) as Hna.
  { intros j Hj. destruct (H6 _ _ Hj) as [? He]. congruence. }
  assert (Forall (fun t => thr_flow t <> k_next k) ts) as Hnt.
  { apply Forall_forall. intros t Hin He. rewrite Forall_forall in Ht. specialize (Ht t Hin).
    rewrite He in Ht. by apply Hna in Ht. }
  assert (dus_of (<[k_next k := fl]> (k_flow k)) ≡ₚ dus_of (k_flow k)) as Hperm
    by (apply dus_of_new; [done|]; unfold fifo_dus; by rewrite Hq).
  constructor; cbn; try done.
  - constructor; [|done]. intros (e & He & Hin)%list_elem_of_fmap. destruct e as [j g]. cbn in He. subst j.
    by eapply pmap_not_found.
  - constructor; [|done]. intros (e & He & Hin)%list_elem_of_fmap. destruct e as [j g]. cbn in He. subst g.
    by apply Hna in Hin.
  - intros j g [[= -> ->]|Hin]%elem_of_cons; [done | by eapply H5].
  - intros j g [[= -> ->]|Hin]%elem_of_cons; [rewrite lookup_insert_eq; by eexists|].
    rewrite lookup_insert_ne; [by eapply H6|]. intros <-. by apply Hna in Hin.
  - intros g gl. destruct (decide (g = k_next k)) as [-> |Hne].
    + intros _. exists id. constructor.
    + rewrite lookup_insert_ne by done. intros Hg. destruct (H7 _ _ Hg) as [j Hj]. exists j. by right.
  - intros g gl. destruct (decide (g = k_next k)) as [-> |Hne].
    + rewrite lookup_insert_eq. intros [= <-]. constructor; rewrite ?cnt_none by done; try done.
      * unfold fifo_ok. rewrite Hq. by left.
      * by rewrite Hs.
    + rewrite lookup_insert_ne by done. apply H8.
  - eapply Forall_impl; [exact Ht|]. intros t Hin. by right.
  - by rewrite Hperm.
  - by rewrite Hperm.
  - intros a Ha. cbn in *. destruct (Hheap a ltac:(lia)) as [? ?]. split; [|done].
    rewrite lookup_insert_ne; [done|]. lia.
Qed.

Lemma create_ok ts k id ipcp mb :
  kinv false None ts k -> id ∈ allocated_ports (kfa_pidm k) ->
  kfa_pmap_find (kfa_flows k) id = None -> is_Some ipcp ->
  good_rc ts (kfa_flow_create mem id ipcp mb k).
Proof.
  intros Hk Hid Hno Hi. unfold kfa_flow_create. destruct (mem SFlow); cbn [negb]; [|done].
  unfold bind at 1, fresh. cbv beta iota. unfold bind at 1, modify. cbv beta iota.
  unfold bind at 1, lock. cbn [kfa_lock set_k_flow set_k_next].
  rewrite (ki_lock _ _ _ _ Hk). unfold bind at 1, on_pmap, on_part, kfa_pmap_add_ni.
  destruct (mem SEntry); cbn [negb].
  - unfold bind at 1, modify, ret. cbn. unfold bind, unlock. cbn.
    destruct (kinv_new_flow false ts k id (mkFlow 0 PORT_STATE_PENDING ipcp None false 0 0 0 mb)
      Hk Hid Hno eq_refl eq_refl eq_refl eq_refl eq_refl Hi). by constructor.
  - unfold ret. cbn. unfold bind, free_flow. cbn. rewrite lookup_insert_eq. unfold unlock. cbn.
    destruct Hk as [H1 H2 H3 H4 H5 H6 H7 H8 H9 Hnd Hdu Hheap].
    destruct (Hheap (k_next k) (Pos.le_refl _)) as [Hf Hd].
    replace (delete (k_next k) (<[k_next k := _]> (k_flow k))) with (k_flow k)
      by (by rewrite delete_insert_id).
    constructor; cbn; try done. intros a Ha. apply Hheap. cbn in *. lia.
Qed.

(** A flow is bound once, while it is pending, and memory is there for its FIFO. *)
Lemma bind_ok ts k id ipcp :
  kinv false None ts k -> mem SFifo = true ->
  (forall f fl, kfa_pmap_find (kfa_flows k) id = Some f -> k_flow k !! f = Some fl ->
     fl_state fl = PORT_STATE_PENDING /\ fl_sdu_ready fl = None) ->
  good_rc ts (kfa_flow_ipcp_bind mem id ipcp k).
Proof.
  intros Hk Hm Hb. unfold kfa_flow_ipcp_bind. destruct ipcp as [ipcp|]; [|done].
  destruct (is_port_id_ok id); cbn [negb]; [|done].
  k_enter Hk. destruct (kfa_pmap_find (kfa_flows k) id) as [f|] eqn:Ef; [|k_leave Hk1].
  destruct (kinv_find _ _ _ _ _ _ Hk Ef) as (_ & fl & Hf & Hfi). destruct (Hb _ _ eq_refl Hf) as [Hs Hq].
  unfold bind at 1. rewrite (upd_flow_run (set_lock true k) _ _ _ Hf). cbv beta iota. rewrite Hm. cbn [negb].
  set (fl' := set_fl_sdu_ready _ _). set (k2 := set_k_flow _ _).
  assert (kinv true None ts k2) as Hk2.
  { eapply (kinv_flow_same _ _ _ _ _ (set_lock true k) f fl fl'); try done.
    - destruct Hfi. constructor; try done; by eexists.
    - apply Hk1.
    - unfold fifo_dus, fl'. cbn. by rewrite Hq. }
  k_leave Hk2.
Qed.

(** ** Deallocation *)

Lemma worker_ok ts k id : kinv false None ts k -> good_rc ts (kfa_flow_deallocate_worker id k).
Proof.
  intros Hk. unfold kfa_flow_deallocate_worker. destruct (is_port_id_ok id); cbn [negb]; [|done].
  k_enter Hk. destruct (kfa_pmap_find (kfa_flows k) id) as [f|] eqn:Ef; [|k_leave Hk1].
  destruct (kinv_find _ _ _ _ _ _ Hk Ef) as (Hin & fl & Hf & Hfi).
  kstep (get_flow_run (set_lock true k) _ _ Hf).
  destruct (fl_state fl =? PORT_STATE_DEALLOCATED) eqn:Es; cbn [negb]; [|k_leave Hk1].
  destruct (unused fl) eqn:Eu.
  - destruct Hfi as [? ? ? ? ? Hu]. unfold unused in Eu. destruct (Hu ltac:(lia)) as [|]; [done|].
    apply andb_true_iff in Eu as [Eu _]. apply andb_true_iff in Eu as [E1 E2]. lia.
  - k_leave Hk1.
Qed.

(** A flow that nobody uses is destroyed at once; memory is there for the item of work
    otherwise, and nobody waits for data of a flow that has no FIFO yet. *)
Lemma deallocate_ok ts k id :
  kinv false None ts k -> mem SWqdata = true -> mem SItem = true ->
  (forall f fl, kfa_pmap_find (kfa_flows k) id = Some f -> k_flow k !! f = Some fl ->
     fl_sdu_ready fl = None -> fl_readers fl = 0) ->
  good_rc ts (kfa_flow_deallocate mem id k).
Proof.
  intros Hk Hm1 Hm2 Hb. unfold kfa_flow_deallocate. destruct (is_port_id_ok id); cbn [negb]; [|done].
  k_enter Hk. destruct (kfa_pmap_find (kfa_flows k) id) as [f|] eqn:Ef; [|k_leave Hk1].
  destruct (kinv_find _ _ _ _ _ _ Hk Ef) as (Hin & fl & Hf & Hfi). specialize (Hb _ _ eq_refl Hf).
  kstep (upd_flow_run (set_lock true k) _ _ (set_fl_state PORT_STATE_DEALLOCATED) Hf).
  set (fl' := set_fl_state _ fl). set (k2 := set_k_flow _ _).
  assert (kinv true (Some f) ts k2) as Hk2.
  { eapply (kinv_flow_same _ _ _ _ _ (set_lock true k) f fl fl'); try done; [|apply Hk1].
    destruct Hfi as [? ? ? Hq ? ?]. constructor; try done; [|by left].
    unfold fifo_ok, fl' in *. cbn in *. destruct (fl_sdu_ready fl); [done|]. right. split; [done|by apply Hb]. }
  assert (k_flow k2 !! f = Some fl') as Hf2 by apply lookup_insert_eq.
  kstep (get_flow_run k2 _ _ Hf2). destruct (unused fl') eqn:Eu.
  - unfold unused in Eu. apply andb_true_iff in Eu as [Eu _]. apply andb_true_iff in Eu as [E1 E2].
    destruct (flow_destroy_ok true ts k2 id f fl' (Some f) Hk2 ltac:(by right) Hin Hf2 ltac:(lia) ltac:(lia))
      as (k3 & Hd & Hk3 & _). kstep Hd. k_leave Hk3.
  - rewrite Hm1, Hm2. cbn [negb].
    assert (kinv true None ts k2) as Hk3.
    { eapply kinv_unexempt; [done|done|]. intros _. destruct Hfi. unfold unused, fl' in *. cbn in *.
      pose proof (cnt_ge0 true f ts). pose proof (cnt_ge0 false f ts).
      destruct (fl_readers fl =? 0) eqn:E1; [|lia]. destruct (fl_writers fl =? 0) eqn:E2; [|lia].
      rewrite fi_posters in Eu. done. }
    unfold bind at 1, modify. cbv beta iota.
    assert (kinv true None ts (set_flowdelq (kfa_flowdelq k2 ++ [id]) k2)) as Hk4
      by (destruct Hk3; by constructor).
    k_leave Hk4.
Qed.

End Ops.
