(* ===== verification/KfaIo.v ===== *)
(** Posting, writing and reading data units: every part keeps the invariant. *)

From Stdlib Require Import ZArith Lia.
From stdpp Require Import base list gmap.
From S2P Require Import Prelude Ints Types ByteMem Rds Kfa KfaInv KfaPidm KfaOps.
Open Scope Z_scope.

Lemma on_sdu_ready_run {A} k f fl (m : M (option rqueue) A) a q :
  k_flow k !! f = Some fl -> m (fl_sdu_ready fl) = Ret a q ->
  on_sdu_ready f m k = Ret a (set_k_flow (<[f := set_fl_sdu_ready q fl]> (k_flow k)) k).
Proof.
  intros Hf Hm. unfold on_sdu_ready, bind at 1. rewrite (get_flow_run _ _ _ Hf), Hm.
  unfold bind. by rewrite (upd_flow_run _ _ _ _ Hf).
Qed.

(** Two changes of a flow are one. *)
Lemma upd_flow_again k f fl g :
  upd_flow f g (set_k_flow (<[f := fl]> (k_flow k)) k)
  = Ret tt (set_k_flow (<[f := g fl]> (k_flow k)) k).
Proof.
  erewrite upd_flow_run; [|apply lookup_insert_eq]. cbn. by rewrite insert_insert_eq.
Qed.

Lemma get_flow_again k f fl :
  get_flow f (set_k_flow (<[f := fl]> (k_flow k)) k) = Ret fl (set_k_flow (<[f := fl]> (k_flow k)) k).
Proof. apply get_flow_run, lookup_insert_eq. Qed.

Section Io.
Context (mem : ksite -> bool) (max_sdu_size : Z -> Z).

(** ** Posting *)

(** The FIFO of the port is not full: the counter of entries has 64 bits. *)
Definition room (id : Z) (k : kfa) : Prop :=
  forall f fl q, kfa_pmap_find (kfa_flows k) id = Some f -> k_flow k !! f = Some fl ->
    fl_sdu_ready fl = Some q -> zlen (q_head q) < 2 ^ 64 - 1.

Lemma push_inv ts k f fl q a b :
  kinv true None ts k -> k_flow k !! f = Some fl -> fl_sdu_ready fl = Some q ->
  k_du k !! a = Some b -> a ∉ thread_dus ts ++ dus_of (k_flow k) -> zlen (q_head q) < 2 ^ 64 - 1 ->
  kinv true None ts (set_k_flow (<[f := set_fl_sdu_ready
    (Some (mkRqueue (q_head q ++ [a]) (u64 (q_length q + 1)))) fl]> (k_flow k)) k).
Proof.
  intros Hk Hf Hq Ha Hni Hroom. destruct (ki_flow _ _ _ _ Hk _ _ Hf) as [H1 H2 H3 Hfi H5 H6].
  unfold fifo_ok in Hfi. rewrite Hq in Hfi. destruct Hfi as [Hlen Hb]. pose proof (zlen_ge0 (q_head q)).
  set (fl' := set_fl_sdu_ready _ fl).
  assert (thread_dus ts ++ fifo_dus fl' ++ dus_of (delete f (k_flow k))
    ≡ₚ a :: (thread_dus ts ++ dus_of (k_flow k))) as Hperm.
  { rewrite (dus_of_lookup f fl _ Hf). unfold fifo_dus, fl'. cbn. rewrite Hq.
    rewrite <- !app_assoc. cbn. rewrite !app_assoc. symmetry. apply Permutation_middle. }
  eapply (kinv_flow _ None None ts ts k f fl fl'); try done.
  - constructor; try done. unfold fifo_ok, fl'. cbn. rewrite zlen_app, zlen_cons, zlen_nil, Hlen.
    rewrite u64_small by lia. lia.
  - apply Hk.
  - rewrite Hperm. constructor; [done | apply Hk].
  - rewrite Hperm. constructor; [by exists b | apply Hk].
Qed.

Lemma post_ok ts k id a b :
  kinv false None ts k -> k_du k !! a = Some b -> a ∉ thread_dus ts ++ dus_of (k_flow k) -> room id k ->
  good_rc ts (kfa_du_post mem id (Some a) k).
Proof.
  intros Hk Ha Hni Hroom. unfold kfa_du_post. cbn [is_du_ok negb]. rewrite orb_false_r.
  destruct (is_port_id_ok id); cbn [negb]; cycle 1.
  { kstep (du_destroy_run _ _ _ Ha). by apply kinv_del_du. }
  k_enter Hk. destruct (kfa_pmap_find (kfa_flows k) id) as [f|] eqn:Ef; cycle 1.
  { unfold bind at 1. rewrite (unlock_run (set_lock true k) eq_refl).
    kstep (du_destroy_run (set_lock false (set_lock true k)) _ _ Ha).
    apply kinv_del_du; [|done]. by eapply kinv_lock, kinv_lock. }
  destruct (kinv_find _ _ _ _ _ _ Hk Ef) as (Hin & fl & Hf & Hfi).
  kstep (get_flow_run (set_lock true k) _ _ Hf).
  destruct (fl_state fl =? PORT_STATE_DEALLOCATED) eqn:Es.
  { unfold bind at 1. rewrite (unlock_run (set_lock true k) eq_refl).
    kstep (du_destroy_run (set_lock false (set_lock true k)) _ _ Ha).
    apply kinv_del_du; [|done]. by eapply kinv_lock, kinv_lock. }
  unfold bind at 1, deref_ptr, ret at 1.
  assert (exists r q', rfifo_push_ni (mem SFifoEntry) a (fl_sdu_ready fl) = Ret r q' /\
    kinv true None ts (set_k_flow (<[f := set_fl_sdu_ready q' fl]> (k_flow k)) (set_lock true k)))
    as (r & q' & Hpush & Hk2).
  { unfold rfifo_push_ni, on_fifo, rqueue_tail_push. destruct (fl_sdu_ready fl) as [q|] eqn:Eq.
    - destruct (mem SFifoEntry); cbn [negb].
      + eexists _, _. split; [reflexivity|]. by apply (push_inv ts (set_lock true k) f fl q a b), (Hroom f fl q).
      + eexists _, _. split; [reflexivity|]. rewrite <- Eq.
        eapply (kinv_set _ _ _ (set_lock true k)); [done|done| |done]. by destruct fl.
    - eexists _, _. split; [reflexivity|]. rewrite <- Eq.
      eapply (kinv_set _ _ _ (set_lock true k)); [done|done| |done]. by destruct fl. }
  kstep (on_sdu_ready_run (set_lock true k) f fl _ _ _ Hf Hpush).
  unfold bind at 1. rewrite (upd_flow_again (set_lock true k)).
  unfold bind at 1. rewrite (upd_flow_again (set_lock true k)).
  unfold bind at 1. rewrite (get_flow_again (set_lock true k)). cbn [fl_state set_fl_posters set_fl_sdu_ready].
  rewrite Es, andb_false_r. cbn [when]. unfold bind at 1, ret at 1.
  set (fl2 := set_fl_posters _ _).
  assert (fl2 = set_fl_sdu_ready q' fl) as ->.
  { unfold fl2, set_fl_posters, set_fl_sdu_ready.
    cbn [fl_port_id fl_state fl_ipc_process fl_sdu_ready fl_wqs fl_readers fl_writers fl_posters
      fl_msg_boundaries]. f_equal. lia. }
  change (k_flow (set_lock true k)) with (k_flow k). k_leave Hk2.
Qed.

(** ** Writing *)

(** The writers' part of a function with the lock held and a thread inside the flow. *)
Lemma parked ts t t' k :
  kinv true None (t :: ts) k -> thr_id t' = thr_id t -> thr_flow t' = thr_flow t ->
  thr_reads t' = thr_reads t -> thr_du t' = thr_du t ->
  good ts ((do! unlock; ret (Park t')) k).
Proof.
  intros Hk H1 H2 H3 H4. unfold bind. rewrite (unlock_run _ (ki_lock _ _ _ _ Hk)). cbn.
  eapply kinv_lock. by eapply kinv_thread.
Qed.

Lemma du_write_ok ts k id a b :
  kinv false None ts k -> k_du k !! a = Some b -> a ∉ thread_dus ts ++ dus_of (k_flow k) ->
  good ts (kfa_flow_du_write max_sdu_size id (Some a) k).
Proof.
  intros Hk Ha Hni. unfold kfa_flow_du_write, du_len.
  unfold bind at 1. unfold bind at 1. rewrite (du_data_run _ _ _ Ha). unfold ret at 1.
  assert (forall rc, good ts ((do! unlock; do! du_destroy (Some a); ret (Done rc None)) (set_lock true k))) as Hout.
  { intros rc. unfold bind at 1. rewrite (unlock_run (set_lock true k) eq_refl).
    kstep (du_destroy_run (set_lock false (set_lock true k)) _ _ Ha).
    apply kinv_del_du; [|done]. by eapply kinv_lock, kinv_lock. }
  k_enter Hk. destruct (kfa_pmap_find (kfa_flows k) id) as [f|] eqn:Ef; [|apply Hout].
  destruct (kinv_find _ _ _ _ _ _ Hk Ef) as (Hin & fl & Hf & Hfi).
  kstep (get_flow_run (set_lock true k) _ _ Hf).
  destruct (fl_state fl =? PORT_STATE_DEALLOCATED) eqn:Es; [apply Hout|].
  destruct (fi_ipcp _ _ _ _ Hfi) as [ipcp Hi]. rewrite Hi. unfold bind at 1, deref_ptr, ret at 1.
  destruct (max_sdu_size ipcp <? zlen b); [apply Hout|].
  kstep (upd_flow_run (set_lock true k) _ _ (fun fl => set_fl_writers (fl_writers fl + 1) fl) Hf).
  unfold bind at 1. rewrite (get_flow_again (set_lock true k)). cbn [fl_state set_fl_writers].
  rewrite Es. set (k2 := set_k_flow _ _).
  assert (kinv true None (TDuWrite id f (zlen b) :: ts) k2) as Hk2
    by (apply (enter_flow ts (TDuWrite id f (zlen b)) (set_lock true k) fl Hk1 eq_refl Hin Hf); lia).
  assert (a ∉ thread_dus (TDuWrite id f (zlen b) :: ts) ++ dus_of (k_flow k2)) as Hni2.
  { cbn [thread_dus fmap list_fmap concat thr_du app]. unfold k2. cbn [k_flow set_k_flow].
    rewrite dus_of_insert. rewrite (dus_of_lookup f fl _ Hf) in Hni. exact Hni. }
  destruct ((fl_state fl =? PORT_STATE_PENDING) || (fl_state fl =? PORT_STATE_DISABLED)).
  - destruct (du_destroy_ok _ _ _ k2 a Hk2 ltac:(by exists b) Hni2) as (k3 & Hd & Hk3). kstep Hd.
    by apply (finish_write_ok ts (TDuWrite id f (zlen b))).
  - unfold bind at 1. rewrite (unlock_run _ (ki_lock _ _ _ _ Hk2)). cbv beta iota.
    destruct (give_du_ok false None _ (set_lock false k2) id a ltac:(by eapply kinv_lock)
      ltac:(by exists b) Hni2) as (k3 & Hd & Hk3). kstep Hd. exact Hk3.
Qed.

Lemma du_write_done_ok ts k id f len w :
  kinv false None (TDuWrite id f len :: ts) k -> good ts (du_write_done id f len w k).
Proof.
  intros Hk. unfold du_write_done. destruct (lock_ok _ _ Hk) as [Hl Hk1]. kstep Hl.
  by apply (finish_write_ok ts (TDuWrite id f len)).
Qed.

(** *** kfa_flow_ub_write *)

(** A thread takes hold of a data unit, or lets it go. *)
Lemma kinv_hold lk x ts t u a k :
  kinv lk x (t :: ts) k -> thr_id t = ub_id u -> thr_flow t = ub_flow u ->
  thr_reads t = false -> thr_du t = [] -> is_Some (k_du k !! a) ->
  a ∉ thread_dus ts ++ dus_of (k_flow k) -> kinv lk x (TUbWait u a :: ts) k.
Proof.
  intros [H1 H2 H3 H4 H5 H6 H7 H8 H9 Hnd Hdu Hheap] E1 E2 E3 E4 Ha Hni.
  unfold thread_dus in *. cbn in Hnd, Hdu. rewrite E4 in Hnd, Hdu. constructor; try done.
  - intros f fl Hf. destruct (H8 _ _ Hf). constructor; try done; cbn in *; by rewrite E2, E3 in *.
  - apply Forall_cons in H9 as [Ht Hts]. constructor; [cbn; by rewrite <- E1, <- E2|done].
  - cbn. by constructor.
  - cbn. by constructor.
Qed.

Lemma kinv_let_go lk x ts u a k :
  kinv lk x (TUbWait u a :: ts) k ->
  kinv lk x (TUbCopy u :: ts) k /\ is_Some (k_du k !! a) /\
  (a ∉ thread_dus (TUbCopy u :: ts) ++ dus_of (k_flow k)).
Proof.
  intros [H1 H2 H3 H4 H5 H6 H7 H8 H9 Hnd Hdu Hheap].
  unfold thread_dus in *. cbn in Hnd, Hdu. apply NoDup_cons in Hnd as [Hni Hnd].
  apply Forall_cons in Hdu as [Ha Hdu]. split_and!; try done. constructor; try done.
  - intros f fl Hf. destruct (H8 _ _ Hf). by constructor.
  - by inversion_clear H9; constructor.
Qed.

Lemma ub_finish_ok ts u k rc : kinv true None (TUbCopy u :: ts) k -> good ts (ub_finish u rc k).
Proof. intros Hk. by apply (finish_write_ok ts (TUbCopy u)). Qed.

(** ... after the data unit was thrown away. *)
Lemma ub_drop_ok ts u k a rc :
  kinv true None (TUbCopy u :: ts) k -> is_Some (k_du k !! a) ->
  a ∉ thread_dus (TUbCopy u :: ts) ++ dus_of (k_flow k) ->
  good ts ((do! du_destroy (Some a); ub_finish u rc) k).
Proof.
  intros Hk Ha Hni. destruct (du_destroy_ok _ _ _ _ _ Hk Ha Hni) as (k2 & Hd & Hk2). kstep Hd.
  by apply ub_finish_ok.
Qed.

Lemma ub_loop_ok ts u k rc : kinv true None (TUbCopy u :: ts) k -> good ts (ub_loop u rc k).
Proof.
  intros Hk. unfold ub_loop. destruct (truth (ub_left u)); cbn [negb]; [|by apply ub_finish_ok].
  by apply (parked ts (TUbCopy u)).
Qed.

Lemma ub_write_ok ts k id buffer blocking :
  kinv false None ts k -> good ts (kfa_flow_ub_write max_sdu_size id buffer blocking k).
Proof.
  intros Hk. unfold kfa_flow_ub_write. k_enter Hk.
  destruct (kfa_pmap_find (kfa_flows k) id) as [f|] eqn:Ef; [|k_leave Hk1].
  destruct (kinv_find _ _ _ _ _ _ Hk Ef) as (Hin & fl & Hf & Hfi).
  kstep (get_flow_run (set_lock true k) _ _ Hf).
  destruct (fl_state fl =? PORT_STATE_DEALLOCATED) eqn:Es; [k_leave Hk1|].
  destruct (fi_ipcp _ _ _ _ Hfi) as [ipcp Hi]. rewrite Hi. unfold bind at 1, deref_ptr, ret at 1. cbn zeta.
  destruct (fl_msg_boundaries fl && _); [k_leave Hk1|].
  kstep (upd_flow_run (set_lock true k) _ _ (fun fl => set_fl_writers (fl_writers fl + 1) fl) Hf).
  apply ub_loop_ok. set (u := mkUb _ _ _ _ _ _ _).
  apply (enter_flow ts (TUbCopy u) (set_lock true k) fl Hk1 eq_refl Hin Hf). lia.
Qed.

Lemma ub_send_ok ts u k a :
  kinv true None (TUbCopy u :: ts) k -> is_Some (k_du k !! a) ->
  a ∉ thread_dus (TUbCopy u :: ts) ++ dus_of (k_flow k) -> good ts (ub_send u a k).
Proof.
  intros Hk Ha Hni. unfold ub_send. pose proof (ki_thr _ _ _ _ Hk) as [Hin _]%Forall_cons.
  destruct (ki_live _ _ _ _ Hk _ _ Hin) as [fl Hf]. cbn [thr_flow] in Hf.
  kstep (get_flow_run _ _ _ Hf).
  destruct (fl_ipc_process fl); [|by apply ub_drop_ok].
  unfold bind at 1. rewrite (unlock_run _ (ki_lock _ _ _ _ Hk)). cbv beta iota.
  destruct (give_du_ok false None _ (set_lock false k) (ub_id u) a ltac:(by eapply kinv_lock) Ha Hni)
    as (k3 & Hd & Hk3). kstep Hd. cbn. by eapply kinv_thread.
Qed.

Lemma ub_wait_ok ts u k a :
  kinv true None (TUbCopy u :: ts) k -> is_Some (k_du k !! a) ->
  a ∉ thread_dus (TUbCopy u :: ts) ++ dus_of (k_flow k) -> good ts (ub_wait u a k).
Proof.
  intros Hk Ha Hni. unfold ub_wait. pose proof (ki_thr _ _ _ _ Hk) as [Hin _]%Forall_cons.
  destruct (ki_live _ _ _ _ Hk _ _ Hin) as [fl Hf]. cbn [thr_flow] in Hf.
  kstep (get_flow_run _ _ _ Hf). destruct (ok_write fl); cbn [negb]; [by apply ub_send_ok|].
  apply (parked ts (TUbWait u a)); try done. by eapply kinv_hold.
Qed.

(** The copy works: memory is there, and the buffer of the user can be read. *)
Lemma ub_copy_ok ts u k :
  kinv false None (TUbCopy u :: ts) k -> mem SDu = true -> mem SCopyFromUser = true ->
  good ts (ub_copy mem u k).
Proof.
  intros Hk Hm1 Hm2. unfold ub_copy. rewrite Hm1, Hm2. cbn zeta.
  destruct (kinv_new_du _ _ _ k (take (Z.to_nat (ub_copylen u)) (drop (Z.to_nat (ub_written u)) (ub_buffer u))) Hk)
    as (k1 & Hn & Hk1 & Hdu & Hni & _). kstep Hn. cbn [negb].
  set (a := k_next k) in *. destruct (lock_ok _ _ Hk1) as [Hl Hk2]. kstep Hl.
  pose proof (ki_thr _ _ _ _ Hk2) as [Hin _]%Forall_cons.
  destruct (ki_live _ _ _ _ Hk2 _ _ Hin) as [fl Hf]. cbn [thr_flow] in Hf.
  kstep (get_flow_run _ _ _ Hf).
  assert (is_Some (k_du (set_lock true k1) !! a)) as Ha by (by eexists).
  destruct (ub_blocking u).
  - destruct (fl_wqs fl); cbn [negb]; [by apply ub_wait_ok | by apply ub_drop_ok].
  - destruct (_ || _); [by apply ub_finish_ok|].
    destruct (_ =? _); [by apply ub_finish_ok | by apply ub_send_ok].
Qed.

Lemma ub_woken_ok ts u a sig k :
  kinv false None (TUbWait u a :: ts) k -> good ts (ub_woken u a sig k).
Proof.
  intros Hk. unfold ub_woken. pose proof (ki_thr _ _ _ _ Hk) as [Hin _]%Forall_cons. cbn in Hin.
  destruct (ki_live _ _ _ _ Hk _ _ Hin) as [fl Hf].
  kstep (get_flow_run _ _ _ Hf). destruct (negb sig && negb (ok_write fl)); [exact Hk|]. cbn zeta.
  k_enter Hk. rewrite (pmap_in_find _ _ _ (ki_keys _ _ _ _ Hk) Hin).
  replace (mkUb _ _ _ _ _ _ _) with u by (by destruct u).
  kstep (get_flow_run (set_lock true k) _ _ Hf).
  destruct (kinv_let_go _ _ _ _ _ _ Hk1) as (Hk2 & Ha & Hni).
  destruct (fl_wqs fl); cbn [negb]; [|by apply ub_drop_ok].
  destruct (_ <? 0); [by apply ub_drop_ok|]. destruct (_ =? _); [by apply ub_drop_ok | by apply ub_wait_ok].
Qed.

Lemma ub_write_done_ok ts u w k :
  kinv false None (TUbWrite u :: ts) k -> good ts (ub_write_done u w k).
Proof.
  intros Hk. unfold ub_write_done. destruct (lock_ok _ _ Hk) as [Hl Hk1]. kstep Hl.
  destruct (truth w).
  - by apply (finish_write_ok ts (TUbWrite u)).
  - apply ub_loop_ok. by eapply kinv_thread.
Qed.

(** ** Reading *)

Lemma pop_inv lk ts k f fl q a l :
  kinv lk None ts k -> k_flow k !! f = Some fl -> fl_sdu_ready fl = Some q -> q_head q = a :: l ->
  kinv lk None ts (set_k_flow (<[f := set_fl_sdu_ready
    (Some (mkRqueue l (u64 (q_length q - 1)))) fl]> (k_flow k)) k).
Proof.
  intros Hk Hf Hq Hl. destruct (ki_flow _ _ _ _ Hk _ _ Hf) as [H1 H2 H3 Hfi H5 H6].
  unfold fifo_ok in Hfi. rewrite Hq, Hl, zlen_cons in Hfi. destruct Hfi as [Hlen Hb].
  pose proof (zlen_ge0 l). set (fl' := set_fl_sdu_ready _ fl).
  assert (thread_dus ts ++ dus_of (k_flow k)
    ≡ₚ a :: (thread_dus ts ++ fifo_dus fl' ++ dus_of (delete f (k_flow k)))) as Hperm.
  { rewrite (dus_of_lookup f fl _ Hf). unfold fifo_dus, fl'. cbn. rewrite Hq, Hl. cbn.
    symmetry. apply Permutation_middle. }
  pose proof (ki_dus _ _ _ _ Hk) as Hnd. pose proof (ki_du _ _ _ _ Hk) as Hdu.
  rewrite Hperm in Hnd, Hdu. apply NoDup_cons in Hnd as [_ Hnd]. apply Forall_cons in Hdu as [_ Hdu].
  eapply (kinv_flow _ None None ts ts k f fl fl'); try done; [|apply Hk].
  constructor; try done. unfold fifo_ok, fl'. cbn. rewrite Hlen, u64_small by lia. lia.
Qed.

Lemma read_du_ok ts t k fl q a l size :
  kinv true None (t :: ts) k -> thr_reads t = true -> k_flow k !! thr_flow t = Some fl ->
  fl_sdu_ready fl = Some q -> q_head q = a :: l ->
  good ts (read_du (thr_flow t) (thr_id t) size k).
Proof.
  intros Hk Ht Hf Hq Hl.
  destruct (ki_flow _ _ _ _ Hk _ _ Hf) as [H1 H2 H3 Hfi H5 H6].
  unfold fifo_ok in Hfi. rewrite Hq, Hl, zlen_cons in Hfi. destruct Hfi as [Hlen Hb]. pose proof (zlen_ge0 l).
  assert (is_Some (k_du k !! a)) as [b Ha].
  { pose proof (ki_du _ _ _ _ Hk) as Hdu. rewrite Forall_forall in Hdu. apply Hdu.
    rewrite (dus_of_lookup _ _ _ Hf). unfold fifo_dus. rewrite Hq, Hl.
    apply elem_of_app. right. apply elem_of_app. left. constructor. }
  assert (rfifo_peek (fl_sdu_ready fl) = Ret (Some a) (fl_sdu_ready fl)) as Hpeek.
  { rewrite Hq. cbn. rewrite Hl. cbn. by destruct (0 <? q_length q) eqn:E; [|lia]. }
  assert (rfifo_pop (fl_sdu_ready fl) = Ret (Some a) (Some (mkRqueue l (u64 (q_length q - 1))))) as Hpop.
  { rewrite Hq. cbn. rewrite Hl. cbn. by destruct (0 <? q_length q) eqn:E; [|lia]. }
  unfold read_du, get_du_to_read. rewrite !bind_assoc.
  kstep (on_sdu_ready_run _ _ _ _ _ _ Hf Hpeek).
  replace (set_fl_sdu_ready (fl_sdu_ready fl) fl) with fl by (by destruct fl).
  rewrite (insert_id _ _ _ Hf). replace (set_k_flow (k_flow k) k) with k by (by destruct k).
  unfold du_len. rewrite !bind_assoc. kstep (du_data_run _ _ _ Ha). unfold bind at 1, ret at 1.
  destruct (zlen b <=? size).
  - kstep (on_sdu_ready_run _ _ _ _ _ _ Hf Hpop). unfold bind at 1. unfold bind at 1.
    rewrite (du_data_run _ a b) by done. unfold ret at 1. apply finish_read_ok; [|done].
    by eapply pop_inv.
  - unfold bind at 1, ret at 1. unfold bind at 1. unfold bind at 1. rewrite (du_data_run _ a b) by done.
    unfold ret at 1. by apply finish_read_ok.
Qed.

(** Data can be read from a flow that is not empty: with a reader inside, a flow that is
    no longer pending has its FIFO. *)
Lemma fifo_has_du lk x ts t k fl :
  kinv lk x (t :: ts) k -> thr_reads t = true -> k_flow k !! thr_flow t = Some fl ->
  fl_state fl <> PORT_STATE_PENDING -> fifo_is_empty (fl_sdu_ready fl) = false ->
  exists q a l, fl_sdu_ready fl = Some q /\ q_head q = a :: l.
Proof.
  intros Hk Ht Hf Hs He. destruct (ki_flow _ _ _ _ Hk _ _ Hf) as [Hr _ _ Hfi _ _].
  cbn in Hr. rewrite Ht, Pos.eqb_refl in Hr. cbn in Hr. pose proof (cnt_ge0 true (thr_flow t) ts).
  unfold fifo_ok in Hfi. destruct (fl_sdu_ready fl) as [q|].
  - unfold fifo_is_empty, rqueue_is_empty in He. destruct (q_head q) as [|a l] eqn:E; [done|]. by exists q, a, l.
  - destruct Hfi as [|[_ ?]]; [done | lia].
Qed.

Lemma read_wait_ok ts id f size woken k :
  kinv true None (TDuRead id f size :: ts) k -> good ts (read_wait f id size woken k).
Proof.
  intros Hk. pose proof (ki_thr _ _ _ _ Hk) as [Hin _]%Forall_cons.
  destruct (ki_live _ _ _ _ Hk _ _ Hin) as [fl Hf]. cbn [thr_flow] in Hf.
  unfold read_wait. kstep (get_flow_run _ _ _ Hf). cbn zeta.
  pose proof (fifo_has_du _ _ _ _ _ _ Hk eq_refl Hf) as Hdu.
  assert (fl_state fl <> PORT_STATE_PENDING -> fifo_is_empty (fl_sdu_ready fl) = false ->
    good ts (read_du f id size k)) as Hread.
  { intros Hs He. destruct (Hdu Hs He) as (q & a & l & Hq & Hl).
    by apply (read_du_ok ts (TDuRead id f size) k fl q a l). }
  destruct (woken && _) eqn:Ew.
  - apply andb_true_iff in Ew as [_ Es]. apply Z.eqb_eq in Es.
    destruct (fifo_is_empty _); [by apply (finish_read_ok ts (TDuRead id f size))|].
    apply Hread; [by rewrite Es | done].
  - destruct (_ || _) eqn:Ep; [by apply (parked ts (TDuRead id f size))|].
    apply orb_false_iff in Ep as [Ep Ee]. apply Hread; [by apply Z.eqb_neq | done].
Qed.

Lemma du_read_ok ts k id size blocking :
  kinv false None ts k -> good ts (kfa_flow_du_read id size blocking k).
Proof.
  intros Hk. unfold kfa_flow_du_read. destruct (is_port_id_ok id); cbn [negb]; [|done].
  k_enter Hk. destruct (kfa_pmap_find (kfa_flows k) id) as [f|] eqn:Ef; [|k_leave Hk1].
  destruct (kinv_find _ _ _ _ _ _ Hk Ef) as (Hin & fl & Hf & Hfi).
  kstep (get_flow_run (set_lock true k) _ _ Hf).
  destruct (fl_state fl =? PORT_STATE_DEALLOCATED) eqn:Es; [k_leave Hk1|].
  kstep (upd_flow_run (set_lock true k) _ _ (fun fl => set_fl_readers (fl_readers fl + 1) fl) Hf).
  set (k2 := set_k_flow _ _).
  assert (kinv true None (TDuRead id f size :: ts) k2) as Hk2
    by (apply (enter_flow ts (TDuRead id f size) (set_lock true k) fl Hk1 eq_refl Hin Hf); lia).
  assert (forall rc, good ts (finish_read f id rc None k2)) as Hout
    by (intros; by apply (finish_read_ok ts (TDuRead id f size))).
  destruct blocking.
  - destruct (fl_wqs fl); cbn [negb]; [by apply read_wait_ok | apply Hout].
  - destruct (fl_state fl =? PORT_STATE_PENDING) eqn:Ep; [apply Hout|].
    destruct (fifo_is_empty (fl_sdu_ready fl)) eqn:Ee; [apply Hout|].
    set (fl' := set_fl_readers (fl_readers fl + 1) fl).
    assert (k_flow k2 !! f = Some fl') as Hf2 by apply lookup_insert_eq.
    destruct (fifo_has_du _ _ _ _ _ _ Hk2 eq_refl Hf2) as (q & a & l & Hq & Ha).
    + cbn. by apply Z.eqb_neq.
    + done.
    + by apply (read_du_ok ts (TDuRead id f size) k2 fl' q a l).
Qed.

Lemma read_woken_ok ts id f size sig k :
  kinv false None (TDuRead id f size :: ts) k -> good ts (read_woken id f size sig k).
Proof.
  intros Hk. unfold read_woken. pose proof (ki_thr _ _ _ _ Hk) as [Hin _]%Forall_cons. cbn in Hin.
  destruct (ki_live _ _ _ _ Hk _ _ Hin) as [fl Hf].
  kstep (get_flow_run _ _ _ Hf). destruct (negb sig && negb (queue_ready fl)); [exact Hk|].
  k_enter Hk. rewrite (pmap_in_find _ _ _ (ki_keys _ _ _ _ Hk) Hin).
  kstep (get_flow_run (set_lock true k) _ _ Hf).
  destruct (fl_wqs fl); cbn [negb]; [|by apply (finish_read_ok ts (TDuRead id f size))].
  destruct sig; [by apply (finish_read_ok ts (TDuRead id f size)) | by apply read_wait_ok].
Qed.

End Io.
