(* ===== verification/KfaSys.v ===== *)
(** The flow allocator with the threads inside it as a transition system: the calls of
    its users and IPC processes, and the continuations of threads that sleep, in any
    order.  Users keep a contract, which is a boolean; every call the contract allows
    runs without a fault and keeps_kinv the invariant. *)

From Stdlib Require Import ZArith Lia.
From stdpp Require Import base list gmap.
From S2P Require Import Prelude Ints Types ByteMem Rds Kfa KfaInv KfaPidm KfaOps KfaIo.
Open Scope Z_scope.

(** ** Calls *)

Inductive kfa_call : Type :=
| CReserve | CRelease (id : Z)
| CCreate (id : Z) (ipcp : option Z) (mb : bool)
| CBind (id : Z) (ipcp : option Z)
| CDeallocate (id : Z) | CWorker (id : Z)
| CDisable (id : Z) | CEnable (id : Z)
| CSetWqs (id : Z) (b : bool) | CCancelWqs (id : Z)
| CReadable (id mask : Z)
| CPost (id : Z) (b : list Z)
| CDuWrite (id : Z) (b : list Z)
| CUbWrite (id : Z) (b : list Z) (blocking : bool)
| CDuRead (id size : Z) (blocking : bool)
| CDestroy (a : positive)          (* du_destroy by the user who owns the unit *)
| CResume (n : nat) (w : Z)        (* thread [n] goes on *)
| CWake (n : nat).                 (* wake-up [n] takes place *)

(** Who is inside: the threads that use a flow, and the flows that functions are about
    to wake up after they have released the lock. *)
Definition inside : Type := list thread * list positive.

(** ... after a function has answered. *)
Definition after (i : inside) (r : opres) : inside :=
  match r with Done _ _ => i | Park t => (t :: i.1, i.2) end.
Definition to_wake (i : inside) (r : Z * option positive) : inside :=
  match r.2 with None => i | Some f => (i.1, f :: i.2) end.

Section Run.
Context (max_sdu_size : Z -> Z) (mem : ksite -> bool).

Definition kcall_run (c : kfa_call) (i : inside) : KF inside :=
  let op {A} (m : KF A) : KF inside := do _r <- m; ret i in
  match c with
  | CReserve => op (kfa_port_id_reserve mem)
  | CRelease id => op (kfa_port_id_release id)
  | CCreate id ipcp mb => op (kfa_flow_create mem id ipcp mb)
  | CBind id ipcp => op (kfa_flow_ipcp_bind mem id ipcp)
  | CDeallocate id => op (kfa_flow_deallocate mem id)
  | CWorker id => do r <- kfa_flow_deallocate_worker id; ret (to_wake i r)
  | CDisable id => op (disable_write id)
  | CEnable id => op (enable_write id)
  | CSetWqs id b => op (kfa_flow_set_iowqs b id)
  | CCancelWqs id => op (kfa_flow_cancel_iowqs id)
  | CReadable id mask => op (kfa_flow_readable id mask)
  | CPost id b =>
      do du <- du_create true b;
      do r <- kfa_du_post mem id du;
      ret (to_wake i r)
  | CDuWrite id b =>
      do du <- du_create true b;
      do r <- kfa_flow_du_write max_sdu_size id du;
      ret (after i r)
  | CUbWrite id b blocking =>
      do r <- kfa_flow_ub_write max_sdu_size id b blocking; ret (after i r)
  | CDuRead id size blocking => do r <- kfa_flow_du_read id size blocking; ret (after i r)
  | CDestroy a => op (du_destroy (Some a))
  | CResume n w =>
      match i.1 !! n with
      | None => ret i
      | Some t => do r <- resume mem t w; ret (after (delete n i.1, i.2) r)
      end
  | CWake n =>
      match i.2 !! n with
      | None => ret i
      | Some f => do! wake_up f; ret (i.1, delete n i.2)
      end
  end.

(** ** The contract *)

(** The flow of the port [id], if any, satisfies [p]. *)
Definition of_flow (id : Z) (k : kfa) (p : ipcp_flow -> bool) : bool :=
  match kfa_pmap_find (kfa_flows k) id with
  | None => true
  | Some f => match k_flow k !! f with None => true | Some fl => p fl end
  end.

Definition is_ptr {A} (o : option A) : bool := match o with Some _ => true | None => false end.

Definition has_room (fl : ipcp_flow) : bool :=
  match fl_sdu_ready fl with Some q => zlen (q_head q) <? 2 ^ 64 - 1 | None => true end.

(** What the callers of each function see to. *)
Definition allowed (c : kfa_call) (i : inside) (k : kfa) : bool :=
  match c with
  | CReserve => zlen (allocated_ports (kfa_pidm k)) <? MAX_PORT_ID
  | CCreate id ipcp _ =>
      existsb (Z.eqb id) (allocated_ports (kfa_pidm k)) &&
      negb (is_ptr (kfa_pmap_find (kfa_flows k) id)) && is_ptr ipcp
  | CBind id _ =>
      mem SFifo &&
      of_flow id k (fun fl => (fl_state fl =? PORT_STATE_PENDING) && negb (is_ptr (fl_sdu_ready fl)))
  | CDeallocate id =>
      mem SWqdata && mem SItem &&
      of_flow id k (fun fl => is_ptr (fl_sdu_ready fl) || (fl_readers fl =? 0))
  | CDisable id | CEnable id => of_flow id k (fun fl => negb (fl_state fl =? PORT_STATE_PENDING))
  | CReadable id _ => of_flow id k fl_wqs
  | CPost id _ => of_flow id k has_room
  | CDestroy a =>
      is_ptr (k_du k !! a) && negb (bool_decide (a ∈ thread_dus i.1 ++ dus_of (k_flow k)))
  | CResume n _ =>
      match i.1 !! n with Some (TUbCopy _) => mem SDu && mem SCopyFromUser | _ => true end
  | CWake n => match i.2 !! n with Some f => is_ptr (k_flow k !! f) | None => true end
  | _ => true
  end.

End Run.

Definition kstate : Type := kfa * inside.

(** One call, with some allocations that succeed. *)
Inductive kfa_step (max_sdu_size : Z -> Z) : kstate -> kstate -> Prop :=
| KStep mem c k i k' i' :
    allowed mem c i k = true -> kcall_run max_sdu_size mem c i k = Ret i' k' ->
    kfa_step max_sdu_size (k, i) (k', i').

(** From kfa_create. *)
Inductive kfa_reach (max_sdu_size : Z -> Z) : kstate -> Prop :=
| KInit mem k : kfa_create mem = Some k -> kfa_reach max_sdu_size (k, ([], []))
| KNext s s' : kfa_reach max_sdu_size s -> kfa_step max_sdu_size s s' -> kfa_reach max_sdu_size s'.

(** ** The order of the threads does not matter *)

Lemma cnt_perm r f ts us : ts ≡ₚ us -> cnt r f ts = cnt r f us.
Proof. induction 1; cbn; lia. Qed.

Lemma thread_dus_perm ts us : ts ≡ₚ us -> thread_dus ts ≡ₚ thread_dus us.
Proof.
  unfold thread_dus. induction 1 as [|t ts us _ IH|t u ts|ts us vs _ IH1 _ IH2]; cbn; [done| | |].
  - by rewrite IH.
  - rewrite !app_assoc. by rewrite (Permutation_app_comm (thr_du u)).
  - by rewrite IH1.
Qed.

Lemma kinv_perm lk x ts us k : ts ≡ₚ us -> kinv lk x ts k -> kinv lk x us k.
Proof.
  intros Hp [H1 H2 H3 H4 H5 H6 H7 H8 H9 Hnd Hdu Hheap]. constructor; try done.
  - intros f fl Hf. destruct (H8 _ _ Hf). constructor; try done; by rewrite <- (cnt_perm _ _ _ _ Hp).
  - by rewrite <- Hp.
  - by rewrite <- (thread_dus_perm _ _ Hp).
  - by rewrite <- (thread_dus_perm _ _ Hp).
Qed.

(** ** Every call keeps_kinv the invariant *)

(** A call that ends well, and where the invariant holds then. *)
Definition keeps_kinv (o : outcome kfa inside) : Prop :=
  match o with Ret i k => kinv false None i.1 k | _ => False end.

Lemma keeps_rc {A} i (m : KF A) k : good_rc i.1 (m k) -> keeps_kinv ((do _r <- m; ret i) k).
Proof. unfold bind. by destruct (m k). Qed.

Lemma keeps_wake i (m : KF (Z * option positive)) k :
  good_rc i.1 (m k) -> keeps_kinv ((do r <- m; ret (to_wake i r)) k).
Proof. unfold bind. destruct (m k) as [[? []]| |]; done. Qed.

Lemma keeps_op i (m : KF opres) k : good i.1 (m k) -> keeps_kinv ((do r <- m; ret (after i r)) k).
Proof. unfold bind. destruct (m k) as [[]| |]; done. Qed.

Lemma of_flow_spec id k p f fl :
  of_flow id k p = true -> kfa_pmap_find (kfa_flows k) id = Some f -> k_flow k !! f = Some fl ->
  p fl = true.
Proof. unfold of_flow. intros H Hp Hf. by rewrite Hp, Hf in H. Qed.

Lemma is_ptr_Some {A} (o : option A) : is_ptr o = true <-> is_Some o.
Proof. destruct o; cbn; split; [by eexists|done|done|by intros [? ?]]. Qed.

Lemma init_kinv mem k : kfa_create mem = Some k -> kinv false None [] k.
Proof.
  unfold kfa_create, pidm_create. repeat (case_match; try done). simplify_eq. intros [= <-]. constructor; cbn; try done.
  - split; [constructor|]. by split; [constructor|].
  - constructor.
  - constructor.
  - intros id f Hin. by inversion Hin.
  - intros id f Hin. by inversion Hin.
  - constructor.
Qed.

Section Safe.
Context (max_sdu_size : Z -> Z) (mem : ksite -> bool).

Lemma readable_ok ts k id mask :
  kinv false None ts k -> of_flow id k fl_wqs = true -> good_rc ts (kfa_flow_readable id mask k).
Proof.
  intros Hk Hw. unfold kfa_flow_readable. destruct (is_port_id_ok id); cbn [negb]; [|done].
  k_enter Hk. destruct (kfa_pmap_find (kfa_flows k) id) as [f|] eqn:Ef; [|k_leave Hk1].
  destruct (kinv_find _ _ _ _ _ _ Hk Ef) as (_ & fl & Hf & _).
  kstep (get_flow_run (set_lock true k) _ _ Hf). rewrite (of_flow_spec _ _ _ _ _ Hw Ef Hf).
  cbn [negb]. k_leave Hk1.
Qed.

(** A new data unit and what is done with it. *)
Lemma with_new_du {A} ts k b (m : option positive -> KF A) (P : outcome kfa A -> Prop) :
  kinv false None ts k ->
  (forall a k1, kinv false None ts k1 -> k_du k1 !! a = Some b ->
     a ∉ thread_dus ts ++ dus_of (k_flow k1) -> k_flow k1 = k_flow k -> kfa_flows k1 = kfa_flows k ->
     P (m (Some a) k1)) ->
  P ((do du <- du_create true b; m du) k).
Proof.
  intros Hk H. destruct (kinv_new_du _ _ _ k b Hk) as (k1 & Hn & Hk1 & Hdu & Hni & Hfs & Hfl & _).
  kstep Hn. by apply H.
Qed.

(** Every call that the contract allows runs without a fault and keeps_kinv the invariant. *)
Lemma kcall_keeps c i k :
  kinv false None i.1 k -> allowed mem c i k = true -> keeps_kinv (kcall_run max_sdu_size mem c i k).
Proof.
  intros Hk Ha.
  destruct c; cbn [kcall_run allowed] in *; try apply keeps_rc.
  - apply reserve_ok; [done | lia].
  - by apply release_ok.
  - apply andb_true_iff in Ha as [[Hi Hn]%andb_true_iff Hp]. apply create_ok; [done| | |].
    + by apply pidm_allocated_in.
    + by destruct (kfa_pmap_find _ _).
    + by apply is_ptr_Some.
  - apply andb_true_iff in Ha as [Hm Ho]. apply bind_ok; [done|done|]. intros f fl Hf Hl.
    pose proof (of_flow_spec _ _ _ _ _ Ho Hf Hl) as [Hs Hq]%andb_true_iff.
    split; [by apply Z.eqb_eq | by destruct (fl_sdu_ready fl)].
  - apply andb_true_iff in Ha as [[Hm1 Hm2]%andb_true_iff Ho]. apply deallocate_ok; [done..|].
    intros f fl Hf Hl Hq. pose proof (of_flow_spec _ _ _ _ _ Ho Hf Hl) as H. cbn in H.
    rewrite Hq in H. by apply Z.eqb_eq.
  - by apply keeps_wake, worker_ok.
  - apply disable_ok; [done|]. intros f fl Hf Hl.
    pose proof (of_flow_spec _ _ _ _ _ Ha Hf Hl) as H. by apply Z.eqb_neq, negb_true_iff.
  - apply enable_ok; [done|]. intros f fl Hf Hl.
    pose proof (of_flow_spec _ _ _ _ _ Ha Hf Hl) as H. by apply Z.eqb_neq, negb_true_iff.
  - by apply set_wqs_ok.
  - by apply cancel_wqs_ok.
  - by apply readable_ok.
  - apply (with_new_du i.1 k b (fun du => do r <- kfa_du_post mem id du; ret (to_wake i r)) keeps_kinv Hk).
    intros a k1 Hk1 Hdu Hni Hfl Hfs. eapply keeps_wake, post_ok; [done..|]. intros f fl q Hf Hl Hq.
    rewrite Hfs in Hf. rewrite Hfl in Hl. pose proof (of_flow_spec _ _ _ _ _ Ha Hf Hl) as H.
    unfold has_room in H. rewrite Hq in H. lia.
  - apply (with_new_du i.1 k b (fun du => do r <- kfa_flow_du_write max_sdu_size id du; ret (after i r))
      keeps_kinv Hk).
    intros a k1 Hk1 Hdu Hni _ _. by eapply keeps_op, du_write_ok.
  - by apply keeps_op, ub_write_ok.
  - by apply keeps_op, du_read_ok.
  - apply andb_true_iff in Ha as [[b Hb]%is_ptr_Some Hn].
    rewrite negb_true_iff, bool_decide_eq_false in Hn.
    destruct (du_destroy_ok _ _ _ _ _ Hk ltac:(by exists b) Hn) as (k2 & Hd & Hk2). by rewrite Hd.
  - destruct (i.1 !! n) as [t|] eqn:Et; [|exact Hk]. apply keeps_op. cbn [fst].
    pose proof (delete_Permutation _ _ _ Et) as Hp. apply (kinv_perm _ _ _ _ _ Hp) in Hk.
    destruct t; cbn [resume].
    + by apply du_write_done_ok.
    + apply andb_true_iff in Ha as [? ?]. by apply ub_copy_ok.
    + by apply ub_woken_ok.
    + by apply ub_write_done_ok.
    + by apply read_woken_ok.
  - destruct (i.2 !! n) as [f|]; [|exact Hk]. apply is_ptr_Some in Ha as [fl Hf].
    unfold wake_up. rewrite bind_assoc. kstep (get_flow_run _ _ _ Hf). exact Hk.
Qed.

End Safe.

Lemma reach_kinv max_sdu_size s : kfa_reach max_sdu_size s -> kinv false None s.2.1 s.1.
Proof.
  induction 1 as [mem k Hc|s s' _ IH Hs]; [by eapply init_kinv|].
  inversion Hs as [mem c k i k' i' Ha Hr]; subst. cbn in *.
  pose proof (kcall_keeps max_sdu_size mem c i k IH Ha) as H. by rewrite Hr in H.
Qed.
