(* ===== verification/KfaFifo.v ===== *)
(** Each open port of the flow allocator is a queue of data units: what is posted to it
    is read from it, in order, and the other ports do not see it. *)

From Stdlib Require Import ZArith Lia.
From stdpp Require Import base list gmap.
From S2P Require Import Prelude Ints Types ByteMem Rds Kfa KfaInv KfaPidm KfaOps KfaIo KfaSys.
Open Scope Z_scope.

(** ** The abstraction *)

(** The flow is bound and not deallocated. *)
Definition is_open (fl : ipcp_flow) : bool :=
  negb (fl_state fl =? PORT_STATE_PENDING) && negb (fl_state fl =? PORT_STATE_DEALLOCATED).

Definition units (k : kfa) (l : list positive) : option (list (list Z)) :=
  mapM (fun a => k_du k !! a) l.

(** The data units that wait at a port; [None] for a port that is not open. *)
Definition port_queue (k : kfa) (id : Z) : option (list (list Z)) :=
  match kfa_pmap_find (kfa_flows k) id with
  | None => None
  | Some f =>
      match k_flow k !! f with
      | None => None
      | Some fl =>
          if is_open fl then
            match fl_sdu_ready fl with None => None | Some q => units k (q_head q) end
          else None
      end
  end.

Lemma port_queue_Some k id l :
  port_queue k id = Some l <->
  exists f fl q, kfa_pmap_find (kfa_flows k) id = Some f /\ k_flow k !! f = Some fl /\
    is_open fl = true /\ fl_sdu_ready fl = Some q /\ units k (q_head q) = Some l.
Proof.
  unfold port_queue. split.
  - repeat (case_match; try done). intros H'. by eexists _, _, _.
  - intros (f & fl & q & -> & -> & -> & -> & ->). done.
Qed.

Lemma units_ext k k' l :
  (forall a, a ∈ l -> k_du k' !! a = k_du k !! a) -> units k' l = units k l.
Proof. intros H. apply Forall_mapM_ext, Forall_forall. exact H. Qed.

Lemma units_app k l b a :
  units k l = Some b -> forall c, k_du k !! a = Some c -> units k (l ++ [a]) = Some (b ++ [c]).
Proof.
  unfold units. intros H%mapM_Some c Hc. apply mapM_Some, Forall2_app; [done|]. by constructor.
Qed.

(** The queue of a port is determined by its entry, its flow and its data units. *)
Lemma port_queue_frame k k' j :
  kfa_flows k' = kfa_flows k ->
  (forall g, kfa_pmap_find (kfa_flows k) j = Some g -> k_flow k' !! g = k_flow k !! g) ->
  (forall a, a ∈ dus_of (k_flow k) -> k_du k' !! a = k_du k !! a) ->
  port_queue k' j = port_queue k j.
Proof.
  intros Hfs Hfl Hdu. unfold port_queue. rewrite Hfs.
  destruct (kfa_pmap_find (kfa_flows k) j) as [g|]; [|done]. rewrite (Hfl g eq_refl).
  destruct (k_flow k !! g) as [fl|] eqn:Hg; [|done]. destruct (is_open fl); [|done].
  destruct (fl_sdu_ready fl) as [q|] eqn:Hq; [|done]. apply units_ext. intros a Ha. apply Hdu.
  rewrite (dus_of_lookup _ _ _ Hg). apply elem_of_app. left. unfold fifo_dus. by rewrite Hq.
Qed.

(** Two ports have two flows. *)
Lemma find_other lk x ts k id j f g :
  kinv lk x ts k -> kfa_pmap_find (kfa_flows k) id = Some f -> kfa_pmap_find (kfa_flows k) j = Some g ->
  j <> id -> g <> f.
Proof.
  intros Hk Hf Hg Hne ->. apply pmap_find_in in Hf, Hg.
  by pose proof (NoDup_fmap_eq snd _ _ _ (ki_addrs _ _ _ _ Hk) Hf Hg eq_refl) as [= ->].
Qed.

(** The state with another FIFO in the flow [f]. *)
Definition with_fifo (f : positive) (fl : ipcp_flow) (q : rqueue) (k : kfa) : kfa :=
  set_k_flow (<[f := set_fl_sdu_ready (Some q) fl]> (k_flow k)) k.

Lemma with_fifo_queue k id f fl q :
  kfa_pmap_find (kfa_flows k) id = Some f -> is_open fl = true ->
  port_queue (with_fifo f fl q k) id = units k (q_head q).
Proof.
  intros Hf Ho. unfold port_queue, with_fifo. cbn [kfa_flows set_k_flow k_flow]. rewrite Hf, lookup_insert_eq.
  by replace (is_open (set_fl_sdu_ready (Some q) fl)) with (is_open fl) by done; rewrite Ho.
Qed.

Lemma with_fifo_other lk x ts k id j f fl q :
  kinv lk x ts k -> kfa_pmap_find (kfa_flows k) id = Some f -> j <> id ->
  port_queue (with_fifo f fl q k) j = port_queue k j.
Proof.
  intros Hk Hf Hne. apply port_queue_frame; try done. intros g Hg. cbn.
  rewrite lookup_insert_ne; [done|]. intros <-. by destruct (find_other _ _ _ _ _ _ _ _ Hk Hf Hg Hne).
Qed.

(** ** Posting and reading an open port *)

Lemma relock k : kfa_lock k = false -> set_lock false (set_lock true k) = k.
Proof. destruct k. cbn. by intros ->. Qed.

Lemma is_open_states fl :
  is_open fl = true ->
  (fl_state fl =? PORT_STATE_PENDING) = false /\ (fl_state fl =? PORT_STATE_DEALLOCATED) = false.
Proof. unfold is_open. rewrite andb_true_iff, !negb_true_iff. done. Qed.

Section Fifo.
Context (mem : ksite -> bool) (max_sdu_size : Z -> Z).

Lemma post_run k id f fl q a :
  kfa_lock k = false -> is_port_id_ok id = true ->
  kfa_pmap_find (kfa_flows k) id = Some f -> k_flow k !! f = Some fl -> is_open fl = true ->
  fl_sdu_ready fl = Some q -> mem SFifoEntry = true ->
  kfa_du_post mem id (Some a) k
  = Ret (0, Some f) (with_fifo f fl (mkRqueue (q_head q ++ [a]) (u64 (q_length q + 1))) k).
Proof.
  intros Hl Hid Hf Hfl Ho Hq Hm. destruct (is_open_states _ Ho) as [_ Hd].
  unfold kfa_du_post. rewrite Hid. cbn [is_du_ok negb orb]. kstep (lock_run _ Hl).
  unfold gets. unfold bind at 1. cbn [kfa_flows set_lock]. rewrite Hf.
  kstep (get_flow_run (set_lock true k) _ _ Hfl). rewrite Hd. unfold bind at 1, deref_ptr, ret at 1.
  assert (rfifo_push_ni (mem SFifoEntry) a (fl_sdu_ready fl)
    = Ret 0 (Some (mkRqueue (q_head q ++ [a]) (u64 (q_length q + 1))))) as Hp by (by rewrite Hq, Hm).
  kstep (on_sdu_ready_run (set_lock true k) f fl _ _ _ Hfl Hp).
  unfold bind at 1. rewrite (upd_flow_again (set_lock true k)).
  unfold bind at 1. rewrite (upd_flow_again (set_lock true k)).
  unfold bind at 1. rewrite (get_flow_again (set_lock true k)). cbn [fl_state set_fl_posters set_fl_sdu_ready].
  rewrite Hd, andb_false_r. cbn [when]. unfold bind at 1, ret at 1. unfold bind at 1, unlock. cbn [kfa_lock set_k_flow set_lock].
  unfold ret. f_equal. unfold with_fifo, set_fl_posters, set_fl_sdu_ready, set_k_flow, set_lock.
  cbn. destruct k. cbn in *. rewrite Hl. do 3 f_equal. destruct fl. cbn. f_equal. lia.
Qed.

(** A reader leaves a flow that is not deallocated. *)
Lemma finish_read_run k id f fl rc du :
  kfa_lock k = true -> k_flow k !! f = Some fl -> (fl_state fl =? PORT_STATE_DEALLOCATED) = false ->
  finish_read f id rc du k
  = Ret (Done rc du) (set_lock false (set_k_flow (<[f := set_fl_readers (fl_readers fl - 1) fl]> (k_flow k)) k)).
Proof.
  intros Hl Hfl Hd. unfold finish_read.
  kstep (upd_flow_run _ _ _ (fun fl => set_fl_readers (fl_readers fl - 1) fl) Hfl).
  unfold bind at 1. rewrite (get_flow_again k). cbn [fl_state set_fl_readers]. rewrite Hd, andb_false_r.
  cbn [when]. unfold bind at 1, ret at 1. unfold bind at 1, unlock. cbn [kfa_lock set_k_flow]. by rewrite Hl.
Qed.

(** What read_du does to the FIFO: a data unit that is too long stays. *)
Definition taken (size : Z) (b : list Z) (l : list positive) (fl : ipcp_flow) (q : rqueue) : ipcp_flow :=
  if zlen b <=? size then set_fl_sdu_ready (Some (mkRqueue l (u64 (q_length q - 1)))) fl else fl.

Lemma read_du_run k id f fl q a l b size :
  kfa_lock k = true -> k_flow k !! f = Some fl -> is_open fl = true ->
  fl_sdu_ready fl = Some q -> q_head q = a :: l -> 0 < q_length q -> k_du k !! a = Some b ->
  read_du f id size k
  = Ret (Done (s32 (zlen b)) (Some a))
      (set_lock false (set_k_flow (<[f := set_fl_readers (fl_readers fl - 1) (taken size b l fl q)]> (k_flow k)) k)).
Proof.
  intros Hl Hfl Ho Hq Hh Hpos Hb.
  assert (rfifo_peek (fl_sdu_ready fl) = Ret (Some a) (fl_sdu_ready fl)) as Hpeek
    by (rewrite Hq; cbn; rewrite Hh; cbn; by destruct (0 <? q_length q) eqn:E; [|lia]).
  assert (rfifo_pop (fl_sdu_ready fl) = Ret (Some a) (Some (mkRqueue l (u64 (q_length q - 1))))) as Hpop
    by (rewrite Hq; cbn; rewrite Hh; cbn; by destruct (0 <? q_length q) eqn:E; [|lia]).
  unfold read_du, get_du_to_read. rewrite !bind_assoc.
  kstep (on_sdu_ready_run _ _ _ _ _ _ Hfl Hpeek).
  replace (set_fl_sdu_ready (fl_sdu_ready fl) fl) with fl by (by destruct fl).
  rewrite (insert_id _ _ _ Hfl). replace (set_k_flow (k_flow k) k) with k by (by destruct k).
  unfold du_len, taken. rewrite !bind_assoc. kstep (du_data_run _ _ _ Hb). unfold bind at 1, ret at 1.
  destruct (zlen b <=? size).
  - kstep (on_sdu_ready_run _ _ _ _ _ _ Hfl Hpop). unfold bind at 1. unfold bind at 1.
    rewrite (du_data_run _ a b) by done. unfold ret at 1.
    erewrite finish_read_run; [|done|cbn; apply lookup_insert_eq|apply (is_open_states _ Ho)]. cbn.
    unfold set_k_flow. cbn. by rewrite insert_insert_eq.
  - unfold bind at 1, ret at 1. unfold bind at 1. unfold bind at 1. rewrite (du_data_run _ a b) by done.
    unfold ret at 1. by rewrite (finish_read_run _ _ _ fl) by (try done; apply (is_open_states _ Ho)).
Qed.

(** Entering and leaving again does not change the flow. *)
Lemma readers_back f fl fl' k :
  kfa_lock k = false ->
  set_lock false (set_k_flow (<[f := set_fl_readers (fl_readers fl + 1 - 1) fl']>
    (<[f := set_fl_readers (fl_readers fl + 1) fl]> (k_flow k))) (set_k_flow
    (<[f := set_fl_readers (fl_readers fl + 1) fl]> (k_flow k)) (set_lock true k)))
  = set_k_flow (<[f := set_fl_readers (fl_readers fl) fl']> (k_flow k)) k.
Proof.
  intros Hl. destruct k. cbn in *. subst. unfold set_k_flow, set_lock. cbn.
  by rewrite insert_insert_eq, Z.add_simpl_r.
Qed.

Lemma read_run k id f fl q a l b size blocking :
  kfa_lock k = false -> is_port_id_ok id = true ->
  kfa_pmap_find (kfa_flows k) id = Some f -> k_flow k !! f = Some fl -> is_open fl = true ->
  negb blocking || fl_wqs fl = true ->
  fl_sdu_ready fl = Some q -> q_head q = a :: l -> 0 < q_length q -> k_du k !! a = Some b ->
  kfa_flow_du_read id size blocking k
  = Ret (Done (s32 (zlen b)) (Some a)) (set_k_flow (<[f := taken size b l fl q]> (k_flow k)) k).
Proof.
  intros Hl Hid Hf Hfl Ho Hw Hq Hh Hpos Hb. destruct (is_open_states _ Ho) as [Hp Hd].
  assert (fifo_is_empty (fl_sdu_ready fl) = false) as He
    by (rewrite Hq; unfold fifo_is_empty, rqueue_is_empty; by rewrite Hh).
  unfold kfa_flow_du_read. rewrite Hid. cbn [negb]. kstep (lock_run _ Hl).
  unfold gets. unfold bind at 1. cbn [kfa_flows set_lock]. rewrite Hf.
  kstep (get_flow_run (set_lock true k) _ _ Hfl). rewrite Hd.
  kstep (upd_flow_run (set_lock true k) _ _ (fun fl => set_fl_readers (fl_readers fl + 1) fl) Hfl).
  set (fl1 := set_fl_readers _ fl). set (k1 := set_k_flow _ _).
  assert (k_flow k1 !! f = Some fl1) as Hf1 by apply lookup_insert_eq.
  assert (read_du f id size k1
    = Ret (Done (s32 (zlen b)) (Some a)) (set_k_flow (<[f := taken size b l fl q]> (k_flow k)) k)) as Hr.
  { rewrite (read_du_run k1 id f fl1 q a l b size eq_refl Hf1 Ho Hq Hh Hpos Hb). f_equal.
    etransitivity; [apply (readers_back f fl (taken size b l fl1 q) k Hl)|]. do 2 f_equal.
    unfold taken. by destruct (zlen b <=? size); destruct fl. }
  destruct blocking; cbn in Hw.
  - rewrite Hw. cbn [negb]. unfold read_wait. kstep (get_flow_run _ _ _ Hf1). cbn [andb].
    change (fl_state fl1) with (fl_state fl). change (fl_sdu_ready fl1) with (fl_sdu_ready fl).
    by rewrite Hp, He.
  - by rewrite Hp, He.
Qed.

Lemma read_empty_run k id f fl q size :
  kfa_lock k = false -> is_port_id_ok id = true ->
  kfa_pmap_find (kfa_flows k) id = Some f -> k_flow k !! f = Some fl -> is_open fl = true ->
  fl_sdu_ready fl = Some q -> q_head q = [] ->
  kfa_flow_du_read id size false k = Ret (Done (- EAGAIN) None) k.
Proof.
  intros Hl Hid Hf Hfl Ho Hq Hh. destruct (is_open_states _ Ho) as [Hp Hd].
  unfold kfa_flow_du_read. rewrite Hid. cbn [negb]. kstep (lock_run _ Hl).
  unfold gets. unfold bind at 1. cbn [kfa_flows set_lock]. rewrite Hf.
  kstep (get_flow_run (set_lock true k) _ _ Hfl). rewrite Hd.
  kstep (upd_flow_run (set_lock true k) _ _ (fun fl => set_fl_readers (fl_readers fl + 1) fl) Hfl).
  rewrite Hp, Hq. unfold fifo_is_empty, rqueue_is_empty. rewrite Hh.
  rewrite (finish_read_run _ id f (set_fl_readers (fl_readers fl + 1) fl)); [|done|apply lookup_insert_eq|done].
  f_equal. etransitivity; [apply (readers_back f fl (set_fl_readers (fl_readers fl + 1) fl) k Hl)|].
  replace (set_fl_readers (fl_readers fl) _) with fl by (by destruct fl).
  rewrite insert_id by done. by destruct k.
Qed.

End Fifo.

(** ** Ports are queues *)

(** *** The abstract specification *)

Inductive qop : Type := QPost (b : list Z) | QRead (size : Z).

(** What an operation answers: its result, and the data unit it hands out. *)
Definition answer : Type := Z * option (list Z).

Definition q_step (o : qop) (l : list (list Z)) : answer * list (list Z) :=
  match o with
  | QPost b => ((0, None), l ++ [b])
  | QRead size =>
      match l with
      | [] => ((- EAGAIN, None), [])
      | b :: l' => if zlen b <=? size then ((zlen b, Some b), l') else ((zlen b, None), l)
      end
  end.

(** A family of queues. *)
Definition queues : Type := Z -> option (list (list Z)).

Definition set_queue (id : Z) (l : list (list Z)) (s : queues) : queues :=
  fun j => if j =? id then Some l else s j.

Fixpoint q_run (os : list (Z * qop)) (s : queues) : list answer * queues :=
  match os with
  | [] => ([], s)
  | (id, o) :: os' =>
      let '(r, l) := q_step o (default [] (s id)) in
      let '(rs, s') := q_run os' (set_queue id l s) in
      (r :: rs, s')
  end.

(** *** The operations of the allocator *)

Section Ports.
Context (mem : ksite -> bool).

(** An IPC process posts; a reader takes the data unit over and frees it when it is not
    longer than it has asked for. *)
Definition port_op (id : Z) (o : qop) : KF answer :=
  match o with
  | QPost b => do du <- du_create true b; do r <- kfa_du_post mem id du; ret (r.1, None)
  | QRead size =>
      do r <- kfa_flow_du_read id size false;
      match r with
      | Done rc (Some a) =>
          if rc <=? size then
            do b <- du_data (Some a); do! du_destroy (Some a); ret (rc, Some b)
          else ret (rc, None)
      | Done rc None => ret (rc, None)
      | Park _ => ret (0, None)
      end
  end.

Fixpoint port_run (os : list (Z * qop)) : KF (list answer) :=
  match os with
  | [] => ret []
  | (id, o) :: os' => do r <- port_op id o; do rs <- port_run os'; ret (r :: rs)
  end.

(** Lengths are within the int that kfa_flow_du_read returns, and the counter of the FIFO
    has room for [n] more data units. *)
Definition queue_ok (n : Z) (l : list (list Z)) : Prop :=
  Forall (fun b => zlen b < 2 ^ 31) l /\ zlen l + n < 2 ^ 64.

Definition op_ok (n : Z) (s : queues) (x : Z * qop) : Prop :=
  match s x.1 with Some l => queue_ok n l | None => False end /\
  match x.2 with QPost b => zlen b < 2 ^ 31 | QRead _ => True end.

(** *** One operation *)

Lemma open_port_id lk x ts k id f :
  kinv lk x ts k -> kfa_pmap_find (kfa_flows k) id = Some f -> is_port_id_ok id = true.
Proof.
  intros Hk Hf%pmap_find_in%(ki_ids _ _ _ _ Hk). destruct (ki_pidm _ _ _ _ Hk) as (_ & H & _).
  rewrite Forall_forall in H. specialize (H _ Hf). unfold is_port_id_ok. lia.
Qed.

(** What a post to an open port does: the new data unit is at the end of the queue. *)
Lemma post_exact ts k id l b :
  kinv false None ts k -> port_queue k id = Some l -> mem SFifoEntry = true -> queue_ok 1 l ->
  exists f k', (do du <- du_create true b; kfa_du_post mem id du) k = Ret (0, Some f) k' /\
    kinv false None ts k' /\ port_queue k' id = Some (l ++ [b]) /\
    (forall j, j <> id -> port_queue k' j = port_queue k j) /\
    k_du k' = <[k_next k := b]> (k_du k) /\ dus_of (k_flow k') ≡ₚ k_next k :: dus_of (k_flow k).
Proof.
  intros Hk Hq Hm [Hlen Hroom]. apply port_queue_Some in Hq as (f & fl & q & Hf & Hfl & Ho & Hr & Hu).
  pose proof (open_port_id _ _ _ _ _ _ Hk Hf) as Hid.
  destruct (kinv_new_du _ _ _ k b Hk) as (k1 & Hn & Hk1 & Hdu & Hni & Hfs & Hfl1 & _).
  assert (k_du k1 = <[k_next k := b]> (k_du k)) as Hd1.
  { unfold du_create in Hn. cbn in Hn. by injection Hn as <-. }
  assert (forall a, a ∈ dus_of (k_flow k) -> k_du k1 !! a = k_du k !! a) as Hsame.
  { intros a Ha. rewrite Hd1, lookup_insert_ne; [done|]. intros <-. apply Hni, elem_of_app. right. by rewrite Hfl1. }
  assert (units k1 (q_head q) = Some l) as Hu1.
  { rewrite <- Hu. apply units_ext. intros a Ha. apply Hsame. rewrite (dus_of_lookup _ _ _ Hfl).
    apply elem_of_app. left. unfold fifo_dus. by rewrite Hr. }
  assert (zlen (q_head q) = zlen l) as Hzl by (unfold zlen; by rewrite (length_mapM _ _ _ Hu)).
  rewrite <- Hfs in Hf. rewrite <- Hfl1 in Hfl.
  pose proof (post_run mem k1 id f fl q (k_next k) (ki_lock _ _ _ _ Hk1) Hid Hf Hfl Ho Hr Hm) as Hp.
  exists f. eexists. split; [kstep Hn; exact Hp|]. split_and!.
  - pose proof (post_ok mem ts k1 id (k_next k) b Hk1 Hdu Hni) as Hg. rewrite Hp in Hg. apply Hg.
    intros f' fl' q' Hf' Hfl' Hq'. simplify_eq. lia.
  - rewrite with_fifo_queue by done. by apply units_app.
  - intros j Hne. rewrite (with_fifo_other _ _ _ _ _ _ _ _ _ Hk1 Hf Hne).
    apply port_queue_frame; [done | by rewrite Hfl1 | exact Hsame].
  - exact Hd1.
  - cbn. rewrite dus_of_insert, Hfl1. rewrite Hfl1 in Hfl. rewrite (dus_of_lookup _ _ _ Hfl).
    unfold fifo_dus. rewrite Hr. cbn. rewrite <- app_assoc. cbn. symmetry. apply Permutation_middle.
Qed.

Lemma post_step ts k id l b :
  kinv false None ts k -> port_queue k id = Some l -> mem SFifoEntry = true -> queue_ok 1 l ->
  exists k', port_op id (QPost b) k = Ret (0, None) k' /\ kinv false None ts k' /\
    port_queue k' id = Some (l ++ [b]) /\ (forall j, j <> id -> port_queue k' j = port_queue k j).
Proof.
  intros Hk Hq Hm Hok. destruct (post_exact ts k id l b Hk Hq Hm Hok) as (f & k' & Hp & Hk' & H1 & H2 & _).
  exists k'. split_and!; try done. unfold port_op, bind in *.
  destruct (du_create true b k) as [du k0| |]; [|done|done]. by rewrite Hp.
Qed.

(** The head of the queue of a port. *)
Lemma port_head lk x ts k id b l :
  kinv lk x ts k -> port_queue k id = Some (b :: l) ->
  exists f fl q a t, kfa_pmap_find (kfa_flows k) id = Some f /\ k_flow k !! f = Some fl /\
    is_open fl = true /\ fl_sdu_ready fl = Some q /\ q_head q = a :: t /\ 0 < q_length q /\
    k_du k !! a = Some b /\ units k t = Some l /\ is_port_id_ok id = true /\
    a ∉ thread_dus ts ++ dus_of (<[f := set_fl_sdu_ready (Some (mkRqueue t (u64 (q_length q - 1)))) fl]> (k_flow k)).
Proof.
  intros Hk Hq. apply port_queue_Some in Hq as (f & fl & q & Hf & Hfl & Ho & Hr & Hu).
  destruct (q_head q) as [|a t] eqn:Eh; [done|]. exists f, fl, q, a, t.
  apply mapM_Some in Hu. inversion Hu as [|? ? ? ? Ha Ht]; subst.
  destruct (ki_flow _ _ _ _ Hk _ _ Hfl) as [_ _ _ Hfi _ _]. unfold fifo_ok in Hfi.
  rewrite Hr, Eh, zlen_cons in Hfi. pose proof (zlen_ge0 t).
  split_and!; try done; [lia|by apply mapM_Some|by eapply open_port_id|].
  rewrite dus_of_insert. unfold fifo_dus. cbn.
  pose proof (ki_dus _ _ _ _ Hk) as Hnd. rewrite (dus_of_lookup _ _ _ Hfl) in Hnd.
  unfold fifo_dus in Hnd. rewrite Hr, Eh in Hnd. cbn in Hnd.
  rewrite <- Permutation_middle in Hnd. by apply NoDup_cons in Hnd as [? _].
Qed.

Lemma read_step ts k id l size :
  kinv false None ts k -> port_queue k id = Some l -> Forall (fun b => zlen b < 2 ^ 31) l ->
  exists k', port_op id (QRead size) k = Ret (q_step (QRead size) l).1 k' /\ kinv false None ts k' /\
    port_queue k' id = Some (q_step (QRead size) l).2 /\
    (forall j, j <> id -> port_queue k' j = port_queue k j).
Proof.
  intros Hk Hq Hs. destruct l as [|b l].
  { pose proof Hq as (f & fl & q & Hf & Hfl & Ho & Hr & Hu)%port_queue_Some.
    apply length_mapM in Hu. exists k. split_and!; [|done..]. unfold port_op.
    kstep (read_empty_run k id f fl q size (ki_lock _ _ _ _ Hk) (open_port_id _ _ _ _ _ _ Hk Hf) Hf Hfl Ho Hr
      ltac:(by destruct (q_head q))). done. }
  destruct (port_head _ _ _ _ _ _ _ Hk Hq)
    as (f & fl & q & a & t & Hf & Hfl & Ho & Hr & Hh & Hpos & Ha & Hu & Hid & Hni).
  apply Forall_cons in Hs as [Hb _]. pose proof (zlen_ge0 b).
  pose proof (read_run k id f fl q a t b size false (ki_lock _ _ _ _ Hk) Hid Hf Hfl Ho eq_refl Hr Hh Hpos Ha) as Hrun.
  rewrite s32_small in Hrun by lia. unfold port_op. cbn [q_step].
  pose proof (pop_inv _ _ _ _ _ _ _ _ Hk Hfl Hr Hh) as Hk1. unfold taken in Hrun.
  destruct (zlen b <=? size) eqn:Esz; cbn [fst snd].
  - set (k1 := set_k_flow _ _) in *. eexists. split.
    { kstep Hrun. rewrite Esz. kstep (du_data_run k1 _ _ Ha). kstep (du_destroy_run k1 _ _ Ha). reflexivity. }
    split_and!.
    + by apply kinv_del_du.
    + pose proof (with_fifo_queue k id f fl (mkRqueue t (u64 (q_length q - 1))) Hf Ho) as Hw. cbn [q_head] in Hw.
      rewrite <- Hu, <- Hw. apply port_queue_frame; try done. intros c Hc. cbn.
      rewrite lookup_delete_ne; [done|]. intros ->. by apply Hni, elem_of_app; right.
    + intros j Hne.
      rewrite <- (with_fifo_other _ _ _ _ _ _ _ fl (mkRqueue t (u64 (q_length q - 1))) Hk Hf Hne).
      apply port_queue_frame; try done. intros c Hc. cbn.
      rewrite lookup_delete_ne; [done|]. intros ->. by apply Hni, elem_of_app; right.
  - exists k. rewrite insert_id in Hrun by done. split_and!; try done.
    kstep Hrun. rewrite Esz. by destruct k.
Qed.

End Ports.

(** ** Any port *)

(** A port that is not open answers an error. *)
Lemma read_closed ts k pid size :
  kinv false None ts k -> port_queue k pid = None ->
  exists rc, kfa_flow_du_read pid size false k = Ret (Done rc None) k /\ rc <= 0.
Proof.
  intros Hk Hq. unfold kfa_flow_du_read. destruct (is_port_id_ok pid); cbn [negb]; [|by exists (- EINVAL)].
  kstep (lock_run _ (ki_lock _ _ _ _ Hk)). unfold gets. unfold bind at 1. cbn [kfa_flows set_lock].
  assert (forall rc, (do! unlock; ret (Done rc None)) (set_lock true k) = Ret (Done rc None) k) as Hout.
  { intros rc. unfold bind, unlock, ret. cbn. by rewrite relock by apply Hk. }
  unfold port_queue in Hq. destruct (kfa_pmap_find (kfa_flows k) pid) as [f|] eqn:Hf;
    [|rewrite Hout; by exists (- EBADF)].
  destruct (kinv_find _ _ _ _ _ _ Hk Hf) as (_ & fl & Hfl & Hfi). rewrite Hfl in Hq.
  kstep (get_flow_run (set_lock true k) _ _ Hfl).
  destruct (fl_state fl =? PORT_STATE_DEALLOCATED) eqn:Hd; [rewrite Hout; by exists (- ESHUTDOWN)|].
  kstep (upd_flow_run (set_lock true k) _ _ (fun fl => set_fl_readers (fl_readers fl + 1) fl) Hfl).
  destruct (fl_state fl =? PORT_STATE_PENDING) eqn:Hp.
  + exists (- EAGAIN). split; [|done].
    rewrite (finish_read_run _ pid f (set_fl_readers (fl_readers fl + 1) fl)); [|done|apply lookup_insert_eq|done].
    f_equal. etransitivity; [apply (readers_back f fl (set_fl_readers (fl_readers fl + 1) fl) k (ki_lock _ _ _ _ Hk))|].
    replace (set_fl_readers (fl_readers fl) _) with fl by (by destruct fl).
    rewrite insert_id by done. by destruct k.
  + exfalso. unfold is_open in Hq. rewrite Hp, Hd in Hq. cbn in Hq.
    pose proof (fi_fifo _ _ _ _ Hfi) as Hfo. unfold fifo_ok in Hfo. destruct (fl_sdu_ready fl) as [q|] eqn:Hr.
    * apply mapM_None in Hq. apply Exists_exists in Hq as (a & Ha & Hno).
      pose proof (ki_du _ _ _ _ Hk) as Hdu. rewrite Forall_forall in Hdu.
      destruct (Hdu a) as [? ?]; [|congruence]. apply elem_of_app. right. rewrite (dus_of_lookup _ _ _ Hfl).
      apply elem_of_app. left. unfold fifo_dus. by rewrite Hr.
    * destruct Hfo as [|[? _]]; lia.
Qed.

(** A read without blocking always returns: with the head of the queue of an open port,
    which is taken out when it is not too long, or without data and no change. *)
Lemma read_any ts k pid size :
  kinv false None ts k ->
  (exists rc, kfa_flow_du_read pid size false k = Ret (Done rc None) k /\ rc <= 0 /\
     (port_queue k pid = None \/ port_queue k pid = Some [])) \/
  (exists a b l k', port_queue k pid = Some (b :: l) /\ k_du k !! a = Some b /\
     kfa_flow_du_read pid size false k = Ret (Done (s32 (zlen b)) (Some a)) k' /\
     kinv false None ts k' /\ k_du k' = k_du k /\
     (zlen b <= size -> port_queue k' pid = Some l /\ (forall j, j <> pid -> port_queue k' j = port_queue k j) /\
        dus_of (k_flow k) ≡ₚ a :: dus_of (k_flow k'))).
Proof.
  intros Hk. destruct (port_queue k pid) as [[|b l]|] eqn:Hq.
  - left. apply port_queue_Some in Hq as (f & fl & q & Hf & Hfl & Ho & Hr & Hu). apply length_mapM in Hu.
    exists (- EAGAIN). split_and!; [|done|by right].
    by apply (read_empty_run k pid f fl q size (ki_lock _ _ _ _ Hk) (open_port_id _ _ _ _ _ _ Hk Hf) Hf Hfl Ho Hr);
      destruct (q_head q).
  - right. destruct (port_head _ _ _ _ _ _ _ Hk Hq)
      as (f & fl & q & a & t & Hf & Hfl & Ho & Hr & Hh & Hpos & Ha & Hu & Hid & Hni).
    pose proof (read_run k pid f fl q a t b size false (ki_lock _ _ _ _ Hk) Hid Hf Hfl Ho eq_refl Hr Hh Hpos Ha) as Hrun.
    eexists a, b, l, _. split_and!; [done | done | exact Hrun | | done |].
    + unfold taken. destruct (zlen b <=? size); [by eapply pop_inv|]. rewrite insert_id by done. by destruct k.
    + intros Hsz. unfold taken. destruct (zlen b <=? size) eqn:E; [|lia].
      set (q' := mkRqueue t (u64 (q_length q - 1))). split_and!.
      * rewrite <- Hu. by apply (with_fifo_queue k pid f fl q').
      * intros j Hne. by apply (with_fifo_other _ _ _ _ pid j f fl q' Hk).
      * cbn. rewrite dus_of_insert, (dus_of_lookup _ _ _ Hfl). unfold fifo_dus. by rewrite Hr, Hh.
  - left. destruct (read_closed ts k pid size Hk Hq) as (rc & Hrun & Hrc). exists rc. by split_and!; [| |left].
Qed.

(** ** Sequences of operations *)

Section Runs.
Context (mem : ksite -> bool) (Hentry : mem SFifoEntry = true).

Lemma port_step ts k id o n :
  kinv false None ts k -> 0 < n -> op_ok n (port_queue k) (id, o) ->
  exists l k', port_queue k id = Some l /\ port_op mem id o k = Ret (q_step o l).1 k' /\
    kinv false None ts k' /\
    (forall j, port_queue k' j = set_queue id (q_step o l).2 (port_queue k) j).
Proof.
  intros Hk Hn [Hq Hb]. cbn [fst snd] in *. destruct (port_queue k id) as [l|] eqn:E; [|done].
  destruct Hq as [Hs Hroom]. exists l.
  assert (exists k', port_op mem id o k = Ret (q_step o l).1 k' /\ kinv false None ts k' /\
    port_queue k' id = Some (q_step o l).2 /\ (forall j, j <> id -> port_queue k' j = port_queue k j))
    as (k' & Hop & Hk' & Hqi & Hqo).
  { destruct o as [b|size]; [apply post_step | apply read_step]; try done. split; [done | lia]. }
  exists k'. split_and!; try done. intros j. unfold set_queue. destruct (j =? id) eqn:Ej.
  - by assert (j = id) as -> by lia.
  - apply Hqo. lia.
Qed.

(** The bounds of the remaining operations. *)
Lemma op_ok_after n id o l s x :
  s id = Some l -> op_ok (n + 1) s (id, o) -> op_ok (n + 1) s x -> op_ok n (set_queue id (q_step o l).2 s) x.
Proof.
  intros Hl [Hq Hb] [Hx Hy]. unfold op_ok, set_queue. split; [|done]. cbn [fst snd] in *.
  rewrite Hl in Hq. destruct (x.1 =? id) eqn:E.
  - destruct Hq as [Hs Hr]. destruct o as [b|size]; cbn [q_step snd].
    + split; [apply Forall_app; split; [done | by constructor]|]. rewrite zlen_app. change (zlen [b]) with 1. lia.
    + destruct l as [|b l]; [split; [done|cbn in *; lia]|]. rewrite zlen_cons in Hr.
      apply Forall_cons in Hs as Hs'. destruct (_ <=? _); cbn [snd]; (split; [done || apply Hs'|]); rewrite ?zlen_cons; lia.
  - destruct (s x.1); [|done]. destruct Hx. split; [done | lia].
Qed.

Lemma q_run_ext os s s' :
  (forall j, s j = s' j) ->
  (q_run os s).1 = (q_run os s').1 /\ forall j, (q_run os s).2 j = (q_run os s').2 j.
Proof.
  revert s s'. induction os as [|[id o] os IH]; intros s s' He; cbn [q_run]; [done|].
  rewrite He. destruct (q_step o _) as [r l].
  destruct (IH (set_queue id l s) (set_queue id l s')) as [H1 H2].
  { intros j. unfold set_queue. by rewrite He. }
  destruct (q_run os (set_queue id l s)), (q_run os (set_queue id l s')). cbn in *. by subst.
Qed.

Lemma op_ok_ext n s s' x : (forall j, s j = s' j) -> op_ok n s x -> op_ok n s' x.
Proof. intros He. unfold op_ok. by rewrite He. Qed.

Lemma port_run_refines os ts k :
  kinv false None ts k -> Forall (op_ok (zlen os) (port_queue k)) os ->
  exists k', port_run mem os k = Ret (q_run os (port_queue k)).1 k' /\ kinv false None ts k' /\
    forall j, port_queue k' j = (q_run os (port_queue k)).2 j.
Proof.
  revert k. induction os as [|[id o] os IH]; intros k Hk Hok; [by exists k|].
  rewrite zlen_cons, Z.add_comm in Hok. pose proof (zlen_ge0 os). apply Forall_cons in Hok as [Ho Hok].
  destruct (port_step ts k id o (zlen os + 1) Hk ltac:(lia) Ho) as (l & k1 & Hl & Hop & Hk1 & Hq1).
  destruct (IH k1 Hk1) as (k' & Hr & Hk' & Hq').
  { eapply Forall_impl; [exact Hok|]. intros x Hx. eapply op_ok_ext; [intros j; symmetry; apply Hq1|].
    by apply op_ok_after. }
  destruct (q_run_ext os _ _ Hq1) as [He1 He2].
  exists k'. cbn [port_run q_run]. rewrite Hl. kstep Hop. kstep Hr.
  change (default [] (Some l)) with l. destruct (q_step o l) as [r l']. cbn [fst snd] in *.
  destruct (q_run os (set_queue id l' (port_queue k))) as [rs s']. cbn [fst snd] in *.
  unfold ret. rewrite He1. split_and!; [done|done|]. intros j. by rewrite Hq', He2.
Qed.

End Runs.
