(* ===== verification/KfaClaims.v ===== *)
(** What the flow allocator of the RINA kernel promises: no call that keeps its contract
    faults, a port is a queue, identifiers of ports are unique; and what happens when
    its contract is not kept. *)

From Stdlib Require Import ZArith Lia.
From Stdlib Require List.
From stdpp Require Import base list gmap.
From S2P Require Import Prelude Ints Types ByteMem Rds Kfa KfaInv KfaPidm KfaOps KfaIo KfaSys KfaFifo.
Open Scope Z_scope.

(** ** A sample run *)

Definition full_mem (s : ksite) : bool := true.
Definition no_fifo_mem (s : ksite) : bool := match s with SFifo => false | _ => true end.
Definition no_item_mem (s : ksite) : bool := match s with SItem => false | _ => true end.
Definition no_du_mem (s : ksite) : bool := match s with SDu => false | _ => true end.
Definition du_1500 (ipcp : Z) : Z := 1500.

(** Calls one after the other, each of which the contract allows. *)
Fixpoint kfa_trace (mem : ksite -> bool) (cs : list kfa_call) (s : kstate) : option kstate :=
  match cs with
  | [] => Some s
  | c :: cs' =>
      if allowed mem c s.2 s.1 then
        match kcall_run du_1500 mem c s.2 s.1 with
        | Ret i k => kfa_trace mem cs' (k, i)
        | _ => None
        end
      else None
  end.

Lemma trace_reach mem cs s s' :
  kfa_reach du_1500 s -> kfa_trace mem cs s = Some s' -> kfa_reach du_1500 s'.
Proof.
  revert s. induction cs as [|c cs IH]; intros [k i] Hr; cbn [kfa_trace]; [by intros [= <-]|].
  cbn [fst snd]. destruct (allowed mem c i k) eqn:Ha; [|done].
  destruct (kcall_run du_1500 mem c i k) as [i' k'| |] eqn:E; [|done|done].
  apply IH. eapply KNext; [exact Hr|]. by econstructor.
Qed.

(** Two ports: the first is bound and holds a data unit, the second waits for its IPC
    process. *)
Definition sample_calls : list kfa_call :=
  [CReserve; CCreate 1 (Some 7) false; CBind 1 (Some 7); CSetWqs 1 true; CPost 1 [10; 20; 30];
   CReserve; CCreate 2 (Some 7) true; CSetWqs 2 true].

Definition sample_kfa (cs : list kfa_call) : kstate :=
  match kfa_create full_mem with
  | Some k => default (k, ([], [])) (kfa_trace full_mem (sample_calls ++ cs) (k, ([], [])))
  | None => (mkKfa false (mkPidm [] 0) [] [] ∅ ∅ 1 [], ([], []))
  end.

Lemma sample_reach cs : kfa_reach du_1500 (sample_kfa cs).
Proof.
  unfold sample_kfa. destruct (kfa_create full_mem) as [k|] eqn:E; [|done].
  pose proof (KInit du_1500 _ _ E) as H0.
  destruct (kfa_trace _ _ _) as [s|] eqn:Et; [by eapply trace_reach | done].
Qed.

Lemma sample_kinv cs : kinv false None (sample_kfa cs).2.1 (sample_kfa cs).1.
Proof. eapply reach_kinv, sample_reach. Qed.

(** ** Safety *)

(** C5: In every state that the flow allocator reaches from kfa_create by any
    interleaving of calls that keep their contract, with any allocations failing that
    the contract does not exclude, the invariant holds: the lock is free, flows and
    entries of the map correspond, identifiers are unique, the counters of readers and
    writers are the threads inside, every data unit has one owner; every such call runs
    without a fault, and no deallocated flow stays when no thread is inside. The
    contract of a pending wake-up is that its flow is still there when it takes place. *)
Theorem kfa_always_safe max_sdu_size s :
  kfa_reach max_sdu_size s ->
  kinv false None s.2.1 s.1 /\
  (forall mem c, allowed mem c s.2 s.1 = true ->
     exists i k, kcall_run max_sdu_size mem c s.2 s.1 = Ret i k /\ kinv false None i.1 k) /\
  (s.2.1 = [] -> forall f fl, k_flow s.1 !! f = Some fl -> fl_state fl <> PORT_STATE_DEALLOCATED).
Proof.
  intros Hr. pose proof (reach_kinv _ _ Hr) as Hk. split_and!; [done| |].
  - intros mem c Ha. pose proof (kcall_keeps max_sdu_size mem c _ _ Hk Ha) as H.
    destruct (kcall_run _ _ _ _ _) as [i k| |]; [by exists i, k | done | done].
  - intros Ht f fl Hf Hd. destruct (ki_flow _ _ _ _ Hk _ _ Hf) as [H1 H2 _ _ _ H6].
    rewrite Ht in H1, H2. cbn in H1, H2. destruct (H6 Hd) as [|]; [done | lia].
Qed.

(** A blocking reader is inside the empty port 1 while it is deallocated; the state is
    reached, and the reader can go on. *)
Lemma kfa_always_safe_witness :
  let s := sample_kfa [CDuRead 1 100 false; CDuRead 1 100 true; CDeallocate 1] in
  length s.2.1 = 1%nat /\
  exists i k, kcall_run du_1500 full_mem (CResume 0 0) s.2 s.1 = Ret i k /\ kinv false None i.1 k.
Proof.
  split; [vm_compute; reflexivity|].
  apply (proj1 (proj2 (kfa_always_safe du_1500 _ (sample_reach _)))). vm_compute. reflexivity.
Defined.

(** ** Ports are queues *)

(** C10: For any sequence of posts and non-blocking reads on open ports, the flow
    allocator answers what a family of first-in first-out queues answers, one for each
    port: each posted data unit is read once, in order and unchanged, a read of an
    empty port is refused with EAGAIN, a unit that is longer than was asked for stays,
    and no port sees another one's data. *)
Theorem ports_refine_queues mem os ts k :
  kinv false None ts k -> mem SFifoEntry = true -> Forall (op_ok (zlen os) (port_queue k)) os ->
  exists k', port_run mem os k = Ret (q_run os (port_queue k)).1 k' /\ kinv false None ts k' /\
    forall j, port_queue k' j = (q_run os (port_queue k)).2 j.
Proof. intros Hk Hm Hok. by apply port_run_refines. Qed.

(** Two units are posted behind the one that is there, and all are read. *)
Lemma ports_refine_queues_witness :
  let s := sample_kfa [] in
  let os := [(1, QPost [1]); (1, QRead 2); (1, QPost [5; 6]); (1, QRead 9); (1, QRead 9); (1, QRead 9); (1, QRead 9)] in
  (q_run os (port_queue s.1)).1 =
    [(0, None); (3, None); (0, None); (3, Some [10; 20; 30]); (1, Some [1]); (2, Some [5; 6]); (- EAGAIN, None)] /\
  exists k', port_run full_mem os s.1 = Ret (q_run os (port_queue s.1)).1 k' /\ kinv false None s.2.1 k' /\
    forall j, port_queue k' j = (q_run os (port_queue s.1)).2 j.
Proof.
  split; [vm_compute; reflexivity|]. apply ports_refine_queues; [apply sample_kinv | reflexivity |].
  assert (port_queue (sample_kfa []).1 1 = Some [[10; 20; 30]]) as Hq by (vm_compute; reflexivity).
  repeat (apply Forall_cons_2; [unfold op_ok; cbn [fst snd]; rewrite Hq; split;
    [split; [apply Forall_cons_2; [reflexivity | apply Forall_nil_2] | reflexivity]
    | first [exact I | reflexivity]]|]). apply Forall_nil_2.
Defined.

(** ** Identifiers of ports *)

(** When all identifiers are in use, each of them is. *)
Lemma all_ids_used p id :
  pidm_ok p -> MAX_PORT_ID <= zlen (allocated_ports p) -> 1 <= id <= MAX_PORT_ID -> id ∈ allocated_ports p.
Proof.
  intros (Hn & Hr & _) Hl Hid. set (ids := List.map Z.of_nat (List.seq 1 (Z.to_nat MAX_PORT_ID))).
  assert (forall x, List.In x ids <-> 1 <= x <= MAX_PORT_ID) as Hids.
  { intros x. unfold ids. rewrite List.in_map_iff. split.
    - intros (n & <- & Hn'). apply List.in_seq in Hn'. lia.
    - intros Hx. exists (Z.to_nat x). split; [lia|]. apply List.in_seq. lia. }
  apply list_elem_of_In. apply (List.NoDup_length_incl (l := allocated_ports p) (l' := ids)).
  - by apply NoDup_ListNoDup.
  - unfold ids. rewrite List.length_map, List.length_seq. unfold zlen in Hl. lia.
  - intros x Hx%list_elem_of_In. rewrite Forall_forall in Hr. by apply Hids, Hr.
  - by apply Hids.
Qed.

(** C27: kfa_port_id_reserve hands out an identifier from 1 to MAX_PORT_ID that is not in
    use, marks only this one as used and changes nothing else; without memory it answers
    a bad identifier and leaves the set of identifiers as it is.  While an identifier is
    free its search ends; when none is, the search has no end: it exhausts any number of
    rounds, with the lock held. *)
Theorem port_ids_unique mem ts k :
  kinv false None ts k ->
  (zlen (allocated_ports (kfa_pidm k)) < MAX_PORT_ID ->
     exists pid, 1 <= pid <= MAX_PORT_ID /\ (pid ∉ allocated_ports (kfa_pidm k)) /\
       kfa_port_id_reserve mem k
       = if mem SPid then Ret pid (set_pidm (mkPidm (pid :: allocated_ports (kfa_pidm k)) pid) k)
         else Ret port_id_bad k) /\
  (MAX_PORT_ID <= zlen (allocated_ports (kfa_pidm k)) ->
     forall fuel, pidm_search fuel (kfa_pidm k) (next_pid (last_allocated (kfa_pidm k))) (kfa_pidm k) = NoFuel).
Proof.
  intros Hk. pose proof (ki_pidm _ _ _ _ Hk) as Hp. split.
  - intros Hl. pose proof (pidm_allocate_ok true _ Hp Hl) as (pid & Ha & Hni & Hr & _). exists pid.
    split_and!; [lia|lia|done|]. pose proof (pidm_allocate_ok false _ Hp Hl : pidm_allocate false _ = _) as Hb.
    unfold kfa_port_id_reserve. kstep (lock_run _ (ki_lock _ _ _ _ Hk)).
    unfold bind at 1, on_pidm, on_part. cbn [kfa_pidm set_lock]. destruct (mem SPid).
    + rewrite Ha. unfold is_port_id_ok. destruct (0 <=? pid) eqn:E; [|lia]. cbn [negb].
      unfold bind, unlock, ret. cbn. pose proof (ki_lock _ _ _ _ Hk) as Hlk. destruct k. cbn in *. by subst.
    + rewrite Hb. cbn. unfold bind, unlock, ret. cbn. pose proof (ki_lock _ _ _ _ Hk) as Hlk. destruct k. cbn in *. by subst.
  - intros Hl fuel. pose proof (pidm_search_run fuel (kfa_pidm k) (next_pid (last_allocated (kfa_pidm k))) (kfa_pidm k)) as H.
    destruct (pidm_search _ _ _ _); [|done|done]. destruct H as (_ & Hni & n & _ & ->). destruct Hni.
    apply all_ids_used; [done|done|]. by apply nth_pid_range, next_pid_range.
Qed.

Lemma port_ids_unique_witness :
  exists pid, 1 <= pid <= MAX_PORT_ID /\ (pid ∉ allocated_ports (kfa_pidm (sample_kfa []).1)) /\
    kfa_port_id_reserve full_mem (sample_kfa []).1
    = if full_mem SPid
      then Ret pid (set_pidm (mkPidm (pid :: allocated_ports (kfa_pidm (sample_kfa []).1)) pid) (sample_kfa []).1)
      else Ret port_id_bad (sample_kfa []).1.
Proof.
  apply (proj1 (port_ids_unique full_mem _ _ (sample_kinv []))). vm_compute. reflexivity.
Defined.

(** ** When the contract is not kept *)

(** C36: A data unit that is longer than the size asked for is handed out to the reader
    and stays in the FIFO: when the reader frees it, as pepdna_con_rina2i_fwd does, the
    next read uses freed memory. *)
Theorem oversize_read_dangles ts k id b l size size' :
  kinv false None ts k -> port_queue k id = Some (b :: l) -> size < zlen b -> zlen b < 2 ^ 31 ->
  exists a k', kfa_flow_du_read id size false k = Ret (Done (zlen b) (Some a)) k /\
    k_du k !! a = Some b /\
    (do! du_destroy (Some a); kfa_flow_du_read id size' false) k = Fault UseAfterFree k'.
Proof.
  intros Hk Hq Hsz Hb.
  destruct (port_head _ _ _ _ _ _ _ Hk Hq)
    as (f & fl & q & a & t & Hf & Hfl & Ho & Hr & Hh & Hpos & Ha & Hu & Hid & Hni).
  destruct (is_open_states _ Ho) as [Hp Hd]. pose proof (zlen_ge0 b).
  eexists a, _. split_and!; [| done |].
  - rewrite (read_run k id f fl q a t b size false (ki_lock _ _ _ _ Hk) Hid Hf Hfl Ho eq_refl Hr Hh Hpos Ha).
    rewrite s32_small by lia. unfold taken. destruct (zlen b <=? size) eqn:E; [lia|].
    rewrite insert_id by done. by destruct k.
  - kstep (du_destroy_run _ _ _ Ha). set (k1 := set_k_du _ _).
    unfold kfa_flow_du_read. rewrite Hid. cbn [negb]. kstep (lock_run k1 (ki_lock _ _ _ _ Hk)).
    unfold gets. unfold bind at 1. cbn [kfa_flows set_lock k1 set_k_du]. rewrite Hf.
    kstep (get_flow_run (set_lock true k1) _ _ Hfl). rewrite Hd.
    kstep (upd_flow_run (set_lock true k1) _ _ (fun fl => set_fl_readers (fl_readers fl + 1) fl) Hfl).
    rewrite Hp, Hr. unfold fifo_is_empty, rqueue_is_empty. rewrite Hh. unfold read_du, get_du_to_read.
    rewrite !bind_assoc. set (k2 := set_k_flow _ _).
    assert (k_flow k2 !! f = Some (set_fl_readers (fl_readers fl + 1) fl)) as Hf2 by apply lookup_insert_eq.
    assert (rfifo_peek (fl_sdu_ready fl) = Ret (Some a) (fl_sdu_ready fl)) as Hpeek
      by (rewrite Hr; cbn; rewrite Hh; cbn; by destruct (0 <? q_length q) eqn:E; [|lia]).
    kstep (on_sdu_ready_run _ _ _ _ _ _ Hf2 Hpeek). unfold du_len. rewrite !bind_assoc.
    unfold bind at 1. unfold du_data, bind at 1, deref_ptr, ret at 1. cbn [k_du set_k_flow k2 k1 set_lock set_k_du].
    rewrite lookup_delete_eq. reflexivity.
Qed.

Lemma oversize_read_dangles_witness :
  exists a k', kfa_flow_du_read 1 2 false (sample_kfa []).1 = Ret (Done 3 (Some a)) (sample_kfa []).1 /\
    k_du (sample_kfa []).1 !! a = Some [10; 20; 30] /\
    (do! du_destroy (Some a); kfa_flow_du_read 1 100 false) (sample_kfa []).1 = Fault UseAfterFree k'.
Proof.
  apply (oversize_read_dangles _ _ 1 [10; 20; 30] [] 2 100 (sample_kinv [])); vm_compute; reflexivity.
Defined.

(** The flow of a thread that is inside. *)
Lemma thread_flow t ts k :
  kinv false None (t :: ts) k ->
  is_port_id_ok (thr_id t) = true /\ kfa_pmap_find (kfa_flows k) (thr_id t) = Some (thr_flow t) /\
  exists fl, k_flow k !! thr_flow t = Some fl /\ flow_inv None (t :: ts) (thr_flow t) fl /\
    unused fl = false.
Proof.
  intros Hk. pose proof (ki_thr _ _ _ _ Hk) as [Hin _]%Forall_cons.
  pose proof (pmap_in_find _ _ _ (ki_keys _ _ _ _ Hk) Hin) as Hf. split; [by eapply open_port_id|].
  split; [done|]. destruct (ki_live _ _ _ _ Hk _ _ Hin) as [fl Hfl]. exists fl. split; [done|].
  pose proof (ki_flow _ _ _ _ Hk _ _ Hfl) as Hfi. split; [done|]. destruct Hfi as [H1 H2 _ _ _ _].
  cbn in H1, H2. rewrite Pos.eqb_refl, andb_true_r in H1, H2.
  pose proof (cnt_ge0 true (thr_flow t) ts). pose proof (cnt_ge0 false (thr_flow t) ts).
  unfold unused. destruct (thr_reads t); cbn in H1, H2.
  - destruct (fl_readers fl =? 0) eqn:E; [lia | done].
  - destruct (fl_writers fl =? 0) eqn:E; [lia | by rewrite andb_false_r].
Qed.

(** Two failures of memory leave the lock in a wrong state.  kfa_flow_deallocate of a
    flow in use that cannot allocate its item of work returns with the lock held, and
    whoever takes the lock next deadlocks.  kfa_flow_ub_write that cannot allocate a
    data unit goes to the end of the function, which releases the lock, without it. *)
Theorem no_memory_breaks_lock mem t ts k :
  kinv false None (t :: ts) k ->
  (mem SWqdata = true -> mem SItem = false ->
     exists k', kfa_flow_deallocate mem (thr_id t) k = Ret (- 1) k' /\
       forall mem', kfa_port_id_reserve mem' k' = Fault Deadlock k') /\
  (forall u w, t = TUbCopy u -> mem SDu = false ->
     (forall fl, k_flow k !! ub_flow u = Some fl -> fl_state fl <> PORT_STATE_DEALLOCATED) ->
     exists k', resume mem t w k = Fault BadUnlock k').
Proof.
  intros Hk. destruct (thread_flow _ _ _ Hk) as (Hid & Hf & fl & Hfl & _ & Hu). split.
  - intros Hm1 Hm2. eexists. split.
    + unfold kfa_flow_deallocate. rewrite Hid. cbn [negb]. kstep (lock_run _ (ki_lock _ _ _ _ Hk)).
      unfold gets. unfold bind at 1. cbn [kfa_flows set_lock]. rewrite Hf.
      kstep (upd_flow_run (set_lock true k) _ _ (set_fl_state PORT_STATE_DEALLOCATED) Hfl).
      unfold bind at 1. rewrite (get_flow_again (set_lock true k)).
      change (unused (set_fl_state PORT_STATE_DEALLOCATED fl)) with (unused fl). rewrite Hu, Hm1, Hm2.
      reflexivity.
    + done.
  - intros u w -> Hm Hs. cbn [thr_flow] in *. specialize (Hs _ Hfl). eexists. unfold resume, ub_copy.
    rewrite Hm. unfold bind at 1, du_create, ret at 1. cbn [negb]. unfold ub_finish, finish_write.
    kstep (upd_flow_run _ _ _ (fun fl => set_fl_writers (fl_writers fl - 1) fl) Hfl).
    unfold bind at 1. rewrite (get_flow_again k). cbn [fl_state set_fl_writers].
    destruct (fl_state fl =? PORT_STATE_DEALLOCATED) eqn:E; [lia|]. rewrite andb_false_r. cbn [when].
    unfold bind at 1, ret at 1. unfold bind, unlock. cbn [kfa_lock set_k_flow].
    rewrite (ki_lock _ _ _ _ Hk). reflexivity.
Qed.

(** A reader waits for data of the first port, and a writer is about to copy. *)
Lemma no_memory_breaks_lock_witness :
  let s1 := sample_kfa [CDuRead 1 100 false; CDuRead 1 100 true] in
  let s2 := sample_kfa [CUbWrite 1 [1; 2; 3] true] in
  (exists k', kfa_flow_deallocate no_item_mem 1 s1.1 = Ret (- 1) k' /\
     forall mem', kfa_port_id_reserve mem' k' = Fault Deadlock k') /\
  exists t k', s2.2.1 = [t] /\ resume no_du_mem t 0 s2.1 = Fault BadUnlock k'.
Proof.
  split.
  - apply (proj1 (no_memory_breaks_lock no_item_mem (TDuRead 1 1 100) [] _
      (sample_kinv [CDuRead 1 100 false; CDuRead 1 100 true]))); reflexivity.
  - eexists. destruct (proj2 (no_memory_breaks_lock no_du_mem _ [] _ (sample_kinv [CUbWrite 1 [1; 2; 3] true]))
      _ 0 eq_refl eq_refl) as [k' Hk']; [|exists k'; split; [vm_compute; reflexivity | exact Hk']].
    intros fl Hfl. vm_compute in Hfl. injection Hfl as <-. done.
Defined.

Section PendingReader.
Context (mem : ksite -> bool) (id : Z) (f : positive) (size : Z) (k : kfa) (fl : ipcp_flow).
Context (Hl : kfa_lock k = false) (Hid : is_port_id_ok id = true).
Context (Hf : kfa_pmap_find (kfa_flows k) id = Some f) (Hfl : k_flow k !! f = Some fl).

Lemma bind_failure_frees ipcp w :
  mem SFifo = false ->
  exists k', kfa_flow_ipcp_bind mem id (Some ipcp) k = Ret (- 1) k' /\ kfa_pidm k' = kfa_pidm k /\
    resume mem (TDuRead id f size) w k' = Fault UseAfterFree k'.
Proof.
  intros Hm. assert (pmap_entry_find (kfa_flows k) id <> None) as He
    by (unfold kfa_pmap_find in Hf; by destruct (pmap_entry_find _ _)).
  eexists. split_and!.
  + unfold kfa_flow_ipcp_bind. rewrite Hid. cbn [negb]. kstep (lock_run _ Hl).
    unfold gets. unfold bind at 1. cbn [kfa_flows set_lock]. rewrite Hf.
    unfold bind at 1. rewrite (upd_flow_run (set_lock true k) _ _ _ Hfl). rewrite Hm. cbn [negb].
    unfold bind at 1, on_pmap, on_part, kfa_pmap_remove, gets. unfold bind at 1.
    cbn [kfa_flows set_k_flow set_lock]. destruct (pmap_entry_find (kfa_flows k) id); [|done].
    unfold bind at 1, modify, ret at 1. unfold bind at 1, free_flow. cbn [k_flow set_k_flow set_flows set_lock].
    rewrite lookup_insert_eq. unfold bind, unlock. cbn [kfa_lock set_k_flow set_flows set_lock]. reflexivity.
  + done.
  + cbn [resume]. unfold read_woken, bind, get_flow. cbn. by rewrite lookup_delete_eq.
Qed.

Lemma deallocate_misleads_reader :
  mem SWqdata = true -> mem SItem = true -> unused fl = false -> fl_sdu_ready fl = None -> fl_wqs fl = true ->
  exists k' k'', kfa_flow_deallocate mem id k = Ret 0 k' /\
    resume mem (TDuRead id f size) 0 k' = Fault NullDeref k''.
Proof.
  intros Hm1 Hm2 Hu Hq Hw. eexists _, _. split.
  + unfold kfa_flow_deallocate. rewrite Hid. cbn [negb]. kstep (lock_run _ Hl).
    unfold gets. unfold bind at 1. cbn [kfa_flows set_lock]. rewrite Hf.
    kstep (upd_flow_run (set_lock true k) _ _ (set_fl_state PORT_STATE_DEALLOCATED) Hfl).
    unfold bind at 1. rewrite (get_flow_again (set_lock true k)).
    change (unused (set_fl_state PORT_STATE_DEALLOCATED fl)) with (unused fl). rewrite Hu, Hm1, Hm2.
    cbn [negb]. unfold bind at 1, modify. unfold bind, unlock. cbn [kfa_lock set_k_flow set_flowdelq set_lock].
    reflexivity.
  + set (fl' := set_fl_state _ fl). set (k1 := set_lock false _).
    assert (k_flow k1 !! f = Some fl') as Hf1 by apply lookup_insert_eq.
    cbn [resume]. change (truth 0) with false. unfold read_woken. kstep (get_flow_run _ _ _ Hf1).
    change (queue_ready fl') with true. cbn [negb andb]. kstep (lock_run k1 eq_refl).
    unfold gets. unfold bind at 1. cbn [kfa_flows set_lock set_k_flow set_flowdelq k1]. rewrite Hf.
    kstep (get_flow_run (set_lock true k1) _ _ Hf1).
    change (fl_wqs fl') with (fl_wqs fl). rewrite Hw. cbn [negb]. unfold read_wait.
    kstep (get_flow_run (set_lock true k1) _ _ Hf1).
    change (fl_sdu_ready fl') with (fl_sdu_ready fl). rewrite Hq.
    change (fl_state fl' =? PORT_STATE_DEALLOCATED) with true. cbn [andb fifo_is_empty].
    unfold read_du, get_du_to_read. rewrite !bind_assoc.
    assert (rfifo_peek (fl_sdu_ready fl') = Ret None None) as Hpeek by (by change (rfifo_peek (fl_sdu_ready fl) = Ret None None); rewrite Hq).
    kstep (on_sdu_ready_run (set_lock true k1) _ _ _ _ _ Hf1 Hpeek). unfold du_len. rewrite !bind_assoc.
    unfold bind at 1. unfold du_data, bind at 1, deref_ptr, throw. reflexivity.
Qed.

End PendingReader.

(** A reader that waits on a port whose IPC process is not bound yet does not survive
    either end of the wait without an open port: when the binding fails for lack of
    memory the flow is freed under the reader, and its identifier stays reserved; when
    the port is deallocated the reader takes the missing FIFO for one with data. *)
Theorem pending_reader_faults mem id f size ts k fl ipcp w :
  kinv false None (TDuRead id f size :: ts) k -> k_flow k !! f = Some fl ->
  fl_sdu_ready fl = None -> fl_wqs fl = true ->
  (mem SFifo = false ->
     exists k', kfa_flow_ipcp_bind mem id (Some ipcp) k = Ret (- 1) k' /\
       id ∈ allocated_ports (kfa_pidm k') /\
       resume mem (TDuRead id f size) w k' = Fault UseAfterFree k') /\
  (mem SWqdata = true -> mem SItem = true ->
     exists k' k'', kfa_flow_deallocate mem id k = Ret 0 k' /\
       resume mem (TDuRead id f size) 0 k' = Fault NullDeref k'').
Proof.
  intros Hk Hfl Hq Hw. destruct (thread_flow _ _ _ Hk) as (Hid & Hf & fl' & Hfl' & _ & Hu).
  cbn [thr_id thr_flow] in *. rewrite Hfl in Hfl'. injection Hfl' as <-.
  pose proof (ki_lock _ _ _ _ Hk) as Hl. split.
  - intros Hm. destruct (bind_failure_frees mem id f size k fl Hl Hid Hf Hfl ipcp w Hm) as (k' & Hb & Hp & Hr).
    exists k'. rewrite Hp. split_and!; [done| |done]. apply pmap_find_in in Hf. by eapply ki_ids.
  - intros Hm1 Hm2. by apply (deallocate_misleads_reader mem id f size k fl).
Qed.

Lemma pending_reader_faults_witness :
  let k := (sample_kfa [CDuRead 2 100 true]).1 in
  (exists k', kfa_flow_ipcp_bind no_fifo_mem 2 (Some 7) k = Ret (- 1) k' /\
     2 ∈ allocated_ports (kfa_pidm k') /\
     resume no_fifo_mem (TDuRead 2 3 100) 0 k' = Fault UseAfterFree k') /\
  exists k' k'', kfa_flow_deallocate no_fifo_mem 2 k = Ret 0 k' /\
    resume no_fifo_mem (TDuRead 2 3 100) 0 k' = Fault NullDeref k''.
Proof.
  destruct (pending_reader_faults no_fifo_mem 2 3 100 [] (sample_kfa [CDuRead 2 100 true]).1
    (mkFlow 0 PORT_STATE_PENDING (Some 7) None true 1 0 0 true) 7 0 (sample_kinv [CDuRead 2 100 true])) as [H1 H2];
    [vm_compute; reflexivity | reflexivity | reflexivity |].
  split; [exact (H1 eq_refl) | exact (H2 eq_refl eq_refl)].
Defined.

(** ** Waking up *)

(** A bound flow that nobody uses is gone when its port is deallocated. *)
Lemma deallocate_unused mem ts k id f fl q :
  kinv false None ts k -> kfa_pmap_find (kfa_flows k) id = Some f -> k_flow k !! f = Some fl ->
  fl_sdu_ready fl = Some q -> unused fl = true ->
  exists k', kfa_flow_deallocate mem id k = Ret 0 k' /\ kinv false None ts k' /\ k_flow k' !! f = None.
Proof.
  intros Hk Hf Hfl Hq Hu. pose proof (pmap_find_in _ _ _ Hf) as Hin.
  unfold kfa_flow_deallocate. rewrite (open_port_id _ _ _ _ _ _ Hk Hf). cbn [negb].
  destruct (lock_ok _ _ Hk) as [Hl Hk1]. kstep Hl. unfold gets. unfold bind at 1. cbn [kfa_flows set_lock].
  rewrite Hf. kstep (upd_flow_run (set_lock true k) _ _ (set_fl_state PORT_STATE_DEALLOCATED) Hfl).
  set (fl' := set_fl_state _ fl). set (k2 := set_k_flow _ _).
  assert (k_flow k2 !! f = Some fl') as Hf2 by apply lookup_insert_eq.
  assert (kinv true (Some f) ts k2) as Hk2.
  { eapply (kinv_flow_same _ _ _ _ _ (set_lock true k) f fl fl'); try done; [|apply Hk1].
    destruct (ki_flow _ _ _ _ Hk _ _ Hfl) as [? ? ? Hfi ? ?]. constructor; try done; [|by left].
    unfold fifo_ok, fl' in *. cbn. by rewrite Hq in *. }
  kstep (get_flow_run k2 _ _ Hf2). change (unused fl') with (unused fl). rewrite Hu. unfold unused in Hu.
  apply andb_true_iff in Hu as [[H1%Z.eqb_eq H2%Z.eqb_eq]%andb_true_iff _].
  destruct (flow_destroy_ok true ts k2 id f fl' (Some f) Hk2 ltac:(by right) Hin Hf2 H1 H2)
    as (k3 & Hd & Hk3 & _ & _ & Hdel). kstep Hd.
  exists (set_lock false k3). kstep (unlock_run _ (ki_lock _ _ _ _ Hk3)). split_and!; [done| |].
  - by eapply kinv_lock.
  - cbn. rewrite Hdel. apply lookup_delete_eq.
Qed.

(** C37: kfa_du_post touches the flow once more after it has released the lock, to wake
    up its readers, and is not counted as a user of the flow then.  When the port is
    deallocated in between and nobody uses the flow, the flow is freed and the wake-up
    reads freed memory. *)
Theorem wake_up_races mem ts k id l b f fl :
  kinv false None ts k -> mem SFifoEntry = true -> port_queue k id = Some l -> queue_ok 1 l ->
  kfa_pmap_find (kfa_flows k) id = Some f -> k_flow k !! f = Some fl -> unused fl = true ->
  exists du k1 k2, (do du <- du_create true b; kfa_du_post mem id du) k = Ret (0, Some f) k1 /\
    k_du k1 !! du = Some b /\
    kfa_flow_deallocate mem id k1 = Ret 0 k2 /\ wake_up f k2 = Fault UseAfterFree k2.
Proof.
  intros Hk Hm Hq Hr Hf Hfl Hu.
  destruct (kinv_new_du _ _ _ k b Hk) as (k0 & Hn & Hk0 & Hdu & Hni & Hfs & Hfl0 & _).
  apply port_queue_Some in Hq as (f' & fl' & q & Hf' & Hfl' & Ho & Hsr & Hun).
  rewrite Hf in Hf'. injection Hf' as <-. rewrite Hfl in Hfl'. injection Hfl' as <-.
  assert (zlen (q_head q) = zlen l) as Hzl by (unfold zlen; by rewrite (length_mapM _ _ _ Hun)).
  pose proof (open_port_id _ _ _ _ _ _ Hk Hf) as Hid. rewrite <- Hfs in Hf. rewrite <- Hfl0 in Hfl.
  pose proof (post_run mem k0 id f fl q (k_next k) (ki_lock _ _ _ _ Hk0) Hid Hf Hfl Ho Hsr Hm) as Hp.
  pose proof (post_ok mem ts k0 id (k_next k) b Hk0 Hdu Hni) as Hg. rewrite Hp in Hg. cbn [good_rc] in Hg.
  destruct (deallocate_unused mem ts (with_fifo f fl (mkRqueue (q_head q ++ [k_next k]) (u64 (q_length q + 1))) k0)
    id f (set_fl_sdu_ready (Some (mkRqueue (q_head q ++ [k_next k]) (u64 (q_length q + 1)))) fl)
    (mkRqueue (q_head q ++ [k_next k]) (u64 (q_length q + 1)))) as (k2 & Hd & _ & Hnone).
  - apply Hg. intros f' fl' q' Hf' Hfl' Hq'. destruct Hr. simplify_eq. lia.
  - done.
  - apply lookup_insert_eq.
  - done.
  - done.
  - eexists (k_next k), _, k2. split_and!; [kstep Hn; exact Hp | done | exact Hd |].
    unfold wake_up, bind, get_flow. by rewrite Hnone.
Qed.

Lemma wake_up_races_witness :
  exists du k1 k2, (do du <- du_create true [9]; kfa_du_post full_mem 1 du) (sample_kfa []).1 = Ret (0, Some 1%positive) k1 /\
    k_du k1 !! du = Some [9] /\
    kfa_flow_deallocate full_mem 1 k1 = Ret 0 k2 /\ wake_up 1 k2 = Fault UseAfterFree k2.
Proof.
  refine (wake_up_races full_mem _ _ 1 [[10; 20; 30]] [9] 1
    (mkFlow 0 PORT_STATE_ALLOCATED (Some 7) (Some (mkRqueue [2%positive] 1)) true 0 0 0 false) (sample_kinv [])
    eq_refl _ _ _ _ eq_refl); [vm_compute; reflexivity | | vm_compute; reflexivity | vm_compute; reflexivity].
  split; [apply Forall_cons_2; [reflexivity | apply Forall_nil_2] | vm_compute; reflexivity].
Defined.
