(* ===== verification/RinaRelay.v ===== *)
(** The stream from a RINA flow to a TCP socket.  What the RINA stack promises about a
    port is an interface, [RinaPort]: the data units of a port are a queue, which the
    IPC processes add to at any time and reads take from.  Against it, the work that
    forwards from the flow delivers the posted bytes in order. *)

From Stdlib Require Import ZArith Lia.
From stdpp Require Import base list gmap.
From S2P Require Import Prelude Ints Types Setters Kernel Hash TcpUtils Rtxq Connection Tcp.
From S2P Require Import Netlink Minip Rina Frame Relay.
Open Scope Z_scope.

(** The data unit an event takes from the port [id]. *)
Definition taken_unit (id : Z) (e : event) : list (list Z) :=
  match e with
  | Ev c r =>
      match c in kE R return R -> list (list Z) with
      | KfaFlowDuRead pid _ => fun r =>
          if decide (pid = id) then
            match snd r with Some b => if 0 <? fst r then [b] else [] | None => [] end
          else []
      | _ => fun _ => []
      end r
  end.

Definition units_read (id : Z) (evs : list event) : list (list Z) :=
  concat (taken_unit id <$> evs).

(** Calls that respect the port: it is read with room for a whole data unit, and the
    state of a flow is left to the flow allocator. *)
Definition respects {R} (c : kE R) : Prop :=
  match c with
  | KfaFlowDuRead _ len => len = MAX_SDU_SIZE
  | SetFlowState _ _ => False
  | _ => True
  end.

(** ** The interface *)

Class RinaPort (P : Platform) (id : Z) : Type := mkRinaPort {
  rp_ok : E -> Prop;
  rp_posted : E -> list (list Z);        (* all that was posted so far *)
  rp_queue : E -> list (list Z);         (* what waits to be read *)
  rp_step : forall R (c : kE R) e, rp_ok e -> respects c ->
    let '(r, e') := kcall c e in
    rp_ok e' /\ exists more, rp_posted e' = rp_posted e ++ more /\
      taken_unit id (Ev c r) ++ rp_queue e' = rp_queue e ++ more;
  rp_len : forall len e, rp_ok e -> len = MAX_SDU_SIZE ->
    forall rc b, fst (kcall (KfaFlowDuRead id len) e) = (rc, Some b) -> 0 < rc ->
      rc = Z.of_nat (length b) /\ rc < 2 ^ 31
}.

Section RinaStream.
Context `{P : Platform} (id : Z) `{!RinaPort P id}.

Lemma units_read_app e1 e2 : units_read id (e1 ++ e2) = units_read id e1 ++ units_read id e2.
Proof. unfold units_read. by rewrite fmap_app, concat_app. Qed.

(** ** The queue over a run *)

Definition port_moves (s s' : st) : Prop :=
  rp_ok (st_env s) ->
  rp_ok (st_env s') /\ exists evs more, added s s' evs /\
    rp_posted (st_env s') = rp_posted (st_env s) ++ more /\
    units_read id evs ++ rp_queue (st_env s') = rp_queue (st_env s) ++ more.

#[local] Instance port_moves_preorder : PreOrder port_moves.
Proof.
  split.
  - intros s Hs. split; [done|]. exists [], []. unfold added. by rewrite !app_nil_r.
  - intros s1 s2 s3 H12 H23 H1. destruct (H12 H1) as (H2 & e1 & m1 & Ha1 & Hp1 & Hq1).
    destruct (H23 H2) as (H3 & e2 & m2 & Ha2 & Hp2 & Hq2). split; [done|].
    exists (e1 ++ e2), (m1 ++ m2). split_and!; [by eapply added_trans | by rewrite Hp2, Hp1, app_assoc |].
    by rewrite units_read_app, <- app_assoc, Hq2, app_assoc, Hq1, app_assoc.
Qed.

Lemma port_moves_same s s' : st_env s' = st_env s -> st_trace s' = st_trace s -> port_moves s s'.
Proof.
  intros He Ht H. rewrite He. split; [done|]. exists [], []. unfold added. by rewrite Ht, !app_nil_r.
Qed.

Lemma port_moves_call {R} (c : kE R) : respects c -> preserves port_moves (call c).
Proof.
  intros Hc s. unfold call. pose proof (fun H => rp_step R c (st_env s) H Hc) as Hst.
  destruct (kcall c (st_env s)) as [r e]. intros Hok. destruct (Hst Hok) as (Hok' & more & Hp & Hq).
  split; [done|]. exists [Ev c r], more. unfold units_read. cbn [fmap list_fmap concat].
  rewrite app_nil_r. done.
Qed.

Lemma port_moves_modify (f : st -> st) :
  (forall s, st_env (f s) = st_env s /\ st_trace (f s) = st_trace s) -> preserves port_moves (modify f).
Proof. intros H. apply pres_modify. intros s. by apply port_moves_same; apply H. Qed.

Lemma port_moves_upd_con c g : preserves port_moves (upd_con c g).
Proof. unfold upd_con. pres. by apply port_moves_modify. Qed.

Lemma port_moves_upd_srv g : preserves port_moves (upd_srv g).
Proof. unfold upd_srv. pres. by apply port_moves_modify. Qed.

Lemma port_moves_upd_sock a g : preserves port_moves (upd_sock a g).
Proof. unfold upd_sock. pres. by apply port_moves_modify. Qed.

Lemma port_moves_sock_release a : preserves port_moves (sock_release a).
Proof.
  intros s. unfold sock_release. destruct (st_socks s !! a); [|exact (reflexivity s)].
  eapply (preserves_bind port_moves); [apply port_moves_call; exact I|]. intros ?.
  by apply port_moves_modify.
Qed.

#[local] Hint Resolve port_moves_upd_con port_moves_upd_srv port_moves_upd_sock port_moves_sock_release : km.
#[local] Hint Extern 1 (preserves _ (call _)) => apply port_moves_call; first [exact I | reflexivity] : km.
#[local] Hint Extern 1 (preserves _ (modify _)) => by apply port_moves_modify : km.

Lemma con_put_moves c : preserves port_moves (pepdna_con_put c).
Proof. unfold pepdna_con_put, pepdna_con_kref_release, release_side, hlist_del. pres. Qed.

Lemma rtxq_destroy_moves q : preserves port_moves (rtxq_destroy q).
Proof.
  unfold rtxq_destroy, rtxqueue_destroy. pres;
    match goal with |- preserves _ (rtxqueue_flush ?l) => induction l as [|e l' IH] end;
    cbn; unfold rtxq_entry_destroy; pres; apply IH.
Qed.

Lemma con_close_moves c : preserves port_moves (pepdna_con_close c).
Proof.
  unfold pepdna_con_close, close_side, close_right_rina, cancel_work_sync, del_timer. pres;
    solve [apply con_put_moves | apply rtxq_destroy_moves].
Qed.

Lemma sock_write_moves fuel sock buf len : preserves port_moves (pepdna_sock_write fuel sock buf len).
Proof.
  unfold pepdna_sock_write, sock_write_body, kernel_sendmsg, pepdna_wait_to_send, user_con,
    pepdna_sock_writeable. pres.
Qed.

Lemma wait_for_sdu_moves fuel flow : preserves port_moves (pepdna_wait_for_sdu fuel flow).
Proof.
  unfold pepdna_wait_for_sdu, wait_for_sdu_body, queue_is_ready, rfifo_is_empty, flow_is_ok. pres.
Qed.

Lemma rina2i_moves fuel c : preserves port_moves (pepdna_con_rina2i_fwd fuel c).
Proof.
  unfold pepdna_con_rina2i_fwd, rconnected. pres; solve [apply wait_for_sdu_moves | apply sock_write_moves].
Qed.

Lemma r2i_work_moves fuel c : preserves port_moves (pepdna_con_r2i_work fuel c).
Proof.
  unfold pepdna_con_r2i_work, rconnected. pres;
    solve [apply rina2i_moves | apply con_close_moves | apply con_put_moves].
Qed.

(** ** One round *)

(** Events that neither move bytes of a socket nor take a data unit. *)
Definition quiet (e : event) : Prop :=
  match e with
  | Ev c _ =>
      match c with KernelSendmsg _ _ | KernelRecvmsg _ _ | KfaFlowDuRead _ _ => False | _ => True end
  end.

Lemma quiet_streams a evs : Forall quiet evs -> stream_out a evs = [] /\ units_read id evs = [].
Proof.
  unfold stream_out, units_read. induction 1 as [|e evs He _ [IH1 IH2]]; [done|].
  cbn. destruct e as [R c r]. by destruct c; cbn in *.
Qed.

Lemma quiet_split a e1 e2 :
  Forall quiet e2 -> stream_out a (e1 ++ e2) = stream_out a e1 /\ units_read id (e1 ++ e2) = units_read id e1.
Proof.
  intros Hq. destruct (quiet_streams a _ Hq) as [H1 H2].
  by rewrite stream_out_app, units_read_app, H1, H2, !app_nil_r.
Qed.

(** During [s -> s'] the bytes accepted for the socket [a] are a prefix of those of the
    data units that were read, and no other socket was written to ... *)
Definition unloads (s : st) (a : positive) (s' : st) : Prop :=
  exists evs, added s s' evs /\ (forall d, d <> a -> stream_out d evs = []) /\
    stream_out a evs `prefix_of` concat (units_read id evs).

(** ... and nothing that was read is still missing. *)
Definition unloads_all (s : st) (a : positive) (s' : st) : Prop :=
  exists evs, added s s' evs /\ (forall d, d <> a -> stream_out d evs = []) /\
    stream_out a evs = concat (units_read id evs).

Lemma unloads_all_unloads s a s' : unloads_all s a s' -> unloads s a s'.
Proof. intros (evs & ? & ? & H). exists evs. by rewrite H. Qed.

Lemma unloads_all_refl s a : unloads_all s a s.
Proof. exists []. unfold added. by rewrite app_nil_r. Qed.

Lemma unloads_trans s1 s2 s3 a : unloads_all s1 a s2 -> unloads s2 a s3 -> unloads s1 a s3.
Proof.
  intros (e1 & Ha1 & Ho1 & He1) (e2 & Ha2 & Ho2 & He2). exists (e1 ++ e2).
  split_and!; [by eapply added_trans | intros d Hd; by rewrite stream_out_app, Ho1, Ho2 |].
  rewrite stream_out_app, units_read_app, concat_app, He1. by apply prefix_app.
Qed.

Lemma unloads_all_trans s1 s2 s3 a : unloads_all s1 a s2 -> unloads_all s2 a s3 -> unloads_all s1 a s3.
Proof.
  intros (e1 & Ha1 & Ho1 & He1) (e2 & Ha2 & Ho2 & He2). exists (e1 ++ e2).
  split_and!; [by eapply added_trans | intros d Hd; by rewrite stream_out_app, Ho1, Ho2 |].
  by rewrite stream_out_app, units_read_app, concat_app, He1, He2.
Qed.

Lemma unloads_all_quiet s a s' : emits quiet s s' -> unloads_all s a s'.
Proof.
  intros (evs & Ha & Hq). exists evs. split; [done|].
  split; [intros d _; apply (quiet_streams d _ Hq)|].
  destruct (quiet_streams a _ Hq) as [-> ->]. done.
Qed.

Lemma unloads_quiet s1 s2 s3 a : unloads s1 a s2 -> emits quiet s2 s3 -> unloads s1 a s3.
Proof.
  intros (e1 & Ha1 & Ho1 & He1) (e2 & Ha2 & Hq). exists (e1 ++ e2).
  split_and!; [by eapply added_trans | intros d Hd | ].
  - rewrite (proj1 (quiet_split d e1 e2 Hq)). by apply Ho1.
  - destruct (quiet_split a e1 e2 Hq) as [-> ->]. done.
Qed.

Lemma wait_for_sdu_quiet fuel flow : preserves (emits quiet) (pepdna_wait_for_sdu fuel flow).
Proof.
  unfold pepdna_wait_for_sdu, wait_for_sdu_body, queue_is_ready, rfifo_is_empty, flow_is_ok. pres.
Qed.

Lemma con_put_quiet c : preserves (emits quiet) (pepdna_con_put c).
Proof. unfold pepdna_con_put, pepdna_con_kref_release, release_side, hlist_del. pres. Qed.

Lemma rtxq_destroy_quiet q : preserves (emits quiet) (rtxq_destroy q).
Proof.
  unfold rtxq_destroy, rtxqueue_destroy. pres;
    match goal with |- preserves _ (rtxqueue_flush ?l) => induction l as [|e l' IH] end;
    cbn; unfold rtxq_entry_destroy; pres; apply IH.
Qed.

Lemma con_close_quiet c : preserves (emits quiet) (pepdna_con_close c).
Proof.
  unfold pepdna_con_close, close_side, close_right_rina, cancel_work_sync, del_timer. pres;
    solve [apply con_put_quiet | apply rtxq_destroy_quiet].
Qed.

(** Writing to a socket reads no flow. *)
Definition not_read (e : event) : Prop :=
  match e with Ev c _ => match c with KfaFlowDuRead _ _ => False | _ => True end end.

Lemma sock_write_not_read fuel sock buf len : preserves (emits not_read) (pepdna_sock_write fuel sock buf len).
Proof.
  unfold pepdna_sock_write, sock_write_body, kernel_sendmsg, pepdna_wait_to_send, user_con,
    pepdna_sock_writeable. pres.
Qed.

Lemma not_read_units evs : Forall not_read evs -> units_read id evs = [].
Proof.
  unfold units_read. induction 1 as [|e evs He _ IH]; [done|]. cbn. destruct e as [R c r].
  by destruct c; cbn in *.
Qed.

Context `{!SendmsgLaw P}.

(** The write of a data unit that was just read. *)
Lemma write_unit s s1 fuel a b pid r s' rc :
  added s s1 [Ev (KfaFlowDuRead pid MAX_SDU_SIZE) (rc, Some b)] -> pid = id -> 0 < rc ->
  rc = Z.of_nat (length b) -> rc < 2 ^ 31 ->
  pepdna_sock_write fuel (Some a) b rc s1 = Ret r s' ->
  unloads s a s' /\ (0 <= r -> unloads_all s a s').
Proof.
  intros Ha -> Hpos Hlen Hmax Hrun. pose proof (pres_run _ _ _ _ _ (sock_write_not_read _ _ _ _) Hrun) as (e2' & Hadd2' & Hnr).
  rewrite Hlen in Hrun. apply sock_write_relays in Hrun as (e2 & Hadd2 & _ & Ho2 & Hcase); [|lia].
  unfold added in *. rewrite Hadd2 in Hadd2'. apply app_inv_head in Hadd2' as <-.
  set (e1 := [Ev (KfaFlowDuRead id MAX_SDU_SIZE) (rc, Some b)]).
  assert (forall d, stream_out d e1 = []) as Ho1 by done.
  assert (units_read id (e1 ++ e2) = [b]) as Hu.
  { rewrite units_read_app, (not_read_units _ Hnr), app_nil_r. unfold units_read. cbn.
    rewrite decide_True by done. destruct (0 <? rc) eqn:E; [done | lia]. }
  assert (added s s' (e1 ++ e2)) as Hadd by (unfold added; by rewrite Hadd2, Ha, app_assoc).
  assert (forall d, d <> a -> stream_out d (e1 ++ e2) = []) as Hd
    by (intros d Hd; by rewrite stream_out_app, Ho1, Ho2).
  split.
  - exists (e1 ++ e2). split_and!; [done..|]. rewrite Hu, stream_out_app, Ho1. cbn. rewrite app_nil_r.
    destruct Hcase as [[_ ->]|[_ (n & _ & ->)]]; [done | apply prefix_take].
  - intros Hr. exists (e1 ++ e2). split_and!; [done..|]. rewrite Hu, stream_out_app, Ho1. cbn. rewrite app_nil_r.
    destruct Hcase as [[_ ->]|[Hneg _]]; [done | lia].
Qed.

Lemma rina2i_round fuel c k a s r s' :
  st_cons s !! c = Some k -> con_lsock k = Some a -> con_port_id k = id -> rp_ok (st_env s) ->
  pepdna_con_rina2i_fwd fuel c s = Ret r s' ->
  unloads s a s' /\ (0 < r \/ r = - EAGAIN -> unloads_all s a s').
Proof.
  intros Hk Ha Hid Hok Hrun. unfold pepdna_con_rina2i_fwd in Hrun. run_inv Hrun.
  unfold get_con in Hrun0. rewrite Hk in Hrun0. injection Hrun0 as <- <-. cbn zeta in Hrun.
  run_inv Hrun. pose proof (pres_run _ _ _ _ _ (emits_call quiet InInterrupt (fun _ => I)) Hrun0) as Hq0.
  pose proof (pres_run _ _ _ _ _ (port_moves_call InInterrupt I) Hrun0) as Hm0. destruct r0; [done|].
  run_inv Hrun.
  assert (emits quiet s0 s1) as Hq1.
  { eapply pres_run; [|exact Hrun1]. unfold rconnected. pres. apply wait_for_sdu_quiet. }
  assert (port_moves s0 s1) as Hm1.
  { eapply pres_run; [|exact Hrun1]. unfold rconnected. pres. apply wait_for_sdu_moves. }
  assert (emits quiet s s1) as Hq by (by etrans).
  assert (rp_ok (st_env s1)) as Hok1 by (apply Hm1; apply Hm0; done).
  clear Hrun0 Hrun1 Hq0 Hq1 Hm0 Hm1. pose proof (unloads_all_quiet s a s1 Hq) as Hu1.
  destruct r0.
  { injection Hrun as <- <-. split; [by apply unloads_all_unloads | done]. }
  run_inv Hrun. apply call_inv in Hrun0 as (e & Hcall & ->). destruct r0 as [rc du].
  set (s2 := set_st_trace _ _) in Hrun.
  assert (added s1 s2 [Ev (KfaFlowDuRead (con_port_id k) MAX_SDU_SIZE) (rc, du)]) as Hadd by done.
  assert (rc <= 0 \/ du = None -> unloads_all s a s2) as Hnone.
  { intros Hn. eapply unloads_all_trans; [exact Hu1|]. eexists. split_and!; [exact Hadd | done |].
    unfold units_read. cbn. rewrite Hid, decide_True by done. destruct Hn as [Hn| ->]; [|done].
    destruct du; [|done]. destruct (0 <? rc) eqn:E; [lia | done]. }
  destruct (rc <=? 0) eqn:Erc.
  { injection Hrun as <- <-. specialize (Hnone ltac:(lia)). split; [by apply unloads_all_unloads | done]. }
  destruct du as [b|]; cycle 1.
  { injection Hrun as <- <-. specialize (Hnone ltac:(by right)). split; [by apply unloads_all_unloads | done]. }
  rewrite Ha in Hrun. run_inv Hrun.
  pose proof (rp_len MAX_SDU_SIZE (st_env s1) Hok1 eq_refl rc b) as Hlen.
  rewrite <- Hid, Hcall in Hlen. destruct (Hlen eq_refl ltac:(lia)) as [Hl Hmax].
  destruct (write_unit s1 s2 fuel a b (con_port_id k) r0 s3 rc Hadd Hid ltac:(lia) Hl Hmax Hrun0) as [Hw Hwa].
  run_inv Hrun. pose proof (pres_run _ _ _ _ _ (emits_call quiet DuDestroy (fun _ => I)) Hrun1) as Hq3.
  injection Hrun as <- <-. split.
  - eapply unloads_quiet; [|exact Hq3]. by eapply unloads_trans.
  - intros Hr. eapply unloads_all_trans; [|by apply unloads_all_quiet].
    eapply unloads_all_trans; [exact Hu1|]. apply Hwa. destruct (r0 <? 0) eqn:E; [|lia].
    unfold EAGAIN in Hr. lia.
Qed.

(** ** The work *)

Lemma rina2i_keeps {A} (f : st -> A) `{!EnvFree f} fuel c : preserves (keeps f) (pepdna_con_rina2i_fwd fuel c).
Proof.
  unfold pepdna_con_rina2i_fwd, rconnected, pepdna_wait_for_sdu, wait_for_sdu_body, queue_is_ready,
    rfifo_is_empty, flow_is_ok. pres.
Qed.

#[local] Instance zero_rflag_env c : EnvFree (zero_field con_rflag c) := fun _ _ _ => eq_refl.

(** Closing does not set the right flag again. *)
Lemma con_close_rflag_stays c : preserves (stable (zero_field con_rflag c)) (pepdna_con_close (Some c)).
Proof.
  unfold pepdna_con_close, close_side, close_right_rina, cancel_work_sync, del_timer, rtxq_destroy. pres.
  all: try (apply zero_field_put; done).
  all: try (apply zero_field_upd; done).
  all: unfold rtxqueue_destroy; pres.
  all: try (apply pres_modify; intros ? HI; exact HI).
  all: match goal with |- preserves _ (rtxqueue_flush ?l) => induction l as [|e l' IH] end;
       cbn; unfold rtxq_entry_destroy; pres; apply IH.
Qed.

(** The connection has the left socket [a] and the port [id]. *)
Definition rina_con (c a : positive) (s : st) : Prop :=
  forall k, st_cons s !! c = Some k -> con_lsock k = Some a /\ con_port_id k = id.

Lemma r2i_work_unloads fuel c a s s' :
  rina_con c a s -> rp_ok (st_env s) -> pepdna_con_r2i_work fuel c s = Ret tt s' -> unloads s a s'.
Proof.
  intros Hc Hok Hrun. unfold pepdna_con_r2i_work in Hrun. run_inv Hrun.
  eapply unloads_quiet; [|eapply pres_run; [apply con_put_quiet|exact Hrun]].
  set (Inv := fun (_ : unit) s1 => unloads s a s1 /\ rp_ok (st_env s1) /\
    ((unloads_all s a s1 /\ rina_con c a s1) \/ zero_field con_rflag c s1)).
  eapply (hoare_run (Inv tt) _ (fun _ s1 => unloads s a s1)); [| |exact Hrun0].
  - apply (hoare_iter Inv). intros [] s1 (Hu & Hok1 & Hcase). unfold rconnected, bind, get_con.
    destruct (st_cons s1 !! c) as [k|] eqn:Ek; [|exact I]. cbn.
    destruct (truth (con_rflag k)) eqn:Et; cbn; [|done].
    destruct Hcase as [[Hall Hrc]|Hz]; [|by rewrite (Hz k Ek) in Et].
    destruct (Hrc k Ek) as [Ha Hid].
    destruct (pepdna_con_rina2i_fwd fuel c s1) as [rc s2| |] eqn:Hf; [|exact I|exact I].
    pose proof (pres_run _ _ _ _ _ (rina2i_keeps st_cons fuel c) Hf) as Hcons.
    pose proof (proj1 (pres_run _ _ _ _ _ (rina2i_moves fuel c) Hf Hok1)) as Hok2.
    destruct (rina2i_round _ _ _ _ _ _ _ Ek Ha Hid Hok1 Hf) as [Hr Hra].
    pose proof (unloads_trans _ _ _ _ Hall Hr) as Hu2.
    assert (rina_con c a s2) as Hrc2 by (intros k'; rewrite Hcons; apply Hrc).
    unfold when. destruct (rc <=? 0) eqn:Erc; cbn.
    + destruct (rc =? - EAGAIN) eqn:Eag.
      * pose proof (emits_call quiet CondResched (fun _ => I) s2) as Hq.
        pose proof (port_moves_call CondResched I s2) as Hm.
        pose proof (keeps_call st_cons CondResched s2) as Hkc.
        destruct (call CondResched s2) as [u s3| |]; [|exact I|exact I]. cbn.
        split_and!; [by eapply unloads_quiet | by apply Hm |]. left. split.
        -- eapply unloads_all_trans; [|by apply unloads_all_quiet]. eapply unloads_all_trans; [exact Hall|].
           apply Hra. right. lia.
        -- intros k'. rewrite Hkc. apply Hrc2.
      * destruct (st_cons s2 !! c) as [k2|] eqn:Ek2; [|by unfold upd_con, bind, get_con; rewrite Ek2].
        rewrite (upd_con_run _ _ _ _ Ek2). set (s3 := set_st_cons _ s2).
        assert (zero_field con_rflag c s3) as Hz3.
        { intros k'. cbn. rewrite lookup_insert_eq. by intros [= <-]. }
        pose proof (con_close_quiet (Some c) s3) as Hq. pose proof (con_close_moves (Some c) s3) as Hm.
        pose proof (con_close_rflag_stays c s3) as Hz.
        destruct (pepdna_con_close (Some c) s3) as [u s4| |]; [|exact I|exact I]. cbn.
        split_and!; [by eapply (unloads_quiet _ s2) | by apply Hm | right; by apply Hz].
    + split_and!; [done..|]. left. split; [|done]. eapply unloads_all_trans; [exact Hall|]. apply Hra. lia.
  - split_and!; [apply unloads_all_unloads, unloads_all_refl | done |]. left. split; [apply unloads_all_refl | done].
Qed.

(** The work that forwards from a RINA flow to a TCP socket, on a RINA stack whose
    ports are queues ([RinaPort]): over a whole run, whatever the IPC processes post
    meanwhile, the bytes the left socket accepts are a prefix of the bytes of the data
    units that waited at the port and of those posted during the run, in order, and no
    other socket is written to. *)
Lemma r2i_work_in_order fuel c a s s' :
  rina_con c a s -> rp_ok (st_env s) -> pepdna_con_r2i_work fuel c s = Ret tt s' ->
  exists evs more, added s s' evs /\ (forall d, d <> a -> stream_out d evs = []) /\
    rp_posted (st_env s') = rp_posted (st_env s) ++ more /\
    stream_out a evs `prefix_of` concat (rp_queue (st_env s) ++ more).
Proof.
  intros Hc Hok Hrun. destruct (r2i_work_unloads _ _ _ _ _ Hc Hok Hrun) as (evs & Ha & Ho & Hp).
  destruct (pres_run _ _ _ _ _ (r2i_work_moves fuel c) Hrun Hok) as (_ & evs' & more & Ha' & Hpost & Hq).
  unfold added in Ha, Ha'. rewrite Ha in Ha'. apply app_inv_head in Ha' as <-.
  exists evs, more. split_and!; [done..|]. rewrite <- Hq, concat_app.
  etrans; [exact Hp|]. by apply prefix_app_r.
Qed.

End RinaStream.
