(* ===== verification/RinaKfa.v ===== *)
(** The flow allocator keeps the promise the RINA gateway relies on: a platform on which
    the calls of the gateway are answered by the model of kfa.c, with IPC processes that
    post data units between any two calls, is a [RinaPort]. *)

From Stdlib Require Import ZArith Lia.
From stdpp Require Import base list gmap.
From S2P Require Import Prelude Ints Types Setters Kernel ByteMem Rds Kfa KfaInv KfaPidm KfaOps KfaIo.
From S2P Require Import KfaSys KfaFifo KfaClaims Hash TcpUtils Connection Tcp Rina Frame Relay RelayClaims RinaRelay.
From S2P Require Import Sample SampleRun.
Open Scope Z_scope.

(** The state of the platform: that of the rest of it, the flow allocator, the data unit
    the gateway holds, and what the IPC processes will post: one list before each call. *)
Record kfa_env (B : Type) : Type := mkKE {
  ke_base : B;
  ke_kfa : kfa;
  ke_held : option positive;
  ke_incoming : list (list (list Z));
  ke_posted : list (list Z)
}.
Arguments mkKE {B}.
Arguments ke_base {B}.
Arguments ke_kfa {B}.
Arguments ke_held {B}.
Arguments ke_incoming {B}.
Arguments ke_posted {B}.

Section KfaPlatform.
Context (Q : Platform) (mem : ksite -> bool) (id : Z).

Definition ke_set_kfa (k : kfa) (e : kfa_env (@E Q)) : kfa_env (@E Q) :=
  mkKE (ke_base e) k (ke_held e) (ke_incoming e) (ke_posted e).

(** An IPC process posts a data unit to the port. *)
Definition post_unit (e : kfa_env (@E Q)) (b : list Z) : kfa_env (@E Q) :=
  match (do du <- du_create true b; kfa_du_post mem id du) (ke_kfa e) with
  | Ret _ k => mkKE (ke_base e) k (ke_held e) (ke_incoming e) (ke_posted e ++ [b])
  | _ => e
  end.

Definition arrive (e : kfa_env (@E Q)) : kfa_env (@E Q) :=
  match ke_incoming e with
  | [] => e
  | bs :: rest =>
      fold_left post_unit bs (mkKE (ke_base e) (ke_kfa e) (ke_held e) rest (ke_posted e))
  end.

Definition ke_flow (f : positive) (e : kfa_env (@E Q)) : option ipcp_flow := k_flow (ke_kfa e) !! f.

(** The calls that concern the flow allocator; the rest of the platform answers the
    others. *)
Definition kfa_answer (R : Type) (c : kE R) (e : kfa_env (@E Q)) : R * kfa_env (@E Q) :=
  match c in kE R return R * kfa_env (@E Q) with
  | KfaFlowDuRead pid len =>
      match kfa_flow_du_read pid len false (ke_kfa e) with
      | Ret (Done rc du) k =>
          ((rc, match du with Some a => k_du k !! a | None => None end),
           mkKE (ke_base e) k du (ke_incoming e) (ke_posted e))
      | _ => ((- EIO, None), e)
      end
  | DuDestroy =>
      (tt, match du_destroy (ke_held e) (ke_kfa e) with
           | Ret _ k => mkKE (ke_base e) k None (ke_incoming e) (ke_posted e)
           | _ => e
           end)
  | KfaFlowFindByPid pid => (kfa_pmap_find (kfa_flows (ke_kfa e)) pid, e)
  | FlowState f => (match ke_flow f e with Some fl => fl_state fl | None => PORT_STATE_NULL end, e)
  | FlowHasWqs f => (match ke_flow f e with Some fl => fl_wqs fl | None => false end, e)
  | RfifoIsEmpty f => (match ke_flow f e with Some fl => fifo_is_empty (fl_sdu_ready fl) | None => false end, e)
  | SetFlowState f v =>
      (tt, match upd_flow f (set_fl_state v) (ke_kfa e) with Ret _ k => ke_set_kfa k e | _ => e end)
  | SetFlowWqs f =>
      (tt, match upd_flow f (set_fl_wqs true) (ke_kfa e) with Ret _ k => ke_set_kfa k e | _ => e end)
  | c' =>
      let '(r, b) := kcall c' (ke_base e) in
      (r, mkKE b (ke_kfa e) (ke_held e) (ke_incoming e) (ke_posted e))
  end.

Definition kfa_platform : Platform := {|
  E := kfa_env (@E Q);
  kcall := fun R c e => kfa_answer R c (arrive e);
  hash_min := @hash_min Q;
  cfg := @cfg Q
|}.

(** ** The laws *)

(** A data unit is not empty and fits the buffer the gateway reads with. *)
Definition unit_ok (b : list Z) : Prop := 0 < zlen b <= MAX_SDU_SIZE.

(** The allocator is in order and the port open, with room for [n] data units besides
    those that are still to come. *)
Record ke_ok (n : Z) (e : kfa_env (@E Q)) : Prop := mkKeOk {
  ko_inv : kinv false None [] (ke_kfa e);
  ko_open : exists l, port_queue (ke_kfa e) id = Some l /\ zlen l + n + zlen (concat (ke_incoming e)) < 2 ^ 64;
  ko_units : forall a b, k_du (ke_kfa e) !! a = Some b -> unit_ok b;
  ko_in : Forall (Forall unit_ok) (ke_incoming e);
  ko_held : forall a, ke_held e = Some a ->
    is_Some (k_du (ke_kfa e) !! a) /\ (a ∉ dus_of (k_flow (ke_kfa e)))
}.

Definition ke_queue (e : kfa_env (@E Q)) : list (list Z) := default [] (port_queue (ke_kfa e) id).

Lemma queue_units n e l : ke_ok n e -> port_queue (ke_kfa e) id = Some l -> Forall unit_ok l.
Proof.
  intros He Hq. apply port_queue_Some in Hq as (f & fl & q & _ & _ & _ & _ & Hu).
  apply mapM_Some in Hu. induction Hu as [|a b t l Ha _ IH]; constructor; [by eapply ko_units | exact IH].
Qed.

Lemma unit_small b : unit_ok b -> zlen b < 2 ^ 31.
Proof. unfold unit_ok, MAX_SDU_SIZE. lia. Qed.

Hypothesis Hentry : mem SFifoEntry = true.

Lemma post_unit_ok n e b :
  ke_ok n e -> 0 < n -> unit_ok b ->
  ke_ok (n - 1) (post_unit e b) /\ ke_posted (post_unit e b) = ke_posted e ++ [b] /\
  ke_queue (post_unit e b) = ke_queue e ++ [b].
Proof.
  intros He Hn Hb. destruct (ko_open _ _ He) as (l & Hl & Hroom).
  pose proof (zlen_ge0 (concat (ke_incoming e))).
  assert (queue_ok 1 l) as Hok.
  { split; [|lia]. eapply Forall_impl; [by eapply queue_units|]. intros x Hx. by apply unit_small. }
  destruct (post_exact mem [] (ke_kfa e) id l b (ko_inv _ _ He) Hl Hentry Hok)
    as (f & k' & Hp & Hk' & Hq' & _ & Hdu & Hperm).
  unfold post_unit, ke_queue. rewrite Hp. cbn. rewrite Hq', Hl. split_and!; [|done|done].
  destruct (ki_heap _ _ _ _ (ko_inv _ _ He) (k_next (ke_kfa e)) (Pos.le_refl _)) as [_ Hfresh].
  constructor; cbn; try done.
  - exists (l ++ [b]). split; [done|]. rewrite zlen_app. change (zlen [b]) with 1. lia.
  - intros a c. rewrite Hdu. destruct (decide (a = k_next (ke_kfa e))) as [-> |Hne].
    + rewrite lookup_insert_eq. by intros [= <-].
    + rewrite lookup_insert_ne by done. by eapply ko_units.
  - by eapply ko_in.
  - intros a Ha. destruct (ko_held _ _ He a Ha) as [[c Hc] Hni].
    assert (a <> k_next (ke_kfa e)) as Hne by (intros ->; congruence). rewrite Hdu, Hperm. split.
    + rewrite lookup_insert_ne by done. by exists c.
    + by rewrite not_elem_of_cons.
Qed.

Lemma posts_ok bs n e :
  ke_ok (n + zlen bs) e -> 0 <= n -> Forall unit_ok bs ->
  ke_ok n (fold_left post_unit bs e) /\ ke_posted (fold_left post_unit bs e) = ke_posted e ++ bs /\
  ke_queue (fold_left post_unit bs e) = ke_queue e ++ bs.
Proof.
  revert e. induction bs as [|b bs IH]; intros e He Hn Hbs; cbn.
  { rewrite Z.add_0_r in He. by rewrite !app_nil_r. }
  apply Forall_cons in Hbs as [Hb Hbs]. rewrite zlen_cons in He. pose proof (zlen_ge0 bs).
  destruct (post_unit_ok _ e b He ltac:(lia) Hb) as (He1 & Hp1 & Hq1).
  destruct (IH (post_unit e b)) as (He2 & Hp2 & Hq2); [|done|done|].
  { by replace (n + zlen bs) with (n + (1 + zlen bs) - 1) by lia. }
  rewrite Hp2, Hq2, Hp1, Hq1, <- !app_assoc. done.
Qed.

Lemma arrive_ok e :
  ke_ok 0 e -> ke_ok 0 (arrive e) /\ exists more, ke_posted (arrive e) = ke_posted e ++ more /\
    ke_queue (arrive e) = ke_queue e ++ more.
Proof.
  intros He. unfold arrive. destruct (ke_incoming e) as [|bs rest] eqn:Ei.
  { split; [done|]. exists []. by rewrite !app_nil_r. }
  destruct He as [H1 (l & Hl & Hroom) H3 H4 H5]. rewrite Ei in H4, Hroom. apply Forall_cons in H4 as [Hbs Hrest].
  cbn [concat] in Hroom. rewrite zlen_app in Hroom.
  destruct (posts_ok bs 0 (mkKE (ke_base e) (ke_kfa e) (ke_held e) rest (ke_posted e))) as (He1 & Hp & Hq).
  - constructor; try done. exists l. split; [done|]. cbn. lia.
  - done.
  - done.
  - split; [done|]. by exists bs.
Qed.

(** Reading: the head of the queue goes to the gateway. *)
Lemma answer_read pid len e :
  ke_ok 0 e -> len = MAX_SDU_SIZE ->
  exists rc du e', kfa_answer _ (KfaFlowDuRead pid len) e = ((rc, du), e') /\
    ke_ok 0 e' /\ ke_posted e' = ke_posted e /\
    taken_unit id (Ev (KfaFlowDuRead pid len) (rc, du)) ++ ke_queue e' = ke_queue e /\
    (forall b, du = Some b -> 0 < rc -> rc = zlen b /\ rc < 2 ^ 31).
Proof.
  intros He ->. destruct (ko_open _ _ He) as (l0 & Hl0 & Hroom). unfold kfa_answer.
  destruct (read_any [] (ke_kfa e) pid MAX_SDU_SIZE (ko_inv _ _ He))
    as [(rc & Hrun & Hrc & Hq)|(a & b & l & k' & Hq & Ha & Hrun & Hk' & Hdu & Htook)]; rewrite Hrun.
  - eexists _, _, _. split; [reflexivity|]. split_and!; [|done| |done].
    + destruct He. constructor; try done.
    + unfold taken_unit. cbn. by destruct (decide (pid = id)).
  - pose proof (ko_units _ _ He _ _ Ha) as Hb. pose proof (unit_small _ Hb). unfold unit_ok in Hb.
    destruct (Htook ltac:(lia)) as (Hq' & Hother & Hperm). rewrite s32_small by lia. rewrite Hdu, Ha.
    eexists _, _, _. split; [reflexivity|]. split_and!; [|done| |by intros ? [= <-]].
    + pose proof (ki_dus _ _ _ _ (ko_inv _ _ He)) as Hnd. cbn in Hnd. rewrite Hperm in Hnd.
      apply NoDup_cons in Hnd as [Hni _]. constructor; cbn; try done.
      * destruct (decide (id = pid)) as [<- |Hne].
        -- rewrite Hl0 in Hq. injection Hq as ->. exists l. split; [done|]. rewrite zlen_cons in Hroom. lia.
        -- exists l0. by rewrite Hother.
      * rewrite Hdu. apply He.
      * apply He.
      * rewrite Hdu. intros ? [= <-]. split; [by exists b | done].
    + unfold taken_unit, ke_queue. cbn. destruct (decide (pid = id)) as [-> |Hne].
      * destruct (0 <? zlen b) eqn:E; [|lia]. by rewrite Hq', Hq.
      * by rewrite Hother by done.
Qed.

Lemma answer_destroy e :
  ke_ok 0 e ->
  ke_ok 0 (kfa_answer _ DuDestroy e).2 /\ ke_posted (kfa_answer _ DuDestroy e).2 = ke_posted e /\
  ke_queue (kfa_answer _ DuDestroy e).2 = ke_queue e.
Proof.
  intros He. unfold kfa_answer. cbn [snd]. destruct (ke_held e) as [a|] eqn:Eh; [|by cbn].
  destruct (ko_held _ _ He a Eh) as [[b Hb] Hni]. rewrite (du_destroy_run _ _ _ Hb).
  assert (forall j, port_queue (set_k_du (delete a (k_du (ke_kfa e))) (ke_kfa e)) j = port_queue (ke_kfa e) j) as Hq.
  { intros j. apply port_queue_frame; try done. intros c Hc. cbn. rewrite lookup_delete_ne; [done|]. by intros ->. }
  split_and!; [|done|unfold ke_queue; cbn; by rewrite Hq].
  constructor; cbn; try done.
  - apply kinv_del_du; [apply He | done].
  - rewrite Hq. apply He.
  - intros c x. rewrite lookup_delete_Some. intros [_ Hx]. by eapply ko_units.
  - apply He.
Qed.

Lemma answer_wqs f e :
  ke_ok 0 e ->
  ke_ok 0 (kfa_answer _ (SetFlowWqs f) e).2 /\ ke_posted (kfa_answer _ (SetFlowWqs f) e).2 = ke_posted e /\
  ke_queue (kfa_answer _ (SetFlowWqs f) e).2 = ke_queue e.
Proof.
  intros He. unfold kfa_answer. cbn [snd]. destruct (k_flow (ke_kfa e) !! f) as [fl|] eqn:Ef; cycle 1.
  { unfold upd_flow, bind, get_flow. by rewrite Ef. }
  rewrite (upd_flow_run _ _ _ _ Ef). set (k' := set_k_flow _ _).
  assert (forall j, port_queue k' j = port_queue (ke_kfa e) j) as Hq.
  { intros j. unfold port_queue. cbn. destruct (kfa_pmap_find _ j) as [g|]; [|done].
    destruct (decide (g = f)) as [-> |Hne]; [by rewrite lookup_insert_eq, Ef | by rewrite lookup_insert_ne]. }
  assert (dus_of (k_flow k') ≡ₚ dus_of (k_flow (ke_kfa e))) as Hd
    by (cbn; by rewrite dus_of_insert, (dus_of_lookup _ _ _ Ef)).
  split_and!; [|done|unfold ke_queue; cbn; by rewrite Hq]. constructor; cbn; try done.
  - eapply kinv_set; [apply He | exact Ef | | done].
    destruct (ki_flow _ _ _ _ (ko_inv _ _ He) _ _ Ef). by constructor.
  - rewrite Hq. apply He.
  - apply He.
  - apply He.
  - intros a Ha. change (is_Some (k_du (ke_kfa e) !! a) /\ (a ∉ dus_of (k_flow k'))). rewrite Hd.
    by eapply ko_held.
Qed.

Lemma answer_ok R (c : kE R) e :
  ke_ok 0 e -> respects c ->
  ke_ok 0 (kfa_answer _ c e).2 /\ ke_posted (kfa_answer _ c e).2 = ke_posted e /\
  taken_unit id (Ev c (kfa_answer _ c e).1) ++ ke_queue (kfa_answer _ c e).2 = ke_queue e.
Proof.
  intros He Hc. destruct c; cbn [respects] in Hc; try done;
    try (by apply answer_destroy); try (by apply answer_wqs);
    try (unfold kfa_answer; destruct (kcall _ _); cbn; (split; [|done]); by destruct He).
  destruct (answer_read pid len e He Hc) as (rc & du & e' & Hans & He' & Hp & Hq & _). by rewrite Hans.
Qed.

#[global] Program Instance kfa_rina_port : RinaPort kfa_platform id := {|
  rp_ok := (ke_ok 0 : @E kfa_platform -> Prop);
  rp_posted := ke_posted;
  rp_queue := ke_queue
|}.
Next Obligation.
  intros R c e He Hc. cbn. destruct (arrive_ok e He) as (He1 & more & Hp1 & Hq1).
  destruct (answer_ok R c (arrive e) He1 Hc) as (He2 & Hp2 & Hq2).
  destruct (kfa_answer R c (arrive e)) as [r e']. cbn in *. split; [done|]. exists more.
  by rewrite Hp2, Hp1, Hq2, Hq1.
Qed.
Next Obligation.
  intros len e He Hlen rc b Hans Hrc.
  change ((kfa_answer _ (KfaFlowDuRead id len) (arrive e)).1 = (rc, Some b)) in Hans. destruct (arrive_ok e He) as (He1 & _).
  destruct (answer_read id len (arrive e) He1 Hlen) as (rc' & du & e' & Ha & _ & _ & _ & Hl).
  rewrite Ha in Hans. injection Hans as -> ->. by apply Hl.
Qed.

End KfaPlatform.

#[global] Instance kfa_sendmsg Q mem id `{!SendmsgLaw Q} : SendmsgLaw (kfa_platform Q mem id).
Proof.
  intros a b e. cbn. pose proof (sendmsg_le a b (ke_base (arrive Q mem id e))) as H.
  destruct (kcall (KernelSendmsg a b) (ke_base (arrive Q mem id e))). exact H.
Qed.

(** ** The gateway on the flow allocator *)

(** C3: The RINA gateway and the flow allocator together, when all data units, those that
    wait at the port and those that are posted, have 1 to 1448 bytes ([unit_ok]: the
    size the gateway asks for), the port is open, the allocator satisfies its invariant,
    and the entries of the queues can be allocated: over a whole run of the work that forwards from a flow to the left TCP
    socket, with IPC processes posting data units between any two calls, the bytes the
    socket accepts are a prefix of the bytes that waited at the port and of those posted
    during the run, in the order in which they were posted, and no other socket is
    written to.  (What a longer unit does is [KfaClaims.oversize_read_dangles].) *)
Theorem flow_reaches_socket Q mem id fuel c a (s s' : @st (kfa_platform Q mem id)) :
  SendmsgLaw Q -> mem SFifoEntry = true -> rina_con id c a s -> ke_ok Q id 0 (st_env s) ->
  pepdna_con_r2i_work fuel c s = Ret tt s' ->
  exists evs more, added s s' evs /\ (forall d, d <> a -> stream_out d evs = []) /\
    ke_posted (st_env s') = ke_posted (st_env s) ++ more /\
    stream_out a evs `prefix_of` concat (ke_queue Q id (st_env s) ++ more).
Proof.
  intros HQ Hm Hc Hok Hrun.
  exact (@r2i_work_in_order _ id (kfa_rina_port Q mem id Hm) _ fuel c a s s' Hc Hok Hrun).
Qed.

(** A platform on which a signal ends every wait. *)
Definition interrupted (f : config) : Platform := {|
  E := list (list Z);
  kcall := fun R c e =>
    match c in kE R return R * list (list Z) with
    | ScheduleTimeout _ => (1, e)
    | SignalPending => (true, e)
    | c' => sample_call _ c' e
    end;
  hash_min := sample_hash_min;
  cfg := f
|}.

Definition rina_gw : Platform := kfa_platform (interrupted (rina_build TCP2RINA)) full_mem 1.

(** A connection with the left socket 101 and the port 1, at which a data unit of three
    bytes waits; two more are posted while it is forwarded. *)
Definition rina_side (k : con) : con :=
  set_con_port_id 1 (set_con_flow (Some 1%positive) (set_con_kref 3 k)).

Definition rina_start : @st rina_gw :=
  let s := tcp_pair [] in
  @mkSt rina_gw (mkKE [] (sample_kfa []).1 None [[]; [[40; 50]]; []; []; [[60]]] [])
    [] (st_srv (loaded (rina_build TCP2RINA) [])) (rina_side <$> st_cons s) (st_socks s)
    ∅ ∅ (st_next s) [] None 0 0 false [] [].

#[local] Instance interrupted_sendmsg f : SendmsgLaw (interrupted f).
Proof. intros a b e. cbn. lia. Qed.

Lemma rina_start_ok : ke_ok (interrupted (rina_build TCP2RINA)) 1 0 (st_env rina_start).
Proof.
  assert (k_du (sample_kfa []).1 = {[2%positive := [10; 20; 30]]}) as Hdu by (vm_compute; reflexivity).
  constructor.
  - pose proof (sample_kinv []) as Hk. replace (sample_kfa []).2.1 with (@nil thread) in Hk by (vm_compute; reflexivity).
    exact Hk.
  - exists [[10; 20; 30]]. split; vm_compute; reflexivity.
  - intros a b Hb. change (k_du (sample_kfa []).1 !! a = Some b) in Hb. rewrite Hdu in Hb.
    apply lookup_singleton_Some in Hb as [_ <-]. by split.
  - change (Forall (Forall unit_ok) [[]; [[40; 50]]; []; []; [[60]]]).
    repeat first [apply Forall_nil_2 | apply Forall_cons_2]; by split.
  - done.
Qed.

(** What the left socket got in a run that returns. *)
Definition delivered (o : outcome (@st rina_gw) unit) : option (list Z) :=
  match o with Ret _ s => Some (stream_out 101 (st_trace s)) | _ => None end.

Lemma delivered_run o l :
  delivered o = Some l -> exists s', o = Ret tt s' /\ stream_out 101 (st_trace s') = l.
Proof. destruct o as [[] s'| |]; [|done|done]. intros [= <-]. by exists s'. Qed.

Lemma rina_run :
  exists s', @pepdna_con_r2i_work rina_gw 30 6 rina_start = Ret tt s' /\
    stream_out 101 (st_trace s') = [10; 20; 30; 40; 50; 60].
Proof.
  apply (delivered_run (@pepdna_con_r2i_work rina_gw 30 6 rina_start) [10; 20; 30; 40; 50; 60]).
  vm_compute. reflexivity.
Qed.

(** The six bytes reach the socket. *)
Lemma flow_reaches_socket_witness :
  exists s', @pepdna_con_r2i_work rina_gw 30 6 rina_start = Ret tt s' /\
    stream_out 101 (st_trace s') = [10; 20; 30; 40; 50; 60] /\
    exists evs more, added rina_start s' evs /\ (forall d, d <> 101%positive -> stream_out d evs = []) /\
      ke_posted (st_env s') = ke_posted (st_env rina_start) ++ more /\
      stream_out 101 evs `prefix_of` concat (ke_queue (interrupted (rina_build TCP2RINA)) 1 (st_env rina_start) ++ more).
Proof.
  destruct rina_run as (s' & Hrun & Hs). exists s'. split; [exact Hrun|]. split; [exact Hs|].
  apply (flow_reaches_socket (interrupted (rina_build TCP2RINA)) full_mem 1 30 6 101 rina_start s'
    (interrupted_sendmsg _) eq_refl); [|exact rina_start_ok|exact Hrun].
  intros k Hk. vm_compute in Hk. injection Hk as <-. split; reflexivity.
Defined.
